(** * Reticulum Transport core: a shallow embedding of RNS/Transport.py

    The development follows the source file function by function.
    Python [bytes] values are lists of integers in the range of a byte,
    dictionaries are finite maps, sets are finite sets, and exceptions
    are explicit results.  Every definition names the source function
    (and lines) it embeds.  Definitions come first; the facts proved
    about them follow in the second half of the file. *)

From Stdlib Require Import ZArith List Lia Bool.
From stdpp Require Import base option list gmap.

Local Open Scope Z_scope.

(** ** Byte strings *)

Module Bytes.

Abbreviation bytes := (list Z).

Definition is_byte (b : Z) : Prop := 0 <= b < 256.
Abbreviation is_bytes := (Forall is_byte).

(** [bytes([x])]: raises [ValueError] unless [x] is in [range(256)]. *)
Definition to_byte (x : Z) : option Z :=
  if (0 <=? x) && (x <? 256) then Some x else None.

(** [struct.pack("!B", x)]: one unsigned byte, [struct.error] outside
    the range. *)
Definition pack_B (x : Z) : option bytes :=
  b ← to_byte x; Some [b].

(** [l[a:b]] for non-negative literal bounds. *)
Definition slice {A} (a b : nat) (l : list A) : list A :=
  take (b - a) (drop a l).

(** [l[-n:]]; as in Python, [l[-0:]] is the whole of [l]. *)
Definition last_n {A} (n : nat) (l : list A) : list A :=
  if (n =? 0)%nat then l else drop (length l - n) l.

(** [l[:-n]]; as in Python, [l[:-0]] is empty. *)
Definition drop_last {A} (n : nat) (l : list A) : list A :=
  if (n =? 0)%nat then [] else take (length l - n) l.

(** [int.from_bytes(l, "big")]. *)
Definition int_from_bytes_big (l : bytes) : Z :=
  fold_left (fun acc b => acc * 256 + b) l 0.

Definition bytes_eqb (a b : bytes) : bool := bool_decide (a = b).

End Bytes.
Import Bytes.

(** ** Interface access codes: [Transport.transmit] and the head of
    [Transport.inbound] *)

Module IFAC.

(** What the IFAC code reads from an interface: the signing capability
    of [interface.ifac_identity], [interface.ifac_key] and
    [interface.ifac_size]. *)
Record ifac_config := {
  ifac_sign : bytes -> bytes;
  ifac_key : bytes;
  ifac_size : nat
}.

(** Outcome of the IFAC stage of [inbound]: the frame goes on to
    unpacking, the function returns early, or an exception leaves it. *)
Inductive ifac_verdict :=
| Accepted (raw : bytes)
| Dropped
| Raised.

Section WithHkdf.

(** [RNS.Cryptography.hkdf(length, derive_from, salt, context=None)]. *)
Variable hkdf : nat -> bytes -> bytes -> bytes.

(** The masking loop of [transmit] (lines 816-828), from index [i]. *)
Fixpoint mask_outgoing (size : nat) (mask : bytes) (i : nat) (new_raw : bytes)
  : option bytes :=
  match new_raw with
  | [] => Some []
  | byte :: rest =>
      b ← (if (i =? 0)%nat then
             m ← mask !! i; to_byte (Z.lor (Z.lxor byte m) 128)
           else if (i =? 1)%nat || (size + 1 <? i)%nat then
             m ← mask !! i; to_byte (Z.lxor byte m)
           else to_byte byte);
      r ← mask_outgoing size mask (S i) rest;
      Some (b :: r)
  end.

(** [Transport.transmit(interface, raw)] (lines 795-837): the bytes
    handed to [interface.process_outgoing], or [None] when an exception
    was caught and nothing was sent. *)
Definition transmit (cfg : option ifac_config) (raw : bytes) : option bytes :=
  match cfg with
  | Some c =>
      let ifac := last_n (ifac_size c) (ifac_sign c raw) in
      let mask := hkdf (length raw + ifac_size c) ifac (ifac_key c) in
      b0 ← raw !! 0%nat;
      b1 ← raw !! 1%nat;
      h0 ← to_byte (Z.lor b0 128);
      h1 ← to_byte b1;
      let new_raw := [h0; h1] ++ ifac ++ drop 2 raw in
      mask_outgoing (ifac_size c) mask 0 new_raw
  | None => Some raw
  end.

(** The unmasking loop of [inbound] (lines 1171-1179), from index [i]. *)
Fixpoint unmask_incoming (size : nat) (mask : bytes) (i : nat) (raw : bytes)
  : option bytes :=
  match raw with
  | [] => Some []
  | byte :: rest =>
      b ← (if (i <=? 1)%nat || (size + 1 <? i)%nat then
             m ← mask !! i; to_byte (Z.lxor byte m)
           else to_byte byte);
      r ← unmask_incoming size mask (S i) rest;
      Some (b :: r)
  end.

(** The IFAC stage of [Transport.inbound(raw, interface)] (lines
    1154-1213). *)
Definition inbound_ifac (cfg : option ifac_config) (raw : bytes)
  : ifac_verdict :=
  if (2 <? length raw)%nat then
    match cfg with
    | Some c =>
        match raw !! 0%nat with
        | Some r0 =>
            if Z.land r0 128 =? 128 then
              if (2 + ifac_size c <? length raw)%nat then
                let ifac := slice 2 (2 + ifac_size c) raw in
                let mask := hkdf (length raw) ifac (ifac_key c) in
                match unmask_incoming (ifac_size c) mask 0 raw with
                | Some unmasked =>
                    match unmasked !! 0%nat, unmasked !! 1%nat with
                    | Some u0, Some u1 =>
                        match to_byte (Z.land u0 127), to_byte u1 with
                        | Some h0, Some h1 =>
                            let new_raw :=
                              [h0; h1] ++ drop (2 + ifac_size c) unmasked in
                            let expected_ifac :=
                              last_n (ifac_size c) (ifac_sign c new_raw) in
                            if bytes_eqb ifac expected_ifac
                            then Accepted new_raw else Dropped
                        | _, _ => Raised
                        end
                    | _, _ => Raised
                    end
                | None => Raised
                end
              else Dropped
            else Dropped
        | None => Raised
        end
    | None =>
        match raw !! 0%nat with
        | Some r0 => if Z.land r0 128 =? 128 then Dropped else Accepted raw
        | None => Raised
        end
    end
  else Dropped.

End WithHkdf.

(** A keystream and a signing function to run the model on: the stream
    repeats a byte derived from its inputs, the signature is 64 bytes
    that depend on the sum of the message. *)
Definition sum_bytes (l : bytes) : Z := fold_left Z.add l 0.

Definition demo_hkdf (length : nat) (derive_from salt : bytes) : bytes :=
  map (fun i => (Z.of_nat i * 7 + sum_bytes derive_from + sum_bytes salt)
                 mod 256)
      (seq 0 length).

Definition demo_sign (message : bytes) : bytes :=
  map (fun i => (Z.of_nat i + sum_bytes message) mod 256) (seq 0 64).

Definition demo_ifac : ifac_config :=
  {| ifac_sign := demo_sign; ifac_key := [1; 2; 3; 4]; ifac_size := 8 |}.

End IFAC.

(** ** The transport tables and the packets they route *)

Module Transport.

(** *** Constants of the class (lines 49-92) *)

Definition BROADCAST : Z := 0.
Definition TRANSPORT : Z := 1.
Definition RELAY : Z := 2.
Definition TUNNEL : Z := 3.

Definition PATHFINDER_M : Z := 128.
Definition PATHFINDER_E : Z := 60 * 60 * 24 * 7.
Definition AP_PATH_TIME : Z := 60 * 60 * 24.
Definition ROAMING_PATH_TIME : Z := 60 * 60 * 6.

Definition STATE_UNKNOWN : Z := 0.
Definition STATE_UNRESPONSIVE : Z := 1.
Definition STATE_RESPONSIVE : Z := 2.

Definition DESTINATION_TIMEOUT : Z := 60 * 60 * 24 * 7.
Definition PERSIST_RANDOM_BLOBS : nat := 32.
Definition MAX_RANDOM_BLOBS : nat := 64.

(** *** What the codec and the interfaces provide

    [RNS.Packet], [RNS.Destination] and [RNS.Interfaces.Interface] lie
    outside the source file; the enumerations below are the ones the
    source names. *)

Inductive PacketType := DATA | ANNOUNCE | LINKREQUEST | PROOF.

Inductive DestinationType := SINGLE | GROUP | PLAIN | LINK.

(** The packet contexts the source tests for; every other context byte
    is [OTHER_CONTEXT]. *)
Inductive Context :=
| NONE | RESOURCE | RESOURCE_REQ | RESOURCE_PRF | CACHE_REQUEST
| PATH_RESPONSE | CHANNEL | KEEPALIVE | LRPROOF | OTHER_CONTEXT.

Inductive InterfaceMode :=
| MODE_FULL | MODE_POINT_TO_POINT | MODE_ACCESS_POINT
| MODE_ROAMING | MODE_BOUNDARY | MODE_GATEWAY.

#[global] Instance PacketType_eq_dec : EqDecision PacketType.
Proof. solve_decision. Defined.
#[global] Instance DestinationType_eq_dec : EqDecision DestinationType.
Proof. solve_decision. Defined.
#[global] Instance Context_eq_dec : EqDecision Context.
Proof. solve_decision. Defined.
#[global] Instance InterfaceMode_eq_dec : EqDecision InterfaceMode.
Proof. solve_decision. Defined.

(** Modelled from the spec: the two header types of the codec.  The
    first byte carries the header type in bit 6, below the IFAC flag in
    bit 7, so the type is one bit; HEADER_1, the header with one address,
    is taken as 0 and HEADER_2, the header with the transport ID, as 1. *)
Definition HEADER_1 : Z := 0.
Definition HEADER_2 : Z := 1.

(** Modelled from the spec: [RNS.Identity.TRUNCATED_HASHLENGTH], in bits;
    destination hashes and transport IDs are 16 bytes. *)
Definition TRUNCATED_HASHLENGTH : nat := 128.

(** An interface object, with the attributes the transport core reads.
    [if_name] stands for the identity of the object. *)
Record Interface := {
  if_name : nat;
  get_hash : bytes;
  mode : option InterfaceMode;
  HW_MTU : option Z;
  AUTOCONFIGURE_MTU : bool;
  FIXED_MTU : bool;
  tunnel_id : option bytes
}.

#[global] Instance Interface_eq_dec : EqDecision Interface.
Proof. solve_decision. Defined.

(** A registered destination: [destination.hash], [destination.type]. *)
Record Destination := {
  d_hash : bytes;
  d_type : DestinationType
}.

(** A packet object after [pack()] or [unpack()].  [destination] is the
    destination object of a locally made packet. *)
Record Packet := {
  raw : bytes;
  packet_hash : bytes;
  getTruncatedHash : bytes;
  packet_type : PacketType;
  context : Context;
  header_type : Z;
  flags : Z;
  transport_type : Z;
  transport_id : option bytes;
  destination_hash : bytes;
  destination_type : DestinationType;
  destination : option Destination;
  hops : Z;
  data : bytes;
  receiving_interface : Interface
}.

(** *** Table entries (indices at lines 3027-3067) *)

Record PathEntry := {
  PT_TIMESTAMP : Z;
  PT_NEXT_HOP : bytes;
  PT_HOPS : Z;
  PT_EXPIRES : Z;
  PT_RANDBLOBS : list bytes;
  PT_RVCD_IF : Interface;
  PT_PACKET : bytes
}.

Record ReverseEntry := {
  RT_RCVD_IF : Interface;
  RT_OUTB_IF : Interface;
  RT_TIMESTAMP : Z
}.

Record LinkEntry := {
  LT_TIMESTAMP : Z;
  LT_NH_TRID : bytes;
  LT_NH_IF : Interface;
  LT_REM_HOPS : Z;
  LT_RCVD_IF : Interface;
  LT_HOPS : Z;
  LT_DSTHASH : bytes;
  LT_VALIDATED : bool;
  LT_PROOF_TMO : Z
}.

(** A path stored under a tunnel: the layout of a path entry, with the
    interface slot left empty. *)
Record TunnelPath := {
  TP_TIMESTAMP : Z;
  TP_NEXT_HOP : bytes;
  TP_HOPS : Z;
  TP_EXPIRES : Z;
  TP_RANDBLOBS : list bytes;
  TP_RVCD_IF : option Interface;
  TP_PACKET : bytes
}.

Record TunnelEntry := {
  TT_TUNNEL_ID : bytes;
  TT_IF : option Interface;
  TT_PATHS : gmap bytes TunnelPath;
  TT_EXPIRES : Z
}.

(** *** The state of the class *)

Record State := {
  is_connected_to_shared_instance : bool;
  transport_enabled : bool;
  identity_hash : bytes;
  interfaces : list Interface;
  local_client_interfaces : list Interface;
  destinations : list Destination;
  packet_hashlist : gset bytes;
  packet_hashlist_prev : gset bytes;
  path_table : gmap bytes PathEntry;
  reverse_table : gmap bytes ReverseEntry;
  link_table : gmap bytes LinkEntry;
  path_states : gmap bytes Z;
  tunnels : gmap bytes TunnelEntry
}.

Definition set_packet_hashlist (st : State) (h : gset bytes) : State :=
  {| is_connected_to_shared_instance := is_connected_to_shared_instance st;
     transport_enabled := transport_enabled st;
     identity_hash := identity_hash st;
     interfaces := interfaces st;
     local_client_interfaces := local_client_interfaces st;
     destinations := destinations st;
     packet_hashlist := h;
     packet_hashlist_prev := packet_hashlist_prev st;
     path_table := path_table st;
     reverse_table := reverse_table st;
     link_table := link_table st;
     path_states := path_states st;
     tunnels := tunnels st |}.

Definition set_path_table (st : State) (t : gmap bytes PathEntry) : State :=
  {| is_connected_to_shared_instance := is_connected_to_shared_instance st;
     transport_enabled := transport_enabled st;
     identity_hash := identity_hash st;
     interfaces := interfaces st;
     local_client_interfaces := local_client_interfaces st;
     destinations := destinations st;
     packet_hashlist := packet_hashlist st;
     packet_hashlist_prev := packet_hashlist_prev st;
     path_table := t;
     reverse_table := reverse_table st;
     link_table := link_table st;
     path_states := path_states st;
     tunnels := tunnels st |}.

Definition set_reverse_table (st : State) (t : gmap bytes ReverseEntry)
  : State :=
  {| is_connected_to_shared_instance := is_connected_to_shared_instance st;
     transport_enabled := transport_enabled st;
     identity_hash := identity_hash st;
     interfaces := interfaces st;
     local_client_interfaces := local_client_interfaces st;
     destinations := destinations st;
     packet_hashlist := packet_hashlist st;
     packet_hashlist_prev := packet_hashlist_prev st;
     path_table := path_table st;
     reverse_table := t;
     link_table := link_table st;
     path_states := path_states st;
     tunnels := tunnels st |}.

Definition set_link_table (st : State) (t : gmap bytes LinkEntry) : State :=
  {| is_connected_to_shared_instance := is_connected_to_shared_instance st;
     transport_enabled := transport_enabled st;
     identity_hash := identity_hash st;
     interfaces := interfaces st;
     local_client_interfaces := local_client_interfaces st;
     destinations := destinations st;
     packet_hashlist := packet_hashlist st;
     packet_hashlist_prev := packet_hashlist_prev st;
     path_table := path_table st;
     reverse_table := reverse_table st;
     link_table := t;
     path_states := path_states st;
     tunnels := tunnels st |}.

Definition set_path_states (st : State) (t : gmap bytes Z) : State :=
  {| is_connected_to_shared_instance := is_connected_to_shared_instance st;
     transport_enabled := transport_enabled st;
     identity_hash := identity_hash st;
     interfaces := interfaces st;
     local_client_interfaces := local_client_interfaces st;
     destinations := destinations st;
     packet_hashlist := packet_hashlist st;
     packet_hashlist_prev := packet_hashlist_prev st;
     path_table := path_table st;
     reverse_table := reverse_table st;
     link_table := link_table st;
     path_states := t;
     tunnels := tunnels st |}.

Definition set_tunnels (st : State) (t : gmap bytes TunnelEntry) : State :=
  {| is_connected_to_shared_instance := is_connected_to_shared_instance st;
     transport_enabled := transport_enabled st;
     identity_hash := identity_hash st;
     interfaces := interfaces st;
     local_client_interfaces := local_client_interfaces st;
     destinations := destinations st;
     packet_hashlist := packet_hashlist st;
     packet_hashlist_prev := packet_hashlist_prev st;
     path_table := path_table st;
     reverse_table := reverse_table st;
     link_table := link_table st;
     path_states := path_states st;
     tunnels := t |}.

(** [Transport.path_table[destination_hash][IDX_PT_TIMESTAMP] = now]. *)
Definition touch_path (now : Z) (e : PathEntry) : PathEntry :=
  {| PT_TIMESTAMP := now;
     PT_NEXT_HOP := PT_NEXT_HOP e;
     PT_HOPS := PT_HOPS e;
     PT_EXPIRES := PT_EXPIRES e;
     PT_RANDBLOBS := PT_RANDBLOBS e;
     PT_RVCD_IF := PT_RVCD_IF e;
     PT_PACKET := PT_PACKET e |}.

(** [Transport.link_table[link_id][IDX_LT_VALIDATED] = True]. *)
Definition validate_link (e : LinkEntry) : LinkEntry :=
  {| LT_TIMESTAMP := LT_TIMESTAMP e;
     LT_NH_TRID := LT_NH_TRID e;
     LT_NH_IF := LT_NH_IF e;
     LT_REM_HOPS := LT_REM_HOPS e;
     LT_RCVD_IF := LT_RCVD_IF e;
     LT_HOPS := LT_HOPS e;
     LT_DSTHASH := LT_DSTHASH e;
     LT_VALIDATED := true;
     LT_PROOF_TMO := LT_PROOF_TMO e |}.

(** How a handler left: it ran to its end, it returned early, or an
    exception left it.  The state and the frames handed to
    [Transport.transmit] up to that point are kept in all three cases. *)
Inductive Status := Completed | Returned | Raised.

Record Outcome := {
  out_state : State;
  out_tx : list (Interface * bytes);
  out_status : Status
}.

Definition completed (st : State) (tx : list (Interface * bytes)) : Outcome :=
  {| out_state := st; out_tx := tx; out_status := Completed |}.

Definition returned (st : State) : Outcome :=
  {| out_state := st; out_tx := []; out_status := Returned |}.

Definition raised (st : State) : Outcome :=
  {| out_state := st; out_tx := []; out_status := Raised |}.

(** *** Duplicate filter (lines 1085-1148) *)

(** [Transport.add_packet_hash(packet_hash)]. *)
Definition add_packet_hash (st : State) (packet_hash : bytes) : State :=
  if negb (is_connected_to_shared_instance st)
  then set_packet_hashlist st ({[packet_hash]} ∪ packet_hashlist st)
  else st.

(** [Transport.packet_filter(packet)]. *)
Definition packet_filter (st : State) (packet : Packet) : bool :=
  if is_connected_to_shared_instance st then true
  else if match transport_id packet with
          | Some tid =>
              negb (bool_decide (packet_type packet = ANNOUNCE)) &&
              negb (bytes_eqb tid (identity_hash st))
          | None => false
          end then false
  else if bool_decide (context packet = KEEPALIVE) then true
  else if bool_decide (context packet = RESOURCE_REQ) then true
  else if bool_decide (context packet = RESOURCE_PRF) then true
  else if bool_decide (context packet = RESOURCE) then true
  else if bool_decide (context packet = CACHE_REQUEST) then true
  else if bool_decide (context packet = CHANNEL) then true
  else if bool_decide (destination_type packet = PLAIN) then
    if negb (bool_decide (packet_type packet = ANNOUNCE)) then
      if 1 <? hops packet then false else true
    else false
  else if bool_decide (destination_type packet = GROUP) then
    if negb (bool_decide (packet_type packet = ANNOUNCE)) then
      if 1 <? hops packet then false else true
    else false
  else if negb (bool_decide (packet_hash packet ∈ packet_hashlist st)) &&
          negb (bool_decide (packet_hash packet ∈ packet_hashlist_prev st))
  then true
  else if bool_decide (packet_type packet = ANNOUNCE) then
    if bool_decide (destination_type packet = SINGLE) then true else false
  else false.

(** The packets that come to the last test of [packet_filter] (line
    1137): none of the earlier tests returned. *)
Definition reaches_final_test (st : State) (packet : Packet) : Prop :=
  is_connected_to_shared_instance st = false /\
  (forall tid, transport_id packet = Some tid ->
               packet_type packet = ANNOUNCE \/ tid = identity_hash st) /\
  context packet <> KEEPALIVE /\ context packet <> RESOURCE_REQ /\
  context packet <> RESOURCE_PRF /\ context packet <> RESOURCE /\
  context packet <> CACHE_REQUEST /\ context packet <> CHANNEL /\
  destination_type packet <> PLAIN /\ destination_type packet <> GROUP.

(** *** Outbound dispatch over a known path (lines 874-921) *)

(** The header rewrite of lines 885-889 and 905-909: HEADER_2, transport
    type TRANSPORT, the packet's low four flag bits, then the hop byte,
    the next hop and the rest of the frame.  [None] is a [struct.error]. *)
Definition insert_into_transport (packet : Packet) (next_hop : bytes)
  : option bytes :=
  let new_flags :=
    Z.lor (Z.lor (Z.shiftl HEADER_2 6) (Z.shiftl TRANSPORT 4))
          (Z.land (flags packet) 15) in
  new_raw ← pack_B new_flags;
  Some (new_raw ++ slice 1 2 (raw packet) ++ next_hop ++ drop 2 (raw packet)).

(** The first branch of [Transport.outbound(packet)], taken when the
    test of line 874 holds; [None] when it does not (the broadcast branch
    of lines 927-1080 is then taken, which is not modelled).  The boolean
    is [sent].  [packet_sent] only marks the packet and files a receipt.
    A packet without a destination object raises on
    [packet.destination.type]. *)
Definition outbound_known_path (st : State) (packet : Packet) (now : Z)
  : option (Outcome * bool) :=
  if negb (bool_decide (packet_type packet = ANNOUNCE)) then
    match destination packet with
    | None => Some (raised st, false)
    | Some d =>
        if negb (bool_decide (d_type d = PLAIN)) &&
           negb (bool_decide (d_type d = GROUP)) then
          match path_table st !! destination_hash packet with
          | Some entry =>
              let outbound_interface := PT_RVCD_IF entry in
              let via_transport :=
                if header_type packet =? HEADER_1 then
                  match insert_into_transport packet (PT_NEXT_HOP entry) with
                  | Some new_raw =>
                      (completed
                         (set_path_table st
                            (alter (touch_path now) (destination_hash packet)
                               (path_table st)))
                         [(outbound_interface, new_raw)], true)
                  | None => (raised st, false)
                  end
                else (completed st [], false) in
              if 1 <? PT_HOPS entry then Some via_transport
              else if (PT_HOPS entry =? 1) &&
                      is_connected_to_shared_instance st
              then Some via_transport
              else Some (completed st [(outbound_interface, raw packet)], true)
          | None => None
          end
        else None
    end
  else None.

(** *** Inbound: the flags of lines 1288-1292 *)

Record LocalFlags := {
  from_local_client : bool;
  for_local_client : bool;
  for_local_client_link : bool;
  proof_for_local_client : bool
}.

Definition is_local_client (st : State) (i : Interface) : bool :=
  bool_decide (i ∈ local_client_interfaces st).

Definition local_flags (st : State) (packet : Packet) : LocalFlags :=
  let not_announce := negb (bool_decide (packet_type packet = ANNOUNCE)) in
  {| from_local_client := is_local_client st (receiving_interface packet);
     for_local_client :=
       not_announce &&
       match path_table st !! destination_hash packet with
       | Some e => PT_HOPS e =? 0
       | None => false
       end;
     for_local_client_link :=
       (not_announce &&
        match link_table st !! destination_hash packet with
        | Some l => is_local_client st (LT_RCVD_IF l)
        | None => false
        end) ||
       (not_announce &&
        match link_table st !! destination_hash packet with
        | Some l => is_local_client st (LT_NH_IF l)
        | None => false
        end);
     proof_for_local_client :=
       match reverse_table st !! destination_hash packet with
       | Some r => is_local_client st (RT_RCVD_IF r)
       | None => false
       end |}.

(** *** Inbound: the filter stage and the plain broadcasts *)

(** Lines 1260-1282: a packet that passes the filter is remembered,
    unless it is for a link of the link table or is a link proof; [None]
    when the filter drops the packet, and then nothing of lines 1261-2013
    runs. *)
Definition filter_stage (st : State) (packet : Packet) : option State :=
  if packet_filter st packet then
    let remember_packet_hash :=
      (if bool_decide (is_Some (link_table st !! destination_hash packet))
       then false else true) &&
      (if bool_decide (packet_type packet = PROOF) &&
          bool_decide (context packet = LRPROOF)
       then false else true) in
    Some (if remember_packet_hash
          then add_packet_hash st (packet_hash packet)
          else st)
  else None.

(** Lines 1260-1308: what a packet makes [Transport.inbound] send as a
    plain broadcast.  Under the filter of line 1260, with the flags of
    lines 1288-1292, a PLAIN packet with transport type BROADCAST whose
    destination is not a control destination goes from a local client to
    every other interface, and from the network to every local client.
    [control_hashes] is [Transport.control_hashes], which the state
    record does not hold.  The result lists the calls of
    [Transport.transmit]. *)
Definition plain_broadcast (st : State) (control_hashes : list bytes)
    (packet : Packet) : list (Interface * bytes) :=
  match filter_stage st packet with
  | Some st0 =>
      let fl := local_flags st0 packet in
      if negb (bool_decide (destination_hash packet ∈ control_hashes)) then
        if bool_decide (destination_type packet = PLAIN) &&
           (transport_type packet =? BROADCAST) then
          if from_local_client fl then
            omap
              (fun interface =>
                 if negb (bool_decide
                            (interface = receiving_interface packet))
                 then Some (interface, raw packet)
                 else None)
              (interfaces st0)
          else
            map (fun interface => (interface, raw packet))
                (local_client_interfaces st0)
        else []
      else []
  | None => []
  end.

(** The test of line 1314. *)
Definition transport_applies (st : State) (fl : LocalFlags) : bool :=
  transport_enabled st || from_local_client fl || for_local_client fl ||
  for_local_client_link fl.

(** [packet.transport_id = transport_id]. *)
Definition set_transport_id (packet : Packet) (t : option bytes) : Packet :=
  {| raw := raw packet;
     packet_hash := packet_hash packet;
     getTruncatedHash := getTruncatedHash packet;
     packet_type := packet_type packet;
     context := context packet;
     header_type := header_type packet;
     flags := flags packet;
     transport_type := transport_type packet;
     transport_id := t;
     destination_hash := destination_hash packet;
     destination_type := destination_type packet;
     destination := destination packet;
     hops := hops packet;
     data := data packet;
     receiving_interface := receiving_interface packet |}.

(** Lines 1323-1324: a packet for a local client that came without a
    transport ID is given this instance's. *)
Definition reinsert_transport_id (st : State) (fl : LocalFlags)
    (packet : Packet) : Packet :=
  match transport_id packet with
  | None =>
      if for_local_client fl
      then set_transport_id packet (Some (identity_hash st))
      else packet
  | Some _ => packet
  end.

(** An outcome after the transmissions [sent]. *)
Definition sent_then (sent : list (Interface * bytes)) (o : Outcome)
  : Outcome :=
  {| out_state := out_state o;
     out_tx := sent ++ out_tx o;
     out_status := out_status o |}.

(** *** Inbound: packets in transport (lines 1260-1419) *)

(** The three rewrites of lines 1343-1359.  The outer [None] is a
    [struct.error] from packing the hop count; the inner [None] is
    [new_raw] left unbound, when the stored hop count is negative. *)
Definition forward_new_raw (packet : Packet) (next_hop : bytes)
    (remaining_hops : Z) : option (option bytes) :=
  if 1 <? remaining_hops then
    h ← pack_B (hops packet);
    Some (Some (slice 0 1 (raw packet) ++ h ++ next_hop ++
                drop (TRUNCATED_HASHLENGTH / 8 + 2) (raw packet)))
  else if remaining_hops =? 1 then
    let new_flags :=
      Z.lor (Z.lor (Z.shiftl HEADER_1 6) (Z.shiftl BROADCAST 4))
            (Z.land (flags packet) 15) in
    f ← pack_B new_flags;
    h ← pack_B (hops packet);
    Some (Some (f ++ h ++
                drop (TRUNCATED_HASHLENGTH / 8 + 2) (raw packet)))
  else if remaining_hops =? 0 then
    h ← pack_B (hops packet);
    Some (Some (slice 0 1 (raw packet) ++ h ++ drop 2 (raw packet)))
  else Some None.

Section WithLink.

(** The link module ([RNS.Link]) lies outside the source file; its
    helpers and constants are parameters.  [mtu_from_lr_packet] is [None]
    when the request carries no MTU signalling; [signalling_bytes] is
    [None] when it raises. *)
Variable LINK_MTU_SIZE : nat.
Variable ESTABLISHMENT_TIMEOUT_PER_HOP : Z.
Variable mtu_from_lr_packet : Packet -> option Z.
Variable mode_from_lr_packet : Packet -> Z.
Variable signalling_bytes : Z -> Z -> option bytes.
Variable link_id_from_lr_packet : Packet -> bytes.

(** [Transport.extra_link_proof_timeout(interface)] (line 2372) is
    floating-point arithmetic on the bitrate; it is a parameter, [None]
    when the division raises. *)
Variable extra_link_proof_timeout : Interface -> option Z.

(** [Transport.cache_request_packet(packet)] (line 2274) looks the
    requested packet up in the cache directory and, when it is there,
    replays it through [Transport.inbound]; it is a parameter: [None]
    when it returns [False], and the outcome of the replay when it
    returns [True]. *)
Variable cache_request_packet : State -> Packet -> option Outcome.

(** Lines 1329-1332: a cache request that is answered from the cache
    ends [Transport.inbound]. *)
Definition cache_replay (st : State) (packet : Packet) : option Outcome :=
  if bool_decide (context packet = CACHE_REQUEST) then
    match cache_request_packet st packet with
    | Some replay =>
        Some {| out_state := out_state replay;
                out_tx := out_tx replay;
                out_status :=
                  match out_status replay with
                  | Raised => Raised
                  | _ => Returned
                  end |}
    | None => None
    end
  else None.

(** What became of [new_raw] in the link-request branch. *)
Inductive MtuStep :=
| MtuKeep (new_raw : option bytes)
| MtuReturn
| MtuRaise.

(** Lines 1368-1389: the MTU signalling of a forwarded link request. *)
Definition clamp_link_mtu (outbound_interface : Interface) (packet : Packet)
    (new_raw : option bytes) : MtuStep :=
  let path_mtu := mtu_from_lr_packet packet in
  let mode := mode_from_lr_packet packet in
  let nh_mtu := HW_MTU outbound_interface in
  match path_mtu with
  | Some pm =>
      if pm =? 0 then MtuKeep new_raw
      else
        match nh_mtu with
        | None =>
            match new_raw with
            | Some r => MtuKeep (Some (drop_last LINK_MTU_SIZE r))
            | None => MtuRaise
            end
        | Some nm =>
            if negb (AUTOCONFIGURE_MTU outbound_interface) &&
               negb (FIXED_MTU outbound_interface) then
              match new_raw with
              | Some r => MtuKeep (Some (drop_last LINK_MTU_SIZE r))
              | None => MtuRaise
              end
            else if nm <? pm then
              match signalling_bytes nm mode, new_raw with
              | Some clamped_mtu, Some r =>
                  MtuKeep (Some (drop_last LINK_MTU_SIZE r ++ clamped_mtu))
              | _, _ => MtuReturn
              end
            else MtuKeep new_raw
        end
  | None => MtuKeep new_raw
  end.

(** Lines 1260-1419 of [Transport.inbound], from the filter to the end
    of the general transport block.  A packet that the filter of line
    1260 drops does nothing.  One that passes is remembered (lines
    1263-1282) and sent as a plain broadcast where lines 1297-1308 say
    so.  The rest runs under the test of line 1314 only: on a node that
    does not transport, and for a packet that neither comes from a local
    client nor is for one, nothing more happens.  Under that test a
    packet for a local client gets this instance's transport ID if it
    has none (line 1323), a cache request answered from the cache ends
    the call (line 1329), and a packet whose transport ID is this
    instance's is sent on along the stored path, a link or reverse entry
    being recorded (lines 1337-1419). *)
Definition inbound_transport (st : State) (control_hashes : list bytes)
    (packet : Packet) (now : Z) : Outcome :=
  match filter_stage st packet with
  | None => completed st []
  | Some st0 =>
    let fl := local_flags st0 packet in
    let sent := plain_broadcast st control_hashes packet in
    if transport_applies st0 fl then
      let packet := reinsert_transport_id st0 fl packet in
      match cache_replay st0 packet with
      | Some replay => sent_then sent replay
      | None =>
        sent_then sent
          (match transport_id packet with
           | Some tid =>
               if negb (bool_decide (packet_type packet = ANNOUNCE)) &&
                  bytes_eqb tid (identity_hash st0) then
                 match path_table st0 !! destination_hash packet with
                 | Some entry =>
                     let next_hop := PT_NEXT_HOP entry in
                     let remaining_hops := PT_HOPS entry in
                     match forward_new_raw packet next_hop remaining_hops with
                     | None => raised st0
                     | Some new_raw =>
                         let outbound_interface := PT_RVCD_IF entry in
                         let send st1 new_raw1 :=
                           match new_raw1 with
                           | Some r =>
                               completed
                                 (set_path_table st1
                                    (alter (touch_path now)
                                       (destination_hash packet)
                                       (path_table st1)))
                                 [(outbound_interface, r)]
                           | None => raised st1
                           end in
                         if bool_decide (packet_type packet = LINKREQUEST)
                         then
                           match extra_link_proof_timeout
                                   (receiving_interface packet) with
                           | None => raised st0
                           | Some extra =>
                               let proof_timeout :=
                                 extra +
                                 (now + ESTABLISHMENT_TIMEOUT_PER_HOP *
                                        Z.max 1 remaining_hops) in
                               match clamp_link_mtu outbound_interface packet
                                       new_raw with
                               | MtuRaise => raised st0
                               | MtuReturn => returned st0
                               | MtuKeep new_raw1 =>
                                   let link_entry :=
                                     {| LT_TIMESTAMP := now;
                                        LT_NH_TRID := next_hop;
                                        LT_NH_IF := outbound_interface;
                                        LT_REM_HOPS := remaining_hops;
                                        LT_RCVD_IF :=
                                          receiving_interface packet;
                                        LT_HOPS := hops packet;
                                        LT_DSTHASH := destination_hash packet;
                                        LT_VALIDATED := false;
                                        LT_PROOF_TMO := proof_timeout |} in
                                   send
                                     (set_link_table st0
                                        (<[link_id_from_lr_packet packet :=
                                             link_entry]> (link_table st0)))
                                     new_raw1
                               end
                           end
                         else
                           let reverse_entry :=
                             {| RT_RCVD_IF := receiving_interface packet;
                                RT_OUTB_IF := outbound_interface;
                                RT_TIMESTAMP := now |} in
                           send
                             (set_reverse_table st0
                                (<[getTruncatedHash packet := reverse_entry]>
                                   (reverse_table st0)))
                             new_raw
                     end
                 | None => completed st0 []
                 end
               else completed st0 []
           | None => completed st0 []
           end)
      end
    else completed st0 sent
  end.

End WithLink.

(** *** Inbound: proofs (lines 1910-2013) *)

(** [packet.raw[0:1] + struct.pack("!B", packet.hops) + packet.raw[2:]]:
    the frame with its hop byte refreshed; [None] on [struct.error]. *)
Definition refresh_hops (packet : Packet) : option bytes :=
  h ← pack_B (hops packet);
  Some (slice 0 1 (raw packet) ++ h ++ drop 2 (raw packet)).

(** An identity as [RNS.Identity.recall] returns it: its public key and
    its signature check. *)
Record Identity := {
  get_public_key : bytes;
  validate : bytes -> bytes -> bool
}.

Section WithIdentity.

(** [RNS.Identity] and [RNS.Link] lie outside the source file. *)
Variable SIGLENGTH : nat.
Variable ECPUBSIZE : nat.
Variable LINK_MTU_SIZE : nat.
Variable recall : bytes -> option Identity.
Variable mtu_from_lp_packet : Packet -> option Z.
Variable mode_from_lp_packet : Packet -> Z.
Variable signalling_bytes : Z -> Z -> option bytes.

(** The data a link proof signs (lines 1920-1928): link ID, the peer's
    public key from the proof, the signing half of the destination's
    public key, and the signalling bytes when the proof carries them.
    [None] when an exception ends the [try] block. *)
Definition lrproof_signed_data (packet : Packet) (link_entry : LinkEntry)
  : option (Identity * bytes) :=
  let base := (SIGLENGTH / 8 + ECPUBSIZE / 2)%nat in
  signalling ←
    (if (length (data packet) =? base + LINK_MTU_SIZE)%nat then
       mtu ← mtu_from_lp_packet packet;
       signalling_bytes mtu (mode_from_lp_packet packet)
     else Some []);
  let peer_pub_bytes :=
    slice (SIGLENGTH / 8) (SIGLENGTH / 8 + ECPUBSIZE / 2) (data packet) in
  peer_identity ← recall (LT_DSTHASH link_entry);
  let peer_sig_pub_bytes :=
    slice (ECPUBSIZE / 2) ECPUBSIZE (get_public_key peer_identity) in
  Some (peer_identity,
        destination_hash packet ++ peer_pub_bytes ++ peer_sig_pub_bytes ++
        signalling).

(** Lines 1919-1931: does the proof carry a signature of the right
    length that validates?  Exceptions count as no. *)
Definition lrproof_valid (packet : Packet) (link_entry : LinkEntry) : bool :=
  let base := (SIGLENGTH / 8 + ECPUBSIZE / 2)%nat in
  if (length (data packet) =? base)%nat ||
     (length (data packet) =? base + LINK_MTU_SIZE)%nat then
    match lrproof_signed_data packet link_entry with
    | Some (peer_identity, signed_data) =>
        let signature := take (SIGLENGTH / 8) (data packet) in
        validate peer_identity signature signed_data
    | None => false
    end
  else false.

(** Lines 1952-1971: a link proof for a pending link of this instance.
    [pending_links] lists the link ID and expected hops of each pending
    link; the hash is remembered and the proof handed to the link. *)
Definition lrproof_local (st : State) (pending_links : list (bytes * Z))
    (packet : Packet) : Outcome :=
  completed
    (fold_left
       (fun s link =>
          if bytes_eqb (fst link) (destination_hash packet) &&
             ((hops packet =? snd link) || (snd link =? PATHFINDER_M))
          then add_packet_hash s (packet_hash packet) else s)
       pending_links st)
    [].

(** Lines 1911-1971: a link request proof. *)
Definition inbound_lrproof (st : State) (fl : LocalFlags)
    (pending_links : list (bytes * Z)) (packet : Packet) : Outcome :=
  if transport_enabled st || for_local_client_link fl || from_local_client fl
  then
    match link_table st !! destination_hash packet with
    | Some link_entry =>
        if hops packet =? LT_REM_HOPS link_entry then
          if bool_decide (receiving_interface packet = LT_NH_IF link_entry)
          then
            if lrproof_valid packet link_entry then
              match refresh_hops packet with
              | Some new_raw =>
                  completed
                    (set_link_table st
                       (alter validate_link (destination_hash packet)
                          (link_table st)))
                    [(LT_RCVD_IF link_entry, new_raw)]
              | None => completed st []
              end
            else completed st []
          else completed st []
        else completed st []
    | None => lrproof_local st pending_links packet
    end
  else lrproof_local st pending_links packet.

(** Lines 1977-1998: any other proof, sent back along the reverse
    table.  The receipts of this instance are checked afterwards (lines
    2000-2013); that touches no table and sends nothing. *)
Definition inbound_reverse_proof (st : State) (fl : LocalFlags)
    (packet : Packet) : Outcome :=
  if transport_enabled st || from_local_client fl || proof_for_local_client fl
  then
    match reverse_table st !! destination_hash packet with
    | Some reverse_entry =>
        let st1 :=
          set_reverse_table st
            (delete (destination_hash packet) (reverse_table st)) in
        if bool_decide (receiving_interface packet = RT_OUTB_IF reverse_entry)
        then
          match refresh_hops packet with
          | Some new_raw => completed st1 [(RT_RCVD_IF reverse_entry, new_raw)]
          | None => raised st1
          end
        else completed st1 []
    | None => completed st []
    end
  else completed st [].

(** Lines 1910-1977: the three kinds of proof.  A resource proof goes to
    the active link it belongs to and is not routed here. *)
Definition inbound_proof (st : State) (fl : LocalFlags)
    (pending_links : list (bytes * Z)) (packet : Packet) : Outcome :=
  match context packet with
  | LRPROOF => inbound_lrproof st fl pending_links packet
  | RESOURCE_PRF => completed st []
  | _ => inbound_reverse_proof st fl packet
  end.

(** *** Announces: admission to the path table (lines 1513-1594) *)

Variable KEYSIZE : nat.
Variable NAME_HASH_LENGTH : nat.

(** [Transport.timebase_from_random_blob] (line 2812). *)
Definition timebase_from_random_blob (random_blob : bytes) : Z :=
  int_from_bytes_big (slice 5 10 random_blob).

(** [Transport.timebase_from_random_blobs] (line 2816). *)
Definition timebase_from_random_blobs (random_blobs : list bytes) : Z :=
  fold_left
    (fun timebase random_blob =>
       let emitted := timebase_from_random_blob random_blob in
       if timebase <? emitted then emitted else timebase)
    random_blobs 0.

(** The nonce of an announce (lines 1520 and 2826). *)
Definition random_blob_of (packet : Packet) : bytes :=
  slice (KEYSIZE / 8 + NAME_HASH_LENGTH / 8)
        (KEYSIZE / 8 + NAME_HASH_LENGTH / 8 + 10) (data packet).

(** [Transport.announce_emitted] (line 2825). *)
Definition announce_emitted (packet : Packet) : Z :=
  timebase_from_random_blob (random_blob_of packet).

(** The scan of lines 1548-1552: the running maximum of the stored
    timebases, left as soon as it reaches the announce's. *)
Fixpoint path_announce_emitted (announce_emitted : Z) (acc : Z)
    (random_blobs : list bytes) : Z :=
  match random_blobs with
  | [] => acc
  | path_random_blob :: rest =>
      let acc' :=
        Z.max acc (int_from_bytes_big (slice 5 10 path_random_blob)) in
      if announce_emitted <=? acc' then acc'
      else path_announce_emitted announce_emitted acc' rest
  end.

(** [Transport.path_is_unresponsive] (line 2410). *)
Definition path_is_unresponsive (st : State) (destination_hash : bytes)
  : bool :=
  match path_states st !! destination_hash with
  | Some s => s =? STATE_UNRESPONSIVE
  | None => false
  end.

(** [Transport.mark_path_unknown_state] (line 2402). *)
Definition mark_path_unknown_state (st : State) (destination_hash : bytes)
  : State :=
  match path_table st !! destination_hash with
  | Some _ =>
      set_path_states st (<[destination_hash := STATE_UNKNOWN]> (path_states st))
  | None => st
  end.

Definition is_local_destination (st : State) (destination_hash : bytes)
  : bool :=
  existsb (fun d => bytes_eqb destination_hash (d_hash d)) (destinations st).

(** Lines 1513-1594: [should_add], and the state with the path marked
    unknown where the source does that. *)
Definition announce_should_add (st : State) (packet : Packet) (now : Z)
  : bool * State :=
  let dst := destination_hash packet in
  if negb (is_local_destination st dst) && (hops packet <? PATHFINDER_M + 1)
  then
    let random_blob := random_blob_of packet in
    match path_table st !! dst with
    | Some entry =>
        let random_blobs := PT_RANDBLOBS entry in
        let is_new := negb (bool_decide (random_blob ∈ random_blobs)) in
        if hops packet <=? PT_HOPS entry then
          let path_timebase := timebase_from_random_blobs random_blobs in
          if is_new && (path_timebase <? announce_emitted packet)
          then (true, mark_path_unknown_state st dst)
          else (false, st)
        else
          let path_expires := PT_EXPIRES entry in
          let emitted :=
            path_announce_emitted (announce_emitted packet) 0 random_blobs in
          if path_expires <=? now then
            if is_new then (true, mark_path_unknown_state st dst)
            else (false, st)
          else if emitted <? announce_emitted packet then
            if is_new then (true, mark_path_unknown_state st dst)
            else (false, st)
          else if announce_emitted packet =? emitted then
            if path_is_unresponsive st dst then (true, st) else (false, st)
          else (false, st)
    | None => (true, st)
    end
  else (false, st).

(** *** Announces: the blobs and the expiry of the entry written *)

(** Lines 1645-1647, by value: the list the new path entry holds. *)
Definition append_random_blob (random_blob : bytes)
    (random_blobs : list bytes) : list bytes :=
  if bool_decide (random_blob ∈ random_blobs) then random_blobs
  else last_n MAX_RANDOM_BLOBS (random_blobs ++ [random_blob]).

(** Lines 1638-1643. *)
Definition path_expiry (i : Interface) (now : Z) : Z :=
  match mode i with
  | Some MODE_ACCESS_POINT => now + AP_PATH_TIME
  | Some MODE_ROAMING => now + ROAMING_PATH_TIME
  | _ => now + PATHFINDER_E
  end.

End WithIdentity.

(** *** Persistence (lines 2868-3011) *)

(** A serialised path entry: destination hash, timestamp, next hop,
    hops, expiry, random blobs, interface hash, announce packet hash. *)
Record SerialisedEntry := {
  se_destination_hash : bytes;
  se_timestamp : Z;
  se_received_from : bytes;
  se_hops : Z;
  se_expires : Z;
  se_random_blobs : list bytes;
  se_interface_hash : option bytes;
  se_packet_hash : bytes
}.

Record SerialisedTunnel := {
  st_tunnel_id : bytes;
  st_interface_hash : option bytes;
  st_paths : list SerialisedEntry;
  st_expires : Z
}.

(** [Transport.find_interface_from_hash] (line 2181). *)
Definition find_interface_from_hash (st : State) (interface_hash : bytes)
  : option Interface :=
  List.find (fun i => bytes_eqb (get_hash i) interface_hash) (interfaces st).

(** The list [save_path_table] writes (lines 2886-2916); [None] when
    nothing is written because this instance is connected to a shared
    instance. *)
Definition save_path_table (st : State) : option (list SerialisedEntry) :=
  if negb (is_connected_to_shared_instance st) then
    Some
      (omap
         (fun kv : bytes * PathEntry =>
            let (destination_hash, de) := kv in
            let interface_hash := get_hash (PT_RVCD_IF de) in
            match find_interface_from_hash st interface_hash with
            | Some _ =>
                Some {| se_destination_hash := destination_hash;
                        se_timestamp := PT_TIMESTAMP de;
                        se_received_from := PT_NEXT_HOP de;
                        se_hops := PT_HOPS de;
                        se_expires := PT_EXPIRES de;
                        se_random_blobs := PT_RANDBLOBS de;
                        se_interface_hash := Some interface_hash;
                        se_packet_hash := PT_PACKET de |}
            | None => None
            end)
         (map_to_list (path_table st)))
  else None.

(** The paths of one tunnel as [save_tunnel_table] writes them (lines
    2967-2989). *)
Definition serialise_tunnel_paths (interface_hash : option bytes)
    (tunnel_paths : gmap bytes TunnelPath) : list SerialisedEntry :=
  map
    (fun kv : bytes * TunnelPath =>
       let (destination_hash, de) := kv in
       {| se_destination_hash := destination_hash;
          se_timestamp := TP_TIMESTAMP de;
          se_received_from := TP_NEXT_HOP de;
          se_hops := TP_HOPS de;
          se_expires := TP_EXPIRES de;
          se_random_blobs := last_n PERSIST_RANDOM_BLOBS (TP_RANDBLOBS de);
          se_interface_hash := interface_hash;
          se_packet_hash := TP_PACKET de |})
    (map_to_list tunnel_paths).

(** The list [save_tunnel_table] writes (lines 2957-2995).  The inner
    loop assigns [expires] again, so a tunnel with paths is written with
    the expiry of the path visited last. *)
Definition save_tunnel_table (st : State) : option (list SerialisedTunnel) :=
  if negb (is_connected_to_shared_instance st) then
    Some
      (map
         (fun kv : bytes * TunnelEntry =>
            let (tunnel_id, te) := kv in
            let interface_hash := get_hash <$> TT_IF te in
            let serialised_paths :=
              serialise_tunnel_paths interface_hash (TT_PATHS te) in
            {| st_tunnel_id := tunnel_id;
               st_interface_hash := interface_hash;
               st_paths := serialised_paths;
               st_expires :=
                 List.last (map se_expires serialised_paths) (TT_EXPIRES te) |})
         (map_to_list (tunnels st)))
  else None.

End Transport.

(** ** The random-blob lists as objects

    A path entry holds a reference to a Python list, and so does the
    copy of the entry kept under a tunnel.  The announce handler appends
    to the list in place before it slices it, so what happens to one
    entry can show in another.  This module follows the list objects:
    the table entries hold locations in a store of lists. *)

Module BlobStore.
Import Transport.

Record PathRef := {
  PR_TIMESTAMP : Z;
  PR_NEXT_HOP : bytes;
  PR_HOPS : Z;
  PR_EXPIRES : Z;
  PR_RANDBLOBS : nat;
  PR_RVCD_IF : option Interface;
  PR_PACKET : bytes
}.

Record TunnelRef := {
  TR_IF : option Interface;
  TR_PATHS : gmap bytes PathRef;
  TR_EXPIRES : Z
}.

Record Store := {
  lists : gmap nat (list bytes);
  next_list : nat;
  path_table : gmap bytes PathRef;
  tunnels : gmap bytes TunnelRef
}.

(** A new list object holding [l]. *)
Definition alloc (s : Store) (l : list bytes) : Store * nat :=
  ({| lists := <[next_list s := l]> (lists s);
      next_list := S (next_list s);
      path_table := path_table s;
      tunnels := tunnels s |}, next_list s).

(** The list at [loc] replaced in place. *)
Definition update_list (s : Store) (loc : nat) (l : list bytes) : Store :=
  {| lists := <[loc := l]> (lists s);
     next_list := next_list s;
     path_table := path_table s;
     tunnels := tunnels s |}.

Definition set_path (s : Store) (dst : bytes) (e : PathRef) : Store :=
  {| lists := lists s;
     next_list := next_list s;
     path_table := <[dst := e]> (path_table s);
     tunnels := tunnels s |}.

Definition set_tunnel (s : Store) (tid : bytes) (t : TunnelRef) : Store :=
  {| lists := lists s;
     next_list := next_list s;
     path_table := path_table s;
     tunnels := <[tid := t]> (tunnels s) |}.

(** The blobs a path entry refers to. *)
Definition blobs_of (s : Store) (e : PathRef) : list bytes :=
  default [] (lists s !! PR_RANDBLOBS e).

(** What an admitted announce writes (lines 1521-1523, 1645-1647 and
    1776-1787): [random_blobs] is the list object of the stored entry, or
    a new empty list; a new blob is appended to that object in place, and
    a slice of it (a new object) goes into the new path entry and into
    its copy under the tunnel of the receiving interface.  The boolean
    tells whether the [KeyError] of a tunnel ID that is not in the tunnel
    table was raised; the path entry is written by then. *)
Definition announce_write (s : Store) (dst random_blob received_from : bytes)
    (announce_hops now : Z) (receiving_interface : Interface)
    (packet_hash : bytes) : Store * bool :=
  let '(s1, random_blobs) :=
    match path_table s !! dst with
    | Some e => (s, PR_RANDBLOBS e)
    | None => alloc s []
    end in
  let current := default [] (lists s1 !! random_blobs) in
  let '(s2, random_blobs) :=
    if bool_decide (random_blob ∈ current) then (s1, random_blobs)
    else
      alloc (update_list s1 random_blobs (current ++ [random_blob]))
            (last_n MAX_RANDOM_BLOBS (current ++ [random_blob])) in
  let expires := path_expiry receiving_interface now in
  let s3 :=
    set_path s2 dst
      {| PR_TIMESTAMP := now;
         PR_NEXT_HOP := received_from;
         PR_HOPS := announce_hops;
         PR_EXPIRES := expires;
         PR_RANDBLOBS := random_blobs;
         PR_RVCD_IF := Some receiving_interface;
         PR_PACKET := packet_hash |} in
  match tunnel_id receiving_interface with
  | Some tid =>
      match tunnels s3 !! tid with
      | Some tunnel_entry =>
          (set_tunnel s3 tid
             {| TR_IF := TR_IF tunnel_entry;
                TR_PATHS :=
                  <[dst := {| PR_TIMESTAMP := now;
                              PR_NEXT_HOP := received_from;
                              PR_HOPS := announce_hops;
                              PR_EXPIRES := expires;
                              PR_RANDBLOBS := random_blobs;
                              PR_RVCD_IF := None;
                              PR_PACKET := packet_hash |}]>
                    (TR_PATHS tunnel_entry);
                TR_EXPIRES := now + DESTINATION_TIMEOUT |}, false)
      | None => (s3, true)
      end
  | None => (s3, false)
  end.

(** One path of a reappearing tunnel (lines 2086-2111): it is put back
    into the path table, with a new list of its distinct blobs (Python's
    [list(set(...))], whose order is not fixed), when it has no more hops
    than the entry in the table or that entry has expired; otherwise it
    is taken out of the tunnel. *)
Definition restore_path (interface : Interface) (now : Z)
    (acc : Store * gmap bytes PathRef) (kv : bytes * PathRef)
  : Store * gmap bytes PathRef :=
  let '(s, paths) := acc in
  let '(destination_hash, path_entry) := kv in
  let '(s1, random_blobs) := alloc s (remove_dups (blobs_of s path_entry)) in
  let new_entry :=
    {| PR_TIMESTAMP := now;
       PR_NEXT_HOP := PR_NEXT_HOP path_entry;
       PR_HOPS := PR_HOPS path_entry;
       PR_EXPIRES := PR_EXPIRES path_entry;
       PR_RANDBLOBS := random_blobs;
       PR_RVCD_IF := Some interface;
       PR_PACKET := PR_PACKET path_entry |} in
  let should_add :=
    match path_table s1 !! destination_hash with
    | Some old_entry =>
        (PR_HOPS path_entry <=? PR_HOPS old_entry) ||
        (PR_EXPIRES old_entry <? now)
    | None => now <? PR_EXPIRES path_entry
    end in
  if should_add then (set_path s1 destination_hash new_entry, paths)
  else (s1, delete destination_hash paths).

(** [Transport.handle_tunnel(tunnel_id, interface)] (line 2069).  The
    interface gets the tunnel ID as its attribute. *)
Definition handle_tunnel (s : Store) (tunnel_id : bytes)
    (interface : Interface) (now : Z) : Store :=
  let interface :=
    {| if_name := if_name interface;
       get_hash := get_hash interface;
       mode := mode interface;
       HW_MTU := HW_MTU interface;
       AUTOCONFIGURE_MTU := AUTOCONFIGURE_MTU interface;
       FIXED_MTU := FIXED_MTU interface;
       Transport.tunnel_id := Some tunnel_id |} in
  let expires := now + DESTINATION_TIMEOUT in
  match tunnels s !! tunnel_id with
  | None =>
      set_tunnel s tunnel_id
        {| TR_IF := Some interface; TR_PATHS := ∅; TR_EXPIRES := expires |}
  | Some tunnel_entry =>
      let '(s1, paths) :=
        fold_left (restore_path interface now)
          (map_to_list (TR_PATHS tunnel_entry))
          (s, TR_PATHS tunnel_entry) in
      set_tunnel s1 tunnel_id
        {| TR_IF := Some interface; TR_PATHS := paths; TR_EXPIRES := expires |}
  end.

(** [announce_write] for a run of admitted announces for one
    destination, with the blobs of [ts] in turn. *)
Definition announce_run (mk_blob : Z -> bytes) (dst received_from : bytes)
    (announce_hops now : Z) (receiving_interface : Interface)
    (s : Store) (ts : list Z) : Store :=
  fold_left
    (fun s t =>
       fst (announce_write s dst (mk_blob t) received_from announce_hops now
              receiving_interface (repeat t 32)))
    ts s.

End BlobStore.

(** ** Concrete interfaces, packets and tables to run the model on *)

Module Examples.
Import Transport.

Definition IF1 : Interface :=
  {| if_name := 1; get_hash := [1]; mode := Some MODE_FULL;
     HW_MTU := None; AUTOCONFIGURE_MTU := false; FIXED_MTU := false;
     tunnel_id := None |}.

Definition IF2 : Interface :=
  {| if_name := 2; get_hash := [2]; mode := Some MODE_FULL;
     HW_MTU := Some 500; AUTOCONFIGURE_MTU := true; FIXED_MTU := false;
     tunnel_id := None |}.

Definition self_id : bytes := repeat 17 16.
Definition hash_aa : bytes := repeat 170 16.
Definition hash_bb : bytes := repeat 187 16.
Definition hash_cc : bytes := repeat 204 16.

(** A transport node with two interfaces and empty tables. *)
Definition node : State :=
  {| is_connected_to_shared_instance := false;
     transport_enabled := true;
     identity_hash := self_id;
     interfaces := [IF1; IF2];
     local_client_interfaces := [];
     destinations := [];
     packet_hashlist := ∅;
     packet_hashlist_prev := ∅;
     path_table := ∅;
     reverse_table := ∅;
     link_table := ∅;
     path_states := ∅;
     tunnels := ∅ |}.

(** A client of a shared instance. *)
Definition shared_client : State :=
  {| is_connected_to_shared_instance := true;
     transport_enabled := false;
     identity_hash := self_id;
     interfaces := [IF1];
     local_client_interfaces := [];
     destinations := [];
     packet_hashlist := ∅;
     packet_hashlist_prev := ∅;
     path_table := ∅;
     reverse_table := ∅;
     link_table := ∅;
     path_states := ∅;
     tunnels := ∅ |}.

(** A data packet for [hash_aa] with a one-address header, as received
    on [IF1] after one hop. *)
Definition data_packet : Packet :=
  {| raw := [0; 0] ++ hash_aa ++ [0; 104; 105];
     packet_hash := repeat 1 32;
     getTruncatedHash := repeat 1 16;
     packet_type := DATA;
     context := NONE;
     header_type := HEADER_1;
     flags := 0;
     transport_type := BROADCAST;
     transport_id := None;
     destination_hash := hash_aa;
     destination_type := SINGLE;
     destination := Some {| d_hash := hash_aa; d_type := SINGLE |};
     hops := 1;
     data := [104; 105];
     receiving_interface := IF1 |}.

(** An announce for [hash_cc] whose hash is [h]. *)
Definition announce_packet (h : bytes) (dt : DestinationType) : Packet :=
  {| raw := [1; 0] ++ hash_cc ++ [0];
     packet_hash := h;
     getTruncatedHash := take 16 h;
     packet_type := ANNOUNCE;
     context := NONE;
     header_type := HEADER_1;
     flags := 1;
     transport_type := BROADCAST;
     transport_id := None;
     destination_hash := hash_cc;
     destination_type := dt;
     destination := None;
     hops := 1;
     data := [];
     receiving_interface := IF1 |}.

(** The same packet with a two-address header. *)
Definition data_packet_header2 : Packet :=
  {| raw := [64; 0] ++ hash_bb ++ hash_aa ++ [0; 104; 105];
     packet_hash := repeat 1 32;
     getTruncatedHash := repeat 1 16;
     packet_type := DATA;
     context := NONE;
     header_type := HEADER_2;
     flags := 64;
     transport_type := BROADCAST;
     transport_id := Some hash_bb;
     destination_hash := hash_aa;
     destination_type := SINGLE;
     destination := Some {| d_hash := hash_aa; d_type := SINGLE |};
     hops := 0;
     data := [104; 105];
     receiving_interface := IF1 |}.

(** A path to [hash_aa] over [IF1] via [hash_bb], confirmed at time 100. *)
Definition path_entry (hops : Z) (random_blobs : list bytes) : PathEntry :=
  {| PT_TIMESTAMP := 100;
     PT_NEXT_HOP := hash_bb;
     PT_HOPS := hops;
     PT_EXPIRES := 100 + PATHFINDER_E;
     PT_RANDBLOBS := random_blobs;
     PT_RVCD_IF := IF1;
     PT_PACKET := repeat 7 32 |}.

Definition node_with_path (hops : Z) (random_blobs : list bytes) : State :=
  set_path_table node {[hash_aa := path_entry hops random_blobs]}.

(** The same node with transport switched off. *)
Definition plain_node_with_path (hops : Z) : State :=
  {| is_connected_to_shared_instance := false;
     transport_enabled := false;
     identity_hash := self_id;
     interfaces := [IF1; IF2];
     local_client_interfaces := [];
     destinations := [];
     packet_hashlist := ∅;
     packet_hashlist_prev := ∅;
     path_table := {[hash_aa := path_entry hops []]};
     reverse_table := ∅;
     link_table := ∅;
     path_states := ∅;
     tunnels := ∅ |}.

(** Stand-ins for the helpers of the link module, to run the model on:
    a link request carries 64 bytes of keys and may carry three bytes of
    MTU signalling after them. *)
Definition demo_LINK_MTU_SIZE : nat := 3.
Definition demo_ESTABLISHMENT_TIMEOUT_PER_HOP : Z := 6.

Definition demo_mtu_from_lr_packet (packet : Packet) : option Z :=
  if (length (data packet) =? 64 + 3)%nat
  then Some (int_from_bytes_big (drop 64 (data packet)))
  else None.

Definition demo_mode_from_lr_packet (packet : Packet) : Z := 1.

Definition demo_signalling_bytes (mtu mode : Z) : option bytes :=
  if (0 <=? mtu) && (mtu <? 2097152)
  then Some [(mtu / 65536) mod 256; (mtu / 256) mod 256; mtu mod 256]
  else None.

Definition demo_link_id_from_lr_packet (packet : Packet) : bytes :=
  take 16 (packet_hash packet).

Definition demo_extra_link_proof_timeout (i : Interface) : option Z := Some 0.

(** An empty packet cache: no cache request is answered from it. *)
Definition demo_cache_request_packet (st : State) (packet : Packet)
  : option Outcome := None.

(** A packet in transport through this node, for [hash_aa], received on
    [IF2] after one hop: two-address header, this node's ID as transport
    ID. *)
Definition transit_packet (t : PacketType) (c : Context) (first : Z)
    (payload : bytes) : Packet :=
  {| raw := [first; 0] ++ self_id ++ hash_aa ++ [0] ++ payload;
     packet_hash := repeat 5 32;
     getTruncatedHash := repeat 5 16;
     packet_type := t;
     context := c;
     header_type := HEADER_2;
     flags := first;
     transport_type := TRANSPORT;
     transport_id := Some self_id;
     destination_hash := hash_aa;
     destination_type := SINGLE;
     destination := None;
     hops := 1;
     data := payload;
     receiving_interface := IF2 |}.

(** A link request with MTU signalling for 500 bytes. *)
Definition link_request : Packet :=
  transit_packet LINKREQUEST NONE 82 (repeat 3 64 ++ [0; 1; 244]).

(** Stand-ins for the identity module: signatures are 64 bytes, public
    keys 64 bytes, and a signature is 64 copies of the sum of the signed
    bytes modulo 256. *)
Definition demo_SIGLENGTH : nat := 512.
Definition demo_ECPUBSIZE : nat := 64.
Definition demo_KEYSIZE : nat := 512.
Definition demo_NAME_HASH_LENGTH : nat := 80.

Definition demo_signature (signed_data : bytes) : bytes :=
  repeat (IFAC.sum_bytes signed_data mod 256) 64.

Definition demo_identity : Identity :=
  {| get_public_key := repeat 8 32 ++ repeat 9 32;
     validate := fun signature signed_data =>
                   bytes_eqb signature (demo_signature signed_data) |}.

Definition demo_recall (destination_hash : bytes) : option Identity :=
  if bytes_eqb destination_hash hash_aa then Some demo_identity else None.

Definition demo_mtu_from_lp_packet (packet : Packet) : option Z :=
  if (length (data packet) =? 64 + 32 + 3)%nat
  then Some (int_from_bytes_big (drop 96 (data packet)))
  else None.

Definition demo_mode_from_lp_packet (packet : Packet) : Z := 1.

(** A link through this node, requested on [IF2] and sent on over [IF1]
    with three hops to go; its link ID is [hash_cc]. *)
Definition link_entry : LinkEntry :=
  {| LT_TIMESTAMP := 100;
     LT_NH_TRID := hash_bb;
     LT_NH_IF := IF1;
     LT_REM_HOPS := 3;
     LT_RCVD_IF := IF2;
     LT_HOPS := 1;
     LT_DSTHASH := hash_aa;
     LT_VALIDATED := false;
     LT_PROOF_TMO := 130 |}.

Definition node_with_link : State :=
  set_link_table node {[hash_cc := link_entry]}.

(** A reverse entry for a packet that came in on [IF2] and went out on
    [IF1]; its truncated hash is [repeat 5 16]. *)
Definition reverse_entry : ReverseEntry :=
  {| RT_RCVD_IF := IF2; RT_OUTB_IF := IF1; RT_TIMESTAMP := 100 |}.

Definition node_with_reverse : State :=
  set_reverse_table node {[repeat 5 16 := reverse_entry]}.

(** A proof packet for [dst], received on [i] with hop count [h]. *)
Definition proof_packet (c : Context) (dst payload : bytes) (i : Interface)
    (h : Z) : Packet :=
  {| raw := [15; h - 1] ++ dst ++ [0] ++ payload;
     packet_hash := repeat 6 32;
     getTruncatedHash := repeat 6 16;
     packet_type := PROOF;
     context := c;
     header_type := HEADER_1;
     flags := 15;
     transport_type := BROADCAST;
     transport_id := None;
     destination_hash := dst;
     destination_type := LINK;
     destination := None;
     hops := h;
     data := payload;
     receiving_interface := i |}.

(** The data of a link proof for the link [hash_cc]: the signature over
    link ID, peer key and the signing half of the destination's key,
    then the peer key. *)
Definition lrproof_data : bytes :=
  demo_signature (hash_cc ++ repeat 4 32 ++ repeat 9 32) ++ repeat 4 32.

(** A client of a shared instance that knows [hash_aa] as a destination
    of that instance: a path of no hops over [IF1], its interface to
    the shared instance. *)
Definition client_with_local_path : State :=
  set_path_table shared_client {[hash_aa := path_entry 0 []]}.

(** A link request for [hash_aa] with a one-address header, as that
    client receives it over [IF1]: hop byte 0, and the hop over the
    interface to the shared instance is not counted. *)
Definition client_link_request : Packet :=
  {| raw := [2; 0] ++ hash_aa ++ [0] ++ repeat 3 64;
     packet_hash := repeat 5 32;
     getTruncatedHash := repeat 5 16;
     packet_type := LINKREQUEST;
     context := NONE;
     header_type := HEADER_1;
     flags := 2;
     transport_type := BROADCAST;
     transport_id := None;
     destination_hash := hash_aa;
     destination_type := SINGLE;
     destination := None;
     hops := 0;
     data := repeat 3 64;
     receiving_interface := IF1 |}.

(** The proof of the link that request opens, as the client receives it
    over [IF1]: the signature over link ID, peer key and the signing
    half of the destination's key, then the peer key. *)
Definition client_lrproof : Packet :=
  {| raw := [15; 0] ++ repeat 5 16 ++ [0] ++
            demo_signature (repeat 5 16 ++ repeat 4 32 ++ repeat 9 32) ++
            repeat 4 32;
     packet_hash := repeat 6 32;
     getTruncatedHash := repeat 6 16;
     packet_type := PROOF;
     context := LRPROOF;
     header_type := HEADER_1;
     flags := 15;
     transport_type := BROADCAST;
     transport_id := None;
     destination_hash := repeat 5 16;
     destination_type := LINK;
     destination := None;
     hops := 0;
     data := demo_signature (repeat 5 16 ++ repeat 4 32 ++ repeat 9 32) ++
             repeat 4 32;
     receiving_interface := IF1 |}.

Definition local_flags_off : LocalFlags :=
  {| from_local_client := false;
     for_local_client := false;
     for_local_client_link := false;
     proof_for_local_client := false |}.

(** A random blob whose emission timebase is [t] (below 256). *)
Definition blob (t : Z) : bytes := repeat 0 9 ++ [t].

(** An announce for [hash_aa] emitted at timebase [t], received on [IF1]
    with hop count [h]: key and name hash, then the random blob. *)
Definition announce_for_aa (t h : Z) : Packet :=
  {| raw := [1; h - 1] ++ hash_aa ++ [0] ++ repeat 0 74 ++ blob t;
     packet_hash := repeat t 32;
     getTruncatedHash := repeat t 16;
     packet_type := ANNOUNCE;
     context := NONE;
     header_type := HEADER_1;
     flags := 1;
     transport_type := BROADCAST;
     transport_id := None;
     destination_hash := hash_aa;
     destination_type := SINGLE;
     destination := None;
     hops := h;
     data := repeat 0 74 ++ blob t;
     receiving_interface := IF1 |}.

(** The path to [hash_aa] marked unresponsive. *)
Definition unresponsive (st : State) : State :=
  set_path_states st {[hash_aa := STATE_UNRESPONSIVE]}.

(** The blobs with timebases 1 to [n]. *)
Definition blobs_upto (n : nat) : list bytes :=
  map (fun i => blob (Z.of_nat i)) (seq 1 n).

(** An interface bound to the tunnel [repeat 14 32], and a store in
    which that tunnel is known and has no paths yet. *)
Definition IF_T : Interface :=
  {| if_name := 3; get_hash := [3]; mode := Some MODE_FULL;
     HW_MTU := None; AUTOCONFIGURE_MTU := false; FIXED_MTU := false;
     tunnel_id := Some (repeat 14 32) |}.

Definition tunnel_store : BlobStore.Store :=
  {| BlobStore.lists := ∅;
     BlobStore.next_list := 0;
     BlobStore.path_table := ∅;
     BlobStore.tunnels :=
       {[repeat 14 32 :=
           {| BlobStore.TR_IF := Some IF_T;
              BlobStore.TR_PATHS := ∅;
              BlobStore.TR_EXPIRES := 1000000 |}]} |}.

(** Sixty-four announces for [hash_aa] heard over the tunnel interface,
    then a sixty-fifth heard over [IF2], then the tunnel reappearing.
    The hops are the same and the timebases go up from 1 to 65, so each
    announce is one that the admission test lets in. *)
Definition after_64_on_tunnel : BlobStore.Store :=
  BlobStore.announce_run blob hash_aa hash_bb 2 100 IF_T tunnel_store
    (map Z.of_nat (seq 1 64)).

Definition after_65th_elsewhere : BlobStore.Store :=
  fst (BlobStore.announce_write after_64_on_tunnel hash_aa (blob 65) hash_bb
         2 200 IF2 (repeat 65 32)).

Definition after_tunnel_reappears : BlobStore.Store :=
  BlobStore.handle_tunnel after_65th_elsewhere (repeat 14 32) IF_T 300.

(** The handlers with the stand-ins filled in. *)
Abbreviation demo_inbound_transport :=
  (inbound_transport demo_LINK_MTU_SIZE
     demo_ESTABLISHMENT_TIMEOUT_PER_HOP
     demo_mtu_from_lr_packet demo_mode_from_lr_packet
     demo_signalling_bytes demo_link_id_from_lr_packet
     demo_extra_link_proof_timeout demo_cache_request_packet).

Abbreviation demo_inbound_lrproof :=
  (inbound_lrproof demo_SIGLENGTH demo_ECPUBSIZE
     demo_LINK_MTU_SIZE demo_recall
     demo_mtu_from_lp_packet demo_mode_from_lp_packet
     demo_signalling_bytes).

Abbreviation demo_inbound_proof :=
  (inbound_proof demo_SIGLENGTH demo_ECPUBSIZE
     demo_LINK_MTU_SIZE demo_recall
     demo_mtu_from_lp_packet demo_mode_from_lp_packet
     demo_signalling_bytes).

Abbreviation demo_announce_should_add :=
  (announce_should_add demo_KEYSIZE demo_NAME_HASH_LENGTH).

Abbreviation demo_random_blob_of :=
  (random_blob_of demo_KEYSIZE demo_NAME_HASH_LENGTH).

Abbreviation demo_announce_emitted :=
  (announce_emitted demo_KEYSIZE demo_NAME_HASH_LENGTH).

End Examples.

(** ** Paths: queries and states (lines 2303-2416) *)

Module Paths.
Import Transport.

(** [Transport.has_path(destination_hash)]. *)
Definition has_path (st : State) (destination_hash : bytes) : bool :=
  match path_table st !! destination_hash with
  | Some _ => true
  | None => false
  end.

(** [Transport.hops_to(destination_hash)]. *)
Definition hops_to (st : State) (destination_hash : bytes) : Z :=
  match path_table st !! destination_hash with
  | Some e => PT_HOPS e
  | None => PATHFINDER_M
  end.

(** [Transport.next_hop(destination_hash)]. *)
Definition next_hop (st : State) (destination_hash : bytes) : option bytes :=
  match path_table st !! destination_hash with
  | Some e => Some (PT_NEXT_HOP e)
  | None => None
  end.

(** [Transport.next_hop_interface(destination_hash)]. *)
Definition next_hop_interface (st : State) (destination_hash : bytes)
  : option Interface :=
  match path_table st !! destination_hash with
  | Some e => Some (PT_RVCD_IF e)
  | None => None
  end.

(** [Transport.next_hop_interface_hw_mtu(destination_hash)]. *)
Definition next_hop_interface_hw_mtu (st : State) (destination_hash : bytes)
  : option Z :=
  match next_hop_interface st destination_hash with
  | Some next_hop_interface =>
      if AUTOCONFIGURE_MTU next_hop_interface || FIXED_MTU next_hop_interface
      then HW_MTU next_hop_interface
      else None
  | None => None
  end.

(** [Transport.expire_path(destination_hash)]: the returned boolean, the
    state, and [Transport.tables_last_culled], which the state record
    does not hold. *)
Definition expire_path (st : State) (tables_last_culled : Z)
    (destination_hash : bytes) : bool * State * Z :=
  match path_table st !! destination_hash with
  | Some _ =>
      (true,
       set_path_table st
         (alter (touch_path 0) destination_hash (path_table st)),
       0)
  | None => (false, st, tables_last_culled)
  end.

(** [Transport.mark_path_unresponsive(destination_hash)]. *)
Definition mark_path_unresponsive (st : State) (destination_hash : bytes)
  : bool * State :=
  match path_table st !! destination_hash with
  | Some _ =>
      (true,
       set_path_states st
         (<[destination_hash := STATE_UNRESPONSIVE]> (path_states st)))
  | None => (false, st)
  end.

(** [Transport.mark_path_responsive(destination_hash)]. *)
Definition mark_path_responsive (st : State) (destination_hash : bytes)
  : bool * State :=
  match path_table st !! destination_hash with
  | Some _ =>
      (true,
       set_path_states st
         (<[destination_hash := STATE_RESPONSIVE]> (path_states st)))
  | None => (false, st)
  end.

End Paths.

(** ** The periodic jobs (lines 394-793) *)

Module Jobs.
Import Transport Paths.

(** Class attributes and constants the jobs read (lines 80-154).  Times
    are whole seconds, as in the rest of the model. *)
Definition PATH_REQUEST_MI : Z := 20.
Definition REVERSE_TIMEOUT : Z := 8 * 60.
Definition max_pr_tags : Z := 32000.
Definition hashlist_maxsize : Z := 1000000.
Definition tables_cull_interval : Z := 5.

(** *** The list of active links (lines 431-433) *)

(** A link object as the loop sees it: [link_name] stands for the
    identity of the object, [is_closed] for
    [link.status == RNS.Link.CLOSED]. *)
Record LinkObject := {
  link_name : nat;
  is_closed : bool
}.

#[global] Instance LinkObject_eq_dec : EqDecision LinkObject.
Proof. solve_decision. Defined.

(** [l.remove(x)] for an [x] that is in [l]: the first item equal to
    [x] goes. *)
Fixpoint remove_first {A} `{EqDecision A} (x : A) (l : list A) : list A :=
  match l with
  | [] => []
  | y :: rest => if decide (x = y) then rest else y :: remove_first x rest
  end.

(** [for link in Transport.active_links: if link.status == CLOSED:
    Transport.active_links.remove(link)].  A Python [for] over a list
    reads the item at a running index until the index reaches the
    current length, also when the body changes the list.  [fuel] bounds
    the number of items read. *)
Fixpoint cull_links_from (fuel idx : nat) (links : list LinkObject)
  : list LinkObject :=
  match fuel with
  | O => links
  | S fuel' =>
      match links !! idx with
      | None => links
      | Some link =>
          cull_links_from fuel' (S idx)
            (if is_closed link then remove_first link links else links)
      end
  end.

(** The list never grows, so [len(links)] reads are enough. *)
Definition cull_active_links (links : list LinkObject) : list LinkObject :=
  cull_links_from (length links) 0 links.

(** *** The packet hashlist (lines 514-517) *)

Definition set_packet_hashlists (st : State) (current prev : gset bytes)
  : State :=
  {| is_connected_to_shared_instance := is_connected_to_shared_instance st;
     transport_enabled := transport_enabled st;
     identity_hash := identity_hash st;
     interfaces := interfaces st;
     local_client_interfaces := local_client_interfaces st;
     destinations := destinations st;
     packet_hashlist := current;
     packet_hashlist_prev := prev;
     path_table := path_table st;
     reverse_table := reverse_table st;
     link_table := link_table st;
     path_states := path_states st;
     tunnels := tunnels st |}.

(** The current generation becomes the previous one when it holds more
    than [hashlist_maxsize//2] hashes. *)
Definition cull_packet_hashlist (st : State) : State :=
  if hashlist_maxsize / 2 <? Z.of_nat (size (packet_hashlist st))
  then set_packet_hashlists st ∅ (packet_hashlist st)
  else st.

(** *** The tags of path requests (lines 527-529) *)

(** [tags[len(tags)-max_pr_tags : len(tags)-1]] when there are more
    than [max_pr_tags] tags. *)
Definition cull_pr_tags (discovery_pr_tags : list bytes) : list bytes :=
  if max_pr_tags <? Z.of_nat (length discovery_pr_tags)
  then slice (length discovery_pr_tags - Z.to_nat max_pr_tags)
             (length discovery_pr_tags - 1) discovery_pr_tags
  else discovery_pr_tags.

(** *** The tables (lines 531-753) *)

Section WithLinkTimeout.

(** [Transport.LINK_TIMEOUT] is [RNS.Link.STALE_TIME * 1.25]; the link
    module lies outside the source file. *)
Variable LINK_TIMEOUT : Z.

(** Lines 541-547: is a reverse entry stale? *)
Definition reverse_entry_stale (st : State) (now : Z)
    (reverse_entry : ReverseEntry) : bool :=
  if RT_TIMESTAMP reverse_entry + REVERSE_TIMEOUT <? now then true
  else if negb (bool_decide (RT_OUTB_IF reverse_entry ∈ interfaces st))
  then true
  else if negb (bool_decide (RT_RCVD_IF reverse_entry ∈ interfaces st))
  then true
  else false.

(** What the loop over the link table carries: the state, the keys of
    the stale links, the path requests collected for sending after the
    jobs (the local [path_requests], a dictionary, in insertion order)
    and the local [blocked_if]. *)
Record LinkCull := {
  lc_state : State;
  lc_stale_links : list bytes;
  lc_path_requests : list (bytes * option Interface);
  lc_blocked_if : option Interface
}.

(** Lines 606-608 and 619-621: on a transport instance the path is
    marked unresponsive, unless the link request came in on a
    boundary-mode interface. *)
Definition mark_unresponsive_for (st : State) (link_entry : LinkEntry)
  : State :=
  if transport_enabled st then
    match mode (LT_RCVD_IF link_entry) with
    | Some m =>
        if negb (bool_decide (m = MODE_BOUNDARY))
        then snd (mark_path_unresponsive st (LT_DSTHASH link_entry))
        else st
    | None => st
    end
  else st.

(** Lines 552-631: one link of the link table.
    [Transport_path_requests] is the class attribute
    [Transport.path_requests], the times of the last path requests. *)
Definition cull_link (Transport_path_requests : gmap bytes Z) (now : Z)
    (acc : LinkCull) (link_id : bytes) : LinkCull :=
  let st := lc_state acc in
  match link_table st !! link_id with
  | None => acc
  | Some link_entry =>
      if LT_VALIDATED link_entry then
        if (LT_TIMESTAMP link_entry + LINK_TIMEOUT <? now) ||
           negb (bool_decide (LT_NH_IF link_entry ∈ interfaces st)) ||
           negb (bool_decide (LT_RCVD_IF link_entry ∈ interfaces st))
        then {| lc_state := st;
                lc_stale_links := lc_stale_links acc ++ [link_id];
                lc_path_requests := lc_path_requests acc;
                lc_blocked_if := lc_blocked_if acc |}
        else acc
      else if LT_PROOF_TMO link_entry <? now then
        let dst := LT_DSTHASH link_entry in
        let last_path_request :=
          default 0 (Transport_path_requests !! dst) in
        let lr_taken_hops := LT_HOPS link_entry in
        let path_request_throttle :=
          now - last_path_request <? PATH_REQUEST_MI in
        let '(path_request_conditions, blocked_if, st1) :=
          if negb (has_path st dst) then (true, lc_blocked_if acc, st)
          else if negb path_request_throttle && (lr_taken_hops =? 0)
          then (true, lc_blocked_if acc, st)
          else if negb path_request_throttle && (hops_to st dst =? 1)
          then (true, Some (LT_RCVD_IF link_entry),
                mark_unresponsive_for st link_entry)
          else if negb path_request_throttle && (lr_taken_hops =? 1)
          then (true, Some (LT_RCVD_IF link_entry),
                mark_unresponsive_for st link_entry)
          else (false, lc_blocked_if acc, st) in
        if path_request_conditions then
          {| lc_state :=
               if negb (transport_enabled st1)
               then snd (fst (expire_path st1 0 dst))
               else st1;
             lc_stale_links := lc_stale_links acc ++ [link_id];
             lc_path_requests :=
               if bool_decide (dst ∈ map fst (lc_path_requests acc))
               then lc_path_requests acc
               else lc_path_requests acc ++ [(dst, blocked_if)];
             lc_blocked_if := blocked_if |}
        else
          {| lc_state := st1;
             lc_stale_links := lc_stale_links acc ++ [link_id];
             lc_path_requests := lc_path_requests acc;
             lc_blocked_if := blocked_if |}
      else acc
  end.

(** Lines 636-653: is a path stale?  The expiry is counted from the
    timestamp of the entry, by the mode of its interface. *)
Definition path_entry_stale (st : State) (now : Z)
    (destination_entry : PathEntry) : bool :=
  let attached_interface := PT_RVCD_IF destination_entry in
  let destination_expiry :=
    match mode attached_interface with
    | Some MODE_ACCESS_POINT =>
        PT_TIMESTAMP destination_entry + AP_PATH_TIME
    | Some MODE_ROAMING =>
        PT_TIMESTAMP destination_entry + ROAMING_PATH_TIME
    | _ => PT_TIMESTAMP destination_entry + DESTINATION_TIMEOUT
    end in
  if destination_expiry <? now then true
  else if negb (bool_decide (attached_interface ∈ interfaces st)) then true
  else false.

(** Lines 668-692: one tunnel.  [None] when the tunnel is stale; a
    tunnel that stays loses an interface that no longer exists and the
    paths older than [DESTINATION_TIMEOUT]. *)
Definition cull_tunnel (st : State) (now : Z) (tunnel_entry : TunnelEntry)
  : option TunnelEntry :=
  if TT_EXPIRES tunnel_entry <? now then None
  else
    Some {| TT_TUNNEL_ID := TT_TUNNEL_ID tunnel_entry;
            TT_IF :=
              match TT_IF tunnel_entry with
              | Some i =>
                  if negb (bool_decide (i ∈ interfaces st)) then None
                  else Some i
              | None => None
              end;
            TT_PATHS :=
              filter
                (fun kv : bytes * TunnelPath =>
                   Is_true
                     (negb (TP_TIMESTAMP kv.2 + DESTINATION_TIMEOUT <? now)))
                (TT_PATHS tunnel_entry);
            TT_EXPIRES := TT_EXPIRES tunnel_entry |}.

(** Lines 532-753: the cull of the tables.  [path_requests] is the
    local dictionary of that name as the earlier parts of the jobs have
    left it, and [link_ids] the order in which the link table yields its
    keys.  The stale path states are listed first, from the path states
    and the path table as they are before anything is removed; the loop
    over the links runs before the paths are looked at, so a path it
    expires is removed in the same run.  The result is the state and the
    path requests to send.  The table of waiting discovery path requests
    (lines 655-663), which no other table depends on, is not part of the
    state. *)
Definition cull_tables (st : State) (Transport_path_requests : gmap bytes Z)
    (path_requests : list (bytes * option Interface))
    (link_ids : list bytes) (now : Z)
  : State * list (bytes * option Interface) :=
  let stale_path_states :=
    filter (fun destination_hash => path_table st !! destination_hash = None)
      (map fst (map_to_list (path_states st))) in
  let lc :=
    fold_left (cull_link Transport_path_requests now) link_ids
      {| lc_state := st; lc_stale_links := [];
         lc_path_requests := path_requests; lc_blocked_if := None |} in
  let st1 := lc_state lc in
  let st2 :=
    set_tunnels st1 (omap (cull_tunnel st1 now) (tunnels st1)) in
  let st3 :=
    set_reverse_table st2
      (filter
         (fun kv : bytes * ReverseEntry =>
            Is_true (negb (reverse_entry_stale st now kv.2)))
         (reverse_table st2)) in
  let st4 :=
    set_link_table st3
      (fold_left (fun t link_id => delete link_id t) (lc_stale_links lc)
         (link_table st3)) in
  let st5 :=
    set_path_table st4
      (filter
         (fun kv : bytes * PathEntry =>
            Is_true (negb (path_entry_stale st1 now kv.2)))
         (path_table st4)) in
  let st6 :=
    set_path_states st5
      (fold_left (fun t destination_hash => delete destination_hash t)
         stale_path_states (path_states st5)) in
  (st6, lc_path_requests lc).

(** Lines 531 and 753: the cull runs when the last one is more than
    [tables_cull_interval] ago, and notes its time. *)
Definition jobs_cull_tables (st : State)
    (Transport_path_requests : gmap bytes Z)
    (path_requests : list (bytes * option Interface))
    (link_ids : list bytes) (tables_last_culled now : Z)
  : State * Z * list (bytes * option Interface) :=
  if tables_last_culled + tables_cull_interval <? now then
    let '(st', path_requests') :=
      cull_tables st Transport_path_requests path_requests link_ids now in
    (st', now, path_requests')
  else (st, tables_last_culled, path_requests).

End WithLinkTimeout.

End Jobs.

(** ** Inbound: link transport *)

Module Inbound.
Import Transport.

(** [Transport.link_table[link_id][IDX_LT_TIMESTAMP] = now]. *)
Definition touch_link (now : Z) (e : LinkEntry) : LinkEntry :=
  {| LT_TIMESTAMP := now;
     LT_NH_TRID := LT_NH_TRID e;
     LT_NH_IF := LT_NH_IF e;
     LT_REM_HOPS := LT_REM_HOPS e;
     LT_RCVD_IF := LT_RCVD_IF e;
     LT_HOPS := LT_HOPS e;
     LT_DSTHASH := LT_DSTHASH e;
     LT_VALIDATED := LT_VALIDATED e;
     LT_PROOF_TMO := LT_PROOF_TMO e |}.

(** Lines 1429-1446: the interface a packet on a link goes out on, if
    any. *)
Definition link_outbound_interface (link_entry : LinkEntry) (packet : Packet)
  : option Interface :=
  if bool_decide (LT_NH_IF link_entry = LT_RCVD_IF link_entry) then
    if (hops packet =? LT_REM_HOPS link_entry) ||
       (hops packet =? LT_HOPS link_entry)
    then Some (LT_NH_IF link_entry)
    else None
  else if bool_decide (receiving_interface packet = LT_NH_IF link_entry) then
    if hops packet =? LT_REM_HOPS link_entry
    then Some (LT_RCVD_IF link_entry)
    else None
  else if bool_decide (receiving_interface packet = LT_RCVD_IF link_entry)
  then
    if hops packet =? LT_HOPS link_entry
    then Some (LT_NH_IF link_entry)
    else None
  else None.

(** The tests of lines 1260 and 1314 together: does the packet reach
    the transport handling of lines 1315-1458? *)
Definition transport_admits (st : State) (packet : Packet) : bool :=
  match filter_stage st packet with
  | Some st0 => transport_applies st0 (local_flags st0 packet)
  | None => false
  end.

Section WithLink.

(** The parameters of [inbound_transport]. *)
Variable LINK_MTU_SIZE : nat.
Variable ESTABLISHMENT_TIMEOUT_PER_HOP : Z.
Variable mtu_from_lr_packet : Packet -> option Z.
Variable mode_from_lr_packet : Packet -> Z.
Variable signalling_bytes : Z -> Z -> option bytes.
Variable link_id_from_lr_packet : Packet -> bytes.
Variable extra_link_proof_timeout : Interface -> option Z.
Variable cache_request_packet : State -> Packet -> option Outcome.

(** Lines 1260-1458 of [Transport.inbound], from the filter to the end
    of the link transport block.  Lines 1260-1419 are
    [inbound_transport]; when they end in a [return] or an exception the
    link transport block is not reached.  It lies under the filter of
    line 1260 and the test of line 1314, like the general transport
    block before it, and runs in the state that block leaves: a packet
    for a link of the link table is remembered and sent on over the
    other interface of the link. *)
Definition inbound_link_transport (st : State) (control_hashes : list bytes)
    (packet : Packet) (now : Z) : Outcome :=
  let general :=
    inbound_transport LINK_MTU_SIZE ESTABLISHMENT_TIMEOUT_PER_HOP
      mtu_from_lr_packet mode_from_lr_packet signalling_bytes
      link_id_from_lr_packet extra_link_proof_timeout cache_request_packet
      st control_hashes packet now in
  match out_status general with
  | Completed =>
      if transport_admits st packet then
        let st1 := out_state general in
        if negb (bool_decide (packet_type packet = ANNOUNCE)) &&
           negb (bool_decide (packet_type packet = LINKREQUEST)) &&
           negb (bool_decide (context packet = LRPROOF)) then
          match link_table st1 !! destination_hash packet with
          | Some link_entry =>
              match link_outbound_interface link_entry packet with
              | Some outbound_interface =>
                  let st2 := add_packet_hash st1 (packet_hash packet) in
                  match refresh_hops packet with
                  | Some new_raw =>
                      {| out_state :=
                           set_link_table st2
                             (alter (touch_link now) (destination_hash packet)
                                (link_table st2));
                         out_tx :=
                           out_tx general ++ [(outbound_interface, new_raw)];
                         out_status := Completed |}
                  | None =>
                      {| out_state := st2;
                         out_tx := out_tx general;
                         out_status := Raised |}
                  end
              | None => general
              end
          | None => general
          end
        else general
      else general
  | _ => general
  end.

End WithLink.

End Inbound.

(** ** Path requests: the request data and its handler *)

Module PathRequest.
Import Transport.

(** Lines 2427-2435 of [Transport.request_path]: the data of a path
    request.  [random_hash] is the value of
    [RNS.Identity.get_random_hash()], used when no tag is given. *)
Definition path_request_data (st : State) (destination_hash : bytes)
    (tag : option bytes) (random_hash : bytes) : bytes :=
  let request_tag :=
    match tag with
    | None => random_hash
    | Some t => t
    end in
  if transport_enabled st
  then destination_hash ++ identity_hash st ++ request_tag
  else destination_hash ++ request_tag.

(** The arguments of a call of [Transport.path_request]. *)
Record PathRequestCall := {
  pr_destination_hash : bytes;
  pr_is_from_local_client : bool;
  pr_attached_interface : Interface;
  pr_requestor_transport_id : option bytes;
  pr_tag : bytes
}.

Section WithLocalClients.

(** [Transport.is_local_client_interface(interface)] (line 2703) looks
    for attributes that the interface record does not hold. *)
Variable is_local_client_interface : Interface -> bool.

(** [Transport.from_local_client(packet)] (line 2696): both tests ask
    for the attribute [parent_interface]. *)
Definition packet_from_local_client (packet : Packet) : bool :=
  is_local_client_interface (receiving_interface packet).

(** [Transport.path_request_handler(data, packet)] (line 2523): the new
    value of [Transport.discovery_pr_tags], and the call of
    [Transport.path_request] if one is made. *)
Definition path_request_handler (discovery_pr_tags : list bytes)
    (data : bytes) (packet : Packet)
  : list bytes * option PathRequestCall :=
  let n := (TRUNCATED_HASHLENGTH / 8)%nat in
  if (n <=? length data)%nat then
    let destination_hash := take n data in
    let requesting_transport_instance :=
      if (n * 2 <? length data)%nat then Some (slice n (n * 2) data)
      else None in
    let tag_bytes :=
      if (n * 2 <? length data)%nat then Some (drop (n * 2) data)
      else if (n <? length data)%nat then Some (drop n data)
      else None in
    match tag_bytes with
    | Some tag_bytes =>
        let tag_bytes :=
          if (n <? length tag_bytes)%nat then take n tag_bytes
          else tag_bytes in
        let unique_tag := destination_hash ++ tag_bytes in
        if negb (bool_decide (unique_tag ∈ discovery_pr_tags)) then
          (discovery_pr_tags ++ [unique_tag],
           Some {| pr_destination_hash := destination_hash;
                   pr_is_from_local_client :=
                     packet_from_local_client packet;
                   pr_attached_interface := receiving_interface packet;
                   pr_requestor_transport_id :=
                     requesting_transport_instance;
                   pr_tag := tag_bytes |})
        else (discovery_pr_tags, None)
    | None => (discovery_pr_tags, None)
    end
  else (discovery_pr_tags, None).

End WithLocalClients.

(** *** [Transport.path_request] (lines 2573-2693) *)

Definition PATHFINDER_R : Z := 1.
Definition PATH_REQUEST_TIMEOUT : Z := 15.

(** An entry of [Transport.announce_table] (indices [IDX_AT_*]). *)
Record AnnounceEntry := {
  AT_TIMESTAMP : Z;
  AT_RTRNS_TMO : Z;
  AT_RETRIES : Z;
  AT_RCVD_IF : Interface;
  AT_HOPS : Z;
  AT_PACKET : Packet;
  AT_LCL_RBRD : Z;
  AT_BLCK_RBRD : bool;
  AT_ATTCHD_IF : option Interface
}.

(** An entry of [Transport.discovery_path_requests]. *)
Record DiscoveryEntry := {
  de_destination_hash : bytes;
  de_timeout : Z;
  de_requesting_interface : option Interface
}.

(** The tables [path_request] writes, which the state record does not
    hold. *)
Record RequestTables := {
  announce_table : gmap bytes AnnounceEntry;
  held_announces : gmap bytes AnnounceEntry;
  pending_local_path_requests : gmap bytes (option Interface);
  discovery_path_requests : gmap bytes DiscoveryEntry
}.

(** What [path_request] asks of others: an announce of a destination of
    this instance as a path response, and calls of
    [Transport.request_path]. *)
Inductive RequestAction :=
| AnnounceLocal (destination_hash : bytes) (tag : option bytes)
    (attached_interface : option Interface)
| RequestPath (destination_hash : bytes) (on_interface : option Interface)
    (tag : option bytes) (recursive : bool).

#[global] Instance RequestAction_eq_dec : EqDecision RequestAction.
Proof. solve_decision. Defined.

Record PathRequestResult := {
  prr_tables : RequestTables;
  prr_actions : list RequestAction;
  prr_status : Status
}.

(** [packet.hops = hops] on a packet read from the cache. *)
Definition set_hops (packet : Packet) (hops : Z) : Packet :=
  {| raw := raw packet;
     packet_hash := packet_hash packet;
     getTruncatedHash := getTruncatedHash packet;
     packet_type := packet_type packet;
     context := context packet;
     header_type := header_type packet;
     flags := flags packet;
     transport_type := transport_type packet;
     transport_id := transport_id packet;
     destination_hash := destination_hash packet;
     destination_type := destination_type packet;
     destination := destination packet;
     hops := hops;
     data := data packet;
     receiving_interface := receiving_interface packet |}.

Section WithPathRequest.

Variable is_local_client_interface : Interface -> bool.

(** [RNS.Interfaces.Interface.Interface.DISCOVER_PATHS_FOR], from the
    interface module, which lies outside the source file. *)
Variable DISCOVER_PATHS_FOR : list InterfaceMode.

(** [Transport.get_cached_packet(packet_hash, packet_type="announce")]
    followed by [unpack()]. *)
Variable get_cached_packet : bytes -> option Packet.

(** [Transport.PATH_REQUEST_GRACE] and [Transport.PATH_REQUEST_RG], 0.4
    and 1.5 seconds, in the unit of the clock. *)
Variable PATH_REQUEST_GRACE : Z.
Variable PATH_REQUEST_RG : Z.

(** Lines 2665-2667, 2679-2683: a path request on every interface but
    the one the request came in on. *)
Definition request_on_others (st : State) (destination_hash : bytes)
    (attached_interface : option Interface) (tag : option bytes)
    (recursive : bool) : list RequestAction :=
  omap
    (fun interface =>
       if negb (bool_decide (Some interface = attached_interface))
       then Some (RequestPath destination_hash (Some interface) tag recursive)
       else None)
    (interfaces st).

(** Lines 2601-2658: the answer from the path table. *)
Definition answer_from_path (t : RequestTables) (destination_entry : PathEntry)
    (is_from_local_client : bool) (attached_interface : option Interface)
    (requestor_transport_id : option bytes) (now : Z) : PathRequestResult :=
  let next_hop := PT_NEXT_HOP destination_entry in
  let received_from := PT_RVCD_IF destination_entry in
  match get_cached_packet (PT_PACKET destination_entry) with
  | None => {| prr_tables := t; prr_actions := []; prr_status := Completed |}
  | Some packet =>
      match attached_interface ≫= mode with
      | None => {| prr_tables := t; prr_actions := []; prr_status := Raised |}
      | Some attached_mode =>
          if bool_decide (attached_mode = MODE_ROAMING) &&
             bool_decide (attached_interface = Some received_from)
          then {| prr_tables := t; prr_actions := [];
                  prr_status := Completed |}
          else
            let packet := set_hops packet (PT_HOPS destination_entry) in
            if match requestor_transport_id with
               | Some requestor => bool_decide (next_hop = requestor)
               | None => false
               end
            then {| prr_tables := t; prr_actions := [];
                    prr_status := Completed |}
            else
              let retransmit_timeout :=
                if is_from_local_client then now
                else if is_local_client_interface received_from then now
                else if bool_decide (attached_mode = MODE_ROAMING)
                then now + PATH_REQUEST_GRACE + PATH_REQUEST_RG
                else now + PATH_REQUEST_GRACE in
              let held :=
                match announce_table t !! destination_hash packet with
                | Some held_entry =>
                    <[destination_hash packet := held_entry]>
                      (held_announces t)
                | None => held_announces t
                end in
              {| prr_tables :=
                   {| announce_table :=
                        <[destination_hash packet :=
                            {| AT_TIMESTAMP := now;
                               AT_RTRNS_TMO := retransmit_timeout;
                               AT_RETRIES := PATHFINDER_R;
                               AT_RCVD_IF := received_from;
                               AT_HOPS := hops packet;
                               AT_PACKET := packet;
                               AT_LCL_RBRD := 0;
                               AT_BLCK_RBRD := true;
                               AT_ATTCHD_IF := attached_interface |}]>
                          (announce_table t);
                      held_announces := held;
                      pending_local_path_requests :=
                        pending_local_path_requests t;
                      discovery_path_requests := discovery_path_requests t |};
                 prr_actions := [];
                 prr_status := Completed |}
      end
  end.

(** [Transport.path_request(destination_hash, is_from_local_client,
    attached_interface, requestor_transport_id, tag)].  [random_hash] is
    the value of [RNS.Identity.get_random_hash()] at line 2664.  An
    access to [mode] on an interface that has none, or on no interface,
    raises. *)
Definition path_request (st : State) (t : RequestTables)
    (destination_hash : bytes) (is_from_local_client : bool)
    (attached_interface : option Interface)
    (requestor_transport_id : option bytes) (tag : option bytes)
    (random_hash : bytes) (now : Z) : PathRequestResult :=
  match
    match attached_interface with
    | Some attached_interface =>
        if transport_enabled st then
          match mode attached_interface with
          | Some m => Some (bool_decide (m ∈ DISCOVER_PATHS_FOR))
          | None => None
          end
        else Some false
    | None => Some false
    end
  with
  | None => {| prr_tables := t; prr_actions := []; prr_status := Raised |}
  | Some should_search_for_unknown =>
      let t1 :=
        if (0 <? length (local_client_interfaces st))%nat then
          match path_table st !! destination_hash with
          | Some destination_entry =>
              if is_local_client_interface (PT_RVCD_IF destination_entry)
              then
                {| announce_table := announce_table t;
                   held_announces := held_announces t;
                   pending_local_path_requests :=
                     <[destination_hash := attached_interface]>
                       (pending_local_path_requests t);
                   discovery_path_requests := discovery_path_requests t |}
              else t
          | None => t
          end
        else t in
      if is_local_destination st destination_hash then
        {| prr_tables := t1;
           prr_actions :=
             [AnnounceLocal destination_hash tag attached_interface];
           prr_status := Completed |}
      else
        match
          (if transport_enabled st || is_from_local_client
           then path_table st !! destination_hash else None)
        with
        | Some destination_entry =>
            answer_from_path t1 destination_entry is_from_local_client
              attached_interface requestor_transport_id now
        | None =>
            if is_from_local_client then
              {| prr_tables := t1;
                 prr_actions :=
                   request_on_others st destination_hash attached_interface
                     (Some random_hash) false;
                 prr_status := Completed |}
            else if should_search_for_unknown then
              match discovery_path_requests t1 !! destination_hash with
              | Some _ =>
                  {| prr_tables := t1; prr_actions := [];
                     prr_status := Completed |}
              | None =>
                  {| prr_tables :=
                       {| announce_table := announce_table t1;
                          held_announces := held_announces t1;
                          pending_local_path_requests :=
                            pending_local_path_requests t1;
                          discovery_path_requests :=
                            <[destination_hash :=
                                {| de_destination_hash := destination_hash;
                                   de_timeout := now + PATH_REQUEST_TIMEOUT;
                                   de_requesting_interface :=
                                     attached_interface |}]>
                              (discovery_path_requests t1) |};
                     prr_actions :=
                       request_on_others st destination_hash
                         attached_interface tag true;
                     prr_status := Completed |}
              end
            else if (0 <? length (local_client_interfaces st))%nat then
              {| prr_tables := t1;
                 prr_actions :=
                   map (fun interface =>
                          RequestPath destination_hash (Some interface) None
                            false)
                       (local_client_interfaces st);
                 prr_status := Completed |}
            else
              {| prr_tables := t1; prr_actions := [];
                 prr_status := Completed |}
        end
  end.

(** Lines 655-663 and 726-729 of [Transport.jobs]: the waiting
    discovery path requests whose timeout has passed are removed. *)
Definition cull_discovery_path_requests (t : RequestTables) (now : Z)
  : RequestTables :=
  {| announce_table := announce_table t;
     held_announces := held_announces t;
     pending_local_path_requests := pending_local_path_requests t;
     discovery_path_requests :=
       filter
         (fun kv : bytes * DiscoveryEntry =>
            Is_true (negb (de_timeout kv.2 <? now)))
         (discovery_path_requests t) |}.

(** [path_request_handler] together with the call it makes: the tags,
    and what [path_request] did, if it was called.  The handler catches
    every exception. *)
Definition handle_path_request (st : State) (t : RequestTables)
    (discovery_pr_tags : list bytes) (data : bytes) (packet : Packet)
    (random_hash : bytes) (now : Z)
  : list bytes * option PathRequestResult :=
  match path_request_handler is_local_client_interface discovery_pr_tags
          data packet with
  | (tags, Some call) =>
      (tags,
       Some (path_request st t (pr_destination_hash call)
               (pr_is_from_local_client call)
               (Some (pr_attached_interface call))
               (pr_requestor_transport_id call) (Some (pr_tag call))
               random_hash now))
  | (tags, None) => (tags, None)
  end.

End WithPathRequest.

End PathRequest.

(** ** Tunnels: synthesis and its handler (lines 2018-2066) *)

Module Tunnels.
Import Transport BlobStore.

Section WithIdentity.

(** Lengths in bits, from [RNS.Identity] and [RNS.Reticulum], which lie
    outside the source file. *)
Variable KEYSIZE : nat.
Variable HASHLENGTH : nat.
Variable RETICULUM_TRUNCATED_HASHLENGTH : nat.
Variable SIGLENGTH : nat.

(** [RNS.Identity.full_hash], [Transport.identity.sign], and the check
    of a signature against a public key: [load_public_key] followed by
    [validate], [None] when one of them raises. *)
Variable full_hash : bytes -> bytes.
Variable sign : bytes -> bytes.
Variable validate_with_key : bytes -> bytes -> bytes -> option bool.

(** The data of the packet [Transport.synthesize_tunnel(interface)]
    sends (lines 2019-2029). *)
Definition synthesize_tunnel_data (public_key interface_hash random_hash
    : bytes) : bytes :=
  let tunnel_id_data := public_key ++ interface_hash in
  let signed_data := tunnel_id_data ++ random_hash in
  let signature := sign signed_data in
  signed_data ++ signature.

(** The tunnel ID that [synthesize_tunnel] computes (line 2024). *)
Definition synthesized_tunnel_id (public_key interface_hash : bytes)
  : bytes :=
  full_hash (public_key ++ interface_hash).

(** [Transport.tunnel_synthesize_handler(data, packet)] (line 2039). *)
Definition tunnel_synthesize_handler (s : Store) (data : bytes)
    (packet : Packet) (now : Z) : Store :=
  let expected_length :=
    (KEYSIZE / 8 + HASHLENGTH / 8 + RETICULUM_TRUNCATED_HASHLENGTH / 8 +
     SIGLENGTH / 8)%nat in
  if (length data =? expected_length)%nat then
    let public_key := take (KEYSIZE / 8) data in
    let interface_hash :=
      slice (KEYSIZE / 8) (KEYSIZE / 8 + HASHLENGTH / 8) data in
    let tunnel_id_data := public_key ++ interface_hash in
    let tunnel_id := full_hash tunnel_id_data in
    let random_hash :=
      slice (KEYSIZE / 8 + HASHLENGTH / 8)
            (KEYSIZE / 8 + HASHLENGTH / 8 +
             RETICULUM_TRUNCATED_HASHLENGTH / 8) data in
    let signature :=
      slice (KEYSIZE / 8 + HASHLENGTH / 8 +
             RETICULUM_TRUNCATED_HASHLENGTH / 8) expected_length data in
    let signed_data := tunnel_id_data ++ random_hash in
    match validate_with_key public_key signature signed_data with
    | Some true =>
        handle_tunnel s tunnel_id (receiving_interface packet) now
    | _ => s
    end
  else s.

End WithIdentity.

(** [Transport.void_tunnel_interface(tunnel_id)] (line 2063). *)
Definition void_tunnel_interface (s : Store) (tunnel_id : bytes) : Store :=
  match tunnels s !! tunnel_id with
  | Some tunnel_entry =>
      set_tunnel s tunnel_id
        {| TR_IF := None;
           TR_PATHS := TR_PATHS tunnel_entry;
           TR_EXPIRES := TR_EXPIRES tunnel_entry |}
  | None => s
  end.

End Tunnels.

(** ** Announce rate limiting (lines 1599-1627) *)

Module AnnounceRate.
Import Transport.

Definition MAX_RATE_TIMESTAMPS : nat := 16.

(** An entry of [Transport.announce_rate_table]. *)
Record RateEntry := {
  last : Z;
  rate_violations : Z;
  blocked_until : Z;
  timestamps : list Z
}.

(** The rate attributes of the receiving interface, when its
    [announce_rate_target] is not [None]. *)
Record RateLimits := {
  announce_rate_target : Z;
  announce_rate_grace : Z;
  announce_rate_penalty : Z
}.

(** [while len(l) > MAX_RATE_TIMESTAMPS: l.pop(0)]. *)
Definition trim_timestamps (l : list Z) : list Z :=
  drop (length l - MAX_RATE_TIMESTAMPS) l.

(** Lines 1599-1627: the rate entry of the announced destination is
    made or updated; the boolean is [rate_blocked]. *)
Definition rate_check (announce_rate_table : gmap bytes RateEntry)
    (context : Context) (limits : option RateLimits)
    (destination_hash : bytes) (now : Z)
  : gmap bytes RateEntry * bool :=
  match limits with
  | Some limits =>
      if negb (bool_decide (context = PATH_RESPONSE)) then
        match announce_rate_table !! destination_hash with
        | None =>
            (<[destination_hash :=
                 {| last := now; rate_violations := 0;
                    blocked_until := 0; timestamps := [now] |}]>
               announce_rate_table,
             false)
        | Some rate_entry =>
            let timestamps :=
              trim_timestamps (timestamps rate_entry ++ [now]) in
            let current_rate := now - last rate_entry in
            if blocked_until rate_entry <? now then
              let rate_violations :=
                if current_rate <? announce_rate_target limits
                then rate_violations rate_entry + 1
                else Z.max 0 (rate_violations rate_entry - 1) in
              if announce_rate_grace limits <? rate_violations then
                (<[destination_hash :=
                     {| last := last rate_entry;
                        rate_violations := rate_violations;
                        blocked_until :=
                          last rate_entry + announce_rate_target limits +
                          announce_rate_penalty limits;
                        timestamps := timestamps |}]>
                   announce_rate_table,
                 true)
              else
                (<[destination_hash :=
                     {| last := now;
                        rate_violations := rate_violations;
                        blocked_until := blocked_until rate_entry;
                        timestamps := timestamps |}]>
                   announce_rate_table,
                 false)
            else
              (<[destination_hash :=
                   {| last := last rate_entry;
                      rate_violations := rate_violations rate_entry;
                      blocked_until := blocked_until rate_entry;
                      timestamps := timestamps |}]>
                 announce_rate_table,
               true)
        end
      else (announce_rate_table, false)
  | None => (announce_rate_table, false)
  end.

(** The rate checks of a run of announces for one destination, heard at
    the times [nows]: the table, and [rate_blocked] for each. *)
Fixpoint rate_checks (announce_rate_table : gmap bytes RateEntry)
    (limits : RateLimits) (destination_hash : bytes) (nows : list Z)
  : gmap bytes RateEntry * list bool :=
  match nows with
  | [] => (announce_rate_table, [])
  | now :: rest =>
      let '(t, blocked) :=
        rate_check announce_rate_table NONE (Some limits) destination_hash
          now in
      let '(t', bs) := rate_checks t limits destination_hash rest in
      (t', blocked :: bs)
  end.

End AnnounceRate.

(** ** Storage: what [Transport.start] loads and
    [Transport.save_packet_hashlist] writes *)

Module Storage.
Import Transport.

(** [Transport.save_packet_hashlist()] (line 2832), when no other save
    is under way: the state, and the list written to the file ([None]
    when nothing is written).  The order of [list(set)] is not fixed. *)
Definition save_packet_hashlist (st : State) : State * option (list bytes) :=
  if negb (is_connected_to_shared_instance st) then
    let st1 :=
      if negb (transport_enabled st) then set_packet_hashlist st ∅
      else st in
    (st1, Some (elements (packet_hashlist st1)))
  else (st, None).

(** Lines 183-192 of [Transport.start]: the hashlist is read back;
    [file] is the content of the file, if there is one that unpacks. *)
Definition load_packet_hashlist (st : State) (file : option (list bytes))
  : State :=
  if negb (is_connected_to_shared_instance st) then
    match file with
    | Some hashlist_data => set_packet_hashlist st (list_to_set hashlist_data)
    | None => st
    end
  else st.

Section WithCache.

(** [RNS.Reticulum.TRUNCATED_HASHLENGTH], in bits. *)
Variable RETICULUM_TRUNCATED_HASHLENGTH : nat.

(** [Transport.get_cached_packet(packet_hash, packet_type="announce")]
    followed by [unpack()]: the announce as read back from the cache
    directory, if it is there. *)
Variable get_cached_packet : bytes -> option Packet.

(** Lines 234-252: one serialised path entry. *)
Definition load_path_entry (st : State) (serialised_entry : SerialisedEntry)
  : State :=
  let destination_hash := se_destination_hash serialised_entry in
  if (length destination_hash =? RETICULUM_TRUNCATED_HASHLENGTH / 8)%nat
  then
    let receiving_interface :=
      match se_interface_hash serialised_entry with
      | Some interface_hash => find_interface_from_hash st interface_hash
      | None => None
      end in
    let announce_packet :=
      get_cached_packet (se_packet_hash serialised_entry) in
    match announce_packet, receiving_interface with
    | Some announce_packet, Some receiving_interface =>
        set_path_table st
          (<[destination_hash :=
               {| PT_TIMESTAMP := se_timestamp serialised_entry;
                  PT_NEXT_HOP := se_received_from serialised_entry;
                  PT_HOPS := se_hops serialised_entry;
                  PT_EXPIRES := se_expires serialised_entry;
                  PT_RANDBLOBS := se_random_blobs serialised_entry;
                  PT_RVCD_IF := receiving_interface;
                  PT_PACKET := packet_hash announce_packet |}]>
             (path_table st))
    | _, _ => st
    end
  else st.

(** Lines 222-271 of [Transport.start]: the path table is read back on
    a transport instance that is not connected to a shared instance;
    [file] is the content of the file, if there is one that unpacks. *)
Definition load_path_table (st : State)
    (file : option (list SerialisedEntry)) : State :=
  if transport_enabled st then
    match file with
    | Some serialised_destinations =>
        if negb (is_connected_to_shared_instance st)
        then fold_left load_path_entry serialised_destinations st
        else st
    | None => st
    end
  else st.

(** Lines 287-306: the paths of one serialised tunnel; [expires] is
    assigned again by every path.  [list(set(blobs))] keeps one of each
    blob, in an order that is not fixed. *)
Definition load_tunnel_path (st : State)
    (acc : gmap bytes TunnelPath * Z) (serialised_entry : SerialisedEntry)
  : gmap bytes TunnelPath * Z :=
  let tunnel_paths := fst acc in
  let expires := se_expires serialised_entry in
  let random_blobs := remove_dups (se_random_blobs serialised_entry) in
  let receiving_interface :=
    match se_interface_hash serialised_entry with
    | Some interface_hash => find_interface_from_hash st interface_hash
    | None => None
    end in
  match get_cached_packet (se_packet_hash serialised_entry) with
  | Some announce_packet =>
      (<[se_destination_hash serialised_entry :=
           {| TP_TIMESTAMP := se_timestamp serialised_entry;
              TP_NEXT_HOP := se_received_from serialised_entry;
              TP_HOPS := se_hops serialised_entry;
              TP_EXPIRES := expires;
              TP_RANDBLOBS := random_blobs;
              TP_RVCD_IF := receiving_interface;
              TP_PACKET := packet_hash announce_packet |}]> tunnel_paths,
       expires)
  | None => (tunnel_paths, expires)
  end.

(** Lines 280-310: one serialised tunnel; it is kept when at least one
    of its paths could be read back, and has no interface then. *)
Definition load_tunnel (st : State) (serialised_tunnel : SerialisedTunnel)
  : State :=
  let '(tunnel_paths, expires) :=
    fold_left (load_tunnel_path st) (st_paths serialised_tunnel)
      (∅, st_expires serialised_tunnel) in
  if (0 <? size tunnel_paths)%nat then
    set_tunnels st
      (<[st_tunnel_id serialised_tunnel :=
           {| TT_TUNNEL_ID := st_tunnel_id serialised_tunnel;
              TT_IF := None;
              TT_PATHS := tunnel_paths;
              TT_EXPIRES := expires |}]> (tunnels st))
  else st.

(** Lines 273-320 of [Transport.start]. *)
Definition load_tunnel_table (st : State)
    (file : option (list SerialisedTunnel)) : State :=
  if transport_enabled st then
    match file with
    | Some serialised_tunnels =>
        if negb (is_connected_to_shared_instance st)
        then fold_left load_tunnel serialised_tunnels st
        else st
    | None => st
    end
  else st.

End WithCache.

End Storage.

(** ** Outbound: the broadcast branch (lines 927-1080) *)

Module Broadcast.
Import Transport Paths.

(** What the branch reads of the link when [packet.destination] is a
    link: [status == RNS.Link.CLOSED] and [attached_interface]. *)
Record LinkDestination := {
  ld_closed : bool;
  ld_attached_interface : option Interface
}.

Section WithInterfaces.

(** [interface.OUT], an attribute the interface record does not hold. *)
Variable OUT : Interface -> bool.

(** The announce cap of lines 991-1069, for an announce that has made
    at least one hop: [true] when the interface has no queued announces,
    its [announce_allowed_at] has passed and it has a bitrate.  The
    queue and the time the cap keeps belong to the interface object. *)
Variable announce_cap_permits : Interface -> Packet -> bool.

(** Lines 949-967: may an announce go out on a roaming-mode
    interface? *)
Definition roaming_allows (st : State) (packet : Packet) : bool :=
  if is_local_destination st (destination_hash packet) then true
  else
    match next_hop_interface st (destination_hash packet) with
    | None => false
    | Some from_interface =>
        match mode from_interface with
        | None => false
        | Some m =>
            if bool_decide (m = MODE_ROAMING) then false
            else if bool_decide (m = MODE_BOUNDARY) then false
            else true
        end
    end.

(** Lines 970-985: may an announce go out on a boundary-mode
    interface? *)
Definition boundary_allows (st : State) (packet : Packet) : bool :=
  if is_local_destination st (destination_hash packet) then true
  else
    match next_hop_interface st (destination_hash packet) with
    | None => false
    | Some from_interface =>
        match mode from_interface with
        | None => false
        | Some m => if bool_decide (m = MODE_ROAMING) then false else true
        end
    end.

(** Lines 931-1069: [should_transmit] for one interface.
    [attached_interface] is [packet.attached_interface] and [link] the
    link the packet is for, read only when the destination is a link.
    [None] is an [AttributeError]: a packet without a destination
    object, or an announce on an interface without a mode. *)
Definition should_transmit (st : State) (packet : Packet)
    (attached_interface : option Interface) (link : LinkDestination)
    (interface : Interface) : option bool :=
  match destination packet with
  | None => None
  | Some d =>
      let for_link :=
        if bool_decide (d_type d = LINK) then
          (if ld_closed link then false else true) &&
          (if negb (bool_decide (Some interface = ld_attached_interface link))
           then false else true)
        else true in
      let for_attached :=
        match attached_interface with
        | Some a =>
            if negb (bool_decide (interface = a)) then false else for_link
        | None => for_link
        end in
      if bool_decide (packet_type packet = ANNOUNCE) then
        match attached_interface with
        | None =>
            match mode interface with
            | None => None
            | Some MODE_ACCESS_POINT => Some false
            | Some MODE_ROAMING =>
                Some (if roaming_allows st packet then for_attached
                      else false)
            | Some MODE_BOUNDARY =>
                Some (if boundary_allows st packet then for_attached
                      else false)
            | Some _ =>
                if 0 <? hops packet then
                  Some (if announce_cap_permits interface packet
                        then for_attached else false)
                else Some for_attached
            end
        | Some _ => Some for_attached
        end
      else Some for_attached
  end.

(** Lines 928-1080: the loop over [Transport.interfaces], from the
    interfaces [ifs] on.  The hash of the packet is remembered at the
    first transmission. *)
Fixpoint broadcast_from (st : State) (packet : Packet)
    (attached_interface : option Interface) (link : LinkDestination)
    (stored_hash : bool) (ifs : list Interface) : Outcome :=
  match ifs with
  | [] => completed st []
  | interface :: rest =>
      if OUT interface then
        match should_transmit st packet attached_interface link interface with
        | None => raised st
        | Some true =>
            let st1 :=
              if negb stored_hash
              then add_packet_hash st (packet_hash packet)
              else st in
            let o :=
              broadcast_from st1 packet attached_interface link true rest in
            {| out_state := out_state o;
               out_tx := (interface, raw packet) :: out_tx o;
               out_status := out_status o |}
        | Some false =>
            broadcast_from st packet attached_interface link stored_hash rest
        end
      else broadcast_from st packet attached_interface link stored_hash rest
  end.

(** The broadcast branch, with [sent]. *)
Definition outbound_broadcast (st : State) (packet : Packet)
    (attached_interface : option Interface) (link : LinkDestination)
  : Outcome * bool :=
  let o :=
    broadcast_from st packet attached_interface link false (interfaces st) in
  (o,
   match out_status o with
   | Raised => false
   | _ => if out_tx o is [] then false else true
   end).

(** [Transport.outbound(packet)] (line 840): over the known path when
    the test of line 874 holds, to the interfaces otherwise.  Receipts
    are left out. *)
Definition outbound (st : State) (packet : Packet)
    (attached_interface : option Interface) (link : LinkDestination)
    (now : Z) : Outcome * bool :=
  match outbound_known_path st packet now with
  | Some r => r
  | None => outbound_broadcast st packet attached_interface link
  end.

End WithInterfaces.

End Broadcast.

(** ** More tables and packets to run the model on *)

Module Scenarios.
Import Transport Examples.

(** An instance without transport, not connected to a shared instance,
    with the interfaces of [node]. *)
Definition plain_node : State :=
  {| is_connected_to_shared_instance := false;
     transport_enabled := false;
     identity_hash := self_id;
     interfaces := [IF1; IF2];
     local_client_interfaces := [];
     destinations := [];
     packet_hashlist := ∅;
     packet_hashlist_prev := ∅;
     path_table := ∅;
     reverse_table := ∅;
     link_table := ∅;
     path_states := ∅;
     tunnels := ∅ |}.

(** [plain_node] with the example path to [hash_aa] and the example
    link towards it, which has seen no proof. *)
Definition plain_node_with_link : State :=
  set_link_table
    (set_path_table plain_node {[hash_aa := path_entry 3 []]})
    {[hash_cc := link_entry]}.

(** A transport instance that serves a local client over [IF2]. *)
Definition serving_node : State :=
  {| is_connected_to_shared_instance := false;
     transport_enabled := true;
     identity_hash := self_id;
     interfaces := [IF1; IF2];
     local_client_interfaces := [IF2];
     destinations := [];
     packet_hashlist := ∅;
     packet_hashlist_prev := ∅;
     path_table := ∅;
     reverse_table := ∅;
     link_table := ∅;
     path_states := ∅;
     tunnels := ∅ |}.

(** A plain broadcast from the local client. *)
Definition plain_packet : Packet :=
  {| raw := [8; 0] ++ hash_aa ++ [0; 104; 105];
     packet_hash := repeat 8 32;
     getTruncatedHash := repeat 8 16;
     packet_type := DATA;
     context := NONE;
     header_type := HEADER_1;
     flags := 8;
     transport_type := BROADCAST;
     transport_id := None;
     destination_hash := hash_aa;
     destination_type := PLAIN;
     destination := None;
     hops := 0;
     data := [104; 105];
     receiving_interface := IF2 |}.

(** Stand-ins for the identity module in tunnel synthesis: a hash of 32
    bytes that depends on the sum of its input, the signature of the
    IFAC examples, and its check. *)
Definition demo_full_hash (data : bytes) : bytes :=
  repeat (IFAC.sum_bytes data mod 256) 32.

Definition demo_validate_with_key (public_key signature signed_data : bytes)
  : option bool :=
  Some (bytes_eqb signature (IFAC.demo_sign signed_data)).

(** A tunnel that is known, with one path to [hash_aa] learnt at time
    100, and a store that holds it while the path table is empty. *)
Definition tunnel_path : BlobStore.PathRef :=
  {| BlobStore.PR_TIMESTAMP := 100;
     BlobStore.PR_NEXT_HOP := hash_bb;
     BlobStore.PR_HOPS := 2;
     BlobStore.PR_EXPIRES := 100 + PATHFINDER_E;
     BlobStore.PR_RANDBLOBS := 0%nat;
     BlobStore.PR_RVCD_IF := None;
     BlobStore.PR_PACKET := repeat 1 32 |}.

Definition known_tunnel : BlobStore.TunnelRef :=
  {| BlobStore.TR_IF := None;
     BlobStore.TR_PATHS := {[hash_aa := tunnel_path]};
     BlobStore.TR_EXPIRES := 100 + DESTINATION_TIMEOUT |}.

Definition store_with_tunnel : BlobStore.Store :=
  {| BlobStore.lists := {[0%nat := [blob 1]]};
     BlobStore.next_list := 1;
     BlobStore.path_table := ∅;
     BlobStore.tunnels := {[repeat 14 32 := known_tunnel]} |}.

(** A cache that holds an announce under every hash. *)
Definition demo_get_cached_packet (packet_hash : bytes) : option Packet :=
  Some (announce_packet packet_hash SINGLE).

(** [node] with a tunnel that has one path with forty blobs, two of them
    the same. *)
Definition node_with_tunnel : State :=
  set_tunnels node
    {[repeat 14 32 :=
        {| TT_TUNNEL_ID := repeat 14 32;
           TT_IF := Some IF1;
           TT_PATHS :=
             {[hash_aa :=
                 {| TP_TIMESTAMP := 100;
                    TP_NEXT_HOP := hash_bb;
                    TP_HOPS := 2;
                    TP_EXPIRES := 100 + PATHFINDER_E;
                    TP_RANDBLOBS := blobs_upto 39 ++ [blob 39];
                    TP_RVCD_IF := None;
                    TP_PACKET := repeat 1 32 |}]};
           TT_EXPIRES := 100 + DESTINATION_TIMEOUT |}]}.

(** Interfaces in access-point and in roaming mode, and a transport
    node that has them beside [IF1] and holds the destination
    [hash_cc]. *)
Definition IF_AP : Interface :=
  {| if_name := 5; get_hash := [5]; mode := Some MODE_ACCESS_POINT;
     HW_MTU := None; AUTOCONFIGURE_MTU := false; FIXED_MTU := false;
     tunnel_id := None |}.

Definition IF_ROAM : Interface :=
  {| if_name := 6; get_hash := [6]; mode := Some MODE_ROAMING;
     HW_MTU := None; AUTOCONFIGURE_MTU := false; FIXED_MTU := false;
     tunnel_id := None |}.

Definition mixed_node : State :=
  {| is_connected_to_shared_instance := false;
     transport_enabled := true;
     identity_hash := self_id;
     interfaces := [IF1; IF_AP; IF_ROAM];
     local_client_interfaces := [];
     destinations := [{| d_hash := hash_cc; d_type := SINGLE |}];
     packet_hashlist := ∅;
     packet_hashlist_prev := ∅;
     path_table := ∅;
     reverse_table := ∅;
     link_table := ∅;
     path_states := ∅;
     tunnels := ∅ |}.

(** An announce of the destination [hash_cc], made on this instance. *)
Definition local_announce : Packet :=
  {| raw := [1; 0] ++ hash_cc ++ [0];
     packet_hash := repeat 5 32;
     getTruncatedHash := repeat 5 16;
     packet_type := ANNOUNCE;
     context := NONE;
     header_type := HEADER_1;
     flags := 1;
     transport_type := BROADCAST;
     transport_id := None;
     destination_hash := hash_cc;
     destination_type := SINGLE;
     destination := Some {| d_hash := hash_cc; d_type := SINGLE |};
     hops := 0;
     data := [];
     receiving_interface := IF1 |}.

(** Interfaces that may all send and have no announce cap in force, and
    a packet that is for no link. *)
Definition all_out (interface : Interface) : bool := true.

Definition no_cap (interface : Interface) (packet : Packet) : bool := true.

Definition no_link : Broadcast.LinkDestination :=
  {| Broadcast.ld_closed := false;
     Broadcast.ld_attached_interface := None |}.

(** Stand-ins to run path requests on: a cache that holds the announce
    of the example path, the modes to discover paths for, a grace of one
    second and two more for roaming, empty tables, and a request for
    [hash_aa] with the tag [7] as it comes in on [IF_AP]. *)
Definition cache_of_aa (packet_hash : bytes) : option Packet :=
  if bytes_eqb packet_hash (repeat 7 32) then Some (announce_for_aa 7 1)
  else None.

Definition demo_DISCOVER_PATHS_FOR : list InterfaceMode :=
  [MODE_ACCESS_POINT; MODE_GATEWAY; MODE_ROAMING].

Definition demo_PATH_REQUEST_GRACE : Z := 1.
Definition demo_PATH_REQUEST_RG : Z := 2.

Definition no_local_clients (interface : Interface) : bool := false.

Definition empty_tables : PathRequest.RequestTables :=
  {| PathRequest.announce_table := ∅;
     PathRequest.held_announces := ∅;
     PathRequest.pending_local_path_requests := ∅;
     PathRequest.discovery_path_requests := ∅ |}.

Definition request_on_AP : Packet :=
  {| raw := [2; 0] ++ repeat 0 16 ++ [0] ++ hash_aa ++ [7];
     packet_hash := repeat 8 32;
     getTruncatedHash := repeat 8 16;
     packet_type := DATA;
     context := NONE;
     header_type := HEADER_1;
     flags := 2;
     transport_type := BROADCAST;
     transport_id := None;
     destination_hash := repeat 0 16;
     destination_type := PLAIN;
     destination := None;
     hops := 1;
     data := hash_aa ++ [7];
     receiving_interface := IF_AP |}.

(** [inbound_link_transport] with the stand-ins of the examples. *)
Abbreviation demo_inbound_link_transport :=
  (Inbound.inbound_link_transport Examples.demo_LINK_MTU_SIZE
     Examples.demo_ESTABLISHMENT_TIMEOUT_PER_HOP
     Examples.demo_mtu_from_lr_packet Examples.demo_mode_from_lr_packet
     Examples.demo_signalling_bytes Examples.demo_link_id_from_lr_packet
     Examples.demo_extra_link_proof_timeout
     Examples.demo_cache_request_packet).

End Scenarios.

(** * Facts *)

Module BytesFacts.

Lemma to_byte_Some x : is_byte x -> to_byte x = Some x.
Proof.
  unfold is_byte, to_byte. intros [H0 H1].
  destruct (0 <=? x) eqn:E0; [| lia].
  destruct (x <? 256) eqn:E1; [reflexivity | lia].
Qed.

Lemma to_byte_inv x y : to_byte x = Some y -> y = x /\ is_byte x.
Proof.
  unfold to_byte, is_byte.
  destruct (0 <=? x) eqn:E0; destruct (x <? 256) eqn:E1; simpl;
    intros H; inversion H; subst; split; try reflexivity; lia.
Qed.

Lemma testbit_high_byte b k : is_byte b -> 8 <= k -> Z.testbit b k = false.
Proof.
  intros [H0 H1] Hk.
  destruct (Z.eq_dec b 0) as [->|Hne]; [apply Z.testbit_0_l|].
  apply Z.bits_above_log2; [lia|].
  assert (Z.log2 b < 8); [|lia].
  apply Z.log2_lt_pow2; lia.
Qed.

Lemma is_byte_bits b :
  0 <= b -> (forall k, 8 <= k -> Z.testbit b k = false) -> is_byte b.
Proof.
  intros H0 Hb. split; [assumption|].
  destruct (Z.eq_dec b 0) as [->|Hne]; [lia|].
  destruct (Z_lt_ge_dec b 256) as [Hlt|Hge]; [assumption|exfalso].
  assert (Hl : 8 <= Z.log2 b).
  { apply Z.log2_le_pow2; lia. }
  specialize (Hb (Z.log2 b) Hl).
  rewrite Z.bit_log2 in Hb; [discriminate | lia].
Qed.

Lemma is_byte_lxor a b : is_byte a -> is_byte b -> is_byte (Z.lxor a b).
Proof.
  intros Ha Hb. apply is_byte_bits.
  - apply Z.lxor_nonneg. unfold is_byte in *. lia.
  - intros k Hk. rewrite Z.lxor_spec.
    rewrite (testbit_high_byte a k Ha Hk), (testbit_high_byte b k Hb Hk).
    reflexivity.
Qed.

Lemma is_byte_lor a b : is_byte a -> is_byte b -> is_byte (Z.lor a b).
Proof.
  intros Ha Hb. apply is_byte_bits.
  - apply Z.lor_nonneg. unfold is_byte in *. lia.
  - intros k Hk. rewrite Z.lor_spec.
    rewrite (testbit_high_byte a k Ha Hk), (testbit_high_byte b k Hb Hk).
    reflexivity.
Qed.

Lemma lxor_involutive a m : Z.lxor (Z.lxor a m) m = a.
Proof. rewrite Z.lxor_assoc, Z.lxor_nilpotent, Z.lxor_0_r. reflexivity. Qed.

Lemma flag_set x : Z.land (Z.lor x 128) 128 = 128.
Proof.
  apply Z.bits_inj'. intros k Hk.
  rewrite Z.land_spec, Z.lor_spec.
  destruct (Z.testbit 128 k); [rewrite orb_true_r | rewrite andb_false_r];
    reflexivity.
Qed.

Lemma testbit_127 k : 0 <= k -> Z.testbit 127 k = (k <? 7).
Proof.
  intros Hk. destruct (k <? 7) eqn:E.
  - assert (Hc : k = 0 \/ k = 1 \/ k = 2 \/ k = 3 \/ k = 4 \/ k = 5 \/ k = 6)
      by lia.
    destruct Hc as [->|[->|[->|[->|[->|[->| ->]]]]]]; reflexivity.
  - apply Z.bits_above_log2; [lia|]. simpl. lia.
Qed.

Lemma testbit_128 k : 0 <= k -> Z.testbit 128 k = (k =? 7).
Proof.
  intros Hk. change 128 with (2 ^ 7). rewrite Z.pow2_bits_eqb by lia.
  rewrite Z.eqb_sym. reflexivity.
Qed.

Lemma testbit_low7 b k : 0 <= b < 128 -> 7 <= k -> Z.testbit b k = false.
Proof.
  intros [H0 H1] Hk.
  destruct (Z.eq_dec b 0) as [->|Hne]; [apply Z.testbit_0_l|].
  apply Z.bits_above_log2; [lia|].
  assert (Z.log2 b < 7); [|lia].
  apply Z.log2_lt_pow2; lia.
Qed.

(** The first header byte through masking and unmasking: the low seven
    bits come back, the top bit is cleared. *)
Lemma header_byte_roundtrip b m :
  Z.land (Z.lxor (Z.lor (Z.lxor (Z.lor b 128) m) 128) m) 127 = Z.land b 127.
Proof.
  apply Z.bits_inj'. intros k Hk.
  rewrite !Z.land_spec, !Z.lxor_spec, !Z.lor_spec, !Z.lxor_spec, !Z.lor_spec.
  rewrite testbit_127, testbit_128 by assumption.
  destruct (k <? 7) eqn:E7; [|rewrite !andb_false_r; reflexivity].
  assert ((k =? 7) = false) as -> by lia.
  rewrite !orb_false_r, !andb_true_r.
  destruct (Z.testbit b k), (Z.testbit m k); reflexivity.
Qed.

Lemma land_127_low b : 0 <= b < 128 -> Z.land b 127 = b.
Proof.
  intros Hb. apply Z.bits_inj'. intros k Hk.
  rewrite Z.land_spec, testbit_127 by assumption.
  destruct (k <? 7) eqn:E7; [apply andb_true_r|].
  rewrite andb_false_r. symmetry. apply testbit_low7; [assumption | lia].
Qed.

Lemma land_127_range b : 0 <= Z.land b 127 < 128.
Proof.
  change 127 with (Z.ones 7). rewrite Z.land_ones by lia.
  apply Z.mod_pos_bound. reflexivity.
Qed.

Lemma land_15_range b : 0 <= Z.land b 15 < 16.
Proof.
  change 15 with (Z.ones 4). rewrite Z.land_ones by lia.
  apply Z.mod_pos_bound. reflexivity.
Qed.

Lemma zip_xor_bytes (l m : bytes) :
  is_bytes l -> is_bytes m -> is_bytes (zip_with Z.lxor l m).
Proof.
  intros Hl. revert m. induction Hl as [|b l Hb Hl IH]; intros m Hm.
  - constructor.
  - destruct m as [|c m]; [constructor|].
    inversion Hm; subst. simpl. constructor.
    + apply is_byte_lxor; assumption.
    + apply IH; assumption.
Qed.

Lemma zip_xor_involutive (l m : bytes) :
  (length l <= length m)%nat ->
  zip_with Z.lxor (zip_with Z.lxor l m) m = l.
Proof.
  revert m. induction l as [|b l IH]; intros m Hlen.
  - reflexivity.
  - destruct m as [|c m]; simpl in *; [lia|].
    rewrite lxor_involutive, IH by lia. reflexivity.
Qed.

End BytesFacts.
Import BytesFacts.

(** ** IFAC: masking and unmasking *)

Module IFACFacts.
Import IFAC.

Section Loops.

Variable hkdf : nat -> bytes -> bytes -> bytes.

Lemma mask_outgoing_keep size mask (l rest : bytes) (i : nat) :
  (2 <= i)%nat -> (i + length l <= size + 2)%nat -> is_bytes l ->
  mask_outgoing size mask i (l ++ rest) =
  (r ← mask_outgoing size mask (i + length l) rest; Some (l ++ r)).
Proof.
  revert i. induction l as [|b l IH]; intros i Hi Hlen Hb.
  - simpl. rewrite Nat.add_0_r.
    destruct (mask_outgoing size mask i rest); reflexivity.
  - simpl in *. inversion Hb as [|? ? Hb0 Hbl]; subst.
    assert ((i =? 0)%nat = false) as -> by (apply Nat.eqb_neq; lia).
    assert ((i =? 1)%nat = false) as -> by (apply Nat.eqb_neq; lia).
    assert ((size + 1 <? i)%nat = false) as -> by (apply Nat.ltb_ge; lia).
    simpl. rewrite (to_byte_Some b Hb0). simpl.
    rewrite IH by (assumption || lia).
    replace (S i + length l)%nat with (i + S (length l))%nat by lia.
    destruct (mask_outgoing size mask (i + S (length l)) rest); reflexivity.
Qed.

Lemma mask_outgoing_xor size mask (l : bytes) (i : nat) :
  (size + 1 < i)%nat -> (i + length l <= length mask)%nat ->
  is_bytes l -> is_bytes mask ->
  mask_outgoing size mask i l = Some (zip_with Z.lxor l (drop i mask)).
Proof.
  revert i. induction l as [|b l IH]; intros i Hi Hlen Hb Hm.
  - reflexivity.
  - simpl in *. inversion Hb as [|? ? Hb0 Hbl]; subst.
    assert ((i =? 0)%nat = false) as -> by (apply Nat.eqb_neq; lia).
    assert ((size + 1 <? i)%nat = true) as -> by (apply Nat.ltb_lt; lia).
    rewrite orb_true_r.
    destruct (lookup_lt_is_Some_2 mask i) as [m Hmi]; [lia|].
    rewrite Hmi. simpl.
    assert (Hmb : is_byte m).
    { exact (Forall_lookup_1 _ _ _ _ Hm Hmi). }
    rewrite (to_byte_Some _ (is_byte_lxor _ _ Hb0 Hmb)). simpl.
    rewrite IH by (assumption || lia). simpl.
    rewrite (drop_S _ _ _ Hmi). reflexivity.
Qed.

Lemma unmask_incoming_keep size mask (l rest : bytes) (i : nat) :
  (2 <= i)%nat -> (i + length l <= size + 2)%nat -> is_bytes l ->
  unmask_incoming size mask i (l ++ rest) =
  (r ← unmask_incoming size mask (i + length l) rest; Some (l ++ r)).
Proof.
  revert i. induction l as [|b l IH]; intros i Hi Hlen Hb.
  - simpl. rewrite Nat.add_0_r.
    destruct (unmask_incoming size mask i rest); reflexivity.
  - simpl in *. inversion Hb as [|? ? Hb0 Hbl]; subst.
    assert ((i <=? 1)%nat = false) as -> by (apply Nat.leb_gt; lia).
    assert ((size + 1 <? i)%nat = false) as -> by (apply Nat.ltb_ge; lia).
    simpl. rewrite (to_byte_Some b Hb0). simpl.
    rewrite IH by (assumption || lia).
    replace (S i + length l)%nat with (i + S (length l))%nat by lia.
    destruct (unmask_incoming size mask (i + S (length l)) rest); reflexivity.
Qed.

Lemma unmask_incoming_xor size mask (l : bytes) (i : nat) :
  (size + 1 < i)%nat -> (i + length l <= length mask)%nat ->
  is_bytes l -> is_bytes mask ->
  unmask_incoming size mask i l = Some (zip_with Z.lxor l (drop i mask)).
Proof.
  revert i. induction l as [|b l IH]; intros i Hi Hlen Hb Hm.
  - reflexivity.
  - simpl in *. inversion Hb as [|? ? Hb0 Hbl]; subst.
    assert ((size + 1 <? i)%nat = true) as -> by (apply Nat.ltb_lt; lia).
    rewrite orb_true_r.
    destruct (lookup_lt_is_Some_2 mask i) as [m Hmi]; [lia|].
    rewrite Hmi. simpl.
    assert (Hmb : is_byte m).
    { exact (Forall_lookup_1 _ _ _ _ Hm Hmi). }
    rewrite (to_byte_Some _ (is_byte_lxor _ _ Hb0 Hmb)). simpl.
    rewrite IH by (assumption || lia). simpl.
    rewrite (drop_S _ _ _ Hmi). reflexivity.
Qed.

End Loops.

Section Roundtrip.

Variable hkdf : nat -> bytes -> bytes -> bytes.
Hypothesis hkdf_length : forall n d s, length (hkdf n d s) = n.
Hypothesis hkdf_bytes : forall n d s, is_bytes (hkdf n d s).

Variable c : ifac_config.
Hypothesis sign_bytes : forall m, is_bytes (ifac_sign c m).
Hypothesis sign_length : forall m, (ifac_size c <= length (ifac_sign c m))%nat.
Hypothesis size_pos : (1 <= ifac_size c)%nat.

Let ifac_of (raw : bytes) : bytes := last_n (ifac_size c) (ifac_sign c raw).
Let mask_of (raw : bytes) : bytes :=
  hkdf (length raw + ifac_size c) (ifac_of raw) (ifac_key c).

Lemma ifac_of_length raw : length (ifac_of raw) = ifac_size c.
Proof using sign_length size_pos.
  unfold ifac_of, last_n.
  destruct (ifac_size c =? 0)%nat eqn:E; [apply Nat.eqb_eq in E; lia|].
  rewrite length_drop. specialize (sign_length raw). lia.
Qed.

Lemma ifac_of_bytes raw : is_bytes (ifac_of raw).
Proof using sign_bytes.
  unfold ifac_of, last_n.
  destruct (ifac_size c =? 0)%nat; [apply sign_bytes|].
  apply Forall_drop, sign_bytes.
Qed.

(** The frame [transmit] puts on the wire, region by region. *)
Lemma transmit_wire b0 b1 payload m0 m1 :
  is_bytes (b0 :: b1 :: payload) ->
  mask_of (b0 :: b1 :: payload) !! 0%nat = Some m0 ->
  mask_of (b0 :: b1 :: payload) !! 1%nat = Some m1 ->
  transmit hkdf (Some c) (b0 :: b1 :: payload) =
  Some (Z.lor (Z.lxor (Z.lor b0 128) m0) 128 :: Z.lxor b1 m1 ::
        ifac_of (b0 :: b1 :: payload) ++
        zip_with Z.lxor payload
          (drop (2 + ifac_size c) (mask_of (b0 :: b1 :: payload)))).
Proof using hkdf_length hkdf_bytes sign_bytes sign_length size_pos.
  intros Hraw Hm0 Hm1.
  set (raw := b0 :: b1 :: payload) in *.
  inversion Hraw as [|? ? Hb0 Hraw1]; subst.
  inversion Hraw1 as [|? ? Hb1 Hpay]; subst.
  assert (Hmb : is_bytes (mask_of raw)) by apply hkdf_bytes.
  assert (Hml : length (mask_of raw) = (length raw + ifac_size c)%nat)
    by apply hkdf_length.
  assert (H128 : is_byte 128) by (unfold is_byte; lia).
  assert (Hm0b : is_byte m0) by exact (Forall_lookup_1 _ _ _ _ Hmb Hm0).
  assert (Hm1b : is_byte m1) by exact (Forall_lookup_1 _ _ _ _ Hmb Hm1).
  unfold transmit. fold (ifac_of raw). fold (mask_of raw).
  change (raw !! 0%nat) with (Some b0). change (raw !! 1%nat) with (Some b1).
  simpl mbind.
  rewrite (to_byte_Some _ (is_byte_lor _ _ Hb0 H128)). simpl mbind.
  rewrite (to_byte_Some _ Hb1). simpl mbind.
  cbn [app mask_outgoing Nat.eqb skipn].
  rewrite Hm0. simpl mbind.
  rewrite (to_byte_Some _ (is_byte_lor _ _
             (is_byte_lxor _ _ (is_byte_lor _ _ Hb0 H128) Hm0b) H128)).
  simpl mbind. cbn [orb]. rewrite Hm1. simpl mbind.
  rewrite (to_byte_Some _ (is_byte_lxor _ _ Hb1 Hm1b)). simpl mbind.
  rewrite mask_outgoing_keep;
    [| lia | rewrite ifac_of_length; lia | apply ifac_of_bytes].
  rewrite ifac_of_length. rewrite (drop_0 payload).
  rewrite mask_outgoing_xor;
    [| lia | rewrite Hml; subst raw; simpl; lia | assumption | assumption].
  reflexivity.
Qed.

(** What [inbound] recovers from such a frame: the low seven bits of
    the first byte, and every other byte of the original. *)
Lemma inbound_wire b0 b1 payload m0 m1 :
  is_bytes (b0 :: b1 :: payload) -> (1 <= length payload)%nat ->
  mask_of (b0 :: b1 :: payload) !! 0%nat = Some m0 ->
  mask_of (b0 :: b1 :: payload) !! 1%nat = Some m1 ->
  let wire :=
    Z.lor (Z.lxor (Z.lor b0 128) m0) 128 :: Z.lxor b1 m1 ::
    ifac_of (b0 :: b1 :: payload) ++
    zip_with Z.lxor payload
      (drop (2 + ifac_size c) (mask_of (b0 :: b1 :: payload))) in
  let recovered := Z.land b0 127 :: b1 :: payload in
  inbound_ifac hkdf (Some c) wire =
  if bytes_eqb (ifac_of (b0 :: b1 :: payload)) (ifac_of recovered)
  then Accepted recovered else Dropped.
Proof using hkdf_length hkdf_bytes sign_bytes sign_length size_pos.
  intros Hraw Hp Hm0 Hm1 wire recovered.
  set (raw := b0 :: b1 :: payload) in *.
  inversion Hraw as [|? ? Hb0 Hraw1]; subst.
  inversion Hraw1 as [|? ? Hb1 Hpay]; subst.
  assert (Hmb : is_bytes (mask_of raw)) by apply hkdf_bytes.
  assert (Hml : length (mask_of raw) = (2 + length payload + ifac_size c)%nat)
    by exact (hkdf_length _ _ _).
  assert (H128 : is_byte 128) by (unfold is_byte; lia).
  assert (Hm0b : is_byte m0) by exact (Forall_lookup_1 _ _ _ _ Hmb Hm0).
  assert (Hm1b : is_byte m1) by exact (Forall_lookup_1 _ _ _ _ Hmb Hm1).
  set (xp := zip_with Z.lxor payload (drop (2 + ifac_size c) (mask_of raw))).
  assert (Hxl : length xp = length payload).
  { unfold xp. rewrite length_zip_with, length_drop, Hml. lia. }
  assert (Hxb : is_bytes xp).
  { unfold xp. apply zip_xor_bytes; [assumption | apply Forall_drop, Hmb]. }
  assert (Hw0 : is_byte (Z.lor (Z.lxor (Z.lor b0 128) m0) 128)).
  { apply is_byte_lor; [apply is_byte_lxor; [apply is_byte_lor|] |];
      assumption. }
  assert (Hwl : length wire = (length raw + ifac_size c)%nat).
  { unfold wire. fold xp. simpl. rewrite length_app, ifac_of_length. lia. }
  unfold inbound_ifac. rewrite Hwl.
  assert (Hrl : length raw = (2 + length payload)%nat) by reflexivity.
  assert ((2 <? length raw + ifac_size c)%nat = true) as ->
    by (apply Nat.ltb_lt; lia).
  change (wire !! 0%nat) with (Some (Z.lor (Z.lxor (Z.lor b0 128) m0) 128)).
  cbv iota. rewrite flag_set, Z.eqb_refl.
  assert ((2 + ifac_size c <? length raw + ifac_size c)%nat = true) as ->
    by (apply Nat.ltb_lt; lia).
  assert (Hslice : slice 2 (2 + ifac_size c) wire = ifac_of raw).
  { unfold slice, wire. simpl drop. fold xp.
    replace (2 + ifac_size c - 2)%nat with (length (ifac_of raw))
      by (rewrite ifac_of_length; lia).
    apply take_app_length. }
  rewrite Hslice. fold (mask_of raw).
  assert (Hun : unmask_incoming (ifac_size c) (mask_of raw) 0 wire =
                Some (Z.lxor (Z.lor (Z.lxor (Z.lor b0 128) m0) 128) m0
                      :: b1 :: ifac_of raw ++ payload)).
  { unfold wire. fold xp. cbn [unmask_incoming Nat.leb orb].
    rewrite Hm0. simpl mbind.
    rewrite (to_byte_Some _ (is_byte_lxor _ _ Hw0 Hm0b)). simpl mbind.
    rewrite Hm1. simpl mbind. rewrite lxor_involutive.
    rewrite (to_byte_Some _ Hb1). simpl mbind.
    rewrite unmask_incoming_keep;
      [| lia | rewrite ifac_of_length; lia | apply ifac_of_bytes].
    rewrite ifac_of_length.
    rewrite unmask_incoming_xor;
      [| lia | rewrite Hml, Hxl; lia | assumption | assumption].
    unfold xp. rewrite zip_xor_involutive; [reflexivity|].
    rewrite length_drop, Hml. lia. }
  rewrite Hun. cbn [lookup list_lookup].
  rewrite header_byte_roundtrip.
  assert (Hl7 : is_byte (Z.land b0 127)).
  { pose proof (land_127_range b0). unfold is_byte. lia. }
  rewrite (to_byte_Some _ Hl7), (to_byte_Some _ Hb1).
  replace (drop (2 + ifac_size c)
             (Z.lxor (Z.lor (Z.lxor (Z.lor b0 128) m0) 128) m0
              :: b1 :: ifac_of raw ++ payload)) with payload.
  2:{ simpl drop. rewrite <- (ifac_of_length raw) at 1.
      rewrite drop_app_length. reflexivity. }
  reflexivity.
Qed.

(** C3 (as amended).  For a frame [raw] of at least three bytes whose
    first byte has its top bit clear (as every packed header has), on an
    interface whose IFAC size is at least one and at most the length of a
    signature: [transmit] puts a frame on the wire whose first byte has
    the IFAC flag set, and the IFAC stage of [inbound] accepts that frame
    and hands on exactly [raw]. *)
Theorem ifac_roundtrip (raw : bytes) (b0 : Z) :
  (3 <= length raw)%nat ->
  is_bytes raw ->
  raw !! 0%nat = Some b0 ->
  b0 < 128 ->
  exists wire w0,
    transmit hkdf (Some c) raw = Some wire /\
    wire !! 0%nat = Some w0 /\ Z.land w0 128 = 128 /\
    inbound_ifac hkdf (Some c) wire = Accepted raw.
Proof using hkdf_length hkdf_bytes sign_bytes sign_length size_pos.
  intros Hlen Hraw Hb0 Hlow.
  destruct raw as [|x0 [|b1 payload]]; simpl in Hlen; try lia.
  injection Hb0 as ->.
  assert (Hml : length (mask_of (b0 :: b1 :: payload)) =
                (2 + length payload + ifac_size c)%nat)
    by exact (hkdf_length _ _ _).
  destruct (lookup_lt_is_Some_2 (mask_of (b0 :: b1 :: payload)) 0)
    as [m0 Hm0]; [lia|].
  destruct (lookup_lt_is_Some_2 (mask_of (b0 :: b1 :: payload)) 1)
    as [m1 Hm1]; [lia|].
  eexists. eexists. split; [apply (transmit_wire _ _ _ m0 m1); assumption|].
  split; [reflexivity|]. split; [apply flag_set|].
  pose proof (inbound_wire b0 b1 payload m0 m1 Hraw ltac:(lia) Hm0 Hm1) as Hin.
  cbv zeta in Hin. rewrite Hin.
  inversion Hraw as [|? ? [Hb0n _] _]; subst.
  rewrite (land_127_low b0) by lia.
  unfold bytes_eqb. rewrite bool_decide_eq_true_2; reflexivity.
Qed.

(** A first byte with the top bit set does not survive: what [inbound]
    accepts, if anything, starts with that bit cleared. *)
Lemma ifac_high_bit_lost (b0 b1 : Z) (payload wire : bytes) :
  (1 <= length payload)%nat ->
  is_bytes (b0 :: b1 :: payload) ->
  128 <= b0 ->
  transmit hkdf (Some c) (b0 :: b1 :: payload) = Some wire ->
  inbound_ifac hkdf (Some c) wire <> Accepted (b0 :: b1 :: payload).
Proof using hkdf_length hkdf_bytes sign_bytes sign_length size_pos.
  intros Hlen Hraw Hhigh Htx.
  assert (Hml : length (mask_of (b0 :: b1 :: payload)) =
                (2 + length payload + ifac_size c)%nat)
    by exact (hkdf_length _ _ _).
  destruct (lookup_lt_is_Some_2 (mask_of (b0 :: b1 :: payload)) 0)
    as [m0 Hm0]; [lia|].
  destruct (lookup_lt_is_Some_2 (mask_of (b0 :: b1 :: payload)) 1)
    as [m1 Hm1]; [lia|].
  pose proof (inbound_wire b0 b1 payload m0 m1 Hraw Hlen Hm0 Hm1) as Hin.
  cbv zeta in Hin.
  rewrite (transmit_wire _ _ _ m0 m1 Hraw Hm0 Hm1) in Htx.
  apply (inj Some) in Htx. rewrite Htx in Hin. rewrite Hin.
  destruct (bytes_eqb _ _); [|discriminate].
  intros Heq. injection Heq as Heq.
  pose proof (land_127_range b0). lia.
Qed.

End Roundtrip.

(** The demonstration keystream and signature are well formed. *)
Lemma demo_hkdf_length n d s : length (demo_hkdf n d s) = n.
Proof. unfold demo_hkdf. rewrite length_map, length_seq. reflexivity. Qed.

Lemma demo_hkdf_bytes n d s : is_bytes (demo_hkdf n d s).
Proof.
  unfold demo_hkdf. apply Forall_map, Forall_forall. intros i _.
  apply Z.mod_pos_bound. reflexivity.
Qed.

Lemma demo_sign_bytes m : is_bytes (ifac_sign demo_ifac m).
Proof.
  simpl. unfold demo_sign. apply Forall_map, Forall_forall. intros i _.
  apply Z.mod_pos_bound. reflexivity.
Qed.

Lemma demo_sign_length m :
  (ifac_size demo_ifac <= length (ifac_sign demo_ifac m))%nat.
Proof.
  cbn [ifac_sign ifac_size demo_ifac]. unfold demo_sign.
  rewrite length_map, length_seq. lia.
Qed.

Lemma ifac_roundtrip_witness :
  exists wire w0,
    transmit demo_hkdf (Some demo_ifac) [0; 5; 170; 187] = Some wire /\
    wire !! 0%nat = Some w0 /\ Z.land w0 128 = 128 /\
    inbound_ifac demo_hkdf (Some demo_ifac) wire = Accepted [0; 5; 170; 187].
Proof.
  apply (ifac_roundtrip demo_hkdf demo_hkdf_length demo_hkdf_bytes demo_ifac
           demo_sign_bytes demo_sign_length ltac:(simpl; lia)
           [0; 5; 170; 187] 0).
  - simpl. lia.
  - repeat constructor; unfold is_byte; lia.
  - reflexivity.
  - lia.
Defined.

(** With an IFAC size of zero the slice [sign(raw)[-0:]] is the whole
    signature, the keystream is too short for the frame, and nothing is
    sent. *)
Lemma ifac_size_zero_not_sent :
  transmit demo_hkdf
    (Some {| ifac_sign := demo_sign; ifac_key := [1; 2; 3; 4];
             ifac_size := 0 |})
    [0; 5; 170; 187] = None.
Proof. vm_compute. reflexivity. Qed.

(** C3 as stated fails on a frame whose first byte has the top bit set:
    the frame goes out, and [inbound] does not hand the same bytes on
    (with this signature it drops the frame). *)
Lemma ifac_roundtrip_counterexample :
  (3 <= length [128; 0; 1])%nat /\ is_bytes [128; 0; 1] /\
  exists wire,
    transmit demo_hkdf (Some demo_ifac) [128; 0; 1] = Some wire /\
    inbound_ifac demo_hkdf (Some demo_ifac) wire = Dropped /\
    inbound_ifac demo_hkdf (Some demo_ifac) wire <> Accepted [128; 0; 1].
Proof.
  split; [simpl; lia|].
  split; [repeat constructor; unfold is_byte; lia|].
  eexists. split; [vm_compute; reflexivity|].
  split; [vm_compute; reflexivity | vm_compute; discriminate].
Qed.

End IFACFacts.

(** ** The duplicate filter *)

Module FilterFacts.
Import Transport.

(** C10.  Connected to a shared instance, [packet_filter] admits every
    packet, whatever the hashlists, the transport ID, the destination
    type and the hops are, and [add_packet_hash] changes nothing: the
    hashlist gets no new entry. *)
Theorem shared_instance_delegates_filtering (st : State) :
  is_connected_to_shared_instance st = true ->
  (forall packet, packet_filter st packet = true) /\
  (forall h, add_packet_hash st h = st) /\
  (forall h, packet_hashlist (add_packet_hash st h) = packet_hashlist st).
Proof.
  intros Hs. split; [|split].
  - intros packet. unfold packet_filter. rewrite Hs. reflexivity.
  - intros h. unfold add_packet_hash. rewrite Hs. reflexivity.
  - intros h. unfold add_packet_hash. rewrite Hs. reflexivity.
Qed.

Lemma shared_instance_delegates_filtering_witness :
  is_connected_to_shared_instance Examples.shared_client = true /\
  (forall packet, packet_filter Examples.shared_client packet = true) /\
  (forall h, add_packet_hash Examples.shared_client h = Examples.shared_client) /\
  (forall h, packet_hashlist (add_packet_hash Examples.shared_client h) =
             packet_hashlist Examples.shared_client).
Proof.
  split; [reflexivity|].
  apply (shared_instance_delegates_filtering Examples.shared_client).
  reflexivity.
Defined.

(** Without a shared instance the hash is added. *)
Lemma add_packet_hash_standalone (st : State) (h : bytes) :
  is_connected_to_shared_instance st = false ->
  h ∈ packet_hashlist (add_packet_hash st h).
Proof.
  intros Hs. unfold add_packet_hash. rewrite Hs. simpl. set_solver.
Qed.

Lemma final_test (st : State) (packet : Packet) :
  reaches_final_test st packet ->
  packet_filter st packet =
  if negb (bool_decide (packet_hash packet ∈ packet_hashlist st)) &&
     negb (bool_decide (packet_hash packet ∈ packet_hashlist_prev st))
  then true
  else if bool_decide (packet_type packet = ANNOUNCE) then
    if bool_decide (destination_type packet = SINGLE) then true else false
  else false.
Proof.
  intros (Hs & Htid & Hc1 & Hc2 & Hc3 & Hc4 & Hc5 & Hc6 & Hp & Hg).
  unfold packet_filter. rewrite Hs.
  assert (Hforeign :
    match transport_id packet with
    | Some tid =>
        negb (bool_decide (packet_type packet = ANNOUNCE)) &&
        negb (bytes_eqb tid (identity_hash st))
    | None => false
    end = false).
  { destruct (transport_id packet) as [tid|]; [|reflexivity].
    destruct (Htid tid eq_refl) as [Ha|Ht].
    - rewrite (bool_decide_eq_true_2 _ Ha). reflexivity.
    - unfold bytes_eqb. rewrite (bool_decide_eq_true_2 _ Ht).
      apply andb_false_r. }
  rewrite Hforeign.
  rewrite !bool_decide_eq_false_2 by assumption.
  reflexivity.
Qed.

(** C2 (as amended).  A packet that reaches the last test of
    [packet_filter] is admitted iff its hash is in neither hashlist
    generation, or it is an ANNOUNCE for a SINGLE destination: such an
    announce is admitted even when its hash is listed, and an announce
    for another destination type is admitted only with a fresh hash. *)
Theorem packet_filter_final_test (st : State) (packet : Packet) :
  reaches_final_test st packet ->
  packet_filter st packet = true <->
  ((packet_hash packet ∉ packet_hashlist st) /\
   (packet_hash packet ∉ packet_hashlist_prev st)) \/
  (packet_type packet = ANNOUNCE /\ destination_type packet = SINGLE).
Proof.
  intros Hr. rewrite (final_test st packet Hr).
  destruct (decide (packet_hash packet ∈ packet_hashlist st)) as [Hin|Hin];
    destruct (decide (packet_hash packet ∈ packet_hashlist_prev st))
      as [Hin'|Hin'];
    destruct (decide (packet_type packet = ANNOUNCE)) as [Ha|Ha];
    destruct (decide (destination_type packet = SINGLE)) as [Hd|Hd];
    repeat (first [ rewrite (bool_decide_eq_true_2 _ Hin)
                  | rewrite (bool_decide_eq_false_2 _ Hin)
                  | rewrite (bool_decide_eq_true_2 _ Hin')
                  | rewrite (bool_decide_eq_false_2 _ Hin')
                  | rewrite (bool_decide_eq_true_2 _ Ha)
                  | rewrite (bool_decide_eq_false_2 _ Ha)
                  | rewrite (bool_decide_eq_true_2 _ Hd)
                  | rewrite (bool_decide_eq_false_2 _ Hd) ]);
    simpl; split; intros H; try reflexivity; try discriminate; tauto.
Qed.

(** A node that has already seen the hash [repeat 9 32]. *)
Lemma seen_node_reaches_final_test :
  reaches_final_test
    (set_packet_hashlist Examples.node {[repeat 9 32]})
    (Examples.announce_packet (repeat 9 32) SINGLE).
Proof.
  unfold reaches_final_test. simpl.
  repeat split; discriminate.
Qed.

Lemma packet_filter_final_test_witness :
  reaches_final_test
    (set_packet_hashlist Examples.node {[repeat 9 32]})
    (Examples.announce_packet (repeat 9 32) SINGLE) /\
  (packet_filter
     (set_packet_hashlist Examples.node {[repeat 9 32]})
     (Examples.announce_packet (repeat 9 32) SINGLE) = true <->
   ((packet_hash (Examples.announce_packet (repeat 9 32) SINGLE)
      ∉ packet_hashlist (set_packet_hashlist Examples.node {[repeat 9 32]})) /\
    (packet_hash (Examples.announce_packet (repeat 9 32) SINGLE)
      ∉ packet_hashlist_prev
          (set_packet_hashlist Examples.node {[repeat 9 32]}))) \/
   (packet_type (Examples.announce_packet (repeat 9 32) SINGLE) = ANNOUNCE /\
    destination_type (Examples.announce_packet (repeat 9 32) SINGLE) =
    SINGLE)).
Proof.
  split; [apply seen_node_reaches_final_test|].
  apply (packet_filter_final_test
           (set_packet_hashlist Examples.node {[repeat 9 32]})
           (Examples.announce_packet (repeat 9 32) SINGLE)).
  apply seen_node_reaches_final_test.
Defined.

(** C2 as stated fails on a repeated announce for a SINGLE destination:
    its hash is in the current hashlist, and it is admitted. *)
Lemma packet_filter_final_test_counterexample :
  let st := set_packet_hashlist Examples.node {[repeat 9 32]} in
  let packet := Examples.announce_packet (repeat 9 32) SINGLE in
  reaches_final_test st packet /\
  packet_hash packet ∈ packet_hashlist st /\
  packet_filter st packet = true.
Proof.
  split; [apply seen_node_reaches_final_test|].
  split; [simpl; set_solver | vm_compute; reflexivity].
Qed.

(** An announce for a LINK destination passes the same test when its
    hash is fresh. *)
Lemma fresh_link_announce_passes :
  packet_filter Examples.node
    (Examples.announce_packet (repeat 9 32) LINK) = true.
Proof. vm_compute. reflexivity. Qed.

End FilterFacts.

(** ** Outbound dispatch over a known path *)

Module OutboundFacts.
Import Transport.

Lemma transport_flags_byte (f : Z) :
  is_byte (Z.lor (Z.lor (Z.shiftl HEADER_2 6) (Z.shiftl TRANSPORT 4))
                 (Z.land f 15)).
Proof.
  apply is_byte_lor.
  - change (is_byte 80). unfold is_byte. lia.
  - pose proof (land_15_range f). unfold is_byte. lia.
Qed.

Lemma insert_into_transport_frame (packet : Packet) (next_hop : bytes) :
  insert_into_transport packet next_hop =
  Some ([Z.lor (Z.lor (Z.shiftl HEADER_2 6) (Z.shiftl TRANSPORT 4))
               (Z.land (flags packet) 15)] ++
        slice 1 2 (raw packet) ++ next_hop ++ drop 2 (raw packet)).
Proof.
  unfold insert_into_transport, pack_B.
  rewrite (to_byte_Some _ (transport_flags_byte (flags packet))).
  reflexivity.
Qed.

Lemma slice_1_2 (l : bytes) :
  (2 <= length l)%nat -> exists b, l !! 1%nat = Some b /\ slice 1 2 l = [b].
Proof.
  destruct l as [|a [|b l]]; simpl; try lia. intros _.
  exists b. split; reflexivity.
Qed.

(** C7 (as amended).  A locally made packet with a one-address header
    (HEADER_1), not an ANNOUNCE and not for a PLAIN or GROUP
    destination, whose destination has a path entry with more than one
    hop (or exactly one hop behind a shared instance), is handed to
    [transmit] once, on the interface of the path, as a frame whose first
    byte is [(HEADER_2 << 6) | (TRANSPORT << 4) | (flags & 0x0f)], whose
    second byte is the hop byte of the packet, whose bytes 2 to 18 are
    the stored next hop, and whose remaining bytes are the bytes of the
    packet from the third on. *)
Theorem outbound_inserts_transport_header
    (st : State) (packet : Packet) (d : Destination) (entry : PathEntry)
    (now : Z) :
  destination packet = Some d ->
  packet_type packet <> ANNOUNCE ->
  d_type d <> PLAIN ->
  d_type d <> GROUP ->
  path_table st !! destination_hash packet = Some entry ->
  (1 < PT_HOPS entry \/
   (PT_HOPS entry = 1 /\ is_connected_to_shared_instance st = true)) ->
  header_type packet = HEADER_1 ->
  (2 <= length (raw packet))%nat ->
  length (PT_NEXT_HOP entry) = 16%nat ->
  exists frame,
    outbound_known_path st packet now =
      Some (completed
              (set_path_table st
                 (alter (touch_path now) (destination_hash packet)
                    (path_table st)))
              [(PT_RVCD_IF entry, frame)], true) /\
    frame !! 0%nat =
      Some (Z.lor (Z.lor (Z.shiftl HEADER_2 6) (Z.shiftl TRANSPORT 4))
                  (Z.land (flags packet) 15)) /\
    frame !! 1%nat = raw packet !! 1%nat /\
    slice 2 18 frame = PT_NEXT_HOP entry /\
    drop 18 frame = drop 2 (raw packet).
Proof.
  intros Hd Ha Hp Hg Hpath Hhops Hh Hlen Hnh.
  destruct (slice_1_2 (raw packet) Hlen) as (b1 & Hb1 & Hs).
  eexists. split; [|split; [|split; [|split]]].
  - unfold outbound_known_path. rewrite Hd, Hpath.
    rewrite !bool_decide_eq_false_2 by assumption. cbn [negb andb].
    rewrite Hh, Z.eqb_refl, insert_into_transport_frame.
    destruct Hhops as [Hgt|[H1 Hs1]].
    + assert ((1 <? PT_HOPS entry) = true) as -> by lia. reflexivity.
    + assert ((1 <? PT_HOPS entry) = false) as -> by lia.
      rewrite H1, Hs1. reflexivity.
  - reflexivity.
  - rewrite Hs, Hb1. reflexivity.
  - rewrite Hs. unfold slice.
    replace (18 - 2)%nat with (length (PT_NEXT_HOP entry))
      by (rewrite Hnh; reflexivity).
    cbn [app skipn]. rewrite drop_0. apply take_app_length.
  - rewrite Hs.
    replace 18%nat with (2 + length (PT_NEXT_HOP entry))%nat
      by (rewrite Hnh; reflexivity).
    cbn [app Nat.add skipn]. apply drop_app_length.
Qed.

Lemma outbound_inserts_transport_header_witness :
  exists frame,
    outbound_known_path (Examples.node_with_path 3 []) Examples.data_packet 500
    = Some (completed
              (set_path_table (Examples.node_with_path 3 [])
                 (alter (touch_path 500)
                    (destination_hash Examples.data_packet)
                    (path_table (Examples.node_with_path 3 []))))
              [(PT_RVCD_IF (Examples.path_entry 3 []), frame)], true) /\
    frame !! 0%nat =
      Some (Z.lor (Z.lor (Z.shiftl HEADER_2 6) (Z.shiftl TRANSPORT 4))
                  (Z.land (flags Examples.data_packet) 15)) /\
    frame !! 1%nat = raw Examples.data_packet !! 1%nat /\
    slice 2 18 frame = PT_NEXT_HOP (Examples.path_entry 3 []) /\
    drop 18 frame = drop 2 (raw Examples.data_packet).
Proof.
  apply (outbound_inserts_transport_header
           (Examples.node_with_path 3 []) Examples.data_packet
           {| d_hash := Examples.hash_aa; d_type := SINGLE |}
           (Examples.path_entry 3 []) 500).
  - reflexivity.
  - discriminate.
  - discriminate.
  - discriminate.
  - vm_compute. reflexivity.
  - left. simpl. lia.
  - reflexivity.
  - simpl. lia.
  - reflexivity.
Defined.

(** C7 as stated fails on a packet that already has a two-address
    header: with a three-hop path to its destination, nothing is handed
    to [transmit] and [sent] stays false. *)
Lemma outbound_inserts_transport_header_counterexample :
  destination Examples.data_packet_header2 =
    Some {| d_hash := Examples.hash_aa; d_type := SINGLE |} /\
  packet_type Examples.data_packet_header2 <> ANNOUNCE /\
  path_table (Examples.node_with_path 3 []) !!
    destination_hash Examples.data_packet_header2 =
    Some (Examples.path_entry 3 []) /\
  1 < PT_HOPS (Examples.path_entry 3 []) /\
  outbound_known_path (Examples.node_with_path 3 [])
    Examples.data_packet_header2 500 =
  Some (completed (Examples.node_with_path 3 []) [], false).
Proof.
  split; [reflexivity|]. split; [discriminate|].
  split; [vm_compute; reflexivity|]. split; [simpl; lia|].
  vm_compute. reflexivity.
Qed.

(** The direct branch (lines 918-921): the raw bytes go out unmodified
    on the interface of the path, and no table is written. *)
Theorem outbound_direct_path
    (st : State) (packet : Packet) (d : Destination) (entry : PathEntry)
    (now : Z) :
  destination packet = Some d ->
  packet_type packet <> ANNOUNCE ->
  d_type d <> PLAIN ->
  d_type d <> GROUP ->
  path_table st !! destination_hash packet = Some entry ->
  PT_HOPS entry <= 1 ->
  is_connected_to_shared_instance st = false ->
  outbound_known_path st packet now =
  Some (completed st [(PT_RVCD_IF entry, raw packet)], true).
Proof.
  intros Hd Ha Hp Hg Hpath Hhops Hs.
  unfold outbound_known_path. rewrite Hd, Hpath.
  rewrite !bool_decide_eq_false_2 by assumption. cbn [negb andb].
  assert ((1 <? PT_HOPS entry) = false) as -> by lia.
  rewrite Hs, andb_false_r. reflexivity.
Qed.

(** C8 at its failing input.  A path of one hop confirmed at time 100, a
    packet sent at time 500 on a node that is not behind a shared
    instance: the raw bytes go out on the interface of the path, and the
    timestamp of the path is still 100. *)
Theorem outbound_direct_path_keeps_timestamp :
  exists st',
    outbound_known_path (Examples.node_with_path 1 []) Examples.data_packet 500
    = Some (completed st' [(Examples.IF1, raw Examples.data_packet)], true) /\
    PT_TIMESTAMP <$> (path_table st' !! Examples.hash_aa) = Some 100 /\
    PT_TIMESTAMP <$> (path_table st' !! Examples.hash_aa) <> Some 500.
Proof.
  exists (Examples.node_with_path 1 []).
  split; [|split].
  - apply (outbound_direct_path _ _
             {| d_hash := Examples.hash_aa; d_type := SINGLE |}
             (Examples.path_entry 1 [])); try discriminate; reflexivity.
  - vm_compute. reflexivity.
  - vm_compute. discriminate.
Qed.

(** The sibling branch does refresh it. *)
Lemma outbound_transport_path_refreshes_timestamp :
  exists st' frame,
    outbound_known_path (Examples.node_with_path 3 []) Examples.data_packet 500
    = Some (completed st' [(Examples.IF1, frame)], true) /\
    PT_TIMESTAMP <$> (path_table st' !! Examples.hash_aa) = Some 500.
Proof.
  eexists. eexists. split; vm_compute; reflexivity.
Qed.

End OutboundFacts.

(** ** Inbound: packets in transport *)

Module TransitFacts.
Import Transport.

Lemma pack_B_byte (x : Z) : 0 <= x <= 255 -> pack_B x = Some [x].
Proof.
  intros Hx. unfold pack_B. rewrite to_byte_Some; [reflexivity|].
  unfold is_byte. lia.
Qed.

Lemma broadcast_flags_byte (f : Z) :
  is_byte (Z.lor (Z.lor (Z.shiftl HEADER_1 6) (Z.shiftl BROADCAST 4))
                 (Z.land f 15)).
Proof.
  apply is_byte_lor.
  - change (is_byte 0). unfold is_byte. lia.
  - pose proof (land_15_range f). unfold is_byte. lia.
Qed.

(** The rewrite of lines 1343-1359 succeeds when the hop count fits a
    byte and the stored hops are not negative, and gives one of three
    frames. *)
Lemma forward_new_raw_cases (packet : Packet) (next_hop : bytes) (rem : Z) :
  0 <= hops packet <= 255 ->
  0 <= rem ->
  exists base,
    forward_new_raw packet next_hop rem = Some (Some base) /\
    (1 < rem ->
     base = slice 0 1 (raw packet) ++ [hops packet] ++ next_hop ++
            drop 18 (raw packet)) /\
    (rem = 1 ->
     base = [Z.lor (Z.lor (Z.shiftl HEADER_1 6) (Z.shiftl BROADCAST 4))
                   (Z.land (flags packet) 15)] ++
            [hops packet] ++ drop 18 (raw packet)) /\
    (rem = 0 ->
     base = slice 0 1 (raw packet) ++ [hops packet] ++ drop 2 (raw packet)).
Proof.
  intros Hh Hr. unfold forward_new_raw.
  rewrite (pack_B_byte _ Hh).
  destruct (1 <? rem) eqn:E1.
  - eexists. split; [reflexivity|]. repeat split; intros; lia.
  - destruct (rem =? 1) eqn:E2.
    + unfold pack_B at 1.
      rewrite (to_byte_Some _ (broadcast_flags_byte (flags packet))).
      eexists. split; [reflexivity|].
      repeat split; intros; lia.
    + destruct (rem =? 0) eqn:E3; [|lia].
      eexists. split; [reflexivity|].
      repeat split; intros; lia.
Qed.

(** A hop count that does not fit a byte: what [raw[1] = 255] gives
    after the increment of line 1229.  Nothing is sent on. *)
Lemma forward_new_raw_overflow (packet : Packet) (next_hop : bytes) (rem : Z) :
  hops packet = 256 -> 0 <= rem -> forward_new_raw packet next_hop rem = None.
Proof.
  intros Hh Hr. unfold forward_new_raw. rewrite Hh.
  destruct (1 <? rem) eqn:E1; [reflexivity|].
  destruct (rem =? 1) eqn:E2.
  - unfold pack_B.
    rewrite (to_byte_Some _ (broadcast_flags_byte (flags packet))).
    reflexivity.
  - destruct (rem =? 0) eqn:E; [reflexivity | lia].
Qed.

(** Remembering a packet hash touches nothing but the hash list. *)
Lemma add_packet_hash_frame (st : State) (h : bytes) :
  is_connected_to_shared_instance (add_packet_hash st h) =
    is_connected_to_shared_instance st /\
  transport_enabled (add_packet_hash st h) = transport_enabled st /\
  identity_hash (add_packet_hash st h) = identity_hash st /\
  interfaces (add_packet_hash st h) = interfaces st /\
  local_client_interfaces (add_packet_hash st h) =
    local_client_interfaces st /\
  path_table (add_packet_hash st h) = path_table st /\
  reverse_table (add_packet_hash st h) = reverse_table st /\
  link_table (add_packet_hash st h) = link_table st.
Proof.
  unfold add_packet_hash.
  destruct (negb (is_connected_to_shared_instance st)); repeat split.
Qed.

(** The filter stage lets a packet through exactly when the filter
    does, and then leaves the state as it was or with the hash of the
    packet remembered. *)
Lemma filter_stage_cases (st st0 : State) (packet : Packet) :
  filter_stage st packet = Some st0 ->
  packet_filter st packet = true /\
  (st0 = st \/ st0 = add_packet_hash st (packet_hash packet)).
Proof.
  unfold filter_stage. destruct (packet_filter st packet); [|discriminate].
  intros [= <-]. split; [reflexivity|].
  match goal with |- context [if ?b then add_packet_hash _ _ else _] =>
    destruct b end; [right | left]; reflexivity.
Qed.

Lemma filter_stage_drops (st : State) (packet : Packet) :
  packet_filter st packet = false -> filter_stage st packet = None.
Proof. intros H. unfold filter_stage. rewrite H. reflexivity. Qed.

Lemma filter_stage_frame (st st0 : State) (packet : Packet) :
  filter_stage st packet = Some st0 ->
  is_connected_to_shared_instance st0 = is_connected_to_shared_instance st /\
  transport_enabled st0 = transport_enabled st /\
  identity_hash st0 = identity_hash st /\
  interfaces st0 = interfaces st /\
  local_client_interfaces st0 = local_client_interfaces st /\
  path_table st0 = path_table st /\
  reverse_table st0 = reverse_table st /\
  link_table st0 = link_table st.
Proof.
  intros H. destruct (filter_stage_cases st st0 packet H) as [_ [->| ->]].
  - repeat split.
  - apply add_packet_hash_frame.
Qed.

(** The flags of lines 1288-1292 and the test of line 1314 read only
    tables and settings that the filter stage leaves alone. *)
Lemma filter_stage_flags (st st0 : State) (packet : Packet) :
  filter_stage st packet = Some st0 ->
  local_flags st0 packet = local_flags st packet /\
  transport_applies st0 (local_flags st0 packet) =
  transport_applies st (local_flags st packet).
Proof.
  intros H.
  destruct (filter_stage_frame st st0 packet H)
    as (_ & Hte & _ & _ & Hlc & Hpt & Hrt & Hlt).
  assert (Hfl : local_flags st0 packet = local_flags st packet).
  { unfold local_flags, is_local_client. rewrite Hlc, Hpt, Hrt, Hlt.
    reflexivity. }
  split; [exact Hfl|]. rewrite Hfl. unfold transport_applies. rewrite Hte.
  reflexivity.
Qed.

Section WithLink.

Variable LINK_MTU_SIZE : nat.
Variable ESTABLISHMENT_TIMEOUT_PER_HOP : Z.
Variable mtu_from_lr_packet : Packet -> option Z.
Variable mode_from_lr_packet : Packet -> Z.
Variable signalling_bytes : Z -> Z -> option bytes.
Variable link_id_from_lr_packet : Packet -> bytes.
Variable extra_link_proof_timeout : Interface -> option Z.
Variable cache_request_packet : State -> Packet -> option Outcome.

Local Abbreviation clamp :=
  (clamp_link_mtu LINK_MTU_SIZE mtu_from_lr_packet mode_from_lr_packet
     signalling_bytes).
Local Abbreviation cache_replay' := (cache_replay cache_request_packet).
Local Abbreviation inbound_transport' :=
  (inbound_transport LINK_MTU_SIZE ESTABLISHMENT_TIMEOUT_PER_HOP
     mtu_from_lr_packet mode_from_lr_packet signalling_bytes
     link_id_from_lr_packet extra_link_proof_timeout cache_request_packet).

(** Lines 1368-1389, case by case: a request without MTU signalling
    keeps its frame; one with signalling loses its last [LINK_MTU_SIZE]
    bytes when the outbound interface has no hardware MTU or neither
    autoconfigures nor fixes its MTU, keeps its frame when the MTU of the
    interface is not below the one signalled, and otherwise has those
    bytes replaced by the signalling bytes of the clamped MTU, the
    request being dropped when they cannot be built. *)
Lemma clamp_link_mtu_cases (i : Interface) (packet : Packet) (base : bytes) :
  (mtu_from_lr_packet packet = None \/ mtu_from_lr_packet packet = Some 0 ->
   clamp i packet (Some base) = MtuKeep (Some base)) /\
  (forall path_mtu,
     mtu_from_lr_packet packet = Some path_mtu -> path_mtu <> 0 ->
     (HW_MTU i = None \/
      (AUTOCONFIGURE_MTU i = false /\ FIXED_MTU i = false) ->
      clamp i packet (Some base) =
      MtuKeep (Some (drop_last LINK_MTU_SIZE base))) /\
     (forall nh_mtu,
        HW_MTU i = Some nh_mtu ->
        AUTOCONFIGURE_MTU i = true \/ FIXED_MTU i = true ->
        (path_mtu <= nh_mtu ->
         clamp i packet (Some base) = MtuKeep (Some base)) /\
        (nh_mtu < path_mtu ->
         forall clamped_mtu,
           signalling_bytes nh_mtu (mode_from_lr_packet packet) =
           Some clamped_mtu ->
           clamp i packet (Some base) =
           MtuKeep (Some (drop_last LINK_MTU_SIZE base ++ clamped_mtu))) /\
        (nh_mtu < path_mtu ->
         signalling_bytes nh_mtu (mode_from_lr_packet packet) = None ->
         clamp i packet (Some base) = MtuReturn))).
Proof.
  unfold clamp_link_mtu. split.
  - intros [-> | ->]; reflexivity.
  - intros path_mtu -> Hnz.
    rewrite (proj2 (Z.eqb_neq path_mtu 0) Hnz). split.
    + intros [-> | [Ha Hf]]; [reflexivity|].
      rewrite Ha, Hf. cbn [negb andb].
      destruct (HW_MTU i); reflexivity.
    + intros nh_mtu -> Hcap.
      assert (Hc : negb (AUTOCONFIGURE_MTU i) && negb (FIXED_MTU i) = false)
        by (destruct Hcap as [-> | ->]; cbn [negb andb];
            [reflexivity | apply andb_false_r]).
      rewrite Hc. split; [|split].
      * intros Hle. rewrite (proj2 (Z.ltb_ge nh_mtu path_mtu) Hle).
        reflexivity.
      * intros Hlt clamped_mtu Hs.
        rewrite (proj2 (Z.ltb_lt nh_mtu path_mtu) Hlt), Hs. reflexivity.
      * intros Hlt Hs.
        rewrite (proj2 (Z.ltb_lt nh_mtu path_mtu) Hlt), Hs. reflexivity.
Qed.

(** A packet that the filter drops, or that comes to a node that does
    not transport and is neither from nor for a local client, is not
    sent on along a path and leaves every table as it was. *)
Lemma transit_not_admitted
    (st : State) (control_hashes : list bytes) (packet : Packet) (now : Z) :
  (packet_filter st packet = false ->
   inbound_transport' st control_hashes packet now = completed st []) /\
  (forall st0,
     filter_stage st packet = Some st0 ->
     transport_applies st (local_flags st packet) = false ->
     inbound_transport' st control_hashes packet now =
     completed st0 (plain_broadcast st control_hashes packet) /\
     path_table st0 = path_table st /\
     reverse_table st0 = reverse_table st /\
     link_table st0 = link_table st).
Proof.
  split.
  - intros Hf. unfold inbound_transport.
    rewrite (filter_stage_drops st packet Hf). reflexivity.
  - intros st0 Hf Hg. unfold inbound_transport. rewrite Hf.
    rewrite (proj2 (filter_stage_flags st st0 packet Hf)), Hg.
    destruct (filter_stage_frame st st0 packet Hf)
      as (_ & _ & _ & _ & _ & Hpt & Hrt & Hlt).
    auto.
Qed.

(** C4 (as amended).  A packet in transport for this instance, not an
    ANNOUNCE, with a known path, a hop count that fits a byte and stored
    hops that are not negative.  The frame [base] is fixed by the stored
    hops: more than one, the first byte is kept, the hop byte refreshed
    and the next hop replaced; one, the transport header is stripped and
    the first byte is [(HEADER_1 << 6) | (BROADCAST << 4) | (flags &
    0x0f)]; none, only the hop byte is refreshed.  A packet that the
    filter of line 1260 drops is not sent on and changes nothing.  One
    that passes leaves the filter stage in a state [st0]; if the test of
    line 1314 fails (the node does not transport and the packet is
    neither from nor for a local client), it is not sent on along the
    path and no entry is recorded; if that test holds and the packet is
    a cache request answered from the cache, the call ends with the
    replay.  Otherwise, after the copies that a plain broadcast sends, a
    packet that is not a LINKREQUEST is sent on as [base] on the
    interface of the path, and the reverse entry (receiving interface,
    outbound interface, now) is recorded under its truncated hash.  A
    LINKREQUEST for which no exception stops the computation of the proof
    timeout is sent on as [base] when it carries no MTU signalling, and
    also when the outbound interface can take the signalled MTU; it is
    sent on without its last [LINK_MTU_SIZE] bytes when the outbound
    interface has no hardware MTU or neither autoconfigures nor fixes
    its MTU; otherwise those bytes are replaced by the signalling bytes
    of the MTU of the interface, and only when these cannot be built is
    the request dropped.  Whenever it is sent on, a link entry that is
    not validated is recorded. *)
Theorem transit_forward
    (st : State) (control_hashes : list bytes) (packet : Packet)
    (entry : PathEntry) (now : Z) :
  transport_id packet = Some (identity_hash st) ->
  packet_type packet <> ANNOUNCE ->
  path_table st !! destination_hash packet = Some entry ->
  0 <= hops packet <= 255 ->
  0 <= PT_HOPS entry ->
  exists base,
    (1 < PT_HOPS entry ->
     base = slice 0 1 (raw packet) ++ [hops packet] ++ PT_NEXT_HOP entry ++
            drop 18 (raw packet)) /\
    (PT_HOPS entry = 1 ->
     base = [Z.lor (Z.lor (Z.shiftl HEADER_1 6) (Z.shiftl BROADCAST 4))
                   (Z.land (flags packet) 15)] ++
            [hops packet] ++ drop 18 (raw packet)) /\
    (PT_HOPS entry = 0 ->
     base = slice 0 1 (raw packet) ++ [hops packet] ++ drop 2 (raw packet)) /\
    (packet_filter st packet = false ->
     inbound_transport' st control_hashes packet now = completed st []) /\
    (forall st0,
       filter_stage st packet = Some st0 ->
       (transport_applies st (local_flags st packet) = false ->
        inbound_transport' st control_hashes packet now =
        completed st0 (plain_broadcast st control_hashes packet)) /\
       (transport_applies st (local_flags st packet) = true ->
        (forall replay,
           cache_replay' st0 packet = Some replay ->
           inbound_transport' st control_hashes packet now =
           sent_then (plain_broadcast st control_hashes packet) replay) /\
        (cache_replay' st0 packet = None ->
         (packet_type packet <> LINKREQUEST ->
          inbound_transport' st control_hashes packet now =
          completed
            (set_path_table
               (set_reverse_table st0
                  (<[getTruncatedHash packet :=
                       {| RT_RCVD_IF := receiving_interface packet;
                          RT_OUTB_IF := PT_RVCD_IF entry;
                          RT_TIMESTAMP := now |}]> (reverse_table st0)))
               (alter (touch_path now) (destination_hash packet)
                  (path_table st0)))
            (plain_broadcast st control_hashes packet ++
             [(PT_RVCD_IF entry, base)])) /\
         (packet_type packet = LINKREQUEST ->
          forall extra,
            extra_link_proof_timeout (receiving_interface packet) =
            Some extra ->
            let forwarded frame :=
              completed
                (set_path_table
                   (set_link_table st0
                      (<[link_id_from_lr_packet packet :=
                           {| LT_TIMESTAMP := now;
                              LT_NH_TRID := PT_NEXT_HOP entry;
                              LT_NH_IF := PT_RVCD_IF entry;
                              LT_REM_HOPS := PT_HOPS entry;
                              LT_RCVD_IF := receiving_interface packet;
                              LT_HOPS := hops packet;
                              LT_DSTHASH := destination_hash packet;
                              LT_VALIDATED := false;
                              LT_PROOF_TMO :=
                                extra +
                                (now + ESTABLISHMENT_TIMEOUT_PER_HOP *
                                       Z.max 1 (PT_HOPS entry)) |}]>
                         (link_table st0)))
                   (alter (touch_path now) (destination_hash packet)
                      (path_table st0)))
                (plain_broadcast st control_hashes packet ++
                 [(PT_RVCD_IF entry, frame)]) in
            (mtu_from_lr_packet packet = None \/
             mtu_from_lr_packet packet = Some 0 ->
             inbound_transport' st control_hashes packet now =
             forwarded base) /\
            (forall path_mtu,
               mtu_from_lr_packet packet = Some path_mtu -> path_mtu <> 0 ->
               (HW_MTU (PT_RVCD_IF entry) = None \/
                (AUTOCONFIGURE_MTU (PT_RVCD_IF entry) = false /\
                 FIXED_MTU (PT_RVCD_IF entry) = false) ->
                inbound_transport' st control_hashes packet now =
                forwarded (drop_last LINK_MTU_SIZE base)) /\
               (forall nh_mtu,
                  HW_MTU (PT_RVCD_IF entry) = Some nh_mtu ->
                  AUTOCONFIGURE_MTU (PT_RVCD_IF entry) = true \/
                  FIXED_MTU (PT_RVCD_IF entry) = true ->
                  (path_mtu <= nh_mtu ->
                   inbound_transport' st control_hashes packet now =
                   forwarded base) /\
                  (nh_mtu < path_mtu ->
                   forall clamped_mtu,
                     signalling_bytes nh_mtu (mode_from_lr_packet packet) =
                     Some clamped_mtu ->
                     inbound_transport' st control_hashes packet now =
                     forwarded
                       (drop_last LINK_MTU_SIZE base ++ clamped_mtu)) /\
                  (nh_mtu < path_mtu ->
                   signalling_bytes nh_mtu (mode_from_lr_packet packet) =
                   None ->
                   inbound_transport' st control_hashes packet now =
                   {| out_state := st0;
                      out_tx := plain_broadcast st control_hashes packet;
                      out_status := Returned |}))))))).
Proof.
  intros Htid Ha Hpath Hh Hr.
  destruct (forward_new_raw_cases packet (PT_NEXT_HOP entry) (PT_HOPS entry)
              Hh Hr) as (base & Hbase & Hgt & H1 & H0).
  exists base. split; [exact Hgt|]. split; [exact H1|]. split; [exact H0|].
  destruct (transit_not_admitted st control_hashes packet now)
    as [Hdropped Houtside].
  split; [exact Hdropped|].
  intros st0 Hfilter. split.
  { intros Hgate. apply (Houtside st0 Hfilter Hgate). }
  intros Hgate.
  destruct (filter_stage_frame st st0 packet Hfilter)
    as (_ & _ & Hid & _ & _ & Hpt & _ & _).
  assert (Htid0 : transport_id packet = Some (identity_hash st0))
    by (rewrite Hid; exact Htid).
  assert (Hpath0 : path_table st0 !! destination_hash packet = Some entry)
    by (rewrite Hpt; exact Hpath).
  assert (Hre : reinsert_transport_id st0 (local_flags st0 packet) packet =
                packet)
    by (unfold reinsert_transport_id; rewrite Htid0; reflexivity).
  assert (Hhead : forall k1 k2 : Outcome,
    (if negb (bool_decide (packet_type packet = ANNOUNCE)) &&
        bytes_eqb (identity_hash st0) (identity_hash st0)
     then k1 else k2) = k1).
  { intros k1 k2. rewrite (bool_decide_eq_false_2 _ Ha).
    unfold bytes_eqb. rewrite bool_decide_eq_true_2 by reflexivity.
    reflexivity. }
  split.
  { intros replay Hcache. unfold inbound_transport. cbv zeta.
    rewrite Hfilter.
    rewrite (proj2 (filter_stage_flags st st0 packet Hfilter)), Hgate.
    rewrite Hre, Hcache. reflexivity. }
  intros Hcache. split.
  - intros Hlr. unfold inbound_transport. cbv zeta.
    rewrite Hfilter.
    rewrite (proj2 (filter_stage_flags st st0 packet Hfilter)), Hgate.
    rewrite Hre, Hcache, Htid0, Hhead, Hpath0, Hbase.
    rewrite (bool_decide_eq_false_2 _ Hlr). reflexivity.
  - intros Hlr extra Hextra forwarded.
    assert (Hstep : forall step : MtuStep,
      clamp (PT_RVCD_IF entry) packet (Some base) = step ->
      inbound_transport' st control_hashes packet now =
      sent_then (plain_broadcast st control_hashes packet)
        match step with
        | MtuKeep (Some frame) =>
            completed
              (set_path_table
                 (set_link_table st0
                    (<[link_id_from_lr_packet packet :=
                         {| LT_TIMESTAMP := now;
                            LT_NH_TRID := PT_NEXT_HOP entry;
                            LT_NH_IF := PT_RVCD_IF entry;
                            LT_REM_HOPS := PT_HOPS entry;
                            LT_RCVD_IF := receiving_interface packet;
                            LT_HOPS := hops packet;
                            LT_DSTHASH := destination_hash packet;
                            LT_VALIDATED := false;
                            LT_PROOF_TMO :=
                              extra + (now + ESTABLISHMENT_TIMEOUT_PER_HOP *
                                             Z.max 1 (PT_HOPS entry)) |}]>
                       (link_table st0)))
                 (alter (touch_path now) (destination_hash packet)
                    (path_table st0)))
              [(PT_RVCD_IF entry, frame)]
        | MtuKeep None =>
            raised
              (set_link_table st0
                 (<[link_id_from_lr_packet packet :=
                      {| LT_TIMESTAMP := now;
                         LT_NH_TRID := PT_NEXT_HOP entry;
                         LT_NH_IF := PT_RVCD_IF entry;
                         LT_REM_HOPS := PT_HOPS entry;
                         LT_RCVD_IF := receiving_interface packet;
                         LT_HOPS := hops packet;
                         LT_DSTHASH := destination_hash packet;
                         LT_VALIDATED := false;
                         LT_PROOF_TMO :=
                           extra + (now + ESTABLISHMENT_TIMEOUT_PER_HOP *
                                          Z.max 1 (PT_HOPS entry)) |}]>
                    (link_table st0)))
        | MtuReturn => returned st0
        | MtuRaise => raised st0
        end).
    { intros step Hs. unfold inbound_transport. cbv zeta.
      rewrite Hfilter.
      rewrite (proj2 (filter_stage_flags st st0 packet Hfilter)), Hgate.
      rewrite Hre, Hcache, Htid0, Hhead, Hpath0, Hbase.
      rewrite (bool_decide_eq_true_2 _ Hlr), Hextra, Hs.
      destruct step as [[frame|]| |]; reflexivity. }
    destruct (clamp_link_mtu_cases (PT_RVCD_IF entry) packet base)
      as [Hplain Hsig].
    split.
    + intros Hnone. rewrite (Hstep _ (Hplain Hnone)). reflexivity.
    + intros path_mtu Hm Hnz.
      destruct (Hsig path_mtu Hm Hnz) as [Hstrip Hcap].
      split.
      * intros Hno. rewrite (Hstep _ (Hstrip Hno)). reflexivity.
      * intros nh_mtu Hhw Hauto.
        destruct (Hcap nh_mtu Hhw Hauto) as (Hfit & Hclamp & Hfail).
        split; [|split].
        -- intros Hle. rewrite (Hstep _ (Hfit Hle)). reflexivity.
        -- intros Hlt c Hc. rewrite (Hstep _ (Hclamp Hlt c Hc)). reflexivity.
        -- intros Hlt Hn. rewrite (Hstep _ (Hfail Hlt Hn)).
           unfold sent_then, returned. simpl. rewrite app_nil_r.
           reflexivity.
Qed.

End WithLink.

(** A data packet in transport on a node three hops from its
    destination: sent on over [IF1] with the next hop replaced, and the
    reverse entry recorded. *)
Lemma transit_forward_witness :
  let st := Examples.node_with_path 3 [] in
  let packet := Examples.transit_packet DATA NONE 80 [104; 105] in
  let st0 := add_packet_hash st (packet_hash packet) in
  exists base,
    base = slice 0 1 (raw packet) ++ [hops packet] ++ Examples.hash_bb ++
           drop 18 (raw packet) /\
    Examples.demo_inbound_transport st [] packet 500 =
    completed
      (set_path_table
         (set_reverse_table st0
            (<[getTruncatedHash packet :=
                 {| RT_RCVD_IF := Examples.IF2;
                    RT_OUTB_IF := Examples.IF1;
                    RT_TIMESTAMP := 500 |}]> (reverse_table st0)))
         (alter (touch_path 500) (destination_hash packet) (path_table st0)))
      (plain_broadcast st [] packet ++ [(Examples.IF1, base)]).
Proof.
  intros st packet st0.
  destruct (transit_forward Examples.demo_LINK_MTU_SIZE
              Examples.demo_ESTABLISHMENT_TIMEOUT_PER_HOP
              Examples.demo_mtu_from_lr_packet
              Examples.demo_mode_from_lr_packet
              Examples.demo_signalling_bytes
              Examples.demo_link_id_from_lr_packet
              Examples.demo_extra_link_proof_timeout
              Examples.demo_cache_request_packet
              st [] packet (Examples.path_entry 3 []) 500)
    as (base & Hgt & _ & _ & _ & Hin).
  - reflexivity.
  - discriminate.
  - vm_compute. reflexivity.
  - simpl. lia.
  - simpl. lia.
  - exists base. split.
    + apply Hgt. simpl. lia.
    + destruct (Hin st0 ltac:(vm_compute; reflexivity)) as [_ Hon].
      destruct (Hon ltac:(vm_compute; reflexivity)) as [_ Hrun].
      destruct (Hrun ltac:(reflexivity)) as [Hnl _].
      apply Hnl. discriminate.
Defined.

(** C4 as stated fails on a link request that carries MTU signalling
    when the outbound interface has no hardware MTU: the node
    transports, the request passes the filter, three hops remain, and
    the frame sent on is not the received frame with its hop byte
    refreshed and its next hop replaced; its last three bytes are gone. *)
Lemma transit_forward_counterexample :
  let st := Examples.node_with_path 3 [] in
  let packet := Examples.link_request in
  let rewritten :=
    slice 0 1 (raw packet) ++ [hops packet] ++ Examples.hash_bb ++
    drop 18 (raw packet) in
  transport_id packet = Some (identity_hash st) /\
  packet_type packet <> ANNOUNCE /\
  path_table st !! destination_hash packet = Some (Examples.path_entry 3 []) /\
  transport_enabled st = true /\
  packet_filter st packet = true /\
  out_status (Examples.demo_inbound_transport st [] packet 500) = Completed /\
  out_tx (Examples.demo_inbound_transport st [] packet 500) =
    [(Examples.IF1, drop_last 3 rewritten)] /\
  drop_last 3 rewritten <> rewritten.
Proof.
  intros st packet rewritten.
  split; [reflexivity|]. split; [discriminate|].
  split; [vm_compute; reflexivity|]. split; [reflexivity|].
  split; [vm_compute; reflexivity|]. split; [vm_compute; reflexivity|].
  split; [vm_compute; reflexivity | vm_compute; discriminate].
Qed.

(** A hop byte of 255 makes the hop count 256: packing it raises, and
    the packet is not sent on. *)
Lemma transit_forward_hop_overflow :
  let st := Examples.node_with_path 3 [] in
  let packet :=
    {| raw := raw (Examples.transit_packet DATA NONE 80 [104; 105]);
       packet_hash := repeat 5 32;
       getTruncatedHash := repeat 5 16;
       packet_type := DATA;
       context := NONE;
       header_type := HEADER_2;
       flags := 80;
       transport_type := TRANSPORT;
       transport_id := Some Examples.self_id;
       destination_hash := Examples.hash_aa;
       destination_type := SINGLE;
       destination := None;
       hops := 256;
       data := [104; 105];
       receiving_interface := Examples.IF2 |} in
  Examples.demo_inbound_transport st [] packet 500 =
  raised (add_packet_hash st (packet_hash packet)).
Proof. vm_compute. reflexivity. Qed.

(** The same data packet on the same node with transport switched off:
    it passes the filter and is remembered, but the test of line 1314
    fails, so it is not sent on and no reverse entry is recorded. *)
Lemma transit_plain_node :
  let st := Examples.plain_node_with_path 3 in
  let packet := Examples.transit_packet DATA NONE 80 [104; 105] in
  transport_id packet = Some (identity_hash st) /\
  path_table st !! destination_hash packet = Some (Examples.path_entry 3 []) /\
  packet_filter st packet = true /\
  Examples.demo_inbound_transport st [] packet 500 =
  completed (add_packet_hash st (packet_hash packet)) [] /\
  reverse_table
    (out_state (Examples.demo_inbound_transport st [] packet 500)) = ∅.
Proof.
  intros st packet.
  split; [reflexivity|]. split; [vm_compute; reflexivity|].
  split; [vm_compute; reflexivity|]. split; vm_compute; reflexivity.
Qed.

End TransitFacts.

(** ** Inbound: proofs and link request proofs *)

Module ProofFacts.
Import Transport.

Lemma refresh_hops_byte (packet : Packet) :
  0 <= hops packet <= 255 ->
  refresh_hops packet =
  Some (slice 0 1 (raw packet) ++ [hops packet] ++ drop 2 (raw packet)).
Proof.
  intros Hh. unfold refresh_hops. rewrite (TransitFacts.pack_B_byte _ Hh).
  reflexivity.
Qed.

Lemma add_packet_hash_tables (st : State) (h : bytes) :
  link_table (add_packet_hash st h) = link_table st /\
  reverse_table (add_packet_hash st h) = reverse_table st /\
  path_table (add_packet_hash st h) = path_table st.
Proof.
  unfold add_packet_hash.
  destruct (negb (is_connected_to_shared_instance st)); repeat split.
Qed.

(** A link proof for a link of this instance sends nothing on and
    leaves the link table as it is. *)
Lemma lrproof_local_tables (st : State) (pending : list (bytes * Z))
    (packet : Packet) :
  out_tx (lrproof_local st pending packet) = [] /\
  link_table (out_state (lrproof_local st pending packet)) = link_table st.
Proof.
  split; [reflexivity|]. unfold lrproof_local. simpl.
  revert st. induction pending as [|link pending IH]; intros st.
  - reflexivity.
  - simpl. rewrite IH.
    destruct (bytes_eqb (fst link) (destination_hash packet) &&
              ((hops packet =? snd link) || (snd link =? PATHFINDER_M)));
      [apply add_packet_hash_tables | reflexivity].
Qed.

Section WithIdentity.

Variable SIGLENGTH : nat.
Variable ECPUBSIZE : nat.
Variable LINK_MTU_SIZE : nat.
Variable recall : bytes -> option Identity.
Variable mtu_from_lp_packet : Packet -> option Z.
Variable mode_from_lp_packet : Packet -> Z.
Variable signalling_bytes : Z -> Z -> option bytes.

Local Abbreviation lrproof_valid' :=
  (lrproof_valid SIGLENGTH ECPUBSIZE LINK_MTU_SIZE recall mtu_from_lp_packet
     mode_from_lp_packet signalling_bytes).
Local Abbreviation inbound_lrproof' :=
  (inbound_lrproof SIGLENGTH ECPUBSIZE LINK_MTU_SIZE recall mtu_from_lp_packet
     mode_from_lp_packet signalling_bytes).
Local Abbreviation inbound_proof' :=
  (inbound_proof SIGLENGTH ECPUBSIZE LINK_MTU_SIZE recall mtu_from_lp_packet
     mode_from_lp_packet signalling_bytes).

(** The test of lines 1919-1931 holds for a proof of the right length
    whose signature validates, under the key of the destination of the
    link, over link ID, peer key, signing key of the destination and the
    signalling bytes it carries. *)
Lemma lrproof_valid_intro (packet : Packet) (L : LinkEntry)
    (peer : Identity) (signalling : bytes) :
  recall (LT_DSTHASH L) = Some peer ->
  (length (data packet) = (SIGLENGTH / 8 + ECPUBSIZE / 2 + LINK_MTU_SIZE)%nat /\
   (exists mtu, mtu_from_lp_packet packet = Some mtu /\
                signalling_bytes mtu (mode_from_lp_packet packet) =
                Some signalling)) \/
  (length (data packet) = (SIGLENGTH / 8 + ECPUBSIZE / 2)%nat /\
   LINK_MTU_SIZE <> 0%nat /\ signalling = []) ->
  validate peer (take (SIGLENGTH / 8) (data packet))
    (destination_hash packet ++
     slice (SIGLENGTH / 8) (SIGLENGTH / 8 + ECPUBSIZE / 2) (data packet) ++
     slice (ECPUBSIZE / 2) ECPUBSIZE (get_public_key peer) ++
     signalling) = true ->
  lrproof_valid' packet L = true.
Proof.
  intros Hrecall Hlen Hval. unfold lrproof_valid, lrproof_signed_data.
  destruct Hlen as [[Hl (mtu & Hmtu & Hsig)]|(Hl & Hnz & ->)].
  - rewrite Hl, Nat.eqb_refl, orb_true_r, Hmtu. simpl mbind.
    rewrite Hsig. simpl mbind. rewrite Hrecall. simpl mbind. exact Hval.
  - rewrite Hl, Nat.eqb_refl. cbn [orb].
    assert ((SIGLENGTH / 8 + ECPUBSIZE / 2 =?
             SIGLENGTH / 8 + ECPUBSIZE / 2 + LINK_MTU_SIZE)%nat = false)
      as -> by (apply Nat.eqb_neq; lia).
    simpl mbind. rewrite Hrecall. simpl mbind. exact Hval.
Qed.

(** The test of lines 1919-1931 fails for a proof of the right length
    whose signature does not validate under that key over that data. *)
Lemma lrproof_invalid_intro (packet : Packet) (L : LinkEntry)
    (peer : Identity) (signalling : bytes) :
  recall (LT_DSTHASH L) = Some peer ->
  (length (data packet) = (SIGLENGTH / 8 + ECPUBSIZE / 2 + LINK_MTU_SIZE)%nat /\
   (exists mtu, mtu_from_lp_packet packet = Some mtu /\
                signalling_bytes mtu (mode_from_lp_packet packet) =
                Some signalling)) \/
  (length (data packet) = (SIGLENGTH / 8 + ECPUBSIZE / 2)%nat /\
   LINK_MTU_SIZE <> 0%nat /\ signalling = []) ->
  validate peer (take (SIGLENGTH / 8) (data packet))
    (destination_hash packet ++
     slice (SIGLENGTH / 8) (SIGLENGTH / 8 + ECPUBSIZE / 2) (data packet) ++
     slice (ECPUBSIZE / 2) ECPUBSIZE (get_public_key peer) ++
     signalling) = false ->
  lrproof_valid' packet L = false.
Proof.
  intros Hrecall Hlen Hval. unfold lrproof_valid, lrproof_signed_data.
  destruct Hlen as [[Hl (mtu & Hmtu & Hsig)]|(Hl & Hnz & ->)].
  - rewrite Hl, Nat.eqb_refl, orb_true_r, Hmtu. simpl mbind.
    rewrite Hsig. simpl mbind. rewrite Hrecall. simpl mbind. exact Hval.
  - rewrite Hl, Nat.eqb_refl. cbn [orb].
    assert ((SIGLENGTH / 8 + ECPUBSIZE / 2 =?
             SIGLENGTH / 8 + ECPUBSIZE / 2 + LINK_MTU_SIZE)%nat = false)
      as -> by (apply Nat.eqb_neq; lia).
    simpl mbind. rewrite Hrecall. simpl mbind. exact Hval.
Qed.

(** The other ways in which the test of lines 1919-1931 fails: the data
    have neither of the two lengths, or the destination of the link
    cannot be recalled, so that the [try] block ends in an exception. *)
Lemma lrproof_malformed (packet : Packet) (L : LinkEntry) :
  (length (data packet) <> (SIGLENGTH / 8 + ECPUBSIZE / 2)%nat /\
   length (data packet) <>
     (SIGLENGTH / 8 + ECPUBSIZE / 2 + LINK_MTU_SIZE)%nat) \/
  recall (LT_DSTHASH L) = None ->
  lrproof_valid' packet L = false.
Proof.
  intros [[H1 H2]|Hrecall]; unfold lrproof_valid.
  - rewrite (proj2 (Nat.eqb_neq _ _) H1), (proj2 (Nat.eqb_neq _ _) H2).
    reflexivity.
  - destruct ((length (data packet) =? SIGLENGTH / 8 + ECPUBSIZE / 2)%nat ||
              (length (data packet) =?
               SIGLENGTH / 8 + ECPUBSIZE / 2 + LINK_MTU_SIZE)%nat);
      [|reflexivity].
    unfold lrproof_signed_data. rewrite Hrecall.
    destruct (if (length (data packet) =?
                  SIGLENGTH / 8 + ECPUBSIZE / 2 + LINK_MTU_SIZE)%nat
              then mtu_from_lp_packet packet ≫=
                   (fun mtu => signalling_bytes mtu
                                 (mode_from_lp_packet packet))
              else Some []); reflexivity.
Qed.

(** C5 (as amended).  A link entry [L] is in the link table under the
    link ID of the proof, and the hops that remain fit a byte.  On a node
    for which the test of line 1914 holds (it transports, or a local
    client is on this link or sent the proof), a link request proof
    that arrives on the next-hop interface of [L] with the hops that
    remain and a signature that validates under the key of the
    destination over link ID, peer key, signing key and the signalling
    bytes it carries, marks [L] validated and is handed to [transmit]
    once, on the interface the request was received on, with its hop
    byte refreshed.  A proof on another interface, or with other hops, or
    whose signature does not validate under that key over that data, or
    whose data have neither of the two lengths, or for a link whose
    destination cannot be recalled (or, more generally, one that fails
    the test of lines 1919-1931 in any way), is not sent on and leaves
    the link table as it was; and so does every proof on a node for
    which the test of line 1914 fails. *)
Theorem lrproof_symmetry
    (st : State) (fl : LocalFlags) (pending : list (bytes * Z))
    (packet : Packet) (L : LinkEntry) :
  link_table st !! destination_hash packet = Some L ->
  0 <= LT_REM_HOPS L <= 255 ->
  (transport_enabled st || for_local_client_link fl || from_local_client fl
   = true ->
   receiving_interface packet = LT_NH_IF L ->
   hops packet = LT_REM_HOPS L ->
   forall peer signalling,
     recall (LT_DSTHASH L) = Some peer ->
     (length (data packet) =
        (SIGLENGTH / 8 + ECPUBSIZE / 2 + LINK_MTU_SIZE)%nat /\
      (exists mtu, mtu_from_lp_packet packet = Some mtu /\
                   signalling_bytes mtu (mode_from_lp_packet packet) =
                   Some signalling)) \/
     (length (data packet) = (SIGLENGTH / 8 + ECPUBSIZE / 2)%nat /\
      LINK_MTU_SIZE <> 0%nat /\ signalling = []) ->
     validate peer (take (SIGLENGTH / 8) (data packet))
       (destination_hash packet ++
        slice (SIGLENGTH / 8) (SIGLENGTH / 8 + ECPUBSIZE / 2) (data packet) ++
        slice (ECPUBSIZE / 2) ECPUBSIZE (get_public_key peer) ++
        signalling) = true ->
     inbound_lrproof' st fl pending packet =
     completed
       (set_link_table st
          (alter validate_link (destination_hash packet) (link_table st)))
       [(LT_RCVD_IF L,
         slice 0 1 (raw packet) ++ [hops packet] ++ drop 2 (raw packet))] /\
     LT_VALIDATED <$>
       (link_table (out_state (inbound_lrproof' st fl pending packet)) !!
          destination_hash packet) = Some true) /\
  (receiving_interface packet <> LT_NH_IF L \/
   hops packet <> LT_REM_HOPS L \/
   (exists peer signalling,
      recall (LT_DSTHASH L) = Some peer /\
      ((length (data packet) =
          (SIGLENGTH / 8 + ECPUBSIZE / 2 + LINK_MTU_SIZE)%nat /\
        (exists mtu, mtu_from_lp_packet packet = Some mtu /\
                     signalling_bytes mtu (mode_from_lp_packet packet) =
                     Some signalling)) \/
       (length (data packet) = (SIGLENGTH / 8 + ECPUBSIZE / 2)%nat /\
        LINK_MTU_SIZE <> 0%nat /\ signalling = [])) /\
      validate peer (take (SIGLENGTH / 8) (data packet))
        (destination_hash packet ++
         slice (SIGLENGTH / 8) (SIGLENGTH / 8 + ECPUBSIZE / 2)
           (data packet) ++
         slice (ECPUBSIZE / 2) ECPUBSIZE (get_public_key peer) ++
         signalling) = false) \/
   (length (data packet) <> (SIGLENGTH / 8 + ECPUBSIZE / 2)%nat /\
    length (data packet) <>
      (SIGLENGTH / 8 + ECPUBSIZE / 2 + LINK_MTU_SIZE)%nat) \/
   recall (LT_DSTHASH L) = None \/
   lrproof_valid' packet L = false \/
   transport_enabled st || for_local_client_link fl || from_local_client fl
   = false ->
   out_tx (inbound_lrproof' st fl pending packet) = [] /\
   link_table (out_state (inbound_lrproof' st fl pending packet)) =
   link_table st /\
   (LT_VALIDATED L = false ->
    LT_VALIDATED <$>
      (link_table (out_state (inbound_lrproof' st fl pending packet)) !!
         destination_hash packet) = Some false)).
Proof.
  intros HL Hrem. split.
  - intros Hgate Hif Hhops peer signalling Hrecall Hlen Hval.
    assert (Hv : lrproof_valid' packet L = true)
      by (eapply lrproof_valid_intro; eassumption).
    assert (Hrun : inbound_lrproof' st fl pending packet =
      completed
        (set_link_table st
           (alter validate_link (destination_hash packet) (link_table st)))
        [(LT_RCVD_IF L,
          slice 0 1 (raw packet) ++ [hops packet] ++ drop 2 (raw packet))]).
    { unfold inbound_lrproof. rewrite Hgate, HL, Hhops, Z.eqb_refl.
      rewrite (bool_decide_eq_true_2 _ Hif), Hv.
      rewrite refresh_hops_byte by (rewrite Hhops; exact Hrem).
      rewrite Hhops. reflexivity. }
    split; [exact Hrun|]. rewrite Hrun. simpl.
    rewrite lookup_alter_eq, HL. reflexivity.
  - intros Hbad.
    assert (Hbad' :
      receiving_interface packet <> LT_NH_IF L \/
      hops packet <> LT_REM_HOPS L \/
      lrproof_valid' packet L = false \/
      transport_enabled st || for_local_client_link fl ||
      from_local_client fl = false).
    { destruct Hbad as [H|[H|[H|[H|[H|[H|H]]]]]]; auto.
      - destruct H as (peer & signalling & Hrecall & Hlen & Hval).
        right. right. left.
        eapply lrproof_invalid_intro; eassumption.
      - right. right. left. apply lrproof_malformed. left. exact H.
      - right. right. left. apply lrproof_malformed. right. exact H. }
    clear Hbad.
    assert (Hkeep :
      out_tx (inbound_lrproof' st fl pending packet) = [] /\
      link_table (out_state (inbound_lrproof' st fl pending packet)) =
      link_table st).
    { unfold inbound_lrproof.
      destruct (transport_enabled st || for_local_client_link fl ||
                from_local_client fl); [|apply lrproof_local_tables].
      rewrite HL.
      destruct (hops packet =? LT_REM_HOPS L) eqn:Eh;
        [|split; reflexivity].
      destruct (bool_decide (receiving_interface packet = LT_NH_IF L)) eqn:Ei;
        [|split; reflexivity].
      destruct (lrproof_valid' packet L) eqn:Ev; [|split; reflexivity].
      apply bool_decide_eq_true_1 in Ei. apply Z.eqb_eq in Eh.
      destruct Hbad' as [Hbad|[Hbad|[Hbad|Hbad]]];
        [contradiction | contradiction | discriminate | discriminate]. }
    destruct Hkeep as [Htx Htab]. split; [exact Htx|]. split; [exact Htab|].
    intros Hv. rewrite Htab, HL. simpl. rewrite Hv. reflexivity.
Qed.

(** C6 (as amended).  On a node that transports (or serves a local
    client with this proof), a PROOF whose context is neither LRPROOF
    nor RESOURCE_PRF, whose hop count fits a byte, whose destination
    hash is a key of the reverse table and which arrives on the outbound
    interface stored there, is handed to [transmit] once, on the stored
    receiving interface, with its hop byte refreshed; the reverse entry
    is removed, and no later proof with that destination hash (other
    than a link request proof) is sent on from the state that results. *)
Theorem proof_symmetry
    (st : State) (fl : LocalFlags) (pending : list (bytes * Z))
    (packet : Packet) (r : ReverseEntry) :
  context packet <> LRPROOF ->
  context packet <> RESOURCE_PRF ->
  transport_enabled st || from_local_client fl || proof_for_local_client fl
  = true ->
  reverse_table st !! destination_hash packet = Some r ->
  receiving_interface packet = RT_OUTB_IF r ->
  0 <= hops packet <= 255 ->
  inbound_proof' st fl pending packet =
  completed
    (set_reverse_table st
       (delete (destination_hash packet) (reverse_table st)))
    [(RT_RCVD_IF r,
      slice 0 1 (raw packet) ++ [hops packet] ++ drop 2 (raw packet))] /\
  reverse_table (out_state (inbound_proof' st fl pending packet)) !!
    destination_hash packet = None /\
  (forall fl' pending' packet',
     context packet' <> LRPROOF ->
     destination_hash packet' = destination_hash packet ->
     out_tx (inbound_proof' (out_state (inbound_proof' st fl pending packet))
               fl' pending' packet') = []).
Proof.
  intros Hc1 Hc2 Hgate Hr Hif Hh.
  assert (Hrun : inbound_proof' st fl pending packet =
    completed
      (set_reverse_table st
         (delete (destination_hash packet) (reverse_table st)))
      [(RT_RCVD_IF r,
        slice 0 1 (raw packet) ++ [hops packet] ++ drop 2 (raw packet))]).
  { unfold inbound_proof.
    assert (Hrev : inbound_reverse_proof st fl packet =
      completed
        (set_reverse_table st
           (delete (destination_hash packet) (reverse_table st)))
        [(RT_RCVD_IF r,
          slice 0 1 (raw packet) ++ [hops packet] ++ drop 2 (raw packet))]).
    { unfold inbound_reverse_proof. rewrite Hgate, Hr.
      rewrite (bool_decide_eq_true_2 _ Hif), (refresh_hops_byte _ Hh).
      reflexivity. }
    destruct (context packet); try exact Hrev; contradiction. }
  split; [exact Hrun|]. rewrite Hrun. simpl.
  split; [apply lookup_delete_eq|].
  intros fl' pending' packet' Hc' Hd'.
  assert (Hrev' : out_tx
    (inbound_reverse_proof
       (set_reverse_table st
          (delete (destination_hash packet) (reverse_table st)))
       fl' packet') = []).
  { unfold inbound_reverse_proof. simpl. rewrite Hd', lookup_delete_eq.
    destruct (transport_enabled st || from_local_client fl' ||
              proof_for_local_client fl'); reflexivity. }
  unfold inbound_proof.
  destruct (context packet'); try exact Hrev'; try reflexivity.
  contradiction.
Qed.

End WithIdentity.

(** A valid link proof for the link [hash_cc], on [IF1] with three hops:
    the link is validated and the proof sent on over [IF2]. *)
Lemma lrproof_symmetry_witness :
  let st := Examples.node_with_link in
  let packet :=
    Examples.proof_packet LRPROOF Examples.hash_cc Examples.lrproof_data
      Examples.IF1 3 in
  Examples.demo_inbound_lrproof st Examples.local_flags_off [] packet =
  completed
    (set_link_table st
       (alter validate_link (destination_hash packet) (link_table st)))
    [(Examples.IF2,
      slice 0 1 (raw packet) ++ [hops packet] ++ drop 2 (raw packet))] /\
  LT_VALIDATED <$>
    (link_table
       (out_state (Examples.demo_inbound_lrproof st Examples.local_flags_off []
                     packet)) !! destination_hash packet) = Some true.
Proof.
  intros st packet.
  destruct (lrproof_symmetry Examples.demo_SIGLENGTH Examples.demo_ECPUBSIZE
              Examples.demo_LINK_MTU_SIZE Examples.demo_recall
              Examples.demo_mtu_from_lp_packet
              Examples.demo_mode_from_lp_packet
              Examples.demo_signalling_bytes
              st Examples.local_flags_off [] packet Examples.link_entry)
    as [Hpos _].
  - vm_compute. reflexivity.
  - simpl. lia.
  - apply (Hpos eq_refl eq_refl eq_refl Examples.demo_identity []).
    + vm_compute. reflexivity.
    + right. split; [vm_compute; reflexivity|].
      split; [discriminate | reflexivity].
    + vm_compute. reflexivity.
Defined.

(** The same proof on the wrong interface, with the wrong hops, or with
    a signature that does not validate: nothing is sent on and the link
    stays unvalidated. *)
Lemma lrproof_rejected_examples :
  let st := Examples.node_with_link in
  let wrong_if :=
    Examples.proof_packet LRPROOF Examples.hash_cc Examples.lrproof_data
      Examples.IF2 3 in
  let wrong_hops :=
    Examples.proof_packet LRPROOF Examples.hash_cc Examples.lrproof_data
      Examples.IF1 2 in
  let wrong_sig :=
    Examples.proof_packet LRPROOF Examples.hash_cc
      (repeat 0 64 ++ repeat 4 32) Examples.IF1 3 in
  Examples.demo_inbound_lrproof st Examples.local_flags_off [] wrong_if =
    completed st [] /\
  Examples.demo_inbound_lrproof st Examples.local_flags_off [] wrong_hops =
    completed st [] /\
  Examples.demo_inbound_lrproof st Examples.local_flags_off [] wrong_sig =
    completed st [].
Proof. repeat split; vm_compute; reflexivity. Qed.

(** A proof for the forwarded packet, back on [IF1]: sent on over [IF2],
    and the reverse entry is gone. *)
Lemma proof_symmetry_witness :
  let st := Examples.node_with_reverse in
  let packet :=
    Examples.proof_packet NONE (repeat 5 16) [1; 2; 3] Examples.IF1 3 in
  Examples.demo_inbound_proof st Examples.local_flags_off [] packet =
  completed
    (set_reverse_table st
       (delete (destination_hash packet) (reverse_table st)))
    [(Examples.IF2,
      slice 0 1 (raw packet) ++ [hops packet] ++ drop 2 (raw packet))] /\
  reverse_table
    (out_state (Examples.demo_inbound_proof st Examples.local_flags_off [] packet)) !!
    destination_hash packet = None.
Proof.
  intros st packet.
  destruct (proof_symmetry Examples.demo_SIGLENGTH Examples.demo_ECPUBSIZE
              Examples.demo_LINK_MTU_SIZE Examples.demo_recall
              Examples.demo_mtu_from_lp_packet
              Examples.demo_mode_from_lp_packet
              Examples.demo_signalling_bytes
              st Examples.local_flags_off [] packet Examples.reverse_entry)
    as (Hrun & Hgone & _).
  - discriminate.
  - discriminate.
  - reflexivity.
  - vm_compute. reflexivity.
  - reflexivity.
  - simpl. lia.
  - split; assumption.
Defined.

(** C6 as stated fails on a PROOF with context RESOURCE_PRF: its
    destination hash is a key of the reverse table and it arrives on the
    stored outbound interface, yet it is not sent on and the reverse
    entry stays. *)
Lemma proof_symmetry_counterexample :
  let st := Examples.node_with_reverse in
  let packet :=
    Examples.proof_packet RESOURCE_PRF (repeat 5 16) [1; 2; 3]
      Examples.IF1 3 in
  packet_type packet = PROOF /\
  context packet <> LRPROOF /\
  transport_enabled st = true /\
  reverse_table st !! destination_hash packet = Some Examples.reverse_entry /\
  receiving_interface packet = RT_OUTB_IF Examples.reverse_entry /\
  Examples.demo_inbound_proof st Examples.local_flags_off [] packet = completed st [] /\
  reverse_table
    (out_state (Examples.demo_inbound_proof st Examples.local_flags_off [] packet)) !!
    destination_hash packet = Some Examples.reverse_entry.
Proof.
  intros st packet.
  split; [reflexivity|]. split; [discriminate|]. split; [reflexivity|].
  split; [vm_compute; reflexivity|]. split; [reflexivity|].
  split; vm_compute; reflexivity.
Qed.

(** A hop byte of 255: the reverse entry is taken out, packing the hop
    count raises, and the proof is not sent on. *)
Lemma proof_hop_overflow :
  let st := Examples.node_with_reverse in
  let packet :=
    Examples.proof_packet NONE (repeat 5 16) [1; 2; 3] Examples.IF1 256 in
  Examples.demo_inbound_proof st Examples.local_flags_off [] packet =
  raised (set_reverse_table st
            (delete (destination_hash packet) (reverse_table st))).
Proof. vm_compute. reflexivity. Qed.

(** C5 as stated fails on a node that does not transport.  A client of
    a shared instance knows [hash_aa] over [IF1] with no hops; a link
    request for it comes in and is sent on (the test of line 1314 holds,
    the destination being no hops away), which leaves the link entry [L],
    not validated.  The proof for that link then arrives on the next-hop
    interface of [L] with the hops that remain, and its signature
    validates; but the test of line 1914 asks for a node that transports
    or for a local client, so the proof is not sent on and [L] stays
    unvalidated. *)
Lemma lrproof_symmetry_counterexample :
  let st := Examples.client_with_local_path in
  let request := Examples.client_link_request in
  let o1 := Examples.demo_inbound_transport st [] request 500 in
  let link_id := Examples.demo_link_id_from_lr_packet request in
  let proof := Examples.client_lrproof in
  let o2 :=
    Examples.demo_inbound_lrproof (out_state o1)
      (local_flags (out_state o1) proof) [] proof in
  exists L,
    out_status o1 = Completed /\
    out_tx o1 =
      [(Examples.IF1,
        slice 0 1 (raw request) ++ [hops request] ++ drop 2 (raw request))] /\
    link_table (out_state o1) !! link_id = Some L /\
    LT_NH_IF L = Examples.IF1 /\
    LT_VALIDATED L = false /\
    destination_hash proof = link_id /\
    receiving_interface proof = LT_NH_IF L /\
    hops proof = LT_REM_HOPS L /\
    Examples.demo_recall (LT_DSTHASH L) = Some Examples.demo_identity /\
    validate Examples.demo_identity (take 64 (data proof))
      (link_id ++ slice 64 96 (data proof) ++
       slice 32 64 (get_public_key Examples.demo_identity)) = true /\
    out_tx o2 = [] /\
    LT_VALIDATED <$> (link_table (out_state o2) !! link_id) = Some false.
Proof.
  intros st request o1 link_id proof o2.
  exists {| LT_TIMESTAMP := 500;
            LT_NH_TRID := Examples.hash_bb;
            LT_NH_IF := Examples.IF1;
            LT_REM_HOPS := 0;
            LT_RCVD_IF := Examples.IF1;
            LT_HOPS := 0;
            LT_DSTHASH := Examples.hash_aa;
            LT_VALIDATED := false;
            LT_PROOF_TMO := 506 |}.
  repeat split; vm_compute; reflexivity.
Qed.

(** The same proof with a hop count of 256, on a transport node whose
    link entry has 256 hops to go: the signature validates, packing the
    hop count raises inside the [try] block, and the proof is not sent
    on. *)
Lemma lrproof_hop_overflow :
  let L :=
    {| LT_TIMESTAMP := 100;
       LT_NH_TRID := Examples.hash_bb;
       LT_NH_IF := Examples.IF1;
       LT_REM_HOPS := 256;
       LT_RCVD_IF := Examples.IF2;
       LT_HOPS := 1;
       LT_DSTHASH := Examples.hash_aa;
       LT_VALIDATED := false;
       LT_PROOF_TMO := 130 |} in
  let st := set_link_table Examples.node {[Examples.hash_cc := L]} in
  let packet :=
    Examples.proof_packet LRPROOF Examples.hash_cc Examples.lrproof_data
      Examples.IF1 256 in
  Examples.demo_inbound_lrproof st Examples.local_flags_off [] packet =
  completed st [].
Proof. vm_compute. reflexivity. Qed.

(** A link request without MTU signalling goes through this node, three
    hops from its destination; the proof that comes back on the next-hop
    interface validates the link and goes out on the interface the
    request came in on. *)
Lemma link_request_then_proof :
  let request := Examples.transit_packet LINKREQUEST NONE 82 (repeat 3 64) in
  let o1 :=
    Examples.demo_inbound_transport (Examples.node_with_path 3 []) [] request
      500 in
  let link_id := Examples.demo_link_id_from_lr_packet request in
  let proof :=
    Examples.proof_packet LRPROOF link_id
      (Examples.demo_signature (link_id ++ repeat 4 32 ++ repeat 9 32) ++
       repeat 4 32)
      Examples.IF1 3 in
  let o2 :=
    Examples.demo_inbound_lrproof (out_state o1)
      (local_flags (out_state o1) proof) [] proof in
  out_status o1 = Completed /\
  fst <$> out_tx o1 = [Examples.IF1] /\
  LT_VALIDATED <$> (link_table (out_state o1) !! link_id) = Some false /\
  out_tx o2 =
    [(Examples.IF2, slice 0 1 (raw proof) ++ [3] ++ drop 2 (raw proof))] /\
  LT_VALIDATED <$> (link_table (out_state o2) !! link_id) = Some true.
Proof. repeat split; vm_compute; reflexivity. Qed.

(** A data packet goes through this node; the proof that comes back on
    the outbound interface goes out on the interface the packet came in
    on, and the same proof a second time goes nowhere. *)
Lemma forward_then_proof_twice :
  let packet := Examples.transit_packet DATA NONE 80 [104; 105] in
  let o1 :=
    Examples.demo_inbound_transport (Examples.node_with_path 3 []) [] packet
      500 in
  let proof :=
    Examples.proof_packet NONE (getTruncatedHash packet) [1; 2; 3]
      Examples.IF1 3 in
  let o2 :=
    Examples.demo_inbound_proof (out_state o1)
      (local_flags (out_state o1) proof) [] proof in
  let o3 :=
    Examples.demo_inbound_proof (out_state o2)
      (local_flags (out_state o2) proof) [] proof in
  fst <$> out_tx o1 = [Examples.IF1] /\
  out_tx o2 =
    [(Examples.IF2, slice 0 1 (raw proof) ++ [3] ++ drop 2 (raw proof))] /\
  out_tx o3 = [].
Proof. repeat split; vm_compute; reflexivity. Qed.

End ProofFacts.

(** ** Announces: admission to the path table *)

Module AnnounceFacts.
Import Transport.

Lemma timebase_step (timebase : Z) (random_blob : bytes) :
  (let emitted := timebase_from_random_blob random_blob in
   if timebase <? emitted then emitted else timebase) =
  Z.max timebase (timebase_from_random_blob random_blob).
Proof.
  cbv zeta. destruct (timebase <? timebase_from_random_blob random_blob) eqn:E;
    lia.
Qed.

Lemma timebase_fold_ge (random_blobs : list bytes) (acc : Z) :
  acc <=
  fold_left
    (fun timebase random_blob =>
       let emitted := timebase_from_random_blob random_blob in
       if timebase <? emitted then emitted else timebase)
    random_blobs acc.
Proof.
  revert acc. induction random_blobs as [|b l IH]; intros acc; simpl.
  - lia.
  - etransitivity; [|apply IH].
    destruct (acc <? timebase_from_random_blob b) eqn:E; lia.
Qed.

(** The scan against the full maximum: it never exceeds it, and where it
    stays below the announce's timebase it is the full maximum. *)
Lemma path_announce_emitted_fold (E : Z) (random_blobs : list bytes) (acc : Z) :
  let P := path_announce_emitted E acc random_blobs in
  let T :=
    fold_left
      (fun timebase random_blob =>
         let emitted := timebase_from_random_blob random_blob in
         if timebase <? emitted then emitted else timebase)
      random_blobs acc in
  acc <= P <= T /\ (P < E -> P = T).
Proof.
  revert acc. induction random_blobs as [|b l IH]; intros acc; simpl.
  - split; [lia | reflexivity].
  - fold (timebase_from_random_blob b).
    assert (Hstep :
      (if acc <? timebase_from_random_blob b
       then timebase_from_random_blob b else acc) =
      Z.max acc (timebase_from_random_blob b))
      by (destruct (acc <? timebase_from_random_blob b) eqn:E'; lia).
    rewrite Hstep.
    destruct (E <=? Z.max acc (timebase_from_random_blob b)) eqn:Eb.
    + split; [|lia]. split; [lia|]. apply timebase_fold_ge.
    + specialize (IH (Z.max acc (timebase_from_random_blob b))).
      cbv zeta in IH. destruct IH as [[IH1 IH2] IH3].
      split; [split; [lia | exact IH2] | exact IH3].
Qed.

(** The scan decides "more recent" exactly as the full maximum does. *)
Lemma path_announce_emitted_newer (E : Z) (random_blobs : list bytes) :
  path_announce_emitted E 0 random_blobs < E <->
  timebase_from_random_blobs random_blobs < E.
Proof.
  pose proof (path_announce_emitted_fold E random_blobs 0) as H.
  cbv zeta in H. fold (timebase_from_random_blobs random_blobs) in H.
  destruct H as [[H0 H1] H2]. split; intros Hlt.
  - rewrite <- (H2 Hlt). exact Hlt.
  - lia.
Qed.

(** An announce as recent as the newest stored blob meets the scan at
    equality. *)
Lemma path_announce_emitted_equal (E : Z) (random_blobs : list bytes) :
  E = timebase_from_random_blobs random_blobs ->
  E = path_announce_emitted E 0 random_blobs.
Proof.
  intros HE.
  pose proof (path_announce_emitted_fold E random_blobs 0) as H.
  cbv zeta in H. fold (timebase_from_random_blobs random_blobs) in H.
  destruct H as [[H0 H1] H2].
  destruct (Z_lt_ge_dec (path_announce_emitted E 0 random_blobs) E) as [Hlt|Hge].
  - specialize (H2 Hlt). lia.
  - lia.
Qed.

Section WithIdentity.

Variable KEYSIZE : nat.
Variable NAME_HASH_LENGTH : nat.

Local Abbreviation random_blob_of' := (random_blob_of KEYSIZE NAME_HASH_LENGTH).
Local Abbreviation announce_emitted' :=
  (announce_emitted KEYSIZE NAME_HASH_LENGTH).
Local Abbreviation announce_should_add' :=
  (announce_should_add KEYSIZE NAME_HASH_LENGTH).

(** C1 (as amended).  For an announce that is not for a local
    destination and has fewer than 129 hops, with [E] its emission
    timebase, [T] the maximum timebase over the stored random blobs and
    [P] the running maximum of the stored timebases, taken in stored
    order up to the first blob at which it reaches [E] (all of them, and
    then [P = T], if it never does):
    - with no path entry the announce is admitted;
    - with hops at most the stored hops it is admitted iff its random
      blob is not stored and [E > T];
    - with more hops it is admitted only if the path has expired and
      the blob is new, or [E > T] and the blob is new, or [E = P] and
      the path is UNRESPONSIVE; and it is admitted if the path has
      expired and the blob is new, or the path has not expired and
      either [E > T] with a new blob or [E = P] with the path
      UNRESPONSIVE. *)
Theorem announce_admission (st : State) (packet : Packet) (now : Z) :
  is_local_destination st (destination_hash packet) = false ->
  hops packet < PATHFINDER_M + 1 ->
  match path_table st !! destination_hash packet with
  | None => fst (announce_should_add' st packet now) = true
  | Some entry =>
      let E := announce_emitted' packet in
      let random_blobs := PT_RANDBLOBS entry in
      let is_new := random_blob_of' packet ∉ random_blobs in
      let T := timebase_from_random_blobs random_blobs in
      let P := path_announce_emitted E 0 random_blobs in
      let unresponsive :=
        path_is_unresponsive st (destination_hash packet) = true in
      (hops packet <= PT_HOPS entry ->
       (fst (announce_should_add' st packet now) = true <->
        is_new /\ E > T)) /\
      (hops packet > PT_HOPS entry ->
       (fst (announce_should_add' st packet now) = true ->
        (PT_EXPIRES entry <= now /\ is_new) \/
        (E > T /\ is_new) \/
        (E = P /\ unresponsive)) /\
       ((PT_EXPIRES entry <= now /\ is_new) \/
        (now < PT_EXPIRES entry /\ E > T /\ is_new) \/
        (now < PT_EXPIRES entry /\ E = P /\ unresponsive) ->
        fst (announce_should_add' st packet now) = true))
  end.
Proof.
  intros Hlocal Hhops. unfold announce_should_add.
  rewrite Hlocal. assert ((hops packet <? PATHFINDER_M + 1) = true) as ->
    by lia. cbn [negb andb].
  destruct (path_table st !! destination_hash packet) as [entry|];
    [|reflexivity].
  cbv zeta.
  pose proof (path_announce_emitted_newer (announce_emitted' packet)
                (PT_RANDBLOBS entry)) as Hnewer.
  split.
  - intros Hle. assert ((hops packet <=? PT_HOPS entry) = true) as -> by lia.
    destruct (decide (random_blob_of' packet ∈ PT_RANDBLOBS entry))
      as [Hin|Hin].
    + rewrite (bool_decide_eq_true_2 _ Hin). cbn [negb andb fst].
      split; [discriminate | tauto].
    + rewrite (bool_decide_eq_false_2 _ Hin). cbn [negb andb].
      destruct (timebase_from_random_blobs (PT_RANDBLOBS entry) <?
                announce_emitted' packet) eqn:Et; cbn [fst];
        split; intros H; try reflexivity; try discriminate;
        try (split; [assumption | lia]); lia.
  - intros Hgt. assert ((hops packet <=? PT_HOPS entry) = false) as -> by lia.
    destruct (PT_EXPIRES entry <=? now) eqn:Eexp.
    + destruct (decide (random_blob_of' packet ∈ PT_RANDBLOBS entry))
        as [Hin|Hin].
      * rewrite (bool_decide_eq_true_2 _ Hin). cbn [negb fst].
        split; [discriminate|].
        intros [[_ Hn]|[[Hn _]|[Hn _]]]; try contradiction; lia.
      * rewrite (bool_decide_eq_false_2 _ Hin). cbn [negb fst].
        split; [|reflexivity]. intros _. left. split; [lia | assumption].
    + destruct (path_announce_emitted (announce_emitted' packet) 0
                  (PT_RANDBLOBS entry) <? announce_emitted' packet) eqn:Ep.
      * assert (Hlt : timebase_from_random_blobs (PT_RANDBLOBS entry) <
                      announce_emitted' packet) by (apply Hnewer; lia).
        destruct (decide (random_blob_of' packet ∈ PT_RANDBLOBS entry))
          as [Hin|Hin].
        -- rewrite (bool_decide_eq_true_2 _ Hin). cbn [negb fst].
           split; [discriminate|].
           intros [[Hn _]|[[_ [_ Hn]]|[_ [Hn _]]]];
             try contradiction; lia.
        -- rewrite (bool_decide_eq_false_2 _ Hin). cbn [negb fst].
           split; [|reflexivity]. intros _. right. left.
           split; [lia | assumption].
      * assert (Hge : ~ timebase_from_random_blobs (PT_RANDBLOBS entry) <
                        announce_emitted' packet) by (rewrite <- Hnewer; lia).
        destruct (announce_emitted' packet =?
                  path_announce_emitted (announce_emitted' packet) 0
                    (PT_RANDBLOBS entry)) eqn:Eeq.
        -- destruct (path_is_unresponsive st (destination_hash packet))
             eqn:Eu; cbn [fst].
           ++ split; [|reflexivity]. intros _. right. right.
              split; [lia | reflexivity].
           ++ split; [discriminate|].
              intros [[Hn _]|[[_ [Hn _]]|[_ [_ Hn]]]];
                try discriminate; lia.
        -- cbn [fst]. split; [discriminate|].
           intros [[Hn _]|[[_ [Hn _]]|[_ [Hn _]]]]; lia.
Qed.

End WithIdentity.

(** An announce with timebase 9 and the stored number of hops, on a
    path whose only stored blob has timebase 5: admitted. *)
Lemma announce_admission_witness :
  fst (Examples.demo_announce_should_add
         (Examples.node_with_path 3 [Examples.blob 5])
         (Examples.announce_for_aa 9 3) 500) = true.
Proof.
  pose proof (announce_admission Examples.demo_KEYSIZE
                Examples.demo_NAME_HASH_LENGTH
                (Examples.node_with_path 3 [Examples.blob 5])
                (Examples.announce_for_aa 9 3) 500 eq_refl eq_refl) as H.
  assert (Hl : Transport.path_table
                 (Examples.node_with_path 3 [Examples.blob 5]) !!
               destination_hash (Examples.announce_for_aa 9 3) =
               Some (Examples.path_entry 3 [Examples.blob 5]))
    by (vm_compute; reflexivity).
  rewrite Hl in H. cbv zeta in H. destruct H as [Hle _].
  apply Hle.
  - simpl. lia.
  - split.
    + vm_compute. intros Hin. apply list_elem_of_singleton in Hin.
      discriminate.
    + vm_compute. reflexivity.
Defined.

(** An announce for a destination without a path entry is admitted. *)
Lemma announce_unknown_destination :
  fst (Examples.demo_announce_should_add Examples.node
         (Examples.announce_for_aa 5 3) 500) = true.
Proof. vm_compute. reflexivity. Qed.

(** C1 as stated fails with more hops than stored, on a path that has
    not expired and is marked UNRESPONSIVE, when the stored blobs have
    timebases 5 and 9 and the announce has timebase 5: the scan stops at
    the first blob, the announce is admitted, and yet [E = 5] is neither
    above nor equal to [T = 9], and its blob is not new. *)
Lemma announce_admission_counterexample :
  let st :=
    Examples.unresponsive
      (Examples.node_with_path 1 [Examples.blob 5; Examples.blob 9]) in
  let packet := Examples.announce_for_aa 5 3 in
  let entry := Examples.path_entry 1 [Examples.blob 5; Examples.blob 9] in
  path_table st !! destination_hash packet = Some entry /\
  is_local_destination st (destination_hash packet) = false /\
  hops packet < 129 /\
  hops packet > PT_HOPS entry /\
  500 < PT_EXPIRES entry /\
  Examples.demo_announce_emitted packet = 5 /\
  timebase_from_random_blobs (PT_RANDBLOBS entry) = 9 /\
  Examples.demo_random_blob_of packet ∈ PT_RANDBLOBS entry /\
  path_is_unresponsive st (destination_hash packet) = true /\
  fst (Examples.demo_announce_should_add st packet 500) = true.
Proof.
  intros st packet entry.
  split; [vm_compute; reflexivity|]. split; [reflexivity|].
  split; [simpl; lia|]. split; [simpl; lia|].
  split; [vm_compute; reflexivity|].
  split; [vm_compute; reflexivity|]. split; [vm_compute; reflexivity|].
  split; [vm_compute; set_solver|]. split; vm_compute; reflexivity.
Qed.

End AnnounceFacts.

(** ** Random blobs in memory and on disk *)

Module BlobFacts.
Import Transport.

Lemma last_n_length {A} (n : nat) (l : list A) :
  n <> 0%nat -> (length (last_n n l) <= n)%nat.
Proof.
  intros Hn. unfold last_n.
  destruct (n =? 0)%nat eqn:E; [apply Nat.eqb_eq in E; contradiction|].
  rewrite length_drop. lia.
Qed.

Lemma last_n_NoDup {A} (n : nat) (l : list A) : NoDup l -> NoDup (last_n n l).
Proof.
  intros Hl. unfold last_n. destruct (n =? 0)%nat; [assumption|].
  eapply sublist_NoDup; [exact Hl | apply sublist_drop].
Qed.

(** The first half of C9, by value: the list an admitted announce leaves
    in its path entry has distinct elements and at most 64 of them, if
    the list it started from had. *)
Lemma append_random_blob_bound (random_blob : bytes)
    (random_blobs : list bytes) :
  NoDup random_blobs ->
  (length random_blobs <= MAX_RANDOM_BLOBS)%nat ->
  NoDup (append_random_blob random_blob random_blobs) /\
  (length (append_random_blob random_blob random_blobs)
   <= MAX_RANDOM_BLOBS)%nat.
Proof.
  intros Hnd Hlen. unfold append_random_blob.
  destruct (decide (random_blob ∈ random_blobs)) as [Hin|Hin].
  - rewrite (bool_decide_eq_true_2 _ Hin). split; assumption.
  - rewrite (bool_decide_eq_false_2 _ Hin). split.
    + apply last_n_NoDup. apply NoDup_app. split; [assumption|].
      split; [|apply NoDup_singleton].
      intros x Hx Hx'. apply list_elem_of_singleton in Hx'. subst.
      contradiction.
    + apply last_n_length. discriminate.
Qed.

(** What [save_tunnel_table] writes has at most 32 blobs per path. *)
Lemma save_tunnel_table_bound (st : State) (out : list SerialisedTunnel)
    (t : SerialisedTunnel) (e : SerialisedEntry) :
  save_tunnel_table st = Some out ->
  t ∈ out -> e ∈ st_paths t ->
  (length (se_random_blobs e) <= PERSIST_RANDOM_BLOBS)%nat.
Proof.
  unfold save_tunnel_table.
  destruct (negb (is_connected_to_shared_instance st)); [|discriminate].
  intros [= <-] Ht He.
  apply list_elem_of_In, in_map_iff in Ht. destruct Ht as ([tid te] & <- & _).
  simpl in He. unfold serialise_tunnel_paths in He.
  apply list_elem_of_In, in_map_iff in He. destruct He as ([dst de] & <- & _).
  simpl. apply last_n_length. discriminate.
Qed.

(** What [save_path_table] writes has all the blobs of the path entry. *)
Lemma save_path_table_blobs (st : State) (out : list SerialisedEntry)
    (e : SerialisedEntry) :
  save_path_table st = Some out ->
  e ∈ out ->
  exists de,
    path_table st !! se_destination_hash e = Some de /\
    se_random_blobs e = PT_RANDBLOBS de.
Proof.
  unfold save_path_table.
  destruct (negb (is_connected_to_shared_instance st)); [|discriminate].
  intros [= <-] He.
  apply list_elem_of_omap in He. destruct He as ([dst de] & Hin & Hsome).
  apply elem_of_map_to_list in Hin.
  destruct (find_interface_from_hash st (get_hash (PT_RVCD_IF de)));
    [|discriminate].
  injection Hsome as <-. exists de. split; [exact Hin | reflexivity].
Qed.

(** C9 at its failing input.  A path entry with 33 distinct random
    blobs, well within the bound of 64 in memory: [save_path_table]
    writes one entry for it, with all 33 blobs, more than
    [PERSIST_RANDOM_BLOBS]. *)
Theorem save_path_table_persists_all_blobs :
  let st := Examples.node_with_path 1 (Examples.blobs_upto 33) in
  NoDup (Examples.blobs_upto 33) /\
  (length (Examples.blobs_upto 33) <= MAX_RANDOM_BLOBS)%nat /\
  exists e,
    save_path_table st = Some [e] /\
    se_random_blobs e = Examples.blobs_upto 33 /\
    length (se_random_blobs e) = 33%nat /\
    (PERSIST_RANDOM_BLOBS < length (se_random_blobs e))%nat.
Proof.
  intros st. split; [|split].
  - apply (bool_decide_unpack _). vm_compute. exact I.
  - vm_compute. lia.
  - eexists. split; [vm_compute; reflexivity|].
    split; [reflexivity|]. split; [reflexivity|]. vm_compute. lia.
Qed.

End BlobFacts.

(** ** The random-blob lists as objects *)

Module StoreFacts.
Import Transport.
Import BlobStore.

(** By value, the entry [announce_write] leaves in the path table holds
    the blobs that [append_random_blob] computes from the blobs of the
    entry it replaces. *)
Lemma announce_write_blobs (s : Store) (dst random_blob received_from : bytes)
    (announce_hops now : Z) (receiving_interface : Interface)
    (packet_hash : bytes) :
  let s' :=
    fst (announce_write s dst random_blob received_from announce_hops now
           receiving_interface packet_hash) in
  exists e,
    path_table s' !! dst = Some e /\
    blobs_of s' e =
    append_random_blob random_blob
      (match path_table s !! dst with
       | Some e0 => blobs_of s e0
       | None => []
       end).
Proof.
  unfold announce_write, append_random_blob.
  destruct (path_table s !! dst) as [e0|] eqn:Hold.
  - fold (blobs_of s e0).
    destruct (bool_decide (random_blob ∈ blobs_of s e0)) eqn:Hin.
    + cbn [alloc]. eexists.
      destruct (tunnel_id receiving_interface) as [tid|].
      * cbn [set_path tunnels].
        destruct (tunnels s !! tid); cbn [fst set_tunnel set_path path_table];
          (split; [apply lookup_insert_eq | reflexivity]).
      * cbn [fst set_path path_table].
        split; [apply lookup_insert_eq | reflexivity].
    + cbn [alloc update_list next_list lists path_table tunnels].
      eexists.
      destruct (tunnel_id receiving_interface) as [tid|].
      * cbn [set_path tunnels].
        destruct (tunnels s !! tid); cbn [fst set_tunnel set_path path_table];
          (split; [apply lookup_insert_eq|]);
          unfold blobs_of; cbn [lists PR_RANDBLOBS set_path set_tunnel];
          rewrite lookup_insert_eq; reflexivity.
      * cbn [fst set_path path_table].
        split; [apply lookup_insert_eq|].
        unfold blobs_of. cbn [lists PR_RANDBLOBS set_path set_tunnel].
        rewrite lookup_insert_eq. reflexivity.
  - cbn [alloc lists]. rewrite lookup_insert_eq. cbn [default].
    rewrite bool_decide_eq_false_2 by apply not_elem_of_nil.
    cbn [alloc update_list next_list lists path_table tunnels app].
    eexists.
    destruct (tunnel_id receiving_interface) as [tid|].
    + cbn [set_path tunnels].
      destruct (tunnels s !! tid); cbn [fst set_tunnel set_path path_table];
        (split; [apply lookup_insert_eq|]);
        unfold blobs_of; cbn [lists PR_RANDBLOBS set_path set_tunnel];
        rewrite lookup_insert_eq; reflexivity.
    + cbn [fst set_path path_table].
      split; [apply lookup_insert_eq|].
      unfold blobs_of. cbn [lists PR_RANDBLOBS set_path set_tunnel].
      rewrite lookup_insert_eq. reflexivity.
Qed.

(** So the entry written keeps the bound, if the entry it replaces had
    it. *)
Lemma announce_write_bound (s : Store) (dst random_blob received_from : bytes)
    (announce_hops now : Z) (receiving_interface : Interface)
    (packet_hash : bytes) :
  (forall e0, path_table s !! dst = Some e0 ->
              NoDup (blobs_of s e0) /\
              (length (blobs_of s e0) <= MAX_RANDOM_BLOBS)%nat) ->
  let s' :=
    fst (announce_write s dst random_blob received_from announce_hops now
           receiving_interface packet_hash) in
  exists e,
    path_table s' !! dst = Some e /\
    NoDup (blobs_of s' e) /\
    (length (blobs_of s' e) <= MAX_RANDOM_BLOBS)%nat.
Proof.
  intros Hold s'.
  destruct (announce_write_blobs s dst random_blob received_from
              announce_hops now receiving_interface packet_hash)
    as (e & He & Hb).
  exists e. split; [exact He|]. fold s' in Hb. rewrite Hb.
  apply BlobFacts.append_random_blob_bound.
  - destruct (path_table s !! dst) as [e0|]; [apply (Hold e0 eq_refl)|].
    apply NoDup_nil_2.
  - destruct (path_table s !! dst) as [e0|]; [apply (Hold e0 eq_refl)|].
    simpl. lia.
Qed.

(** The copy under the tunnel is the same list object as the path
    entry: after 64 announces on the tunnel interface both refer to one
    location, which holds 64 blobs. *)
Lemma tunnel_copy_is_aliased :
  exists e t c,
    path_table Examples.after_64_on_tunnel !! Examples.hash_aa = Some e /\
    tunnels Examples.after_64_on_tunnel !! repeat 14 32 = Some t /\
    TR_PATHS t !! Examples.hash_aa = Some c /\
    PR_RANDBLOBS c = PR_RANDBLOBS e /\
    length (blobs_of Examples.after_64_on_tunnel e) = 64%nat.
Proof.
  eexists. eexists. eexists.
  split; [vm_compute; reflexivity|]. split; [vm_compute; reflexivity|].
  split; [vm_compute; reflexivity|]. split; vm_compute; reflexivity.
Qed.

(** The 65th announce comes in on another interface.  Its own path
    entry gets a new list of 64 blobs; the append before the slice went
    to the old list, which the tunnel copy still refers to: that copy
    now has 65 blobs. *)
Lemma append_shows_in_tunnel_copy :
  exists e t c,
    path_table Examples.after_65th_elsewhere !! Examples.hash_aa = Some e /\
    length (blobs_of Examples.after_65th_elsewhere e) = 64%nat /\
    tunnels Examples.after_65th_elsewhere !! repeat 14 32 = Some t /\
    TR_PATHS t !! Examples.hash_aa = Some c /\
    length (blobs_of Examples.after_65th_elsewhere c) = 65%nat.
Proof.
  eexists. eexists. eexists.
  split; [vm_compute; reflexivity|]. split; [vm_compute; reflexivity|].
  split; [vm_compute; reflexivity|]. split; vm_compute; reflexivity.
Qed.

(** When the tunnel reappears, its path is put back into the path
    table with the distinct blobs of that list: a path entry with 65
    random blobs. *)
Theorem tunnel_restore_exceeds_bound :
  exists e,
    path_table Examples.after_tunnel_reappears !! Examples.hash_aa = Some e /\
    PR_RVCD_IF e <> None /\
    NoDup (blobs_of Examples.after_tunnel_reappears e) /\
    length (blobs_of Examples.after_tunnel_reappears e) = 65%nat /\
    (MAX_RANDOM_BLOBS < length (blobs_of Examples.after_tunnel_reappears e))%nat.
Proof.
  eexists. split; [vm_compute; reflexivity|].
  split; [discriminate|].
  split; [apply (bool_decide_unpack _); vm_compute; exact I|].
  split; [vm_compute; reflexivity|]. vm_compute. lia.
Qed.

End StoreFacts.

(** ** Paths: states and queries *)

Module PathsFacts.
Import Transport Paths.

Lemma path_is_unresponsive_set_states (st : State) (t : gmap bytes Z)
    (d : bytes) :
  path_is_unresponsive (set_path_states st t) d =
  match t !! d with
  | Some s => s =? STATE_UNRESPONSIVE
  | None => false
  end.
Proof. reflexivity. Qed.

(** The state marks as a caller sees them.  Each of the two calls
    answers whether the destination has a path.  After
    [mark_path_unresponsive] the destination counts as unresponsive iff
    it has a path or counted as unresponsive before; after
    [mark_path_responsive] it does iff it has no path and counted as
    unresponsive before: a state left behind by a removed path cannot
    be cleared.  No other destination is touched. *)
Theorem path_state_marks (st : State) (d d' : bytes) :
  fst (mark_path_unresponsive st d) = has_path st d /\
  fst (mark_path_responsive st d) = has_path st d /\
  path_is_unresponsive (snd (mark_path_unresponsive st d)) d =
    has_path st d || path_is_unresponsive st d /\
  path_is_unresponsive (snd (mark_path_responsive st d)) d =
    negb (has_path st d) && path_is_unresponsive st d /\
  (d <> d' ->
   path_is_unresponsive (snd (mark_path_unresponsive st d)) d' =
     path_is_unresponsive st d' /\
   path_is_unresponsive (snd (mark_path_responsive st d)) d' =
     path_is_unresponsive st d') /\
  path_table (snd (mark_path_unresponsive st d)) = path_table st /\
  path_table (snd (mark_path_responsive st d)) = path_table st.
Proof.
  unfold mark_path_unresponsive, mark_path_responsive, has_path.
  destruct (path_table st !! d) as [e|] eqn:He; cbn [fst snd].
  - rewrite !path_is_unresponsive_set_states, !lookup_insert_eq.
    repeat split; try reflexivity;
      rewrite lookup_insert_ne by done; reflexivity.
  - repeat split; reflexivity.
Qed.

Section WithIdentity.

Variable KEYSIZE : nat.
Variable NAME_HASH_LENGTH : nat.

Local Abbreviation announce_should_add :=
  (announce_should_add KEYSIZE NAME_HASH_LENGTH).
Local Abbreviation announce_emitted :=
  (announce_emitted KEYSIZE NAME_HASH_LENGTH).

(** X1.  An announce that was heard before comes back over a longer route:
    more hops than the stored path, which has not expired, and the
    scan of the stored blobs stops at the timebase of the announce.  It
    replaces the path iff the path is marked unresponsive: after
    [mark_path_unresponsive] it is admitted, after
    [mark_path_responsive] it is not. *)
Theorem unresponsive_mark_admits_longer_route
    (st : State) (packet : Packet) (entry : PathEntry) (now : Z) :
  path_table st !! destination_hash packet = Some entry ->
  is_local_destination st (destination_hash packet) = false ->
  hops packet < PATHFINDER_M + 1 ->
  PT_HOPS entry < hops packet ->
  now < PT_EXPIRES entry ->
  path_announce_emitted (announce_emitted packet) 0 (PT_RANDBLOBS entry) =
    announce_emitted packet ->
  fst (announce_should_add
         (snd (mark_path_unresponsive st (destination_hash packet)))
         packet now) = true /\
  fst (announce_should_add
         (snd (mark_path_responsive st (destination_hash packet)))
         packet now) = false.
Proof.
  intros He Hloc Hmax Hhops Hexp Hscan.
  assert (Hany : forall t,
             fst (announce_should_add (set_path_states st t) packet now) =
             path_is_unresponsive (set_path_states st t)
               (destination_hash packet)).
  { intros t. unfold Transport.announce_should_add.
    change (is_local_destination (set_path_states st t)
              (destination_hash packet))
      with (is_local_destination st (destination_hash packet)).
    rewrite Hloc. cbn [negb andb path_table set_path_states].
    replace (hops packet <? PATHFINDER_M + 1) with true
      by (symmetry; apply Z.ltb_lt; exact Hmax).
    rewrite He.
    replace (hops packet <=? PT_HOPS entry) with false
      by (symmetry; apply Z.leb_gt; exact Hhops).
    replace (PT_EXPIRES entry <=? now) with false
      by (symmetry; apply Z.leb_gt; exact Hexp).
    fold (Transport.announce_emitted KEYSIZE NAME_HASH_LENGTH packet).
    rewrite Hscan, Z.ltb_irrefl, Z.eqb_refl.
    destruct (path_is_unresponsive (set_path_states st t)
                (destination_hash packet)); reflexivity. }
  unfold mark_path_unresponsive, mark_path_responsive. rewrite He.
  cbn [snd]. rewrite !Hany, !path_is_unresponsive_set_states.
  rewrite !lookup_insert_eq. split; reflexivity.
Qed.

End WithIdentity.

(** On the example path with three hops and one stored blob of timebase
    5, the announce of timebase 5 with four hops. *)
Lemma unresponsive_mark_admits_longer_route_witness :
  fst (Examples.demo_announce_should_add
         (snd (mark_path_unresponsive
                 (Examples.node_with_path 3 [Examples.blob 5])
                 Examples.hash_aa))
         (Examples.announce_for_aa 5 4) 500) = true /\
  fst (Examples.demo_announce_should_add
         (snd (mark_path_responsive
                 (Examples.node_with_path 3 [Examples.blob 5])
                 Examples.hash_aa))
         (Examples.announce_for_aa 5 4) 500) = false.
Proof.
  apply (unresponsive_mark_admits_longer_route Examples.demo_KEYSIZE
           Examples.demo_NAME_HASH_LENGTH
           (Examples.node_with_path 3 [Examples.blob 5])
           (Examples.announce_for_aa 5 4)
           (Examples.path_entry 3 [Examples.blob 5]) 500);
    vm_compute; reflexivity.
Defined.

End PathsFacts.

(** ** The periodic jobs *)

Module JobsFacts.
Import Transport Paths Jobs.

(** *** The list of active links *)

Lemma remove_first_app_notin (x : LinkObject) (done rest : list LinkObject) :
  x ∉ done -> remove_first x (done ++ x :: rest) = done ++ rest.
Proof.
  induction done as [|y done IH]; intros Hnotin; simpl.
  - destruct (decide (x = x)); [reflexivity | contradiction].
  - destruct (decide (x = y)) as [->|_].
    + exfalso. apply Hnotin. left.
    + rewrite IH; [reflexivity|]. intros Hin. apply Hnotin. right. exact Hin.
Qed.

Lemma remove_first_closed (x : LinkObject) (l : list LinkObject) :
  is_closed x = true ->
  filter (fun y => is_closed y = false) (remove_first x l) =
  filter (fun y => is_closed y = false) l.
Proof.
  intros Hx. induction l as [|y l IH]; simpl; [reflexivity|].
  destruct (decide (x = y)) as [<-|_].
  - rewrite filter_cons_False; [reflexivity|]. rewrite Hx. discriminate.
  - rewrite !filter_cons. rewrite IH. reflexivity.
Qed.

Lemma cull_links_from_keeps_open (fuel idx : nat) (links : list LinkObject) :
  filter (fun y => is_closed y = false) (cull_links_from fuel idx links) =
  filter (fun y => is_closed y = false) links.
Proof.
  revert idx links.
  induction fuel as [|fuel IH]; intros idx links; simpl; [reflexivity|].
  destruct (links !! idx) as [link|]; [|reflexivity].
  rewrite IH. destruct (is_closed link) eqn:Hc; [|reflexivity].
  apply remove_first_closed. exact Hc.
Qed.

Lemma cull_links_from_end (fuel idx : nat) (links : list LinkObject) :
  (length links <= idx)%nat -> cull_links_from fuel idx links = links.
Proof.
  intros Hlen. destruct fuel; simpl; [reflexivity|].
  rewrite lookup_ge_None_2 by exact Hlen. reflexivity.
Qed.

Lemma cull_links_from_isolated (n : nat) :
  forall (rest done : list LinkObject) (fuel : nat),
    (length rest <= n)%nat -> (length rest <= fuel)%nat ->
    NoDup (done ++ rest) ->
    (forall i x y, rest !! i = Some x -> rest !! S i = Some y ->
                   is_closed x = true -> is_closed y = false) ->
    cull_links_from fuel (length done) (done ++ rest) =
    done ++ filter (fun y => is_closed y = false) rest.
Proof.
  induction n as [|n IH]; intros rest done fuel Hn Hfuel Hnd Hadj.
  - destruct rest; [|simpl in Hn; lia].
    rewrite filter_nil, app_nil_r. apply cull_links_from_end. lia.
  - destruct rest as [|x r].
    + rewrite filter_nil, app_nil_r. apply cull_links_from_end. lia.
    + destruct fuel as [|fuel]; [simpl in Hfuel; lia|].
      cbn [cull_links_from].
      rewrite lookup_app_r, Nat.sub_diag by lia. cbn [lookup list_lookup].
      destruct (is_closed x) eqn:Hx.
      * rewrite remove_first_app_notin.
        2:{ apply NoDup_app in Hnd as (_ & Hdis & _). intros Hin.
            apply (Hdis x Hin). left. }
        rewrite filter_cons_False by (rewrite Hx; discriminate).
        destruct r as [|y r'].
        { rewrite filter_nil, app_nil_r. apply cull_links_from_end. lia. }
        assert (Hy : is_closed y = false) by (apply (Hadj 0%nat x y); done).
        rewrite filter_cons_True by exact Hy.
        replace (done ++ y :: r') with ((done ++ [y]) ++ r')
          by (rewrite <- app_assoc; reflexivity).
        replace (S (length done)) with (length (done ++ [y]))
          by (rewrite length_app; simpl; lia).
        rewrite IH.
        -- rewrite <- app_assoc. reflexivity.
        -- simpl in Hn. lia.
        -- simpl in Hfuel. lia.
        -- rewrite <- app_assoc. simpl.
           apply NoDup_app in Hnd as (Hd & Hdis & Hr).
           apply NoDup_app. split; [exact Hd|]. split.
           ++ intros z Hz Hz'. apply (Hdis z Hz). right. exact Hz'.
           ++ apply NoDup_cons in Hr as [_ Hr]. exact Hr.
        -- intros i a b Ha Hb. apply (Hadj (S (S i)) a b); assumption.
      * rewrite filter_cons_True by exact Hx.
        replace (done ++ x :: r) with ((done ++ [x]) ++ r)
          by (rewrite <- app_assoc; reflexivity).
        replace (S (length done)) with (length (done ++ [x]))
          by (rewrite length_app; simpl; lia).
        rewrite IH.
        -- rewrite <- app_assoc. reflexivity.
        -- simpl in Hn. lia.
        -- simpl in Hfuel. lia.
        -- rewrite <- app_assoc. exact Hnd.
        -- intros i a b Ha Hb. apply (Hadj (S i) a b); assumption.
Qed.

Lemma cull_active_links_isolated (links : list LinkObject) :
  NoDup links ->
  (forall i x y, links !! i = Some x -> links !! S i = Some y ->
                 is_closed x = true -> is_closed y = false) ->
  cull_active_links links = filter (fun y => is_closed y = false) links.
Proof.
  intros Hnd Hadj. unfold cull_active_links.
  apply (cull_links_from_isolated (length links) links [] (length links));
    auto.
Qed.

Lemma remove_first_at (idx : nat) (link : LinkObject)
    (links : list LinkObject) :
  NoDup links -> links !! idx = Some link ->
  remove_first link links = take idx links ++ drop (S idx) links.
Proof.
  intros Hnd Hl.
  rewrite <- (take_drop_middle links idx link Hl) at 1.
  apply remove_first_app_notin.
  rewrite <- (take_drop_middle links idx link Hl) in Hnd.
  apply NoDup_app in Hnd as (_ & Hdis & _).
  intros Hin. apply (Hdis link Hin). left.
Qed.

Lemma cull_links_from_take (fuel : nat) :
  forall (idx : nat) (links : list LinkObject),
    NoDup links ->
    take idx (cull_links_from fuel idx links) = take idx links.
Proof.
  induction fuel as [|fuel IH]; intros idx links Hnd; simpl; [reflexivity|].
  destruct (links !! idx) as [link|] eqn:Hl; [|reflexivity].
  assert (Hlt : (idx < length links)%nat)
    by (apply lookup_lt_is_Some; eauto).
  destruct (is_closed link).
  - rewrite (remove_first_at idx link links Hnd Hl).
    assert (Hnd' : NoDup (take idx links ++ drop (S idx) links)).
    { rewrite <- (take_drop_middle links idx link Hl) in Hnd.
      apply NoDup_app in Hnd as (Hd & Hdis & Hr).
      apply NoDup_app. split; [exact Hd|]. split.
      - intros z Hz Hz'. apply (Hdis z Hz). right. exact Hz'.
      - apply NoDup_cons in Hr as [_ Hr]. exact Hr. }
    pose proof (IH (S idx) _ Hnd') as Hs.
    apply (f_equal (take idx)) in Hs.
    rewrite !take_take, Nat.min_l in Hs by lia.
    rewrite Hs, take_app_le by (rewrite length_take; lia).
    rewrite take_take, Nat.min_id. reflexivity.
  - pose proof (IH (S idx) links Hnd) as Hs.
    apply (f_equal (take idx)) in Hs.
    rewrite !take_take, Nat.min_l in Hs by lia. exact Hs.
Qed.

Lemma cull_links_from_step (fuel idx : nat) (links : list LinkObject)
    (link : LinkObject) :
  links !! idx = Some link ->
  cull_links_from (S fuel) idx links =
  cull_links_from fuel (S idx)
    (if is_closed link then remove_first link links else links).
Proof. intros Hl. simpl. rewrite Hl. reflexivity. Qed.

Lemma cull_links_from_open_prefix (pre : list LinkObject) :
  forall (done rest : list LinkObject) (fuel : nat),
    Forall (fun x => is_closed x = false) pre ->
    cull_links_from (length pre + fuel) (length done) (done ++ pre ++ rest) =
    cull_links_from fuel (length done + length pre) (done ++ pre ++ rest).
Proof.
  induction pre as [|x pre IH]; intros done rest fuel Hopen.
  - simpl. rewrite Nat.add_0_r. reflexivity.
  - apply Forall_cons in Hopen as [Hx Hopen].
    cbn [length Nat.add cull_links_from].
    rewrite lookup_app_r, Nat.sub_diag by lia. cbn [app lookup list_lookup].
    rewrite Hx.
    replace (done ++ x :: pre ++ rest) with ((done ++ [x]) ++ pre ++ rest)
      by (rewrite <- app_assoc; reflexivity).
    replace (S (length done)) with (length (done ++ [x]))
      by (rewrite length_app; simpl; lia).
    rewrite IH by exact Hopen.
    rewrite length_app. simpl. f_equal. lia.
Qed.

Lemma cull_active_links_skips_next (pre post : list LinkObject)
    (a b : LinkObject) :
  NoDup (pre ++ a :: b :: post) ->
  Forall (fun x => is_closed x = false) pre ->
  is_closed a = true ->
  cull_active_links (pre ++ a :: b :: post) !! length pre = Some b.
Proof.
  intros Hnd Hopen Ha. unfold cull_active_links.
  replace (length (pre ++ a :: b :: post))
    with (length pre + S (S (length post)))%nat
    by (rewrite length_app; simpl; lia).
  pose proof (cull_links_from_open_prefix pre [] (a :: b :: post)
                (S (S (length post))) Hopen) as Hp.
  cbn [length app Nat.add] in Hp. rewrite Hp. clear Hp.
  rewrite (cull_links_from_step _ _ _ a)
    by (rewrite lookup_app_r, Nat.sub_diag by lia; reflexivity).
  rewrite Ha, remove_first_app_notin.
  2:{ apply NoDup_app in Hnd as (_ & Hdis & _). intros Hin.
      apply (Hdis a Hin). left. }
  assert (Hnd' : NoDup (pre ++ b :: post)).
  { apply NoDup_app in Hnd as (Hd & Hdis & Hr).
    apply NoDup_app. split; [exact Hd|]. split.
    - intros z Hz Hz'. apply (Hdis z Hz). right. exact Hz'.
    - apply NoDup_cons in Hr as [_ Hr]. exact Hr. }
  pose proof (cull_links_from_take (S (length post)) (S (length pre))
                (pre ++ b :: post) Hnd') as Ht.
  apply (f_equal (fun l => l !! length pre)) in Ht.
  rewrite !lookup_take_lt in Ht by lia.
  rewrite Ht, lookup_app_r, Nat.sub_diag by lia. reflexivity.
Qed.

(** X2.  The pass over the active links, for link objects that are distinct.
    A link that is not closed is never removed.  Every closed link is
    removed when no two closed links stand next to each other.  But the
    item after a removed link is not looked at: it takes the place of
    the removed one under the running index and is passed over, so of
    two closed links that stand next to each other, after links that are
    not closed, the second stays in the list. *)
Theorem cull_active_links_pass (links : list LinkObject) :
  NoDup links ->
  filter (fun y => is_closed y = false) (cull_active_links links) =
    filter (fun y => is_closed y = false) links /\
  ((forall i x y, links !! i = Some x -> links !! S i = Some y ->
                  is_closed x = true -> is_closed y = false) ->
   cull_active_links links = filter (fun y => is_closed y = false) links) /\
  (forall pre a b post,
     links = pre ++ a :: b :: post ->
     Forall (fun x => is_closed x = false) pre ->
     is_closed a = true ->
     cull_active_links links !! length pre = Some b).
Proof.
  intros Hnd. split; [apply cull_links_from_keeps_open|]. split.
  - apply cull_active_links_isolated. exact Hnd.
  - intros pre a b post -> Hopen Ha.
    apply cull_active_links_skips_next; assumption.
Qed.

(** Two closed links followed by one that is not. *)
Lemma cull_active_links_pass_witness :
  let links :=
    [ {| link_name := 1; is_closed := true |};
      {| link_name := 2; is_closed := true |};
      {| link_name := 3; is_closed := false |} ] in
  filter (fun y => is_closed y = false) (cull_active_links links) =
    filter (fun y => is_closed y = false) links /\
  ((forall i x y, links !! i = Some x -> links !! S i = Some y ->
                  is_closed x = true -> is_closed y = false) ->
   cull_active_links links = filter (fun y => is_closed y = false) links) /\
  (forall pre a b post,
     links = pre ++ a :: b :: post ->
     Forall (fun x => is_closed x = false) pre ->
     is_closed a = true ->
     cull_active_links links !! length pre = Some b).
Proof.
  apply (cull_active_links_pass
           [ {| link_name := 1; is_closed := true |};
             {| link_name := 2; is_closed := true |};
             {| link_name := 3; is_closed := false |} ]).
  apply (bool_decide_unpack _). vm_compute. exact I.
Defined.

(** *** The packet hashlist *)

(** X3.  A packet that was remembered is dropped when it comes again, and
    still is after the hashlist has been rotated once; the rotation
    leaves at most [hashlist_maxsize//2] hashes in the current
    generation.  (The packet is one that comes to the last test of the
    filter and is not an announce for a SINGLE destination.) *)
Theorem duplicate_dropped_across_rotation (st : State) (packet : Packet) :
  reaches_final_test st packet ->
  ~ (packet_type packet = ANNOUNCE /\ destination_type packet = SINGLE) ->
  let st1 := add_packet_hash st (packet_hash packet) in
  packet_filter st1 packet = false /\
  packet_filter (cull_packet_hashlist st1) packet = false /\
  Z.of_nat (size (packet_hashlist (cull_packet_hashlist st1))) <=
    hashlist_maxsize / 2.
Proof.
  intros Hreach Hns st1.
  assert (Hs : is_connected_to_shared_instance st = false)
    by (destruct Hreach as [Hs _]; exact Hs).
  assert (Hin : packet_hash packet ∈ packet_hashlist st1).
  { unfold st1, add_packet_hash. rewrite Hs. simpl. set_solver. }
  assert (Hlate : forall st',
             reaches_final_test st' packet ->
             packet_hash packet ∈ packet_hashlist st' \/
             packet_hash packet ∈ packet_hashlist_prev st' ->
             packet_filter st' packet = false).
  { intros st' Hr Hor. rewrite (FilterFacts.final_test st' packet Hr).
    destruct Hor as [Hc|Hp].
    - rewrite (bool_decide_eq_true_2 _ Hc). cbn [negb andb].
      destruct (bool_decide (packet_type packet = ANNOUNCE)) eqn:Ha;
        [|reflexivity].
      destruct (bool_decide (destination_type packet = SINGLE)) eqn:Hd;
        [|reflexivity].
      exfalso. apply Hns. split.
      + apply bool_decide_eq_true_1 in Ha. exact Ha.
      + apply bool_decide_eq_true_1 in Hd. exact Hd.
    - rewrite (bool_decide_eq_true_2 _ Hp), andb_false_r.
      destruct (bool_decide (packet_type packet = ANNOUNCE)) eqn:Ha;
        [|reflexivity].
      destruct (bool_decide (destination_type packet = SINGLE)) eqn:Hd;
        [|reflexivity].
      exfalso. apply Hns. split.
      + apply bool_decide_eq_true_1 in Ha. exact Ha.
      + apply bool_decide_eq_true_1 in Hd. exact Hd. }
  assert (Hreach1 : reaches_final_test st1 packet).
  { unfold st1, add_packet_hash. rewrite Hs. exact Hreach. }
  split; [apply Hlate; [exact Hreach1 | left; exact Hin]|].
  unfold cull_packet_hashlist.
  destruct (hashlist_maxsize / 2 <? Z.of_nat (size (packet_hashlist st1)))
    eqn:Hbig.
  - split.
    + apply Hlate; [exact Hreach1 | right; exact Hin].
    + cbn [packet_hashlist set_packet_hashlists]. rewrite size_empty.
      vm_compute. discriminate.
  - split.
    + apply Hlate; [exact Hreach1 | left; exact Hin].
    + apply Z.ltb_ge in Hbig. exact Hbig.
Qed.

Lemma duplicate_dropped_across_rotation_witness :
  let st1 := add_packet_hash Examples.node (packet_hash Examples.data_packet)
  in
  packet_filter st1 Examples.data_packet = false /\
  packet_filter (cull_packet_hashlist st1) Examples.data_packet = false /\
  Z.of_nat (size (packet_hashlist (cull_packet_hashlist st1))) <=
    hashlist_maxsize / 2.
Proof.
  apply (duplicate_dropped_across_rotation Examples.node
           Examples.data_packet).
  - unfold reaches_final_test. simpl.
    repeat split; try discriminate.
  - intros [Ha _]. discriminate Ha.
Defined.

(** *** The tags of path requests *)

(** X4.  When more than [max_pr_tags] tags are held, the cull keeps the
    [max_pr_tags - 1] tags before the newest one: the oldest tags go,
    and so does the newest. *)
Theorem cull_pr_tags_drops_newest (discovery_pr_tags : list bytes) :
  max_pr_tags < Z.of_nat (length discovery_pr_tags) ->
  exists old newest,
    discovery_pr_tags = old ++ cull_pr_tags discovery_pr_tags ++ [newest] /\
    Z.of_nat (length (cull_pr_tags discovery_pr_tags)) = max_pr_tags - 1.
Proof.
  intros Hlen. unfold cull_pr_tags.
  replace (max_pr_tags <? Z.of_nat (length discovery_pr_tags)) with true
    by (symmetry; apply Z.ltb_lt; exact Hlen).
  unfold max_pr_tags in *. unfold slice.
  set (n := length discovery_pr_tags) in *.
  set (k := (n - Z.to_nat 32000)%nat).
  assert (Hk : (k + Z.to_nat 32000 = n)%nat) by (unfold k; lia).
  destruct (drop (n - 1) discovery_pr_tags) as [|newest tl] eqn:Hd.
  { apply (f_equal length) in Hd. rewrite length_drop in Hd. simpl in Hd.
    fold n in Hd. lia. }
  assert (Htl : tl = []).
  { apply (f_equal length) in Hd. rewrite length_drop in Hd. simpl in Hd.
    fold n in Hd. destruct tl; [reflexivity | simpl in Hd; lia]. }
  subst tl.
  exists (take k discovery_pr_tags), newest. split.
  - rewrite <- (take_drop k discovery_pr_tags) at 1. f_equal.
    rewrite <- (take_drop (n - 1 - k) (drop k discovery_pr_tags)) at 1.
    f_equal. rewrite drop_drop.
    replace (k + (n - 1 - k))%nat with (n - 1)%nat by lia. exact Hd.
  - rewrite length_take, length_drop. fold n. lia.
Qed.

Lemma cull_pr_tags_drops_newest_witness :
  exists old newest,
    repeat [0] (Z.to_nat 32001) =
      old ++ cull_pr_tags (repeat [0] (Z.to_nat 32001)) ++ [newest] /\
    Z.of_nat (length (cull_pr_tags (repeat [0] (Z.to_nat 32001)))) =
      max_pr_tags - 1.
Proof.
  apply (cull_pr_tags_drops_newest (repeat [0] (Z.to_nat 32001))).
  rewrite repeat_length. unfold max_pr_tags. lia.
Defined.

(** *** The tables *)

Section WithLinkTimeout.

Variable LINK_TIMEOUT : Z.

Local Abbreviation cull_link := (cull_link LINK_TIMEOUT).
Local Abbreviation cull_tables := (cull_tables LINK_TIMEOUT).
Local Abbreviation jobs_cull_tables := (jobs_cull_tables LINK_TIMEOUT).

(** What the loop over the links can do to the state: on an instance
    without transport, set the timestamp of a path to 0; on a transport
    instance, mark a destination that has a path as unresponsive. *)
Local Abbreviation link_loop_changes st st' :=
  (transport_enabled st' = transport_enabled st /\
   interfaces st' = interfaces st /\
   link_table st' = link_table st /\
   reverse_table st' = reverse_table st /\
   tunnels st' = tunnels st /\
   (forall d,
      path_table st' !! d = path_table st !! d \/
      (transport_enabled st = false /\
       path_table st' !! d = touch_path 0 <$> path_table st !! d)) /\
   (forall d,
      path_states st' !! d = path_states st !! d \/
      (transport_enabled st = true /\
       is_Some (path_table st !! d) /\
       path_states st' !! d = Some STATE_UNRESPONSIVE))).

Lemma link_loop_changes_refl (st : State) : link_loop_changes st st.
Proof. repeat split; intros; left; reflexivity. Qed.

Lemma link_loop_changes_trans (st1 st2 st3 : State) :
  link_loop_changes st1 st2 -> link_loop_changes st2 st3 ->
  link_loop_changes st1 st3.
Proof.
  intros (Ht & Hi & Hl & Hr & Hu & Hp & Hs)
         (Ht' & Hi' & Hl' & Hr' & Hu' & Hp' & Hs').
  repeat split; try congruence.
  - intros d. destruct (Hp' d) as [E'|[Hn' E']], (Hp d) as [E|[Hn E]].
    + left. congruence.
    + right. split; [exact Hn|]. congruence.
    + right. split; [congruence|]. rewrite E', E. reflexivity.
    + right. split; [exact Hn|]. rewrite E', E.
      destruct (path_table st1 !! d); reflexivity.
  - intros d. destruct (Hs' d) as [E'|(Hn' & Hsome' & E')],
                       (Hs d) as [E|(Hn & Hsome & E)].
    + left. congruence.
    + right. repeat split; [exact Hn | exact Hsome | congruence].
    + right. split; [congruence|]. split; [|exact E'].
      destruct (Hp d) as [Ep|[Hf _]]; [|congruence].
      rewrite <- Ep. exact Hsome'.
    + right. repeat split; [exact Hn | exact Hsome | exact E'].
Qed.

Ltac unchanged :=
  repeat split; try reflexivity; try assumption; intros; left; reflexivity.

Lemma mark_unresponsive_for_changes (st : State) (link_entry : LinkEntry) :
  link_loop_changes st (mark_unresponsive_for st link_entry).
Proof.
  unfold mark_unresponsive_for.
  destruct (transport_enabled st) eqn:Ht; [|unchanged].
  destruct (mode (LT_RCVD_IF link_entry)) as [m|]; [|unchanged].
  destruct (negb (bool_decide (m = MODE_BOUNDARY)));
    [|unchanged].
  unfold mark_path_unresponsive.
  destruct (path_table st !! LT_DSTHASH link_entry) as [e|] eqn:He;
    [|unchanged].
  cbn [snd]. repeat split; try reflexivity; try assumption.
  - intros d. left. reflexivity.
  - intros d. cbn [path_states set_path_states].
    destruct (decide (d = LT_DSTHASH link_entry)) as [->|Hne].
    + right. rewrite lookup_insert_eq, He. eauto.
    + left. rewrite lookup_insert_ne by done. reflexivity.
Qed.

Lemma expire_path_changes (st : State) (d0 : bytes) :
  transport_enabled st = false ->
  link_loop_changes st (snd (fst (expire_path st 0 d0))).
Proof.
  intros Ht. unfold expire_path.
  destruct (path_table st !! d0) as [e|] eqn:He; [|unchanged].
  cbn [fst snd]. repeat split; try reflexivity.
  - intros d. cbn [path_table set_path_table].
    destruct (decide (d = d0)) as [->|Hne].
    + right. split; [exact Ht|]. rewrite lookup_alter_eq. reflexivity.
    + left. rewrite lookup_alter_ne by done. reflexivity.
  - intros d. left. reflexivity.
Qed.

Lemma cull_link_changes (tprs : gmap bytes Z) (now : Z) (acc : LinkCull)
    (link_id : bytes) :
  link_loop_changes (lc_state acc) (lc_state (cull_link tprs now acc link_id)).
Proof.
  unfold Jobs.cull_link.
  destruct (link_table (lc_state acc) !! link_id) as [l|];
    [|apply link_loop_changes_refl].
  destruct (LT_VALIDATED l).
  { destruct (_ || _ || _); apply link_loop_changes_refl. }
  destruct (LT_PROOF_TMO l <? now); [|apply link_loop_changes_refl].
  assert (Hfin : forall st1 : State,
             link_loop_changes (lc_state acc) st1 ->
             link_loop_changes (lc_state acc)
               (if negb (transport_enabled st1)
                then snd (fst (expire_path st1 0 (LT_DSTHASH l)))
                else st1)).
  { intros st1 H1. destruct (negb (transport_enabled st1)) eqn:Ht1;
      [|exact H1].
    apply (link_loop_changes_trans _ st1); [exact H1|].
    apply expire_path_changes. apply negb_true_iff. exact Ht1. }
  pose proof (mark_unresponsive_for_changes (lc_state acc) l) as Hm.
  destruct (negb (has_path (lc_state acc) (LT_DSTHASH l))).
  { cbn [lc_state]. apply Hfin, link_loop_changes_refl. }
  destruct (negb _ && (LT_HOPS l =? 0)).
  { cbn [lc_state]. apply Hfin, link_loop_changes_refl. }
  destruct (negb _ && (hops_to (lc_state acc) (LT_DSTHASH l) =? 1)).
  { cbn [lc_state]. apply Hfin, Hm. }
  destruct (negb _ && (LT_HOPS l =? 1)).
  { cbn [lc_state]. apply Hfin, Hm. }
  cbn [lc_state]. apply link_loop_changes_refl.
Qed.

Lemma link_loop_effect (tprs : gmap bytes Z) (now : Z) (link_ids : list bytes) :
  forall acc,
    link_loop_changes (lc_state acc)
      (lc_state (fold_left (cull_link tprs now) link_ids acc)).
Proof.
  induction link_ids as [|link_id link_ids IH]; intros acc.
  - apply link_loop_changes_refl.
  - cbn [fold_left].
    apply (link_loop_changes_trans _
             (lc_state (cull_link tprs now acc link_id))).
    + apply cull_link_changes.
    + apply IH.
Qed.

Lemma path_entry_stale_false (st : State) (now : Z) (e : PathEntry) :
  path_entry_stale st now e = false <->
  PT_RVCD_IF e ∈ interfaces st /\
  now <= PT_TIMESTAMP e +
         match mode (PT_RVCD_IF e) with
         | Some MODE_ACCESS_POINT => AP_PATH_TIME
         | Some MODE_ROAMING => ROAMING_PATH_TIME
         | _ => DESTINATION_TIMEOUT
         end.
Proof.
  unfold path_entry_stale.
  set (T := match mode (PT_RVCD_IF e) with
            | Some MODE_ACCESS_POINT => AP_PATH_TIME
            | Some MODE_ROAMING => ROAMING_PATH_TIME
            | _ => DESTINATION_TIMEOUT
            end).
  replace (match mode (PT_RVCD_IF e) with
           | Some MODE_ACCESS_POINT => PT_TIMESTAMP e + AP_PATH_TIME
           | Some MODE_ROAMING => PT_TIMESTAMP e + ROAMING_PATH_TIME
           | _ => PT_TIMESTAMP e + DESTINATION_TIMEOUT
           end) with (PT_TIMESTAMP e + T)
    by (unfold T; destruct (mode (PT_RVCD_IF e)) as [[]|]; reflexivity).
  destruct (PT_TIMESTAMP e + T <? now) eqn:Hlt.
  - apply Z.ltb_lt in Hlt. split; [discriminate | lia].
  - apply Z.ltb_ge in Hlt.
    destruct (bool_decide (PT_RVCD_IF e ∈ interfaces st)) eqn:Hin; cbn [negb].
    + apply bool_decide_eq_true_1 in Hin. split; [auto | reflexivity].
    + apply bool_decide_eq_false_1 in Hin. split; [discriminate | tauto].
Qed.

Lemma reverse_entry_stale_false (st : State) (now : Z) (r : ReverseEntry) :
  reverse_entry_stale st now r = false <->
  now <= RT_TIMESTAMP r + REVERSE_TIMEOUT /\
  RT_OUTB_IF r ∈ interfaces st /\ RT_RCVD_IF r ∈ interfaces st.
Proof.
  unfold reverse_entry_stale.
  destruct (RT_TIMESTAMP r + REVERSE_TIMEOUT <? now) eqn:Hlt.
  - apply Z.ltb_lt in Hlt. split; [discriminate | lia].
  - apply Z.ltb_ge in Hlt.
    destruct (bool_decide (RT_OUTB_IF r ∈ interfaces st)) eqn:Ho; cbn [negb].
    + apply bool_decide_eq_true_1 in Ho.
      destruct (bool_decide (RT_RCVD_IF r ∈ interfaces st)) eqn:Hr;
        cbn [negb].
      * apply bool_decide_eq_true_1 in Hr. split; [auto | reflexivity].
      * apply bool_decide_eq_false_1 in Hr. split; [discriminate | tauto].
    + apply bool_decide_eq_false_1 in Ho. split; [discriminate | tauto].
Qed.

(** X5.  After the cull, no path, reverse entry or tunnel is out of date or
    refers to an interface that is gone: every path is on a registered
    interface and within the time its interface mode allows, counted
    from its timestamp; every reverse entry has both its interfaces
    registered and is at most [REVERSE_TIMEOUT] old; every tunnel has
    not expired, its interface, if it has one, is registered, and none
    of its paths is older than [DESTINATION_TIMEOUT]. *)
Theorem cull_leaves_fresh_entries (st : State) (tprs : gmap bytes Z)
    (prs : list (bytes * option Interface))
    (link_ids : list bytes) (now : Z) :
  let st' := fst (cull_tables st tprs prs link_ids now) in
  interfaces st' = interfaces st /\
  (forall d e, path_table st' !! d = Some e ->
     PT_RVCD_IF e ∈ interfaces st /\
     now <= PT_TIMESTAMP e +
            match mode (PT_RVCD_IF e) with
            | Some MODE_ACCESS_POINT => AP_PATH_TIME
            | Some MODE_ROAMING => ROAMING_PATH_TIME
            | _ => DESTINATION_TIMEOUT
            end) /\
  (forall h r, reverse_table st' !! h = Some r ->
     now <= RT_TIMESTAMP r + REVERSE_TIMEOUT /\
     RT_OUTB_IF r ∈ interfaces st /\ RT_RCVD_IF r ∈ interfaces st) /\
  (forall t te, tunnels st' !! t = Some te ->
     now <= TT_EXPIRES te /\
     (forall i, TT_IF te = Some i -> i ∈ interfaces st) /\
     (forall d p, TT_PATHS te !! d = Some p ->
        now <= TP_TIMESTAMP p + DESTINATION_TIMEOUT)).
Proof.
  unfold Jobs.cull_tables. cbn [fst].
  set (lc := fold_left _ link_ids _).
  pose proof (link_loop_effect tprs now link_ids
                {| lc_state := st; lc_stale_links := [];
                   lc_path_requests := prs; lc_blocked_if := None |}) as Hch.
  fold lc in Hch. cbn [lc_state] in Hch.
  destruct Hch as (Ht & Hi & Hl & Hr & Hu & Hp & Hs).
  cbn [interfaces path_table reverse_table tunnels set_path_states
       set_path_table set_link_table set_reverse_table set_tunnels].
  split; [exact Hi|]. split; [|split].
  - intros d e He. apply map_lookup_filter_Some in He as [_ Hns].
    cbn [snd] in Hns. apply negb_True, Is_true_false_1 in Hns.
    apply path_entry_stale_false in Hns. rewrite Hi in Hns. exact Hns.
  - intros h r He. apply map_lookup_filter_Some in He as [_ Hns].
    cbn [snd] in Hns. apply negb_True, Is_true_false_1 in Hns.
    apply reverse_entry_stale_false in Hns. exact Hns.
  - intros t te He. rewrite lookup_omap in He.
    destruct (tunnels (lc_state lc) !! t) as [te0|]; [|discriminate].
    cbn [mbind option_bind] in He. unfold cull_tunnel in He.
    destruct (TT_EXPIRES te0 <? now) eqn:Hexp; [discriminate|].
    apply Z.ltb_ge in Hexp. injection He as <-. cbn [TT_EXPIRES TT_IF TT_PATHS].
    split; [exact Hexp|]. split.
    + intros i Hif. destruct (TT_IF te0) as [i0|]; [|discriminate].
      destruct (bool_decide (i0 ∈ interfaces (lc_state lc))) eqn:Hin;
        cbn [negb] in Hif; [|discriminate].
      injection Hif as <-. apply bool_decide_eq_true_1 in Hin.
      rewrite Hi in Hin. exact Hin.
    + intros d p Hp0. apply map_lookup_filter_Some in Hp0 as [_ Hns].
      cbn [snd] in Hns. apply negb_True, Is_true_false_1 in Hns.
      apply Z.ltb_ge in Hns. exact Hns.
Qed.

(** X6.  On a transport instance the cull keeps exactly the paths that are
    on a registered interface and within the time their interface mode
    allows, counted from the timestamp: the [expires] field of a path
    plays no part, so a path whose timestamp is refreshed by traffic is
    kept past its expiry. *)
Theorem cull_paths_exact_on_transport (st : State) (tprs : gmap bytes Z)
    (prs : list (bytes * option Interface))
    (link_ids : list bytes) (now : Z) (d : bytes) (e : PathEntry) :
  transport_enabled st = true ->
  path_table (fst (cull_tables st tprs prs link_ids now)) !! d = Some e <->
  path_table st !! d = Some e /\
  PT_RVCD_IF e ∈ interfaces st /\
  now <= PT_TIMESTAMP e +
         match mode (PT_RVCD_IF e) with
         | Some MODE_ACCESS_POINT => AP_PATH_TIME
         | Some MODE_ROAMING => ROAMING_PATH_TIME
         | _ => DESTINATION_TIMEOUT
         end.
Proof.
  intros Hte. unfold Jobs.cull_tables. cbn [fst].
  set (lc := fold_left _ link_ids _).
  pose proof (link_loop_effect tprs now link_ids
                {| lc_state := st; lc_stale_links := [];
                   lc_path_requests := prs; lc_blocked_if := None |}) as Hch.
  fold lc in Hch. cbn [lc_state] in Hch.
  destruct Hch as (Ht & Hi & Hl & Hr & Hu & Hp & Hs).
  cbn [interfaces path_table reverse_table tunnels set_path_states
       set_path_table set_link_table set_reverse_table set_tunnels].
  rewrite map_lookup_filter_Some. cbn [snd].
  rewrite negb_True, Is_true_false, path_entry_stale_false, Hi.
  destruct (Hp d) as [E|[Hf _]]; [|congruence].
  rewrite E. reflexivity.
Qed.

Lemma cull_link_stale_links (tprs : gmap bytes Z) (now : Z) (acc : LinkCull)
    (link_id : bytes) :
  lc_stale_links (cull_link tprs now acc link_id) =
  lc_stale_links acc ++
  match link_table (lc_state acc) !! link_id with
  | Some l =>
      if (if LT_VALIDATED l
          then (LT_TIMESTAMP l + LINK_TIMEOUT <? now) ||
               negb (bool_decide (LT_NH_IF l ∈ interfaces (lc_state acc))) ||
               negb (bool_decide (LT_RCVD_IF l ∈ interfaces (lc_state acc)))
          else LT_PROOF_TMO l <? now)
      then [link_id] else []
  | None => []
  end.
Proof.
  unfold Jobs.cull_link.
  destruct (link_table (lc_state acc) !! link_id) as [l|];
    [|rewrite app_nil_r; reflexivity].
  destruct (LT_VALIDATED l).
  - destruct (_ || _ || _); cbn [lc_stale_links]; rewrite ?app_nil_r;
      reflexivity.
  - destruct (LT_PROOF_TMO l <? now); [|rewrite app_nil_r; reflexivity].
    repeat (match goal with
            | |- context [if ?c then (_, _, _) else _] => destruct c
            end); reflexivity.
Qed.

Local Abbreviation link_stale st now l :=
  (if LT_VALIDATED l
   then (LT_TIMESTAMP l + LINK_TIMEOUT <? now) ||
        negb (bool_decide (LT_NH_IF l ∈ interfaces st)) ||
        negb (bool_decide (LT_RCVD_IF l ∈ interfaces st))
   else LT_PROOF_TMO l <? now).

Lemma link_loop_stale (st : State) (tprs : gmap bytes Z) (now : Z)
    (link_ids : list bytes) :
  forall acc k,
    link_loop_changes st (lc_state acc) ->
    k ∈ lc_stale_links (fold_left (cull_link tprs now) link_ids acc) <->
    k ∈ lc_stale_links acc \/
    (k ∈ link_ids /\
     exists l, link_table st !! k = Some l /\ link_stale st now l = true).
Proof.
  induction link_ids as [|link_id link_ids IH]; intros acc k Hch.
  - simpl. split; [auto|]. intros [H|[H _]]; [exact H|].
    apply elem_of_nil in H. contradiction.
  - cbn [fold_left]. rewrite IH.
    2:{ apply (link_loop_changes_trans _ (lc_state acc)); [exact Hch|].
        apply cull_link_changes. }
    rewrite cull_link_stale_links, elem_of_app, elem_of_cons.
    destruct Hch as (_ & Hi & Hl & _). rewrite Hl, Hi.
    destruct (link_table st !! link_id) as [l|] eqn:Hlk.
    + destruct (link_stale st now l) eqn:Hst.
      * rewrite list_elem_of_singleton. split.
        -- intros [[H| ->]|(Hin & l' & Hl' & Hs')]; [auto| |].
           ++ right. split; [auto|]. exists l. auto.
           ++ right. split; [auto|]. exists l'. auto.
        -- intros [H|([->|Hin] & l' & Hl' & Hs')]; [auto| |].
           ++ left. right. reflexivity.
           ++ right. split; [exact Hin|]. exists l'. auto.
      * split.
        -- intros [[H|H]|(Hin & l' & Hl' & Hs')];
             [auto|apply elem_of_nil in H; contradiction|].
           right. split; [auto|]. exists l'. auto.
        -- intros [H|([->|Hin] & l' & Hl' & Hs')]; [auto| |].
           ++ rewrite Hlk in Hl'. injection Hl' as <-. congruence.
           ++ right. split; [exact Hin|]. exists l'. auto.
    + split.
      * intros [[H|H]|(Hin & l' & Hl' & Hs')];
          [auto|apply elem_of_nil in H; contradiction|].
        right. split; [auto|]. exists l'. auto.
      * intros [H|([->|Hin] & l' & Hl' & Hs')]; [auto| |].
        -- rewrite Hlk in Hl'. discriminate.
        -- right. split; [exact Hin|]. exists l'. auto.
Qed.

Lemma fold_delete_lookup {A} (ks : list bytes) :
  forall (t : gmap bytes A) (k : bytes),
    fold_left (fun t k => delete k t) ks t !! k =
    if bool_decide (k ∈ ks) then None else t !! k.
Proof.
  induction ks as [|k0 ks IH]; intros t k.
  - rewrite bool_decide_eq_false_2 by apply not_elem_of_nil. reflexivity.
  - cbn [fold_left]. rewrite IH.
    destruct (bool_decide (k ∈ ks)) eqn:Hin.
    + apply bool_decide_eq_true_1 in Hin.
      rewrite bool_decide_eq_true_2 by (right; exact Hin). reflexivity.
    + apply bool_decide_eq_false_1 in Hin.
      destruct (decide (k = k0)) as [->|Hne].
      * rewrite bool_decide_eq_true_2 by left. apply lookup_delete_eq.
      * rewrite bool_decide_eq_false_2, lookup_delete_ne by
          (try (intros H; apply elem_of_cons in H as [H|H]); congruence).
        reflexivity.
Qed.

(** X7.  The cull keeps exactly these links (where the loop goes over every
    key of the link table): a validated link whose timestamp is at most
    [LINK_TIMEOUT] old and whose two interfaces are registered, and a
    link that is not validated whose proof timeout has not passed.  The
    interfaces of a link that is not validated are not looked at. *)
Theorem cull_links_exact (st : State) (tprs : gmap bytes Z)
    (prs : list (bytes * option Interface))
    (link_ids : list bytes) (now : Z) (k : bytes) (l : LinkEntry) :
  (forall k', is_Some (link_table st !! k') -> k' ∈ link_ids) ->
  link_table (fst (cull_tables st tprs prs link_ids now)) !! k = Some l <->
  link_table st !! k = Some l /\
  (if LT_VALIDATED l
   then now <= LT_TIMESTAMP l + LINK_TIMEOUT /\
        LT_NH_IF l ∈ interfaces st /\ LT_RCVD_IF l ∈ interfaces st
   else now <= LT_PROOF_TMO l).
Proof.
  intros Hcover. unfold Jobs.cull_tables. cbn [fst].
  set (acc0 := {| lc_state := st; lc_stale_links := [];
                  lc_path_requests := prs; lc_blocked_if := None |}).
  set (lc := fold_left _ link_ids _).
  pose proof (link_loop_effect tprs now link_ids acc0) as Hch.
  fold lc in Hch. cbn [lc_state acc0] in Hch.
  pose proof (link_loop_stale st tprs now link_ids acc0 k
                (link_loop_changes_refl st)) as Hstale.
  fold lc in Hstale. cbn [lc_stale_links acc0] in Hstale.
  destruct Hch as (Ht & Hi & Hl & Hr & Hu & Hp & Hs).
  cbn [interfaces path_table reverse_table tunnels link_table
       set_path_states set_path_table set_link_table set_reverse_table
       set_tunnels].
  rewrite fold_delete_lookup, Hl.
  assert (Hfresh : link_stale st now l = false <->
                   (if LT_VALIDATED l
                    then now <= LT_TIMESTAMP l + LINK_TIMEOUT /\
                         LT_NH_IF l ∈ interfaces st /\
                         LT_RCVD_IF l ∈ interfaces st
                    else now <= LT_PROOF_TMO l)).
  { destruct (LT_VALIDATED l).
    - rewrite !orb_false_iff, !negb_false_iff, Z.ltb_ge.
      rewrite !bool_decide_eq_true. tauto.
    - apply Z.ltb_ge. }
  rewrite <- Hfresh.
  destruct (bool_decide (k ∈ lc_stale_links lc)) eqn:Hin.
  - apply bool_decide_eq_true_1, Hstale in Hin.
    destruct Hin as [Hin|(_ & l' & Hl' & Hs')];
      [apply elem_of_nil in Hin; contradiction|].
    split; [discriminate|]. intros [Hk Hf]. rewrite Hk in Hl'.
    injection Hl' as <-. congruence.
  - apply bool_decide_eq_false_1 in Hin. split.
    + intros Hk. split; [exact Hk|].
      destruct (link_stale st now l) eqn:Hst; [|reflexivity].
      exfalso. apply Hin, Hstale. right. split.
      * apply Hcover. eauto.
      * exists l. auto.
    + intros [Hk _]. exact Hk.
Qed.

Lemma path_entry_stale_zero (st : State) (now : Z) (e : PathEntry) :
  DESTINATION_TIMEOUT < now -> PT_TIMESTAMP e = 0 ->
  path_entry_stale st now e = true.
Proof.
  intros Hnow Hz. unfold path_entry_stale. rewrite Hz.
  replace (match mode (PT_RVCD_IF e) with
           | Some MODE_ACCESS_POINT => 0 + AP_PATH_TIME
           | Some MODE_ROAMING => 0 + ROAMING_PATH_TIME
           | _ => 0 + DESTINATION_TIMEOUT
           end <? now) with true; [reflexivity|].
  symmetry. apply Z.ltb_lt.
  unfold DESTINATION_TIMEOUT, AP_PATH_TIME, ROAMING_PATH_TIME in *.
  destruct (mode (PT_RVCD_IF e)) as [[]|]; lia.
Qed.

(** X8.  [expire_path] does not remove the path: it sets its timestamp to 0
    and asks for an early cull, and the next run of the jobs removes the
    path, whatever the mode of its interface. *)
Theorem expired_path_removed_by_next_cull (st : State) (tlc : Z) (d : bytes)
    (tprs : gmap bytes Z) (prs : list (bytes * option Interface))
    (link_ids : list bytes) (now : Z) :
  DESTINATION_TIMEOUT < now ->
  has_path (snd (fst (expire_path st tlc d))) d = has_path st d /\
  path_table
    (fst (fst (jobs_cull_tables (snd (fst (expire_path st tlc d))) tprs
                 prs link_ids (snd (expire_path st tlc d)) now))) !! d = None.
Proof.
  intros Hnow.
  assert (Hcull : forall st0,
             match path_table st0 !! d with
             | Some e => PT_TIMESTAMP e = 0
             | None => True
             end ->
             path_table (fst (cull_tables st0 tprs prs link_ids now)) !! d =
             None).
  { intros st0 H0. unfold Jobs.cull_tables. cbn [fst].
    set (lc := fold_left _ link_ids _).
    pose proof (link_loop_effect tprs now link_ids
                  {| lc_state := st0; lc_stale_links := [];
                     lc_path_requests := prs; lc_blocked_if := None |}) as Hch.
    fold lc in Hch. cbn [lc_state] in Hch.
    destruct Hch as (_ & _ & _ & _ & _ & Hp & _).
    cbn [path_table set_path_states set_path_table set_link_table
         set_reverse_table set_tunnels].
    apply map_lookup_filter_None. right. intros e He. cbn [snd].
    rewrite negb_True, Is_true_false.
    rewrite path_entry_stale_zero; [discriminate | exact Hnow |].
    destruct (Hp d) as [E|[_ E]]; rewrite E in He.
    - rewrite He in H0. exact H0.
    - destruct (path_table st0 !! d); [|discriminate].
      injection He as <-. reflexivity. }
  unfold expire_path, has_path.
  destruct (path_table st !! d) as [e|] eqn:He; cbn [fst snd].
  - cbn [path_table set_path_table]. rewrite lookup_alter_eq, He. cbn.
    split; [reflexivity|]. unfold Jobs.jobs_cull_tables.
    replace (0 + tables_cull_interval <? now) with true.
    2:{ symmetry. apply Z.ltb_lt.
        unfold tables_cull_interval, DESTINATION_TIMEOUT in *. lia. }
    destruct (Jobs.cull_tables _ _ _ _ _ _) as [st' prs'] eqn:Hc. cbn [fst].
    change st' with (fst (st', prs')). rewrite <- Hc. apply Hcull.
    cbn [path_table set_path_table]. rewrite lookup_alter_eq, He.
    reflexivity.
  - rewrite He. split; [reflexivity|]. unfold Jobs.jobs_cull_tables.
    destruct (tlc + tables_cull_interval <? now); [|exact He].
    destruct (Jobs.cull_tables _ _ _ _ _ _) as [st' prs'] eqn:Hc. cbn [fst].
    change st' with (fst (st', prs')). rewrite <- Hc. apply Hcull.
    rewrite He. exact I.
Qed.

Lemma stale_path_states_spec (st : State) (d : bytes) :
  d ∈ filter (fun destination_hash => path_table st !! destination_hash = None)
        (map fst (map_to_list (path_states st))) <->
  is_Some (path_states st !! d) /\ path_table st !! d = None.
Proof.
  rewrite list_elem_of_filter, list_elem_of_fmap. split.
  - intros [Hn ([k s] & -> & Hin)]. apply elem_of_map_to_list in Hin.
    split; [eauto | exact Hn].
  - intros [[s Hs] Hn]. split; [exact Hn|]. exists (d, s).
    split; [reflexivity|]. apply elem_of_map_to_list. exact Hs.
Qed.

(** X9.  The states of the paths lag one cull behind the paths: the cull
    that removes a stale path leaves its state entry in place, and the
    cull after that removes the state (unless the path has come back in
    between). *)
Theorem path_state_outlives_path (st : State) (tprs tprs' : gmap bytes Z)
    (prs prs' : list (bytes * option Interface))
    (link_ids link_ids' : list bytes) (now now' : Z) (d : bytes)
    (e : PathEntry) (s : Z) :
  path_table st !! d = Some e ->
  path_states st !! d = Some s ->
  0 <= PT_TIMESTAMP e ->
  PT_TIMESTAMP e +
    match mode (PT_RVCD_IF e) with
    | Some MODE_ACCESS_POINT => AP_PATH_TIME
    | Some MODE_ROAMING => ROAMING_PATH_TIME
    | _ => DESTINATION_TIMEOUT
    end < now ->
  let st1 := fst (cull_tables st tprs prs link_ids now) in
  let st2 := fst (cull_tables st1 tprs' prs' link_ids' now') in
  path_table st1 !! d = None /\
  is_Some (path_states st1 !! d) /\
  path_states st2 !! d = None.
Proof.
  intros He Hs Hts Hold st1 st2.
  assert (Hnone : forall st0 t q l n,
             path_table st0 !! d = None ->
             path_states (fst (cull_tables st0 t q l n)) !! d = None).
  { intros st0 t q l n H0. unfold Jobs.cull_tables. cbn [fst].
    set (lc := fold_left _ l _).
    pose proof (link_loop_effect t n l
                  {| lc_state := st0; lc_stale_links := [];
                     lc_path_requests := q; lc_blocked_if := None |}) as Hch.
    fold lc in Hch. cbn [lc_state] in Hch.
    destruct Hch as (_ & _ & _ & _ & _ & _ & Hst).
    cbn [path_states set_path_states set_path_table set_link_table
         set_reverse_table set_tunnels].
    rewrite fold_delete_lookup.
    destruct (bool_decide _) eqn:Hin; [reflexivity|].
    apply bool_decide_eq_false_1 in Hin.
    destruct (Hst d) as [E|(_ & [e0 He0] & _)]; [|congruence].
    rewrite E. destruct (path_states st0 !! d) as [s0|] eqn:Hs0;
      [|reflexivity].
    exfalso. apply Hin. apply stale_path_states_spec. eauto. }
  assert (H1 : path_table st1 !! d = None /\ is_Some (path_states st1 !! d)).
  { unfold st1, Jobs.cull_tables. cbn [fst].
    set (lc := fold_left _ link_ids _).
    pose proof (link_loop_effect tprs now link_ids
                  {| lc_state := st; lc_stale_links := [];
                     lc_path_requests := prs; lc_blocked_if := None |}) as Hch.
    fold lc in Hch. cbn [lc_state] in Hch.
    destruct Hch as (_ & Hi & _ & _ & _ & Hp & Hst).
    cbn [path_table path_states set_path_states set_path_table
         set_link_table set_reverse_table set_tunnels].
    split.
    - apply map_lookup_filter_None. right. intros e' He'. cbn [snd].
      rewrite negb_True, Is_true_false. intros Hfresh.
      apply path_entry_stale_false in Hfresh as [_ Hfresh].
      destruct (Hp d) as [E|[_ E]]; rewrite E, He in He'.
      + injection He' as <-. lia.
      + injection He' as <-. cbn [touch_path PT_TIMESTAMP PT_RVCD_IF] in Hfresh.
        lia.
    - rewrite fold_delete_lookup, bool_decide_eq_false_2.
      + destruct (Hst d) as [E|(_ & _ & E)]; rewrite E; eauto.
      + rewrite stale_path_states_spec. intros [_ Hn]. congruence. }
  destruct H1 as [Hp1 Hs1]. split; [exact Hp1|]. split; [exact Hs1|].
  apply Hnone. exact Hp1.
Qed.

Lemma cull_link_path_requests_mono (tprs : gmap bytes Z) (now : Z)
    (acc : LinkCull) (link_id x : bytes) :
  x ∈ map fst (lc_path_requests acc) ->
  x ∈ map fst (lc_path_requests (cull_link tprs now acc link_id)).
Proof.
  intros Hin. unfold Jobs.cull_link.
  destruct (link_table (lc_state acc) !! link_id) as [l|]; [|exact Hin].
  destruct (LT_VALIDATED l).
  - destruct (_ || _ || _); exact Hin.
  - destruct (LT_PROOF_TMO l <? now); [|exact Hin].
    repeat (match goal with
            | |- context [if ?c then (_, _, _) else _] => destruct c
            end); cbn [lc_path_requests]; try exact Hin;
      (destruct (bool_decide (LT_DSTHASH l ∈ map fst (lc_path_requests acc)));
       [exact Hin | rewrite map_app; apply elem_of_app; left; exact Hin]).
Qed.

(** X10.  On an instance without transport, a link request that was sent on
    and got no proof in time costs the path it was sent along: when the
    link is culled, and a path request for its destination is not
    throttled, and the link request had come from a local client or a
    direct neighbour or the destination was one hop away, the path to
    the destination is removed in the same cull, the link entry is
    removed, and a path request for the destination is listed for
    sending. *)
Theorem unproven_link_drops_path (st : State) (tprs : gmap bytes Z)
    (prs : list (bytes * option Interface))
    (link_ids : list bytes) (now : Z) (link_id : bytes) (l : LinkEntry)
    (e : PathEntry) :
  transport_enabled st = false ->
  link_id ∈ link_ids ->
  link_table st !! link_id = Some l ->
  LT_VALIDATED l = false ->
  LT_PROOF_TMO l < now ->
  path_table st !! LT_DSTHASH l = Some e ->
  PATH_REQUEST_MI <= now - default 0 (tprs !! LT_DSTHASH l) ->
  LT_HOPS l = 0 \/ PT_HOPS e = 1 \/ LT_HOPS l = 1 ->
  DESTINATION_TIMEOUT < now ->
  let r := cull_tables st tprs prs link_ids now in
  path_table (fst r) !! LT_DSTHASH l = None /\
  link_table (fst r) !! link_id = None /\
  LT_DSTHASH l ∈ map fst (snd r).
Proof.
  intros Hte Hin Hl Hv Htmo He Hthr Hcond Hnow.
  set (P := fun acc : LinkCull =>
              (exists e', path_table (lc_state acc) !! LT_DSTHASH l = Some e' /\
                          PT_TIMESTAMP e' = 0) /\
              link_id ∈ lc_stale_links acc /\
              LT_DSTHASH l ∈ map fst (lc_path_requests acc)).
  assert (Hkeep : forall acc id, P acc -> P (cull_link tprs now acc id)).
  { intros acc id ((e' & He' & Hz) & Hs & Hr). split; [|split].
    - destruct (cull_link_changes tprs now acc id)
        as (_ & _ & _ & _ & _ & Hp & _).
      destruct (Hp (LT_DSTHASH l)) as [E|[_ E]]; rewrite E, He'.
      + eauto.
      + eexists. split; [reflexivity|]. reflexivity.
    - rewrite cull_link_stale_links. apply elem_of_app. left. exact Hs.
    - apply cull_link_path_requests_mono. exact Hr. }
  assert (Hkeeps : forall ids acc,
             P acc -> P (fold_left (cull_link tprs now) ids acc)).
  { induction ids as [|id ids IH]; intros acc HP; [exact HP|].
    cbn [fold_left]. apply IH, Hkeep, HP. }
  assert (Hhit : forall acc,
             link_loop_changes st (lc_state acc) ->
             P (cull_link tprs now acc link_id)).
  { intros acc (Ht & Hi & Hlt & _ & _ & Hp & _).
    assert (He' : exists e', path_table (lc_state acc) !! LT_DSTHASH l =
                               Some e' /\ PT_HOPS e' = PT_HOPS e).
    { destruct (Hp (LT_DSTHASH l)) as [E|[_ E]]; rewrite E, He; eauto. }
    destruct He' as (e' & He' & Hh).
    unfold P, Jobs.cull_link. rewrite Hlt, Hl, Hv.
    replace (LT_PROOF_TMO l <? now) with true
      by (symmetry; apply Z.ltb_lt; exact Htmo).
    unfold has_path, hops_to. rewrite He', Hh. cbn [negb].
    replace (now - default 0 (tprs !! LT_DSTHASH l) <? PATH_REQUEST_MI)
      with false by (symmetry; apply Z.ltb_ge; exact Hthr).
    cbn [negb andb].
    assert (Hmark : mark_unresponsive_for (lc_state acc) l = lc_state acc).
    { unfold mark_unresponsive_for. rewrite Ht, Hte. reflexivity. }
    rewrite Hmark.
    assert (Hexp : exists e'',
               path_table (snd (fst (expire_path (lc_state acc) 0
                                       (LT_DSTHASH l)))) !! LT_DSTHASH l =
               Some e'' /\ PT_TIMESTAMP e'' = 0).
    { unfold expire_path. rewrite He'. cbn [fst snd path_table set_path_table].
      rewrite lookup_alter_eq, He'. eexists. split; reflexivity. }
    assert (Hprs : forall b,
               LT_DSTHASH l ∈
               map fst (if bool_decide
                             (LT_DSTHASH l ∈ map fst (lc_path_requests acc))
                        then lc_path_requests acc
                        else lc_path_requests acc ++ [(LT_DSTHASH l, b)])).
    { intros b.
      destruct (bool_decide (LT_DSTHASH l ∈ map fst (lc_path_requests acc)))
        eqn:Hb.
      - apply bool_decide_eq_true_1 in Hb. exact Hb.
      - rewrite map_app. apply elem_of_app. right. left. }
    assert (Hstale : link_id ∈ lc_stale_links acc ++ [link_id])
      by (apply elem_of_app; right; left).
    destruct Hcond as [H0|[H1|H1]].
    - rewrite H0. cbn [Z.eqb]. cbn [lc_state lc_stale_links lc_path_requests].
      rewrite Ht, Hte. cbn [negb]. auto.
    - destruct (LT_HOPS l =? 0); rewrite ?H1; cbn [Z.eqb Pos.eqb];
        cbn [lc_state lc_stale_links lc_path_requests];
        rewrite Ht, Hte; cbn [negb]; auto.
    - destruct (LT_HOPS l =? 0); [|destruct (PT_HOPS e =? 1)];
        rewrite ?H1; cbn [Z.eqb Pos.eqb];
        cbn [lc_state lc_stale_links lc_path_requests];
        rewrite Ht, Hte; cbn [negb]; auto. }
  assert (Hfold : forall ids acc,
             link_loop_changes st (lc_state acc) -> link_id ∈ ids ->
             P (fold_left (cull_link tprs now) ids acc)).
  { induction ids as [|id ids IH]; intros acc Hch Hi.
    - apply elem_of_nil in Hi. contradiction.
    - cbn [fold_left]. apply elem_of_cons in Hi as [<-|Hi].
      + apply Hkeeps, Hhit, Hch.
      + apply IH; [|exact Hi].
        apply (link_loop_changes_trans _ (lc_state acc)); [exact Hch|].
        apply cull_link_changes. }
  pose proof (Hfold link_ids
                {| lc_state := st; lc_stale_links := [];
                   lc_path_requests := prs; lc_blocked_if := None |}
                (link_loop_changes_refl st) Hin) as HP.
  unfold Jobs.cull_tables. cbn [fst snd].
  set (lc := fold_left _ link_ids _) in *.
  destruct HP as ((e' & He' & Hz) & Hs & Hr).
  cbn [path_table link_table set_path_states set_path_table set_link_table
       set_reverse_table set_tunnels].
  split; [|split].
  - apply map_lookup_filter_None. right. intros e'' He''. cbn [snd].
    rewrite negb_True, Is_true_false.
    rewrite path_entry_stale_zero; [discriminate | exact Hnow |].
    rewrite He' in He''. injection He'' as <-. exact Hz.
  - rewrite fold_delete_lookup, bool_decide_eq_true_2 by exact Hs.
    reflexivity.
  - exact Hr.
Qed.

End WithLinkTimeout.

(** The example link, whose proof was due at time 130, at the cull of
    time 1000000. *)
Lemma unproven_link_drops_path_witness :
  let r := Jobs.cull_tables 900 Scenarios.plain_node_with_link ∅ []
             [Examples.hash_cc] 1000000 in
  path_table (fst r) !! LT_DSTHASH Examples.link_entry = None /\
  link_table (fst r) !! Examples.hash_cc = None /\
  LT_DSTHASH Examples.link_entry ∈ map fst (snd r).
Proof.
  apply (unproven_link_drops_path 900 Scenarios.plain_node_with_link ∅ []
           [Examples.hash_cc] 1000000 Examples.hash_cc Examples.link_entry
           (Examples.path_entry 3 [])).
  - reflexivity.
  - apply (bool_decide_unpack _). vm_compute. exact I.
  - vm_compute. reflexivity.
  - reflexivity.
  - vm_compute. reflexivity.
  - vm_compute. reflexivity.
  - vm_compute. discriminate.
  - right. right. reflexivity.
  - vm_compute. reflexivity.
Defined.

(** The example path, expired by hand at time 1000000. *)
Lemma expired_path_removed_by_next_cull_witness :
  has_path
    (snd (fst (expire_path (Examples.node_with_path 3 []) 999999
                 Examples.hash_aa))) Examples.hash_aa =
  has_path (Examples.node_with_path 3 []) Examples.hash_aa /\
  path_table
    (fst (fst (Jobs.jobs_cull_tables 900
                 (snd (fst (expire_path (Examples.node_with_path 3 []) 999999
                              Examples.hash_aa)))
                 ∅ [] []
                 (snd (expire_path (Examples.node_with_path 3 []) 999999
                         Examples.hash_aa))
                 1000000))) !! Examples.hash_aa = None.
Proof.
  apply (expired_path_removed_by_next_cull 900
           (Examples.node_with_path 3 []) 999999 Examples.hash_aa ∅ [] []
           1000000).
  vm_compute. reflexivity.
Defined.

(** The example path, last confirmed at time 100 and marked
    unresponsive, at the culls of times 1000000 and 1000005. *)
Lemma path_state_outlives_path_witness :
  let st := Examples.unresponsive (Examples.node_with_path 3 []) in
  let st1 := fst (Jobs.cull_tables 900 st ∅ [] [] 1000000) in
  let st2 := fst (Jobs.cull_tables 900 st1 ∅ [] [] 1000005) in
  path_table st1 !! Examples.hash_aa = None /\
  is_Some (path_states st1 !! Examples.hash_aa) /\
  path_states st2 !! Examples.hash_aa = None.
Proof.
  apply (path_state_outlives_path 900
           (Examples.unresponsive (Examples.node_with_path 3 []))
           ∅ ∅ [] [] [] [] 1000000 1000005 Examples.hash_aa
           (Examples.path_entry 3 []) STATE_UNRESPONSIVE).
  - vm_compute. reflexivity.
  - vm_compute. reflexivity.
  - vm_compute. discriminate.
  - vm_compute. reflexivity.
Defined.

(** The example link, validated 100 seconds ago. *)
Lemma cull_links_exact_witness :
  link_table
    (fst (Jobs.cull_tables 900
            (set_link_table Examples.node
               {[Examples.hash_cc := validate_link Examples.link_entry]})
            ∅ [] [Examples.hash_cc] 200)) !! Examples.hash_cc =
  Some (validate_link Examples.link_entry).
Proof.
  apply (cull_links_exact 900 _ ∅ [] [Examples.hash_cc] 200
           Examples.hash_cc).
  - intros k' [l Hl]. cbn [link_table set_link_table] in Hl.
    apply lookup_singleton_Some in Hl as [<- _].
    apply list_elem_of_singleton. reflexivity.
  - split; [apply lookup_singleton_eq|]. cbn [LT_VALIDATED validate_link].
    split; [vm_compute; discriminate|].
    split; apply (bool_decide_unpack _); vm_compute; exact I.
Defined.

(** A path with an old expiry but a fresh timestamp, on a transport
    instance. *)
Lemma cull_paths_exact_on_transport_witness :
  path_table
    (fst (Jobs.cull_tables 900
            (set_path_table Examples.node
               {[Examples.hash_aa :=
                   {| PT_TIMESTAMP := 1000000; PT_NEXT_HOP := Examples.hash_bb;
                      PT_HOPS := 2; PT_EXPIRES := 700000;
                      PT_RANDBLOBS := []; PT_RVCD_IF := Examples.IF1;
                      PT_PACKET := [] |}]})
            ∅ [] [] 1000100)) !! Examples.hash_aa =
  Some {| PT_TIMESTAMP := 1000000; PT_NEXT_HOP := Examples.hash_bb;
          PT_HOPS := 2; PT_EXPIRES := 700000;
          PT_RANDBLOBS := []; PT_RVCD_IF := Examples.IF1;
          PT_PACKET := [] |}.
Proof.
  apply (cull_paths_exact_on_transport 900 _ ∅ [] [] 1000100
           Examples.hash_aa);
    [reflexivity|].
  split; [apply lookup_singleton_eq|]. split.
  - apply (bool_decide_unpack _). vm_compute. exact I.
  - vm_compute. discriminate.
Defined.

End JobsFacts.

(** ** Inbound: link transport and plain broadcasts *)

Module InboundFacts.
Import Transport Inbound.

Lemma link_outbound_interface_across (l : LinkEntry) (packet : Packet)
    (out : Interface) :
  LT_NH_IF l <> LT_RCVD_IF l ->
  link_outbound_interface l packet = Some out <->
  (receiving_interface packet = LT_NH_IF l /\
   hops packet = LT_REM_HOPS l /\ out = LT_RCVD_IF l) \/
  (receiving_interface packet = LT_RCVD_IF l /\
   hops packet = LT_HOPS l /\ out = LT_NH_IF l).
Proof.
  intros Hne. unfold link_outbound_interface.
  rewrite bool_decide_eq_false_2 by exact Hne.
  destruct (bool_decide (receiving_interface packet = LT_NH_IF l)) eqn:Hn.
  - apply bool_decide_eq_true_1 in Hn.
    destruct (hops packet =? LT_REM_HOPS l) eqn:Hh.
    + apply Z.eqb_eq in Hh. split.
      * intros [= <-]. left. auto.
      * intros [(_ & _ & ->)|(Hr & _)]; [reflexivity | congruence].
    + apply Z.eqb_neq in Hh. split; [discriminate|].
      intros [(_ & Hh' & _)|(Hr & _)]; congruence.
  - apply bool_decide_eq_false_1 in Hn.
    destruct (bool_decide (receiving_interface packet = LT_RCVD_IF l)) eqn:Hr.
    + apply bool_decide_eq_true_1 in Hr.
      destruct (hops packet =? LT_HOPS l) eqn:Hh.
      * apply Z.eqb_eq in Hh. split.
        -- intros [= <-]. right. auto.
        -- intros [(Hn' & _)|(_ & _ & ->)]; [contradiction | reflexivity].
      * apply Z.eqb_neq in Hh. split; [discriminate|].
        intros [(Hn' & _)|(_ & Hh' & _)]; congruence.
    + apply bool_decide_eq_false_1 in Hr. split; [discriminate|].
      intros [(Hn' & _)|(Hr' & _)]; contradiction.
Qed.

(** A packet for a link of the link table that passes the filter is not
    remembered by the filter stage. *)
Lemma filter_stage_link (st : State) (packet : Packet) (l : LinkEntry) :
  link_table st !! destination_hash packet = Some l ->
  filter_stage st packet =
  if packet_filter st packet then Some st else None.
Proof.
  intros Hl. unfold filter_stage.
  rewrite (bool_decide_eq_true_2 (is_Some (link_table st !!
                                           destination_hash packet)))
    by (rewrite Hl; eauto).
  reflexivity.
Qed.

Section WithLink.

Variable LINK_MTU_SIZE : nat.
Variable ESTABLISHMENT_TIMEOUT_PER_HOP : Z.
Variable mtu_from_lr_packet : Packet -> option Z.
Variable mode_from_lr_packet : Packet -> Z.
Variable signalling_bytes : Z -> Z -> option bytes.
Variable link_id_from_lr_packet : Packet -> bytes.
Variable extra_link_proof_timeout : Interface -> option Z.
Variable cache_request_packet : State -> Packet -> option Outcome.

Local Abbreviation cache_replay' := (cache_replay cache_request_packet).
Local Abbreviation inbound_transport' :=
  (inbound_transport LINK_MTU_SIZE ESTABLISHMENT_TIMEOUT_PER_HOP
     mtu_from_lr_packet mode_from_lr_packet signalling_bytes
     link_id_from_lr_packet extra_link_proof_timeout cache_request_packet).
Local Abbreviation inbound_link_transport' :=
  (inbound_link_transport LINK_MTU_SIZE ESTABLISHMENT_TIMEOUT_PER_HOP
     mtu_from_lr_packet mode_from_lr_packet signalling_bytes
     link_id_from_lr_packet extra_link_proof_timeout cache_request_packet).

(** A packet that is not admitted to the transport handling (the filter
    drops it, or the test of line 1314 fails) leaves the state as it
    was, whatever the link table holds for it. *)
Lemma link_transport_not_admitted (st : State) (control_hashes : list bytes)
    (packet : Packet) (now : Z) (l : LinkEntry) :
  link_table st !! destination_hash packet = Some l ->
  packet_filter st packet = false \/
  transport_applies st (local_flags st packet) = false ->
  inbound_link_transport' st control_hashes packet now =
  completed st (plain_broadcast st control_hashes packet).
Proof.
  intros Hl Hout.
  pose proof (filter_stage_link st packet l Hl) as Hfs.
  unfold inbound_link_transport, transport_admits, inbound_transport.
  cbv zeta. unfold plain_broadcast. rewrite Hfs.
  destruct (packet_filter st packet); [|reflexivity].
  destruct Hout as [Hout|Hout]; [discriminate|].
  rewrite Hout. reflexivity.
Qed.

(** General transport leaves alone a packet whose destination hash is
    not a key of the path table. *)
Lemma general_transport_no_path (st : State) (control_hashes : list bytes)
    (packet : Packet) (now : Z) :
  path_table st !! destination_hash packet = None ->
  filter_stage st packet = Some st ->
  transport_applies st (local_flags st packet) = true ->
  cache_replay' st packet = None ->
  inbound_transport' st control_hashes packet now =
  completed st (plain_broadcast st control_hashes packet).
Proof.
  intros Hp Hf Hg Hc. unfold inbound_transport. rewrite Hf, Hg.
  assert (Hre : reinsert_transport_id st (local_flags st packet) packet =
                packet).
  { unfold reinsert_transport_id, local_flags.
    cbn [for_local_client]. rewrite Hp, andb_false_r.
    destruct (transport_id packet); reflexivity. }
  rewrite Hre, Hc, Hp. unfold sent_then, completed.
  destruct (transport_id packet) as [tid|]; cbn.
  - destruct (negb (bool_decide (packet_type packet = ANNOUNCE)) &&
              bytes_eqb tid (identity_hash st)); cbn;
      rewrite app_nil_r; reflexivity.
  - rewrite app_nil_r. reflexivity.
Qed.

Lemma link_transport_across_cases (st : State) (control_hashes : list bytes)
    (packet : Packet) (now : Z) (l : LinkEntry) :
  packet_type packet <> ANNOUNCE ->
  packet_type packet <> LINKREQUEST ->
  context packet <> LRPROOF ->
  link_table st !! destination_hash packet = Some l ->
  LT_NH_IF l <> LT_RCVD_IF l ->
  0 <= hops packet <= 255 ->
  path_table st !! destination_hash packet = None ->
  cache_replay' st packet = None ->
  (packet_filter st packet = true ->
   transport_applies st (local_flags st packet) = true ->
   (forall out,
      (receiving_interface packet = LT_NH_IF l /\
       hops packet = LT_REM_HOPS l /\ out = LT_RCVD_IF l) \/
      (receiving_interface packet = LT_RCVD_IF l /\
       hops packet = LT_HOPS l /\ out = LT_NH_IF l) ->
      inbound_link_transport' st control_hashes packet now =
      completed
        (set_link_table (add_packet_hash st (packet_hash packet))
           (<[destination_hash packet := touch_link now l]> (link_table st)))
        (plain_broadcast st control_hashes packet ++
         [(out,
           slice 0 1 (raw packet) ++ [hops packet] ++ drop 2 (raw packet))])) /\
   (~ (receiving_interface packet = LT_NH_IF l /\
       hops packet = LT_REM_HOPS l) ->
    ~ (receiving_interface packet = LT_RCVD_IF l /\
       hops packet = LT_HOPS l) ->
    inbound_link_transport' st control_hashes packet now =
    completed st (plain_broadcast st control_hashes packet))) /\
  (packet_filter st packet = false \/
   transport_applies st (local_flags st packet) = false ->
   inbound_link_transport' st control_hashes packet now =
   completed st (plain_broadcast st control_hashes packet)).
Proof.
  intros Ha Hlr Hc Hl Hne Hh Hp Hcache. split.
  2:{ apply (link_transport_not_admitted st control_hashes packet now l Hl). }
  intros Hf Hg.
  assert (Hfs : filter_stage st packet = Some st)
    by (rewrite (filter_stage_link st packet l Hl), Hf; reflexivity).
  pose proof (general_transport_no_path st control_hashes packet now
                Hp Hfs Hg Hcache) as Hgen.
  unfold inbound_link_transport, transport_admits. cbv zeta.
  rewrite Hgen, Hfs, Hg. cbn [out_status out_state out_tx completed].
  rewrite !bool_decide_eq_false_2 by assumption. cbn [negb andb]. rewrite Hl.
  split.
  - intros out Hdir.
    apply (link_outbound_interface_across l packet out Hne) in Hdir.
    rewrite Hdir, (ProofFacts.refresh_hops_byte packet Hh).
    destruct (ProofFacts.add_packet_hash_tables st (packet_hash packet))
      as (Hlt & _ & _).
    rewrite Hlt. unfold completed. f_equal. f_equal.
    apply map_eq. intros k. destruct (decide (k = destination_hash packet))
      as [->|Hk].
    + rewrite lookup_alter_eq, lookup_insert_eq, Hl. reflexivity.
    + rewrite lookup_alter_ne, lookup_insert_ne by done. reflexivity.
  - intros Hn1 Hn2.
    destruct (link_outbound_interface l packet) as [out|] eqn:Ho;
      [|reflexivity].
    apply (link_outbound_interface_across l packet out Hne) in Ho.
    destruct Ho as [(H1 & H2 & _)|(H1 & H2 & _)]; tauto.
Qed.

(** X11.  A packet on a link whose two interfaces differ, whose link ID is
    not a key of the path table and which is not a cache request answered
    from the cache.  If it passes the filter of line 1260 and the test of
    line 1314 holds (the node transports, or the packet is from a local
    client or the link runs to one), it is sent on iff it came in on one
    of the two interfaces with the hop count expected from that side,
    and it goes out on the other one, once, with nothing but its hop
    byte changed, after the copies that a plain broadcast sends; the hash
    of the packet is remembered only then and the link's timestamp is
    refreshed; otherwise the state is left as it was.  If the filter
    drops it or the test of line 1314 fails, it is not sent on over the
    link and the state is left as it was. *)
Theorem link_transport_across (st : State) (control_hashes : list bytes)
    (packet : Packet) (now : Z) (l : LinkEntry) :
  packet_type packet <> ANNOUNCE ->
  packet_type packet <> LINKREQUEST ->
  context packet <> LRPROOF ->
  link_table st !! destination_hash packet = Some l ->
  LT_NH_IF l <> LT_RCVD_IF l ->
  0 <= hops packet <= 255 ->
  path_table st !! destination_hash packet = None ->
  cache_replay' st packet = None ->
  (packet_filter st packet = true ->
   transport_applies st (local_flags st packet) = true ->
   (forall out,
      (receiving_interface packet = LT_NH_IF l /\
       hops packet = LT_REM_HOPS l /\ out = LT_RCVD_IF l) \/
      (receiving_interface packet = LT_RCVD_IF l /\
       hops packet = LT_HOPS l /\ out = LT_NH_IF l) ->
      inbound_link_transport' st control_hashes packet now =
      completed
        (set_link_table (add_packet_hash st (packet_hash packet))
           (<[destination_hash packet := touch_link now l]> (link_table st)))
        (plain_broadcast st control_hashes packet ++
         [(out,
           slice 0 1 (raw packet) ++ [hops packet] ++ drop 2 (raw packet))])) /\
   (~ (receiving_interface packet = LT_NH_IF l /\
       hops packet = LT_REM_HOPS l) ->
    ~ (receiving_interface packet = LT_RCVD_IF l /\
       hops packet = LT_HOPS l) ->
    inbound_link_transport' st control_hashes packet now =
    completed st (plain_broadcast st control_hashes packet))) /\
  (packet_filter st packet = false \/
   transport_applies st (local_flags st packet) = false ->
   inbound_link_transport' st control_hashes packet now =
   completed st (plain_broadcast st control_hashes packet)).
Proof. exact (link_transport_across_cases st control_hashes packet now l). Qed.

(** X12.  A packet on a link is relayed when its turn comes, and once, on a
    node for which the test of line 1314 holds.  A copy overheard out of
    turn (on the wrong side for its hop count) passes the filter but is
    not remembered and not sent on, so it leaves the state as it was;
    the copy that comes in turn is sent on and remembered; after that
    the filter drops every further copy, which does nothing.  (The
    packets have the same hash, are ones that come to the last test of
    the filter, are no PLAIN packets, and their link ID is not a key of
    the path table.) *)
Theorem link_packet_relayed_in_turn_once (st : State)
    (control_hashes : list bytes) (early packet : Packet)
    (now : Z) (l : LinkEntry) :
  reaches_final_test st packet ->
  reaches_final_test st early ->
  transport_applies st (local_flags st packet) = true ->
  path_table st !! destination_hash packet = None ->
  packet_type packet <> ANNOUNCE ->
  packet_type packet <> LINKREQUEST ->
  context packet <> LRPROOF ->
  packet_type early = packet_type packet ->
  context early = context packet ->
  packet_hash early = packet_hash packet ->
  destination_hash early = destination_hash packet ->
  packet_hash packet ∉ packet_hashlist st ->
  packet_hash packet ∉ packet_hashlist_prev st ->
  link_table st !! destination_hash packet = Some l ->
  LT_NH_IF l <> LT_RCVD_IF l ->
  0 <= hops early <= 255 ->
  0 <= hops packet <= 255 ->
  receiving_interface early = LT_NH_IF l ->
  hops early <> LT_REM_HOPS l ->
  receiving_interface packet = LT_NH_IF l ->
  hops packet = LT_REM_HOPS l ->
  inbound_link_transport' st control_hashes early now = completed st [] /\
  exists st',
    inbound_link_transport' st control_hashes packet now =
    completed st'
      [(LT_RCVD_IF l,
        slice 0 1 (raw packet) ++ [hops packet] ++ drop 2 (raw packet))] /\
    (forall now',
       inbound_link_transport' st' control_hashes packet now' =
       completed st' []) /\
    (forall now',
       inbound_link_transport' st' control_hashes early now' =
       completed st' []).
Proof.
  intros Hreach Hreach' Hgate Hpath Ha Hlr Hc Hty Hctx Hhash Hdst Hf1 Hf2 Hl
         Hne Hh' Hh Hif' Hhops' Hif Hhops.
  assert (Hpass : forall p,
             reaches_final_test st p -> packet_hash p = packet_hash packet ->
             packet_filter st p = true).
  { intros p Hr Hph.
    rewrite (FilterFacts.final_test st p Hr), Hph.
    rewrite !bool_decide_eq_false_2 by assumption. reflexivity. }
  assert (Hnoplain : forall s p,
             destination_type p <> PLAIN ->
             plain_broadcast s control_hashes p = []).
  { intros s p Hp. unfold plain_broadcast.
    destruct (filter_stage s p); [|reflexivity].
    rewrite (bool_decide_eq_false_2 _ Hp). cbn [andb].
    destruct (negb (bool_decide (destination_hash p ∈ control_hashes)));
      reflexivity. }
  assert (Hnp : destination_type packet <> PLAIN)
    by (destruct Hreach as (_ & _ & _ & _ & _ & _ & _ & _ & H & _); exact H).
  assert (Hnp' : destination_type early <> PLAIN)
    by (destruct Hreach' as (_ & _ & _ & _ & _ & _ & _ & _ & H & _); exact H).
  assert (Hnocache : forall s p, reaches_final_test st p ->
                                 cache_replay' s p = None).
  { intros s p (_ & _ & _ & _ & _ & _ & Hcr & _). unfold cache_replay.
    rewrite (bool_decide_eq_false_2 _ Hcr). reflexivity. }
  assert (Hfl : local_flags st early = local_flags st packet).
  { unfold local_flags. rewrite Hty, Hdst, Hif', Hif. reflexivity. }
  split.
  { destruct (link_transport_across_cases st control_hashes early now l)
      as [Hin _]; try congruence.
    - apply Hnocache. exact Hreach'.
    - destruct (Hin (Hpass early Hreach' Hhash)
                  ltac:(rewrite Hfl; exact Hgate)) as [_ Hno].
      rewrite Hno, (Hnoplain st early Hnp'); [reflexivity| |].
      + intros [_ H]. contradiction.
      + intros [H _]. rewrite Hif' in H. contradiction. }
  eexists. split.
  { destruct (link_transport_across_cases st control_hashes packet now l
                Ha Hlr Hc Hl Hne Hh Hpath (Hnocache st packet Hreach))
      as [Hin _].
    destruct (Hin (Hpass packet Hreach eq_refl) Hgate) as [Hyes _].
    rewrite (Hyes (LT_RCVD_IF l)) by (left; auto).
    rewrite (Hnoplain st packet Hnp). reflexivity. }
  assert (Hs : is_connected_to_shared_instance st = false)
    by (destruct Hreach as [Hs _]; exact Hs).
  set (st' := set_link_table (add_packet_hash st (packet_hash packet))
                (<[destination_hash packet := touch_link now l]>
                   (link_table st))).
  assert (Hdrop : forall p,
             reaches_final_test st p -> packet_hash p = packet_hash packet ->
             packet_type p = packet_type packet ->
             packet_filter st' p = false).
  { intros p Hr Hph Hpt.
    rewrite (FilterFacts.final_test st' p).
    2:{ unfold st', add_packet_hash. rewrite Hs. exact Hr. }
    rewrite Hph.
    rewrite (bool_decide_eq_true_2 (packet_hash packet ∈ packet_hashlist st')).
    2:{ unfold st', add_packet_hash. rewrite Hs. simpl.
        apply elem_of_union_l, elem_of_singleton. reflexivity. }
    cbn [negb andb]. rewrite Hpt.
    rewrite (bool_decide_eq_false_2 _ Ha). reflexivity. }
  assert (Hl' : forall p, destination_hash p = destination_hash packet ->
                          link_table st' !! destination_hash p =
                          Some (touch_link now l)).
  { intros p ->. unfold st'. simpl. apply lookup_insert_eq. }
  split; intros now'.
  - rewrite (link_transport_not_admitted st' control_hashes packet now'
               (touch_link now l) (Hl' packet eq_refl))
      by (left; apply Hdrop; auto).
    rewrite (Hnoplain st' packet Hnp). reflexivity.
  - rewrite (link_transport_not_admitted st' control_hashes early now'
               (touch_link now l) (Hl' early Hdst))
      by (left; apply Hdrop; auto).
    rewrite (Hnoplain st' early Hnp'). reflexivity.
Qed.

End WithLink.

(** A packet for the example link, received on the next-hop interface
    of a transport node with the three hops that remain on that side. *)
Lemma link_transport_across_witness :
  Scenarios.demo_inbound_link_transport Examples.node_with_link []
    (Examples.proof_packet NONE Examples.hash_cc [1; 2] Examples.IF1 3) 500 =
  completed
    (set_link_table
       (add_packet_hash Examples.node_with_link (repeat 6 32))
       (<[Examples.hash_cc := touch_link 500 Examples.link_entry]>
          (link_table Examples.node_with_link)))
    [(Examples.IF2, [15; 3] ++ Examples.hash_cc ++ [0; 1; 2])].
Proof.
  apply (proj1 (proj1 (link_transport_across Examples.demo_LINK_MTU_SIZE
                  Examples.demo_ESTABLISHMENT_TIMEOUT_PER_HOP
                  Examples.demo_mtu_from_lr_packet
                  Examples.demo_mode_from_lr_packet
                  Examples.demo_signalling_bytes
                  Examples.demo_link_id_from_lr_packet
                  Examples.demo_extra_link_proof_timeout
                  Examples.demo_cache_request_packet
                  Examples.node_with_link []
                  (Examples.proof_packet NONE Examples.hash_cc [1; 2]
                     Examples.IF1 3)
                  500 Examples.link_entry
                  ltac:(discriminate) ltac:(discriminate) ltac:(discriminate)
                  ltac:(vm_compute; reflexivity) ltac:(discriminate)
                  ltac:(simpl; lia) ltac:(vm_compute; reflexivity)
                  ltac:(reflexivity))
                  ltac:(vm_compute; reflexivity)
                  ltac:(vm_compute; reflexivity))).
  left. repeat split; reflexivity.
Defined.

(** The same packet on a node that does not transport and serves no
    local client: the link table holds the link, the packet passes the
    filter and comes in on the right interface with the right hops, yet
    the test of line 1314 fails and nothing is sent. *)
Lemma link_transport_plain_node :
  let st := Scenarios.plain_node_with_link in
  let packet :=
    Examples.proof_packet NONE Examples.hash_cc [1; 2] Examples.IF1 3 in
  link_table st !! destination_hash packet = Some Examples.link_entry /\
  packet_filter st packet = true /\
  receiving_interface packet = LT_NH_IF Examples.link_entry /\
  hops packet = LT_REM_HOPS Examples.link_entry /\
  Scenarios.demo_inbound_link_transport st [] packet 500 = completed st [].
Proof.
  intros st packet. split; [vm_compute; reflexivity|].
  split; [vm_compute; reflexivity|]. split; [reflexivity|].
  split; [reflexivity|]. vm_compute. reflexivity.
Qed.

(** The packet of the example link overheard with two hops, then
    received with the three hops that are expected. *)
Lemma link_packet_relayed_in_turn_once_witness :
  let st := Examples.node_with_link in
  let early :=
    Examples.proof_packet NONE Examples.hash_cc [1; 2] Examples.IF1 2 in
  let packet :=
    Examples.proof_packet NONE Examples.hash_cc [1; 2] Examples.IF1 3 in
  Scenarios.demo_inbound_link_transport st [] early 500 = completed st [] /\
  exists st',
    Scenarios.demo_inbound_link_transport st [] packet 500 =
    completed st'
      [(LT_RCVD_IF Examples.link_entry,
        slice 0 1 (raw packet) ++ [hops packet] ++ drop 2 (raw packet))] /\
    (forall now',
       Scenarios.demo_inbound_link_transport st' [] packet now' = completed st' []) /\
    (forall now',
       Scenarios.demo_inbound_link_transport st' [] early now' = completed st' []).
Proof.
  apply (link_packet_relayed_in_turn_once Examples.demo_LINK_MTU_SIZE
           Examples.demo_ESTABLISHMENT_TIMEOUT_PER_HOP
           Examples.demo_mtu_from_lr_packet
           Examples.demo_mode_from_lr_packet
           Examples.demo_signalling_bytes
           Examples.demo_link_id_from_lr_packet
           Examples.demo_extra_link_proof_timeout
           Examples.demo_cache_request_packet
           Examples.node_with_link []
           (Examples.proof_packet NONE Examples.hash_cc [1; 2] Examples.IF1 2)
           (Examples.proof_packet NONE Examples.hash_cc [1; 2] Examples.IF1 3)
           500 Examples.link_entry);
    try reflexivity; try discriminate; try (simpl; lia);
    try (unfold reaches_final_test; simpl; repeat split; discriminate);
    try (simpl; apply not_elem_of_empty).
Defined.

Lemma omap_others (receiving : Interface) (frame : bytes)
    (l : list Interface) :
  omap (fun interface =>
          if negb (bool_decide (interface = receiving))
          then Some (interface, frame) else None) l =
  map (fun interface => (interface, frame))
      (filter (fun interface => interface <> receiving) l).
Proof.
  induction l as [|i l IH]; [reflexivity|]. cbn [omap list_omap].
  fold (omap (fun interface : Interface =>
                if negb (bool_decide (interface = receiving))
                then Some (interface, frame) else None) l).
  destruct (bool_decide (i = receiving)) eqn:Hi; cbn [negb].
  - apply bool_decide_eq_true_1 in Hi.
    rewrite filter_cons_False by (intros H; apply H; exact Hi). exact IH.
  - apply bool_decide_eq_false_1 in Hi.
    rewrite filter_cons_True by exact Hi. cbn [map]. rewrite IH.
    reflexivity.
Qed.

(** X13.  A plain broadcast that comes from a local client, and is not for a
    control destination, is handed to [transmit] unchanged for every
    registered interface except the one it came in on, once each, and
    for nothing else, provided it passes the filter of line 1260; one
    that the filter drops is handed to [transmit] for no interface.  On
    a node that is not connected to a shared instance the filter drops,
    among others, every PLAIN announce and every PLAIN packet with more
    than one hop whose context is none of the six that the filter lets
    through. *)
Theorem plain_broadcast_from_local_client (st : State)
    (control_hashes : list bytes) (packet : Packet) :
  NoDup (interfaces st) ->
  destination_hash packet ∉ control_hashes ->
  destination_type packet = PLAIN ->
  transport_type packet = BROADCAST ->
  receiving_interface packet ∈ local_client_interfaces st ->
  (packet_filter st packet = true ->
   let tx := plain_broadcast st control_hashes packet in
   NoDup tx /\
   forall i frame,
     (i, frame) ∈ tx <->
     i ∈ interfaces st /\ i <> receiving_interface packet /\
     frame = raw packet) /\
  (packet_filter st packet = false ->
   plain_broadcast st control_hashes packet = []) /\
  (is_connected_to_shared_instance st = false ->
   context packet <> KEEPALIVE -> context packet <> RESOURCE_REQ ->
   context packet <> RESOURCE_PRF -> context packet <> RESOURCE ->
   context packet <> CACHE_REQUEST -> context packet <> CHANNEL ->
   packet_type packet = ANNOUNCE \/ 1 < hops packet ->
   plain_broadcast st control_hashes packet = []).
Proof.
  intros Hnd Hctl Hp Hb Hfl.
  assert (Hdrop : packet_filter st packet = false ->
                  plain_broadcast st control_hashes packet = []).
  { intros Hf. unfold plain_broadcast.
    rewrite (TransitFacts.filter_stage_drops st packet Hf). reflexivity. }
  split; [|split; [exact Hdrop|]].
  - intros Hf tx. unfold tx, plain_broadcast.
    destruct (filter_stage st packet) as [st0|] eqn:Hfs.
    2:{ unfold filter_stage in Hfs. rewrite Hf in Hfs. discriminate. }
    destruct (TransitFacts.filter_stage_frame st st0 packet Hfs)
      as (_ & _ & _ & Hifs & Hlc & _).
    rewrite (bool_decide_eq_false_2 _ Hctl), (bool_decide_eq_true_2 _ Hp).
    rewrite Hb, Z.eqb_refl. cbn [negb andb local_flags from_local_client].
    unfold is_local_client. rewrite Hlc, (bool_decide_eq_true_2 _ Hfl), Hifs.
    rewrite omap_others. split.
    + apply NoDup_fmap_2.
      * intros a b [= ->]. reflexivity.
      * apply NoDup_filter. exact Hnd.
    + intros i frame. rewrite list_elem_of_fmap. split.
      * intros (j & [= -> ->] & Hj).
        apply list_elem_of_filter in Hj as [Hj1 Hj2]. auto.
      * intros (Hi & Hn & ->). exists i. split; [reflexivity|].
        apply list_elem_of_filter. auto.
  - intros Hs Hc1 Hc2 Hc3 Hc4 Hc5 Hc6 Hbad. apply Hdrop.
    unfold packet_filter. rewrite Hs.
    destruct (match transport_id packet with
              | Some tid =>
                  negb (bool_decide (packet_type packet = ANNOUNCE)) &&
                  negb (bytes_eqb tid (identity_hash st))
              | None => false
              end); [reflexivity|].
    rewrite !bool_decide_eq_false_2 by assumption.
    rewrite (bool_decide_eq_true_2 _ Hp).
    destruct Hbad as [Han|Hhops].
    + rewrite (bool_decide_eq_true_2 _ Han). reflexivity.
    + rewrite (proj2 (Z.ltb_lt 1 (hops packet)) Hhops).
      destruct (negb (bool_decide (packet_type packet = ANNOUNCE)));
        reflexivity.
Qed.

(** A plain broadcast from the local client of the example node: it has
    no hops behind it and passes the filter. *)
Lemma plain_broadcast_from_local_client_witness :
  packet_filter Scenarios.serving_node Scenarios.plain_packet = true /\
  let tx :=
    plain_broadcast Scenarios.serving_node [] Scenarios.plain_packet in
  NoDup tx /\
  forall i frame,
    (i, frame) ∈ tx <->
    i ∈ interfaces Scenarios.serving_node /\
    i <> receiving_interface Scenarios.plain_packet /\
    frame = raw Scenarios.plain_packet.
Proof.
  split; [vm_compute; reflexivity|].
  apply (proj1 (plain_broadcast_from_local_client Scenarios.serving_node []
                  Scenarios.plain_packet
                  ltac:(apply (bool_decide_unpack _); vm_compute; exact I)
                  ltac:(apply not_elem_of_nil)
                  ltac:(reflexivity) ltac:(reflexivity)
                  ltac:(apply (bool_decide_unpack _); vm_compute; exact I))).
  vm_compute. reflexivity.
Defined.

(** The same broadcast after two hops, and a PLAIN announce: the filter
    drops both, and neither is handed to [transmit]. *)
Lemma plain_broadcast_dropped_examples :
  let far :=
    {| raw := raw Scenarios.plain_packet;
       packet_hash := packet_hash Scenarios.plain_packet;
       getTruncatedHash := getTruncatedHash Scenarios.plain_packet;
       packet_type := DATA;
       context := NONE;
       header_type := HEADER_1;
       flags := 8;
       transport_type := BROADCAST;
       transport_id := None;
       destination_hash := Examples.hash_aa;
       destination_type := PLAIN;
       destination := None;
       hops := 2;
       data := [104; 105];
       receiving_interface := Examples.IF2 |} in
  let announce :=
    {| raw := [9; 0] ++ Examples.hash_aa ++ [0];
       packet_hash := repeat 9 32;
       getTruncatedHash := repeat 9 16;
       packet_type := ANNOUNCE;
       context := NONE;
       header_type := HEADER_1;
       flags := 9;
       transport_type := BROADCAST;
       transport_id := None;
       destination_hash := Examples.hash_aa;
       destination_type := PLAIN;
       destination := None;
       hops := 0;
       data := [];
       receiving_interface := Examples.IF2 |} in
  plain_broadcast Scenarios.serving_node [] far = [] /\
  plain_broadcast Scenarios.serving_node [] announce = [].
Proof. split; vm_compute; reflexivity. Qed.

End InboundFacts.

(** ** Path requests *)

Module PathRequestFacts.
Import Transport Jobs PathRequest.

Section WithLocalClients.

Variable is_local_client_interface : Interface -> bool.

Local Abbreviation path_request_handler :=
  (path_request_handler is_local_client_interface).

Lemma handler_reads_transport_request (destination_hash transport_id t : bytes)
    (tags : list bytes) (packet : Packet) :
  length destination_hash = 16%nat ->
  length transport_id = 16%nat ->
  (1 <= length t <= 16)%nat ->
  destination_hash ++ t ∉ tags ->
  path_request_handler tags (destination_hash ++ transport_id ++ t) packet =
  (tags ++ [destination_hash ++ t],
   Some {| pr_destination_hash := destination_hash;
           pr_is_from_local_client :=
             is_local_client_interface (receiving_interface packet);
           pr_attached_interface := receiving_interface packet;
           pr_requestor_transport_id := Some transport_id;
           pr_tag := t |}).
Proof.
  intros Hd Hid Htag Hnew.
  unfold PathRequest.path_request_handler, packet_from_local_client.
  change (TRUNCATED_HASHLENGTH / 8)%nat with 16%nat.
  change (16 * 2)%nat with 32%nat.
  rewrite !length_app, Hd, Hid.
  replace (16 <=? 16 + (16 + length t))%nat with true
    by (symmetry; apply Nat.leb_le; lia).
  replace (32 <? 16 + (16 + length t))%nat with true
    by (symmetry; apply Nat.ltb_lt; lia).
  assert (Hdrop : drop 32 (destination_hash ++ transport_id ++ t) = t).
  { rewrite app_assoc. apply drop_app_length'.
    rewrite length_app. lia. }
  rewrite Hdrop.
  replace (16 <? length t)%nat with false
    by (symmetry; apply Nat.ltb_ge; lia).
  assert (Htake : take 16 (destination_hash ++ transport_id ++ t) =
                  destination_hash)
    by (apply take_app_length'; lia).
  rewrite Htake, (bool_decide_eq_false_2 _ Hnew). cbn [negb].
  assert (Hslice : slice 16 32 (destination_hash ++ transport_id ++ t) =
                   transport_id).
  { unfold slice. rewrite drop_app_length' by lia.
    apply take_app_length'. lia. }
  rewrite Hslice. reflexivity.
Qed.

Lemma handler_reads_plain_request (destination_hash t : bytes)
    (tags : list bytes) (packet : Packet) :
  length destination_hash = 16%nat ->
  (1 <= length t <= 16)%nat ->
  destination_hash ++ t ∉ tags ->
  path_request_handler tags (destination_hash ++ t) packet =
  (tags ++ [destination_hash ++ t],
   Some {| pr_destination_hash := destination_hash;
           pr_is_from_local_client :=
             is_local_client_interface (receiving_interface packet);
           pr_attached_interface := receiving_interface packet;
           pr_requestor_transport_id := None;
           pr_tag := t |}).
Proof.
  intros Hd Htag Hnew.
  unfold PathRequest.path_request_handler, packet_from_local_client.
  change (TRUNCATED_HASHLENGTH / 8)%nat with 16%nat.
  change (16 * 2)%nat with 32%nat.
  rewrite !length_app, Hd.
  replace (16 <=? 16 + length t)%nat with true
    by (symmetry; apply Nat.leb_le; lia).
  replace (32 <? 16 + length t)%nat with false
    by (symmetry; apply Nat.ltb_ge; lia).
  replace (16 <? 16 + length t)%nat with true
    by (symmetry; apply Nat.ltb_lt; lia).
  rewrite drop_app_length' by lia.
  replace (16 <? length t)%nat with false
    by (symmetry; apply Nat.ltb_ge; lia).
  rewrite take_app_length' by lia.
  rewrite (bool_decide_eq_false_2 _ Hnew). reflexivity.
Qed.

(** X14.  What [request_path] sends, [path_request_handler] reads back: for a
    destination hash and an instance identity of 16 bytes each and a tag
    of 1 to 16 bytes that was not seen with this destination, the
    handler notes the tag and calls [path_request] with the destination
    hash, the tag, and the identity of the requesting instance if and
    only if that instance has transport enabled. *)
Theorem path_request_roundtrip (st : State) (destination_hash : bytes)
    (tag : option bytes) (random_hash : bytes) (tags : list bytes)
    (packet : Packet) :
  length destination_hash = 16%nat ->
  length (identity_hash st) = 16%nat ->
  (1 <= length (default random_hash tag) <= 16)%nat ->
  destination_hash ++ default random_hash tag ∉ tags ->
  path_request_handler tags
    (path_request_data st destination_hash tag random_hash) packet =
  (tags ++ [destination_hash ++ default random_hash tag],
   Some {| pr_destination_hash := destination_hash;
           pr_is_from_local_client :=
             is_local_client_interface (receiving_interface packet);
           pr_attached_interface := receiving_interface packet;
           pr_requestor_transport_id :=
             if transport_enabled st then Some (identity_hash st) else None;
           pr_tag := default random_hash tag |}).
Proof.
  intros Hd Hid Htag Hnew. unfold path_request_data.
  replace (match tag with Some t => t | None => random_hash end)
    with (default random_hash tag) by (destruct tag; reflexivity).
  destruct (transport_enabled st).
  - apply handler_reads_transport_request; assumption.
  - apply handler_reads_plain_request; assumption.
Qed.

(** Whatever the handler does with the data of a request, it does
    nothing when the same data comes again, and the list of tags stays
    as it is.  Data of at most 16 bytes, which has no room for a tag, is
    never handled. *)
Lemma handler_ignores_repeat (tags : list bytes) (data : bytes)
    (packet packet' : Packet) :
  path_request_handler
    (fst (path_request_handler tags data packet)) data packet' =
  (fst (path_request_handler tags data packet), None) /\
  path_request_handler tags (take 16 data) packet = (tags, None).
Proof.
  unfold PathRequest.path_request_handler.
  change (TRUNCATED_HASHLENGTH / 8)%nat with 16%nat.
  change (16 * 2)%nat with 32%nat.
  split.
  - destruct (16 <=? length data)%nat; [|reflexivity].
    destruct (32 <? length data)%nat.
    + set (u := take 16 data ++ _).
      destruct (bool_decide (u ∈ tags)) eqn:Hu; cbn [negb fst].
      * rewrite Hu. reflexivity.
      * rewrite bool_decide_eq_true_2
          by (apply elem_of_app; right; left). reflexivity.
    + destruct (16 <? length data)%nat; [|reflexivity].
      set (u := take 16 data ++ _).
      destruct (bool_decide (u ∈ tags)) eqn:Hu; cbn [negb fst].
      * rewrite Hu. reflexivity.
      * rewrite bool_decide_eq_true_2
          by (apply elem_of_app; right; left). reflexivity.
  - assert (Hlen : (length (take 16 data) <= 16)%nat)
      by (rewrite length_take; lia).
    destruct (16 <=? length (take 16 data))%nat; [|reflexivity].
    replace (32 <? length (take 16 data))%nat with false
      by (symmetry; apply Nat.ltb_ge; lia).
    replace (16 <? length (take 16 data))%nat with false
      by (symmetry; apply Nat.ltb_ge; lia).
    reflexivity.
Qed.

(** X15.  The cull of the tags forgets the request handled last: when a
    request has just been handled and more than [max_pr_tags] tags are
    held, the same request is ignored before the cull and handled again
    after it. *)
Theorem path_request_handled_again_after_cull (tags tags1 : list bytes)
    (data : bytes) (packet : Packet) (call : PathRequestCall) :
  path_request_handler tags data packet = (tags1, Some call) ->
  max_pr_tags < Z.of_nat (length tags1) ->
  path_request_handler tags1 data packet = (tags1, None) /\
  snd (path_request_handler (cull_pr_tags tags1) data packet) = Some call.
Proof.
  intros Hfirst Hlen. split.
  { pose proof (proj1 (handler_ignores_repeat tags data packet packet))
      as Honce.
    rewrite Hfirst in Honce. exact Honce. }
  revert Hfirst. unfold PathRequest.path_request_handler.
  change (TRUNCATED_HASHLENGTH / 8)%nat with 16%nat.
  change (16 * 2)%nat with 32%nat.
  assert (Hsub : forall u, u ∉ tags -> tags1 = tags ++ [u] ->
                           u ∉ cull_pr_tags tags1).
  { intros u Hu ->. unfold cull_pr_tags.
    replace (max_pr_tags <? Z.of_nat (length (tags ++ [u]))) with true
      by (symmetry; apply Z.ltb_lt; exact Hlen).
    unfold slice. rewrite length_app. cbn [length].
    replace (length tags + 1 - 1)%nat with (length tags) by lia.
    intros Hin.
    apply elem_of_take in Hin as (i & Hi & Hlt).
    rewrite lookup_drop in Hi.
    rewrite lookup_app_l in Hi by lia.
    apply Hu. eapply list_elem_of_lookup_2. exact Hi. }
  destruct (16 <=? length data)%nat; [|discriminate].
  destruct (32 <? length data)%nat.
  - set (u := take 16 data ++ _).
    destruct (bool_decide (u ∈ tags)) eqn:Hu; cbn [negb]; [discriminate|].
    intros [= <- <-]. apply bool_decide_eq_false_1 in Hu.
    rewrite bool_decide_eq_false_2 by (apply Hsub; auto). reflexivity.
  - destruct (16 <? length data)%nat; [|discriminate].
    set (u := take 16 data ++ _).
    destruct (bool_decide (u ∈ tags)) eqn:Hu; cbn [negb]; [discriminate|].
    intros [= <- <-]. apply bool_decide_eq_false_1 in Hu.
    rewrite bool_decide_eq_false_2 by (apply Hsub; auto). reflexivity.
Qed.

End WithLocalClients.

Section WithPathRequest.

Variable is_local_client_interface : Interface -> bool.
Variable DISCOVER_PATHS_FOR : list InterfaceMode.
Variable get_cached_packet : bytes -> option Packet.
Variable PATH_REQUEST_GRACE : Z.
Variable PATH_REQUEST_RG : Z.

Local Abbreviation path_request_handler :=
  (path_request_handler is_local_client_interface).
Local Abbreviation answer_from_path :=
  (answer_from_path is_local_client_interface get_cached_packet
     PATH_REQUEST_GRACE PATH_REQUEST_RG).
Local Abbreviation path_request :=
  (path_request is_local_client_interface DISCOVER_PATHS_FOR
     get_cached_packet PATH_REQUEST_GRACE PATH_REQUEST_RG).
Local Abbreviation handle_path_request :=
  (handle_path_request is_local_client_interface DISCOVER_PATHS_FOR
     get_cached_packet PATH_REQUEST_GRACE PATH_REQUEST_RG).

(** The table updates of lines 2586-2593, which come before the
    decision. *)
Local Abbreviation noted_for_local_client st t destination_hash ai :=
  (if Nat.ltb 0 (length (local_client_interfaces st)) then
     match path_table st !! destination_hash with
     | Some destination_entry =>
         if is_local_client_interface (PT_RVCD_IF destination_entry)
         then
           {| announce_table := announce_table t;
              held_announces := held_announces t;
              pending_local_path_requests :=
                <[destination_hash := ai]> (pending_local_path_requests t);
              discovery_path_requests := discovery_path_requests t |}
         else t
     | None => t
     end
   else t).

Lemma noted_for_local_client_tables (st : State) (t : RequestTables)
    (d : bytes) (ai : option Interface) :
  announce_table (noted_for_local_client st t d ai) = announce_table t /\
  held_announces (noted_for_local_client st t d ai) = held_announces t /\
  discovery_path_requests (noted_for_local_client st t d ai) =
    discovery_path_requests t.
Proof.
  destruct (0 <? length (local_client_interfaces st))%nat; [|auto].
  destruct (path_table st !! d) as [e|]; [|auto].
  destruct (is_local_client_interface (PT_RVCD_IF e)); auto.
Qed.

(** X16.  What a path request is answered with, and when.  A request for a
    destination that is not registered here, to which a path is known
    whose announce is in the cache, on a transport instance or from a
    local client: unless the path leads over the next hop that asks, or
    over the roaming-mode interface the request came in on, the cached
    announce is put into the announce table as a path response, with
    the hop count of the path, one retry, rebroadcasts blocked, bound to
    the interface of the request.  It is due at once for a local client
    or a destination behind one, after [PATH_REQUEST_GRACE] otherwise,
    and after [PATH_REQUEST_RG] more on a roaming-mode interface.  An
    announce that was waiting in the table for the same destination is
    held back.  No request is sent on. *)
Theorem path_request_answered_from_cache (st : State) (t : RequestTables)
    (destination_hash : bytes) (is_from_local_client : bool)
    (ai : Interface) (m : InterfaceMode)
    (requestor_transport_id tag : option bytes) (random_hash : bytes)
    (now : Z) (e : PathEntry) (p : Packet) :
  is_local_destination st destination_hash = false ->
  transport_enabled st || is_from_local_client = true ->
  path_table st !! destination_hash = Some e ->
  get_cached_packet (PT_PACKET e) = Some p ->
  mode ai = Some m ->
  let r :=
    path_request st t destination_hash is_from_local_client (Some ai)
      requestor_transport_id tag random_hash now in
  prr_status r = Completed /\ prr_actions r = [] /\
  if bool_decide (m = MODE_ROAMING /\ ai = PT_RVCD_IF e) ||
     bool_decide (requestor_transport_id = Some (PT_NEXT_HOP e))
  then announce_table (prr_tables r) = announce_table t /\
       held_announces (prr_tables r) = held_announces t
  else
    announce_table (prr_tables r) =
      <[Transport.destination_hash p :=
          {| AT_TIMESTAMP := now;
             AT_RTRNS_TMO :=
               if is_from_local_client ||
                  is_local_client_interface (PT_RVCD_IF e)
               then now
               else if bool_decide (m = MODE_ROAMING)
               then now + PATH_REQUEST_GRACE + PATH_REQUEST_RG
               else now + PATH_REQUEST_GRACE;
             AT_RETRIES := PATHFINDER_R;
             AT_RCVD_IF := PT_RVCD_IF e;
             AT_HOPS := PT_HOPS e;
             AT_PACKET := set_hops p (PT_HOPS e);
             AT_LCL_RBRD := 0;
             AT_BLCK_RBRD := true;
             AT_ATTCHD_IF := Some ai |}]> (announce_table t) /\
    forall held,
      announce_table t !! Transport.destination_hash p = Some held ->
      held_announces (prr_tables r) !! Transport.destination_hash p =
        Some held.
Proof.
  intros Hloc Hte He Hp Hm r. unfold r, PathRequest.path_request.
  assert (Hfirst : (if transport_enabled st
                    then match mode ai with
                         | Some m0 =>
                             Some (bool_decide (m0 ∈ DISCOVER_PATHS_FOR))
                         | None => None
                         end
                    else Some false) =
                   Some (transport_enabled st &&
                         bool_decide (m ∈ DISCOVER_PATHS_FOR))).
  { rewrite Hm. destruct (transport_enabled st); reflexivity. }
  set (t1 := noted_for_local_client st t destination_hash (Some ai)).
  destruct (noted_for_local_client_tables st t destination_hash (Some ai))
    as (Hat & Hheld & _).
  fold t1 in Hat, Hheld.
  rewrite Hfirst, Hloc, Hte, He.
  unfold PathRequest.answer_from_path. rewrite Hp.
  cbn [mbind option_bind]. rewrite Hm.
  assert (Hdue : (if is_from_local_client then now
                  else if is_local_client_interface (PT_RVCD_IF e) then now
                  else if bool_decide (m = MODE_ROAMING)
                  then now + PATH_REQUEST_GRACE + PATH_REQUEST_RG
                  else now + PATH_REQUEST_GRACE) =
                 (if is_from_local_client ||
                     is_local_client_interface (PT_RVCD_IF e)
                  then now
                  else if bool_decide (m = MODE_ROAMING)
                  then now + PATH_REQUEST_GRACE + PATH_REQUEST_RG
                  else now + PATH_REQUEST_GRACE)).
  { destruct is_from_local_client; [reflexivity|].
    destruct (is_local_client_interface _); reflexivity. }
  rewrite Hdue.
  destruct requestor_transport_id as [rq|];
    repeat case_bool_decide;
    cbn [andb orb prr_status prr_actions prr_tables announce_table
         held_announces set_hops hops Transport.destination_hash];
    try (exfalso; intuition congruence);
    rewrite ?Hat, ?Hheld;
    (split; [reflexivity|]); (split; [reflexivity|]);
    try (split; reflexivity);
    (split; [reflexivity|]);
    intros held Hh; rewrite Hh; apply lookup_insert_eq.
Qed.

Lemma handler_call_shape (tags tags1 : list bytes) (data : bytes)
    (packet : Packet) (call : PathRequestCall) :
  path_request_handler tags data packet = (tags1, Some call) ->
  length (pr_destination_hash call) = 16%nat /\
  (1 <= length (pr_tag call) <= 16)%nat /\
  tags1 = tags ++ [pr_destination_hash call ++ pr_tag call].
Proof.
  unfold PathRequest.path_request_handler.
  change (TRUNCATED_HASHLENGTH / 8)%nat with 16%nat.
  change (16 * 2)%nat with 32%nat.
  destruct (16 <=? length data)%nat eqn:H16; [|discriminate].
  apply Nat.leb_le in H16.
  assert (Htake : length (take 16 data) = 16%nat)
    by (rewrite length_take; lia).
  destruct (32 <? length data)%nat eqn:H32.
  - apply Nat.ltb_lt in H32.
    destruct (16 <? length (drop 32 data))%nat eqn:Hlong;
      destruct (negb (bool_decide _)); try discriminate;
      intros [= <- <-]; cbn [pr_destination_hash pr_tag];
      (split; [exact Htake|]); (split; [|reflexivity]).
    + rewrite length_take, length_drop.
      apply Nat.ltb_lt in Hlong. rewrite length_drop in Hlong. lia.
    + apply Nat.ltb_ge in Hlong. rewrite length_drop in *. lia.
  - destruct (16 <? length data)%nat eqn:H17; [|discriminate].
    apply Nat.ltb_lt in H17. apply Nat.ltb_ge in H32.
    destruct (16 <? length (drop 16 data))%nat eqn:Hlong;
      destruct (negb (bool_decide _)); try discriminate;
      intros [= <- <-]; cbn [pr_destination_hash pr_tag];
      (split; [exact Htake|]); (split; [|reflexivity]).
    + rewrite length_take, length_drop.
      apply Nat.ltb_lt in Hlong. rewrite length_drop in Hlong. lia.
    + apply Nat.ltb_ge in Hlong. rewrite length_drop in *. lia.
Qed.

(** A request with a destination and tag that are on the list is
    ignored, whoever sent it on. *)
Lemma handler_ignores_seen (st' : State) (d tg random_hash : bytes)
    (tags : list bytes) (packet : Packet) :
  length d = 16%nat ->
  length (identity_hash st') = 16%nat ->
  (1 <= length tg <= 16)%nat ->
  d ++ tg ∈ tags ->
  path_request_handler tags (path_request_data st' d (Some tg) random_hash)
    packet = (tags, None).
Proof.
  intros Hd Hid Htg Hin.
  unfold path_request_data, PathRequest.path_request_handler.
  change (TRUNCATED_HASHLENGTH / 8)%nat with 16%nat.
  change (16 * 2)%nat with 32%nat.
  destruct (transport_enabled st').
  - rewrite !length_app, Hd, Hid.
    replace (16 <=? 16 + (16 + length tg))%nat with true
      by (symmetry; apply Nat.leb_le; lia).
    replace (32 <? 16 + (16 + length tg))%nat with true
      by (symmetry; apply Nat.ltb_lt; lia).
    assert (Hdrop : drop 32 (d ++ identity_hash st' ++ tg) = tg).
    { rewrite app_assoc. apply drop_app_length'. rewrite length_app. lia. }
    rewrite Hdrop.
    replace (16 <? length tg)%nat with false
      by (symmetry; apply Nat.ltb_ge; lia).
    rewrite take_app_length' by lia.
    rewrite (bool_decide_eq_true_2 _ Hin). reflexivity.
  - rewrite !length_app, Hd.
    replace (16 <=? 16 + length tg)%nat with true
      by (symmetry; apply Nat.leb_le; lia).
    replace (32 <? 16 + length tg)%nat with false
      by (symmetry; apply Nat.ltb_ge; lia).
    replace (16 <? 16 + length tg)%nat with true
      by (symmetry; apply Nat.ltb_lt; lia).
    rewrite drop_app_length' by lia.
    replace (16 <? length tg)%nat with false
      by (symmetry; apply Nat.ltb_ge; lia).
    rewrite take_app_length' by lia.
    rewrite (bool_decide_eq_true_2 _ Hin). reflexivity.
Qed.

Lemma request_on_others_spec (st : State) (d : bytes)
    (ai : option Interface) (tag : option bytes) (recursive : bool)
    (a : RequestAction) :
  a ∈ request_on_others st d ai tag recursive <->
  exists i, i ∈ interfaces st /\ Some i <> ai /\
            a = RequestPath d (Some i) tag recursive.
Proof.
  unfold request_on_others. rewrite list_elem_of_omap. split.
  - intros (i & Hi & Hf). exists i. split; [exact Hi|].
    destruct (decide (Some i = ai)) as [E|E].
    + rewrite (bool_decide_eq_true_2 _ E) in Hf. discriminate.
    + rewrite (bool_decide_eq_false_2 _ E) in Hf. injection Hf as <-. auto.
  - intros (i & Hi & Hne & ->). exists i. split; [exact Hi|].
    rewrite (bool_decide_eq_false_2 _ Hne). reflexivity.
Qed.

(** Only the search for an unknown destination sends recursive
    requests. *)
Lemma path_request_recursive (st : State) (t : RequestTables) (dh : bytes)
    (lc : bool) (ai : option Interface) (rq tag : option bytes)
    (random_hash : bytes) (now : Z) (d : bytes) (oi : option Interface)
    (tg : option bytes) :
  RequestPath d oi tg true ∈
    prr_actions (path_request st t dh lc ai rq tag random_hash now) ->
  transport_enabled st = true /\ d = dh /\ tg = tag /\
  exists i, oi = Some i /\ i ∈ interfaces st /\ Some i <> ai.
Proof.
  unfold PathRequest.path_request.
  set (t1 := noted_for_local_client st t dh ai).
  destruct ai as [ai'|].
  - destruct (transport_enabled st) eqn:Hte.
    + destruct (mode ai') as [m|];
        [|intros H; apply elem_of_nil in H; contradiction].
      destruct (is_local_destination st dh).
      { intros H. apply list_elem_of_singleton in H. discriminate. }
      cbn [orb]. destruct (path_table st !! dh) as [e|].
      { unfold PathRequest.answer_from_path.
        repeat match goal with
               | |- context [match ?x with _ => _ end] => destruct x
               end; intros H; apply elem_of_nil in H; contradiction. }
      destruct lc.
      { intros H. apply request_on_others_spec in H as (i & _ & _ & H).
        discriminate. }
      destruct (bool_decide (m ∈ DISCOVER_PATHS_FOR)).
      * destruct (discovery_path_requests t1 !! dh);
          [intros H; apply elem_of_nil in H; contradiction|].
        intros H. apply request_on_others_spec in H as (i & Hi & Hne & H).
        injection H as -> -> ->. eauto 10.
      * destruct (0 <? length (local_client_interfaces st))%nat.
        -- intros H. apply list_elem_of_fmap in H as (i & H & _).
           discriminate.
        -- intros H. apply elem_of_nil in H. contradiction.
    + destruct (is_local_destination st dh).
      { intros H. apply list_elem_of_singleton in H. discriminate. }
      cbn [orb]. destruct lc.
      * destruct (path_table st !! dh) as [e|].
        { unfold PathRequest.answer_from_path.
          repeat match goal with
                 | |- context [match ?x with _ => _ end] => destruct x
                 end; intros H; apply elem_of_nil in H; contradiction. }
        intros H. apply request_on_others_spec in H as (i & _ & _ & H).
        discriminate.
      * destruct (0 <? length (local_client_interfaces st))%nat.
        -- intros H. apply list_elem_of_fmap in H as (i & H & _).
           discriminate.
        -- intros H. apply elem_of_nil in H. contradiction.
  - destruct (is_local_destination st dh).
    { intros H. apply list_elem_of_singleton in H. discriminate. }
    destruct (transport_enabled st || lc).
    + destruct (path_table st !! dh) as [e|].
      { unfold PathRequest.answer_from_path.
        repeat match goal with
               | |- context [match ?x with _ => _ end] => destruct x
               end; intros H; apply elem_of_nil in H; contradiction. }
      destruct lc.
      * intros H. apply request_on_others_spec in H as (i & _ & _ & H).
        discriminate.
      * destruct (0 <? length (local_client_interfaces st))%nat.
        -- intros H. apply list_elem_of_fmap in H as (i & H & _).
           discriminate.
        -- intros H. apply elem_of_nil in H. contradiction.
    + destruct lc.
      * intros H. apply request_on_others_spec in H as (i & _ & _ & H).
        discriminate.
      * destruct (0 <? length (local_client_interfaces st))%nat.
        -- intros H. apply list_elem_of_fmap in H as (i & H & _).
           discriminate.
        -- intros H. apply elem_of_nil in H. contradiction.
Qed.

(** X17.  A path request that this instance sends on in search of an unknown
    destination does not come round again.  The requests it sends carry
    the destination and the tag of the request it handled; when one of
    them is heard again, sent on by any instance under its own transport
    ID or none, the handler ignores it and the tags stay as they are. *)
Theorem forwarded_request_ignored_on_return (st : State) (t : RequestTables)
    (tags tags1 : list bytes) (data : bytes) (packet : Packet)
    (random_hash : bytes) (now : Z) (r : PathRequestResult)
    (d : bytes) (oi : option Interface) (tg : option bytes) :
  handle_path_request st t tags data packet random_hash now =
    (tags1, Some r) ->
  RequestPath d oi tg true ∈ prr_actions r ->
  forall (st' : State) (random_hash' : bytes) (packet' : Packet),
    length (identity_hash st') = 16%nat ->
    path_request_handler tags1
      (path_request_data st' d tg random_hash') packet' = (tags1, None).
Proof.
  unfold PathRequest.handle_path_request. intros Hh Hin.
  destruct (path_request_handler tags data packet) as [tags' [call|]] eqn:Hc;
    [|discriminate].
  injection Hh as -> <-.
  apply handler_call_shape in Hc as (Hd & Htg & ->).
  apply path_request_recursive in Hin as (_ & -> & -> & _).
  intros st' random_hash' packet' Hid.
  apply handler_ignores_seen; try assumption.
  apply elem_of_app. right. left.
Qed.

(** X18.  The search for an unknown destination is made once per waiting
    time.  A request for a destination that is not registered here and
    has no path, coming in on a transport instance over an interface
    whose mode is one to discover paths for, while no search for that
    destination is waiting: it is sent on with its own tag to every
    other interface.  Until [PATH_REQUEST_TIMEOUT] has passed, a further
    request for the destination on such an interface, with whatever tag,
    is not sent on and changes nothing, also after a cull of the waiting
    requests; after a cull later than that, it is sent on again. *)
Theorem discovery_search_waits (st : State) (t : RequestTables)
    (dh : bytes) (ai ai' : Interface) (m m' : InterfaceMode)
    (rq rq' tag tag' : option bytes) (random_hash random_hash' : bytes)
    (now now1 now2 : Z) :
  transport_enabled st = true ->
  is_local_destination st dh = false ->
  path_table st !! dh = None ->
  mode ai = Some m -> m ∈ DISCOVER_PATHS_FOR ->
  mode ai' = Some m' -> m' ∈ DISCOVER_PATHS_FOR ->
  discovery_path_requests t !! dh = None ->
  let r := path_request st t dh false (Some ai) rq tag random_hash now in
  let waiting := cull_discovery_path_requests (prr_tables r) now1 in
  let again :=
    path_request st waiting dh false (Some ai') rq' tag' random_hash' now2 in
  prr_actions r = request_on_others st dh (Some ai) tag true /\
  (now1 <= now + PATH_REQUEST_TIMEOUT ->
   prr_actions again = [] /\ prr_tables again = waiting) /\
  (now + PATH_REQUEST_TIMEOUT < now1 ->
   prr_actions again = request_on_others st dh (Some ai') tag' true).
Proof.
  intros Hte Hloc Hp Hm Hin Hm' Hin' Hnone r waiting again.
  assert (Hrun : forall t0 a0 m0 q0 g0 h0 n0,
             mode a0 = Some m0 -> m0 ∈ DISCOVER_PATHS_FOR ->
             path_request st t0 dh false (Some a0) q0 g0 h0 n0 =
             match discovery_path_requests t0 !! dh with
             | Some _ =>
                 {| prr_tables := t0; prr_actions := [];
                    prr_status := Completed |}
             | None =>
                 {| prr_tables :=
                      {| announce_table := announce_table t0;
                         held_announces := held_announces t0;
                         pending_local_path_requests :=
                           pending_local_path_requests t0;
                         discovery_path_requests :=
                           <[dh := {| de_destination_hash := dh;
                                      de_timeout := n0 + PATH_REQUEST_TIMEOUT;
                                      de_requesting_interface := Some a0 |}]>
                             (discovery_path_requests t0) |};
                    prr_actions := request_on_others st dh (Some a0) g0 true;
                    prr_status := Completed |}
             end).
  { intros t0 a0 m0 q0 g0 h0 n0 Hm0 Hin0. unfold PathRequest.path_request.
    rewrite Hte, Hm0, Hloc, Hp. cbn [orb].
    rewrite (bool_decide_eq_true_2 _ Hin0).
    destruct (0 <? length (local_client_interfaces st))%nat; reflexivity. }
  assert (Hr : r = _) by exact (Hrun t ai m rq tag random_hash now Hm Hin).
  rewrite Hnone in Hr.
  assert (Ha : again = _)
    by exact (Hrun waiting ai' m' rq' tag' random_hash' now2 Hm' Hin').
  split; [rewrite Hr; reflexivity|].
  assert (Hw : discovery_path_requests waiting !! dh =
               if now + PATH_REQUEST_TIMEOUT <? now1 then None
               else Some {| de_destination_hash := dh;
                            de_timeout := now + PATH_REQUEST_TIMEOUT;
                            de_requesting_interface := Some ai |}).
  { unfold waiting, cull_discovery_path_requests. rewrite Hr.
    cbn [discovery_path_requests prr_tables].
    destruct (now + PATH_REQUEST_TIMEOUT <? now1) eqn:Hlt.
    - apply map_lookup_filter_None. right. intros x Hx.
      rewrite lookup_insert_eq in Hx. injection Hx as <-.
      cbn [snd de_timeout]. rewrite Hlt. cbn. tauto.
    - apply map_lookup_filter_Some. split; [apply lookup_insert_eq|].
      cbn [snd de_timeout]. rewrite Hlt. exact I. }
  rewrite Hw in Ha. split.
  - intros Hle. replace (now + PATH_REQUEST_TIMEOUT <? now1) with false in Ha
      by (symmetry; apply Z.ltb_ge; lia).
    rewrite Ha. split; reflexivity.
  - intros Hlt. replace (now + PATH_REQUEST_TIMEOUT <? now1) with true in Ha
      by (symmetry; apply Z.ltb_lt; lia).
    rewrite Ha. reflexivity.
Qed.

End WithPathRequest.

(** A request for the example path, heard on [IF2] by the example
    node at time 500. *)
Lemma path_request_answered_from_cache_witness :
  let e := Examples.path_entry 3 [] in
  let p := Examples.announce_for_aa 7 1 in
  let r :=
    path_request Scenarios.no_local_clients Scenarios.demo_DISCOVER_PATHS_FOR
      Scenarios.cache_of_aa Scenarios.demo_PATH_REQUEST_GRACE
      Scenarios.demo_PATH_REQUEST_RG (Examples.node_with_path 3 [])
      Scenarios.empty_tables Examples.hash_aa false (Some Examples.IF2)
      None (Some [7]) [] 500 in
  prr_status r = Completed /\ prr_actions r = [] /\
  if bool_decide (MODE_FULL = MODE_ROAMING /\ Examples.IF2 = PT_RVCD_IF e) ||
     bool_decide (None = Some (PT_NEXT_HOP e))
  then announce_table (prr_tables r) =
         announce_table Scenarios.empty_tables /\
       held_announces (prr_tables r) = held_announces Scenarios.empty_tables
  else
    announce_table (prr_tables r) =
      <[Transport.destination_hash p :=
          {| AT_TIMESTAMP := 500;
             AT_RTRNS_TMO :=
               if false || Scenarios.no_local_clients (PT_RVCD_IF e)
               then 500
               else if bool_decide (MODE_FULL = MODE_ROAMING)
               then 500 + Scenarios.demo_PATH_REQUEST_GRACE +
                    Scenarios.demo_PATH_REQUEST_RG
               else 500 + Scenarios.demo_PATH_REQUEST_GRACE;
             AT_RETRIES := PATHFINDER_R;
             AT_RCVD_IF := PT_RVCD_IF e;
             AT_HOPS := PT_HOPS e;
             AT_PACKET := set_hops p (PT_HOPS e);
             AT_LCL_RBRD := 0;
             AT_BLCK_RBRD := true;
             AT_ATTCHD_IF := Some Examples.IF2 |}]>
        (announce_table Scenarios.empty_tables) /\
    forall held,
      announce_table Scenarios.empty_tables !! Transport.destination_hash p =
        Some held ->
      held_announces (prr_tables r) !! Transport.destination_hash p =
        Some held.
Proof.
  apply (path_request_answered_from_cache Scenarios.no_local_clients
           Scenarios.demo_DISCOVER_PATHS_FOR Scenarios.cache_of_aa
           Scenarios.demo_PATH_REQUEST_GRACE Scenarios.demo_PATH_REQUEST_RG
           (Examples.node_with_path 3 []) Scenarios.empty_tables
           Examples.hash_aa false Examples.IF2 MODE_FULL None (Some [7]) []
           500 (Examples.path_entry 3 []) (Examples.announce_for_aa 7 1)).
  - reflexivity.
  - reflexivity.
  - apply lookup_singleton_eq.
  - vm_compute. reflexivity.
  - reflexivity.
Defined.

(** A request for [hash_aa], which the example node has no path to,
    heard on its access-point interface and sent on over [IF1]; it comes
    back from an instance that does not take part in transport. *)
Lemma forwarded_request_ignored_on_return_witness :
  path_request_handler Scenarios.no_local_clients
    [Examples.hash_aa ++ [7]]
    (path_request_data Scenarios.plain_node Examples.hash_aa (Some [7]) [])
    Examples.data_packet =
  ([Examples.hash_aa ++ [7]], None).
Proof.
  apply (forwarded_request_ignored_on_return Scenarios.no_local_clients
           Scenarios.demo_DISCOVER_PATHS_FOR Scenarios.cache_of_aa
           Scenarios.demo_PATH_REQUEST_GRACE Scenarios.demo_PATH_REQUEST_RG
           Scenarios.mixed_node Scenarios.empty_tables []
           [Examples.hash_aa ++ [7]] (Examples.hash_aa ++ [7])
           Scenarios.request_on_AP [] 500
           (path_request Scenarios.no_local_clients
              Scenarios.demo_DISCOVER_PATHS_FOR Scenarios.cache_of_aa
              Scenarios.demo_PATH_REQUEST_GRACE Scenarios.demo_PATH_REQUEST_RG
              Scenarios.mixed_node Scenarios.empty_tables Examples.hash_aa
              false (Some Scenarios.IF_AP) None (Some [7]) [] 500)
           Examples.hash_aa (Some Examples.IF1) (Some [7])).
  - reflexivity.
  - apply (bool_decide_unpack _). vm_compute. exact I.
  - reflexivity.
Defined.

(** Two requests for [hash_aa] on the example node, at times 500 and
    511, with a cull of the waiting requests at time 510. *)
Lemma discovery_search_waits_witness :
  let r :=
    path_request Scenarios.no_local_clients Scenarios.demo_DISCOVER_PATHS_FOR
      Scenarios.cache_of_aa Scenarios.demo_PATH_REQUEST_GRACE
      Scenarios.demo_PATH_REQUEST_RG Scenarios.mixed_node
      Scenarios.empty_tables Examples.hash_aa false (Some Scenarios.IF_AP)
      None (Some [7]) [] 500 in
  let waiting := cull_discovery_path_requests (prr_tables r) 510 in
  let again :=
    path_request Scenarios.no_local_clients Scenarios.demo_DISCOVER_PATHS_FOR
      Scenarios.cache_of_aa Scenarios.demo_PATH_REQUEST_GRACE
      Scenarios.demo_PATH_REQUEST_RG Scenarios.mixed_node waiting
      Examples.hash_aa false (Some Scenarios.IF_ROAM) None (Some [8]) []
      511 in
  prr_actions r =
    request_on_others Scenarios.mixed_node Examples.hash_aa
      (Some Scenarios.IF_AP) (Some [7]) true /\
  (510 <= 500 + PATH_REQUEST_TIMEOUT ->
   prr_actions again = [] /\ prr_tables again = waiting) /\
  (500 + PATH_REQUEST_TIMEOUT < 510 ->
   prr_actions again =
     request_on_others Scenarios.mixed_node Examples.hash_aa
       (Some Scenarios.IF_ROAM) (Some [8]) true).
Proof.
  apply (discovery_search_waits Scenarios.no_local_clients
           Scenarios.demo_DISCOVER_PATHS_FOR Scenarios.cache_of_aa
           Scenarios.demo_PATH_REQUEST_GRACE Scenarios.demo_PATH_REQUEST_RG
           Scenarios.mixed_node Scenarios.empty_tables Examples.hash_aa
           Scenarios.IF_AP Scenarios.IF_ROAM MODE_ACCESS_POINT MODE_ROAMING
           None None (Some [7]) (Some [8]) [] [] 500 510 511).
  - reflexivity.
  - reflexivity.
  - reflexivity.
  - reflexivity.
  - apply (bool_decide_unpack _). vm_compute. exact I.
  - reflexivity.
  - apply (bool_decide_unpack _). vm_compute. exact I.
  - reflexivity.
Defined.

(** A request of the example transport node for [hash_aa], with a
    random tag. *)
Lemma path_request_roundtrip_witness :
  path_request_handler (fun _ => false) []
    (path_request_data Examples.node Examples.hash_aa None (repeat 9 16))
    Examples.data_packet =
  ([Examples.hash_aa ++ repeat 9 16],
   Some {| pr_destination_hash := Examples.hash_aa;
           pr_is_from_local_client := false;
           pr_attached_interface := Examples.IF1;
           pr_requestor_transport_id := Some Examples.self_id;
           pr_tag := repeat 9 16 |}).
Proof.
  apply (path_request_roundtrip (fun _ => false) Examples.node
           Examples.hash_aa None (repeat 9 16) [] Examples.data_packet).
  - reflexivity.
  - reflexivity.
  - simpl. lia.
  - apply not_elem_of_nil.
Defined.

(** With 32000 tags held, a request with a new tag. *)
Lemma path_request_handled_again_after_cull_witness :
  let tags := repeat [0] (Z.to_nat 32000) in
  let data := Examples.hash_aa ++ [7] in
  let tags1 := tags ++ [data] in
  let call :=
    {| pr_destination_hash := Examples.hash_aa;
       pr_is_from_local_client := false;
       pr_attached_interface := Examples.IF1;
       pr_requestor_transport_id := None;
       pr_tag := [7] |} in
  path_request_handler (fun _ => false) tags1 data Examples.data_packet =
    (tags1, None) /\
  snd (path_request_handler (fun _ => false) (cull_pr_tags tags1) data
         Examples.data_packet) = Some call.
Proof.
  apply (path_request_handled_again_after_cull (fun _ => false)
           (repeat [0] (Z.to_nat 32000))).
  - apply (handler_reads_plain_request (fun _ => false)
             Examples.hash_aa [7]).
    + reflexivity.
    + simpl. lia.
    + intros Hin. apply list_elem_of_In, repeat_spec in Hin. discriminate.
  - rewrite length_app, repeat_length. unfold max_pr_tags. simpl length. lia.
Defined.

End PathRequestFacts.

(** ** Tunnels *)

Module TunnelFacts.
Import Transport BlobStore Tunnels.

Section WithIdentity.

Variable KEYSIZE : nat.
Variable HASHLENGTH : nat.
Variable RETICULUM_TRUNCATED_HASHLENGTH : nat.
Variable SIGLENGTH : nat.
Variable full_hash : bytes -> bytes.
Variable sign : bytes -> bytes.
Variable validate_with_key : bytes -> bytes -> bytes -> option bool.

Local Abbreviation synthesize_tunnel_data :=
  (synthesize_tunnel_data sign).
Local Abbreviation synthesized_tunnel_id :=
  (synthesized_tunnel_id full_hash).
Local Abbreviation tunnel_synthesize_handler :=
  (tunnel_synthesize_handler KEYSIZE HASHLENGTH
     RETICULUM_TRUNCATED_HASHLENGTH SIGLENGTH full_hash validate_with_key).

(** X19.  What [synthesize_tunnel] sends, [tunnel_synthesize_handler] takes
    apart again: with a public key, an interface hash, a random hash and
    a signature of the lengths the handler expects, it checks the
    signature against the same key over the same signed data, and, when
    the check succeeds, hands the tunnel ID that the sender computed to
    [handle_tunnel], with the interface the packet came in on.  The
    tunnel ID does not depend on the random hash. *)
Theorem tunnel_synthesis_roundtrip (s : Store)
    (public_key interface_hash random_hash : bytes) (packet : Packet)
    (now : Z) :
  length public_key = (KEYSIZE / 8)%nat ->
  length interface_hash = (HASHLENGTH / 8)%nat ->
  length random_hash = (RETICULUM_TRUNCATED_HASHLENGTH / 8)%nat ->
  length (sign ((public_key ++ interface_hash) ++ random_hash)) =
    (SIGLENGTH / 8)%nat ->
  tunnel_synthesize_handler s
    (synthesize_tunnel_data public_key interface_hash random_hash)
    packet now =
  match validate_with_key public_key
          (sign ((public_key ++ interface_hash) ++ random_hash))
          ((public_key ++ interface_hash) ++ random_hash) with
  | Some true =>
      handle_tunnel s (synthesized_tunnel_id public_key interface_hash)
        (receiving_interface packet) now
  | _ => s
  end.
Proof.
  intros Hk Hi Hr Hs.
  unfold Tunnels.tunnel_synthesize_handler, Tunnels.synthesize_tunnel_data,
    Tunnels.synthesized_tunnel_id.
  set (sd := (public_key ++ interface_hash) ++ random_hash) in *.
  set (sg := sign sd) in *.
  assert (Hlen : length (sd ++ sg) =
                 (KEYSIZE / 8 + HASHLENGTH / 8 +
                  RETICULUM_TRUNCATED_HASHLENGTH / 8 + SIGLENGTH / 8)%nat).
  { unfold sd. rewrite !length_app. lia. }
  rewrite Hlen, Nat.eqb_refl.
  assert (Hpk : take (KEYSIZE / 8) (sd ++ sg) = public_key).
  { unfold sd. rewrite <- !app_assoc. apply take_app_length'. lia. }
  assert (Hih : slice (KEYSIZE / 8) (KEYSIZE / 8 + HASHLENGTH / 8)
                  (sd ++ sg) = interface_hash).
  { unfold sd, slice. rewrite <- !app_assoc.
    rewrite drop_app_length' by lia. apply take_app_length'. lia. }
  assert (Hrh : slice (KEYSIZE / 8 + HASHLENGTH / 8)
                  (KEYSIZE / 8 + HASHLENGTH / 8 +
                   RETICULUM_TRUNCATED_HASHLENGTH / 8) (sd ++ sg) =
                random_hash).
  { unfold sd, slice. rewrite <- (app_assoc _ random_hash).
    rewrite drop_app_length' by (rewrite length_app; lia).
    apply take_app_length'. lia. }
  assert (Hsg : slice (KEYSIZE / 8 + HASHLENGTH / 8 +
                       RETICULUM_TRUNCATED_HASHLENGTH / 8)
                  (KEYSIZE / 8 + HASHLENGTH / 8 +
                   RETICULUM_TRUNCATED_HASHLENGTH / 8 + SIGLENGTH / 8)
                  (sd ++ sg) = sg).
  { unfold slice.
    rewrite drop_app_length' by (unfold sd; rewrite !length_app; lia).
    apply take_ge. lia. }
  rewrite Hpk, Hih, Hrh, Hsg. reflexivity.
Qed.

(** Data of any other length is ignored. *)
Lemma tunnel_synthesize_handler_length (s : Store) (data : bytes)
    (packet : Packet) (now : Z) :
  length data <>
    (KEYSIZE / 8 + HASHLENGTH / 8 + RETICULUM_TRUNCATED_HASHLENGTH / 8 +
     SIGLENGTH / 8)%nat ->
  tunnel_synthesize_handler s data packet now = s.
Proof.
  intros Hlen. unfold Tunnels.tunnel_synthesize_handler.
  apply Nat.eqb_neq in Hlen. rewrite Hlen. reflexivity.
Qed.

End WithIdentity.

(** A synthesis packet with a key of 64 bytes, an interface hash of 32
    bytes and a random hash of 16 bytes, signed with 64 bytes. *)
Lemma tunnel_synthesis_roundtrip_witness :
  tunnel_synthesize_handler 512 256 128 512 Scenarios.demo_full_hash
    Scenarios.demo_validate_with_key Examples.tunnel_store
    (synthesize_tunnel_data IFAC.demo_sign (repeat 4 64) (repeat 3 32)
       (repeat 9 16))
    Examples.data_packet 500 =
  handle_tunnel Examples.tunnel_store
    (synthesized_tunnel_id Scenarios.demo_full_hash (repeat 4 64)
       (repeat 3 32))
    Examples.IF1 500.
Proof.
  apply (tunnel_synthesis_roundtrip 512 256 128 512 Scenarios.demo_full_hash
           IFAC.demo_sign Scenarios.demo_validate_with_key
           Examples.tunnel_store (repeat 4 64) (repeat 3 32) (repeat 9 16)
           Examples.data_packet 500); reflexivity.
Defined.

(** *** A tunnel that reappears *)

(** Is a path of the tunnel put back into the path table (lines
    2095-2105)? *)
Local Abbreviation restored s now d p :=
  (match path_table s !! d with
   | Some old_entry =>
       (PR_HOPS p <=? PR_HOPS old_entry) || (PR_EXPIRES old_entry <? now)
   | None => now <? PR_EXPIRES p
   end).

Lemma restore_path_step (interface : Interface) (now : Z) (s : Store)
    (paths : gmap bytes PathRef) (d : bytes) (p : PathRef) :
  let r := restore_path interface now (s, paths) (d, p) in
  tunnels (fst r) = tunnels s /\
  (forall d', d' <> d ->
     path_table (fst r) !! d' = path_table s !! d' /\
     snd r !! d' = paths !! d') /\
  (if restored s now d p
   then snd r !! d = paths !! d /\
        exists e, path_table (fst r) !! d = Some e /\
                  PR_TIMESTAMP e = now /\
                  PR_NEXT_HOP e = PR_NEXT_HOP p /\
                  PR_HOPS e = PR_HOPS p /\
                  PR_EXPIRES e = PR_EXPIRES p /\
                  PR_RVCD_IF e = Some interface /\
                  PR_PACKET e = PR_PACKET p
   else snd r !! d = None /\
        path_table (fst r) !! d = path_table s !! d).
Proof.
  unfold restore_path. cbn [alloc path_table].
  destruct (restored s now d p) eqn:Hr; cbn [fst snd set_path path_table
                                             tunnels].
  - split; [reflexivity|]. split.
    + intros d' Hne. rewrite lookup_insert_ne by done. auto.
    + split; [reflexivity|]. eexists. rewrite lookup_insert_eq.
      split; [reflexivity|]. cbn. auto 10.
  - split; [reflexivity|]. split.
    + intros d' Hne. rewrite lookup_delete_ne by done. auto.
    + rewrite lookup_delete_eq. auto.
Qed.

Lemma restore_paths_fold (interface : Interface) (now : Z)
    (l : list (bytes * PathRef)) :
  NoDup (map fst l) ->
  forall (s : Store) (paths : gmap bytes PathRef),
    let r := fold_left (restore_path interface now) l (s, paths) in
    tunnels (fst r) = tunnels s /\
    (forall d, d ∉ map fst l ->
       path_table (fst r) !! d = path_table s !! d /\
       snd r !! d = paths !! d) /\
    (forall d p, (d, p) ∈ l ->
       if restored s now d p
       then snd r !! d = paths !! d /\
            exists e, path_table (fst r) !! d = Some e /\
                      PR_TIMESTAMP e = now /\
                      PR_NEXT_HOP e = PR_NEXT_HOP p /\
                      PR_HOPS e = PR_HOPS p /\
                      PR_EXPIRES e = PR_EXPIRES p /\
                      PR_RVCD_IF e = Some interface /\
                      PR_PACKET e = PR_PACKET p
       else snd r !! d = None /\
            path_table (fst r) !! d = path_table s !! d).
Proof.
  induction l as [|[d0 p0] l IH]; intros Hnd s paths.
  - cbn [fold_left fst snd]. split; [reflexivity|]. split; [auto|].
    intros d p Hin. apply elem_of_nil in Hin. contradiction.
  - cbn [map fst] in Hnd. apply NoDup_cons in Hnd as [Hd0 Hnd].
    cbn [fold_left].
    pose proof (restore_path_step interface now s paths d0 p0) as Hstep.
    destruct (restore_path interface now (s, paths) (d0, p0))
      as [s1 paths1] eqn:Hrp.
    cbn [fst snd] in Hstep. destruct Hstep as (Ht1 & Hoth & Hd).
    specialize (IH Hnd s1 paths1).
    destruct (fold_left (restore_path interface now) l (s1, paths1))
      as [s2 paths2] eqn:Hfold.
    cbn [fst snd] in IH |- *. destruct IH as (Ht2 & Hout & Hin).
    split; [congruence|]. split.
    + intros d Hd'. cbn [map fst] in Hd'.
      apply not_elem_of_cons in Hd' as [Hne Hd'].
      destruct (Hout d Hd') as [E1 E2]. destruct (Hoth d Hne) as [E3 E4].
      split; congruence.
    + intros d p Hmem. apply elem_of_cons in Hmem as [[= -> ->]|Hmem].
      * destruct (Hout d0 Hd0) as [E1 E2]. rewrite E1, E2. exact Hd.
      * assert (Hne : d <> d0).
        { intros ->. apply Hd0. apply list_elem_of_fmap.
          exists (d0, p). auto. }
        destruct (Hoth d Hne) as [E3 E4].
        specialize (Hin d p Hmem). rewrite E3 in Hin. rewrite <- E4.
        destruct (restored s now d p); [exact Hin|].
        destruct Hin as [H1 H2]. split; [exact H1 | congruence].
Qed.

(** X20.  When a tunnel reappears, it gets the interface and a new expiry,
    and each of its paths is either put back or dropped for good.  A
    path is put back when the table has no path to its destination and
    the tunnel's path has not expired, or when the table has one with at
    least as many hops or one that has expired: the table then holds
    the tunnel's next hop, hops, expiry and announce, the interface of
    the tunnel, and the time of the call as timestamp, and the tunnel
    keeps the path.  Otherwise the path is taken out of the tunnel and
    the table is left as it was for this destination.  Destinations that
    the tunnel has no path to are not touched. *)
Theorem handle_tunnel_restores (s : Store) (tunnel_id : bytes)
    (interface : Interface) (now : Z) (tunnel_entry : TunnelRef) :
  tunnels s !! tunnel_id = Some tunnel_entry ->
  let interface' :=
    {| if_name := if_name interface; get_hash := get_hash interface;
       mode := mode interface; HW_MTU := HW_MTU interface;
       AUTOCONFIGURE_MTU := AUTOCONFIGURE_MTU interface;
       FIXED_MTU := FIXED_MTU interface;
       Transport.tunnel_id := Some tunnel_id |} in
  let s' := handle_tunnel s tunnel_id interface now in
  exists tunnel_entry',
    tunnels s' !! tunnel_id = Some tunnel_entry' /\
    TR_IF tunnel_entry' = Some interface' /\
    TR_EXPIRES tunnel_entry' = now + DESTINATION_TIMEOUT /\
    forall d,
      match TR_PATHS tunnel_entry !! d with
      | None =>
          TR_PATHS tunnel_entry' !! d = None /\
          path_table s' !! d = path_table s !! d
      | Some p =>
          if restored s now d p
          then TR_PATHS tunnel_entry' !! d = Some p /\
               exists e, path_table s' !! d = Some e /\
                         PR_TIMESTAMP e = now /\
                         PR_NEXT_HOP e = PR_NEXT_HOP p /\
                         PR_HOPS e = PR_HOPS p /\
                         PR_EXPIRES e = PR_EXPIRES p /\
                         PR_RVCD_IF e = Some interface' /\
                         PR_PACKET e = PR_PACKET p
          else TR_PATHS tunnel_entry' !! d = None /\
               path_table s' !! d = path_table s !! d
      end.
Proof.
  intros Ht interface' s'. unfold s', handle_tunnel. rewrite Ht.
  fold interface'.
  pose proof (restore_paths_fold interface' now
                (map_to_list (TR_PATHS tunnel_entry))
                (NoDup_fst_map_to_list _) s (TR_PATHS tunnel_entry)) as Hf.
  destruct (fold_left (restore_path interface' now)
              (map_to_list (TR_PATHS tunnel_entry))
              (s, TR_PATHS tunnel_entry)) as [s1 paths] eqn:Hfold.
  cbn [fst snd] in Hf. destruct Hf as (_ & Hout & Hin).
  eexists. cbn [tunnels set_tunnel path_table]. rewrite lookup_insert_eq.
  split; [reflexivity|]. cbn [TR_IF TR_EXPIRES TR_PATHS].
  split; [reflexivity|]. split; [reflexivity|].
  intros d. destruct (TR_PATHS tunnel_entry !! d) as [p|] eqn:Hp.
  - specialize (Hin d p (proj2 (elem_of_map_to_list _ _ _) Hp)).
    rewrite Hp in Hin. exact Hin.
  - assert (Hnot : d ∉ map fst (map_to_list (TR_PATHS tunnel_entry))).
    { intros Hd. apply list_elem_of_fmap in Hd as ([d' p] & -> & Hd).
      apply elem_of_map_to_list in Hd. cbn [fst] in Hp. congruence. }
    destruct (Hout d Hnot) as [E1 E2]. rewrite Hp in E2. auto.
Qed.

(** The known tunnel reappears on [IF_T] at time 500. *)
Lemma handle_tunnel_restores_witness :
  let s' := handle_tunnel Scenarios.store_with_tunnel (repeat 14 32)
              Examples.IF_T 500 in
  exists tunnel_entry',
    tunnels s' !! repeat 14 32 = Some tunnel_entry' /\
    TR_IF tunnel_entry' = Some Examples.IF_T /\
    TR_EXPIRES tunnel_entry' = 500 + DESTINATION_TIMEOUT /\
    forall d,
      match TR_PATHS Scenarios.known_tunnel !! d with
      | None =>
          TR_PATHS tunnel_entry' !! d = None /\
          path_table s' !! d = path_table Scenarios.store_with_tunnel !! d
      | Some p =>
          if restored Scenarios.store_with_tunnel 500 d p
          then TR_PATHS tunnel_entry' !! d = Some p /\
               exists e, path_table s' !! d = Some e /\
                         PR_TIMESTAMP e = 500 /\
                         PR_NEXT_HOP e = PR_NEXT_HOP p /\
                         PR_HOPS e = PR_HOPS p /\
                         PR_EXPIRES e = PR_EXPIRES p /\
                         PR_RVCD_IF e = Some Examples.IF_T /\
                         PR_PACKET e = PR_PACKET p
          else TR_PATHS tunnel_entry' !! d = None /\
               path_table s' !! d = path_table Scenarios.store_with_tunnel !! d
      end.
Proof.
  apply (handle_tunnel_restores Scenarios.store_with_tunnel (repeat 14 32)
           Examples.IF_T 500 Scenarios.known_tunnel).
  apply lookup_singleton_eq.
Defined.

End TunnelFacts.

(** ** Announce rate limiting *)

Module AnnounceRateFacts.
Import Transport AnnounceRate.

(** What the rate check keeps true of an entry: the count of violations
    is at most the grace, or it is one more and the entry is blocked
    until [last + target + penalty]. *)
Local Abbreviation rate_inv limits e :=
  (0 <= rate_violations e /\
   (rate_violations e <= announce_rate_grace limits \/
    (rate_violations e = announce_rate_grace limits + 1 /\
     blocked_until e =
       last e + announce_rate_target limits + announce_rate_penalty limits))).

Lemma trim_timestamps_length (l : list Z) :
  (length (trim_timestamps l) <= MAX_RATE_TIMESTAMPS)%nat.
Proof. unfold trim_timestamps. rewrite length_drop. lia. Qed.

Lemma trim_timestamps_history (h : list Z) (x : Z) :
  trim_timestamps (drop (length h - MAX_RATE_TIMESTAMPS) h ++ [x]) =
  drop (length (h ++ [x]) - MAX_RATE_TIMESTAMPS) (h ++ [x]).
Proof.
  unfold trim_timestamps, MAX_RATE_TIMESTAMPS.
  rewrite !length_app, length_drop. cbn [length].
  destruct (decide (length h < 16)%nat) as [Hlt|Hge].
  - replace (length h - 16)%nat with 0%nat by lia.
    replace (length h - 0 + 1 - 16)%nat with 0%nat by lia.
    replace (length h + 1 - 16)%nat with 0%nat by lia.
    reflexivity.
  - replace (length h - (length h - 16) + 1 - 16)%nat with 1%nat by lia.
    rewrite (drop_app_le h [x]) by lia.
    rewrite drop_app_le by (rewrite length_drop; lia).
    rewrite drop_drop. f_equal. f_equal. lia.
Qed.

Lemma rate_check_keeps_inv (table : gmap bytes RateEntry) (context : Context)
    (limits : RateLimits) (destination_hash : bytes) (now : Z)
    (e : RateEntry) :
  0 <= announce_rate_grace limits ->
  0 <= announce_rate_penalty limits ->
  context <> PATH_RESPONSE ->
  table !! destination_hash = Some e ->
  rate_inv limits e ->
  let r := rate_check table context (Some limits) destination_hash now in
  (exists e',
     fst r !! destination_hash = Some e' /\
     rate_inv limits e' /\
     (length (timestamps e') <= MAX_RATE_TIMESTAMPS)%nat /\
     timestamps e' = trim_timestamps (timestamps e ++ [now])) /\
  (snd r = true <->
   now <= blocked_until e \/
   (now - last e < announce_rate_target limits /\
    rate_violations e = announce_rate_grace limits)).
Proof.
  intros Hg Hp Hctx He (Hv0 & Hinv) r. unfold r, rate_check.
  rewrite (bool_decide_eq_false_2 _ Hctx), He. cbn [negb].
  destruct (blocked_until e <? now) eqn:Hbu.
  - apply Z.ltb_lt in Hbu.
    destruct (now - last e <? announce_rate_target limits) eqn:Hviol.
    + apply Z.ltb_lt in Hviol.
      assert (Hle : rate_violations e <= announce_rate_grace limits)
        by (destruct Hinv as [H|[H1 H2]]; lia).
      destruct (announce_rate_grace limits <? rate_violations e + 1) eqn:Hx.
      * apply Z.ltb_lt in Hx. cbn [fst snd]. rewrite lookup_insert_eq.
        split.
        -- eexists. split; [reflexivity|].
           cbn [rate_violations blocked_until last timestamps].
           split; [split; [lia | right; lia]|].
           split; [apply trim_timestamps_length | reflexivity].
        -- split; [intros _; right; lia | reflexivity].
      * apply Z.ltb_ge in Hx. cbn [fst snd]. rewrite lookup_insert_eq.
        split.
        -- eexists. split; [reflexivity|].
           cbn [rate_violations blocked_until last timestamps].
           split; [split; [lia | left; lia]|].
           split; [apply trim_timestamps_length | reflexivity].
        -- split; [discriminate | intros [H|H]; lia].
    + apply Z.ltb_ge in Hviol.
      assert (Hx : (announce_rate_grace limits <?
                    Z.max 0 (rate_violations e - 1)) = false).
      { apply Z.ltb_ge. destruct Hinv as [H|[H1 H2]]; lia. }
      rewrite Hx. cbn [fst snd]. rewrite lookup_insert_eq. split.
      * eexists. split; [reflexivity|].
        cbn [rate_violations blocked_until last timestamps].
        apply Z.ltb_ge in Hx.
        split; [split; [lia | left; lia]|].
        split; [apply trim_timestamps_length | reflexivity].
      * split; [discriminate | intros [H|H]; lia].
  - apply Z.ltb_ge in Hbu. cbn [fst snd]. rewrite lookup_insert_eq. split.
    + eexists. split; [reflexivity|].
      cbn [rate_violations blocked_until last timestamps].
      split; [split; [lia | exact Hinv]|].
      split; [apply trim_timestamps_length | reflexivity].
    + split; [intros _; left; lia | reflexivity].
Qed.

(** X21.  One rate check on an entry that is in order (times and limits as
    the interface declares them, with a grace and a penalty that are
    not negative): the entry stays in order and holds at most 16
    timestamps, and the announce is rate-blocked iff it falls into a
    running block or is the violation that uses up the grace.  So the
    first announce after a block has run out is never blocked. *)
Theorem rate_check_step (table : gmap bytes RateEntry) (context : Context)
    (limits : RateLimits) (destination_hash : bytes) (now : Z)
    (e : RateEntry) :
  0 <= announce_rate_grace limits ->
  0 <= announce_rate_penalty limits ->
  context <> PATH_RESPONSE ->
  table !! destination_hash = Some e ->
  rate_inv limits e ->
  let r := rate_check table context (Some limits) destination_hash now in
  (exists e',
     fst r !! destination_hash = Some e' /\
     rate_inv limits e' /\
     (length (timestamps e') <= MAX_RATE_TIMESTAMPS)%nat /\
     timestamps e' = trim_timestamps (timestamps e ++ [now])) /\
  (snd r = true <->
   now <= blocked_until e \/
   (now - last e < announce_rate_target limits /\
    rate_violations e = announce_rate_grace limits)).
Proof.
  exact (rate_check_keeps_inv table context limits destination_hash now e).
Qed.

Lemma rate_checks_history (limits : RateLimits) (destination_hash : bytes)
    (nows : list Z) :
  0 <= announce_rate_grace limits ->
  0 <= announce_rate_penalty limits ->
  forall (table : gmap bytes RateEntry) (e : RateEntry) (h : list Z),
    table !! destination_hash = Some e ->
    rate_inv limits e ->
    timestamps e = drop (length h - MAX_RATE_TIMESTAMPS) h ->
    exists e',
      fst (rate_checks table limits destination_hash nows) !!
        destination_hash = Some e' /\
      rate_inv limits e' /\
      timestamps e' =
        drop (length (h ++ nows) - MAX_RATE_TIMESTAMPS) (h ++ nows).
Proof.
  intros Hg Hp. induction nows as [|now nows IH]; intros table e h He Hinv Hts.
  - cbn [rate_checks fst]. exists e. rewrite app_nil_r. auto.
  - cbn [rate_checks].
    pose proof (rate_check_keeps_inv table NONE limits destination_hash now e
                  Hg Hp ltac:(discriminate) He Hinv) as Hstep.
    cbv zeta in Hstep.
    destruct (rate_check table NONE (Some limits) destination_hash now)
      as [t blocked] eqn:Hrc.
    cbn [fst snd] in Hstep. destruct Hstep as [(e1 & He1 & Hinv1 & _ & Hts1) _].
    specialize (IH t e1 (h ++ [now]) He1 Hinv1).
    destruct (rate_checks t limits destination_hash nows) as [t' bs] eqn:Hrs.
    cbn [fst] in IH |- *. rewrite <- app_assoc in IH. apply IH.
    rewrite Hts1, Hts. apply trim_timestamps_history.
Qed.

(** X22.  A run of announces for a destination that has no rate entry yet,
    heard on an interface with a rate target (grace and penalty not
    negative): the first announce is not blocked; afterwards the entry
    holds the times of the last 16 announces of the run, blocked or
    not, and its count of violations lies between 0 and the grace plus
    one. *)
Theorem rate_checks_from_fresh (table : gmap bytes RateEntry)
    (limits : RateLimits) (destination_hash : bytes) (now : Z)
    (nows : list Z) :
  0 <= announce_rate_grace limits ->
  0 <= announce_rate_penalty limits ->
  table !! destination_hash = None ->
  let r := rate_checks table limits destination_hash (now :: nows) in
  head (snd r) = Some false /\
  exists e,
    fst r !! destination_hash = Some e /\
    timestamps e =
      drop (length (now :: nows) - MAX_RATE_TIMESTAMPS) (now :: nows) /\
    0 <= rate_violations e <= announce_rate_grace limits + 1.
Proof.
  intros Hg Hp Hnone r. unfold r. cbn [rate_checks].
  set (e0 := {| last := now; rate_violations := 0; blocked_until := 0;
                timestamps := [now] |}).
  assert (Hfirst : rate_check table NONE (Some limits) destination_hash now =
                   (<[destination_hash := e0]> table, false)).
  { unfold rate_check.
    rewrite (bool_decide_eq_false_2 (NONE = PATH_RESPONSE)) by discriminate.
    rewrite Hnone. reflexivity. }
  rewrite Hfirst.
  pose proof (rate_checks_history limits destination_hash nows Hg Hp
                (<[destination_hash := e0]> table) e0 [now]
                (lookup_insert_eq _ _ _)) as Hrun.
  destruct (rate_checks (<[destination_hash := e0]> table) limits
              destination_hash nows) as [t' bs] eqn:Hrs.
  cbn [fst snd head] in Hrun |- *. split; [reflexivity|].
  destruct Hrun as (e & He & (Hv0 & Hinv) & Hts).
  - cbn [rate_violations e0]. split; [lia | left; exact Hg].
  - reflexivity.
  - exists e. split; [exact He|]. split; [exact Hts|].
    destruct Hinv as [H|[H _]]; lia.
Qed.

(** Three announces ten seconds apart, on an interface that wants an
    hour between announces and allows no violation. *)
Lemma rate_checks_from_fresh_witness :
  let limits :=
    {| announce_rate_target := 3600; announce_rate_grace := 0;
       announce_rate_penalty := 60 |} in
  let r := rate_checks ∅ limits Examples.hash_aa [1000; 1010; 1020] in
  head (snd r) = Some false /\
  exists e,
    fst r !! Examples.hash_aa = Some e /\
    timestamps e =
      drop (length [1000; 1010; 1020] - MAX_RATE_TIMESTAMPS)
        [1000; 1010; 1020] /\
    0 <= rate_violations e <= announce_rate_grace limits + 1.
Proof.
  apply (rate_checks_from_fresh ∅
           {| announce_rate_target := 3600; announce_rate_grace := 0;
              announce_rate_penalty := 60 |}
           Examples.hash_aa 1000 [1010; 1020]).
  - simpl. lia.
  - simpl. lia.
  - apply lookup_empty.
Defined.

(** The second of those announces uses up the grace and is blocked. *)
Lemma rate_check_step_witness :
  let limits :=
    {| announce_rate_target := 3600; announce_rate_grace := 0;
       announce_rate_penalty := 60 |} in
  let e := {| last := 1000; rate_violations := 0; blocked_until := 0;
              timestamps := [1000] |} in
  let r := rate_check {[Examples.hash_aa := e]} NONE (Some limits)
             Examples.hash_aa 1010 in
  (exists e',
     fst r !! Examples.hash_aa = Some e' /\
     rate_inv limits e' /\
     (length (timestamps e') <= MAX_RATE_TIMESTAMPS)%nat /\
     timestamps e' = trim_timestamps (timestamps e ++ [1010])) /\
  (snd r = true <->
   1010 <= blocked_until e \/
   (1010 - last e < announce_rate_target limits /\
    rate_violations e = announce_rate_grace limits)).
Proof.
  apply (rate_check_step
           {[Examples.hash_aa :=
               {| last := 1000; rate_violations := 0; blocked_until := 0;
                  timestamps := [1000] |}]}
           NONE
           {| announce_rate_target := 3600; announce_rate_grace := 0;
              announce_rate_penalty := 60 |}
           Examples.hash_aa 1010).
  - simpl. lia.
  - simpl. lia.
  - discriminate.
  - apply lookup_singleton_eq.
  - simpl. lia.
Defined.

End AnnounceRateFacts.

(** ** Storage: what comes back after a restart *)

Module StorageFacts.
Import Transport Storage.

(** X23.  The packet hashlist across a save and a restart.  On a transport
    instance the file brings back the current generation as it was, and
    the previous generation is lost.  On an instance without transport
    the save itself empties the current generation, and the file holds
    nothing. *)
Theorem packet_hashlist_save_load (st : State) :
  is_connected_to_shared_instance st = false ->
  let saved := save_packet_hashlist st in
  let restarted :=
    load_packet_hashlist (Jobs.set_packet_hashlists st ∅ ∅) (snd saved) in
  packet_hashlist_prev restarted = ∅ /\
  if transport_enabled st
  then fst saved = st /\ packet_hashlist restarted = packet_hashlist st
  else packet_hashlist (fst saved) = ∅ /\ snd saved = Some [] /\
       packet_hashlist restarted = ∅.
Proof.
  intros Hs. unfold save_packet_hashlist, load_packet_hashlist. rewrite Hs.
  cbn [negb fst snd is_connected_to_shared_instance
       Jobs.set_packet_hashlists].
  rewrite Hs. cbn [negb]. split; [reflexivity|].
  destruct (transport_enabled st); cbn [negb].
  - split; [reflexivity|]. cbn [packet_hashlist set_packet_hashlist].
    apply list_to_set_elements_L.
  - cbn [packet_hashlist set_packet_hashlist]. rewrite elements_empty.
    repeat split.
Qed.

Lemma packet_hashlist_save_load_witness :
  let st := set_packet_hashlist Examples.node {[repeat 9 32]} in
  let saved := save_packet_hashlist st in
  let restarted :=
    load_packet_hashlist (Jobs.set_packet_hashlists st ∅ ∅) (snd saved) in
  packet_hashlist_prev restarted = ∅ /\
  if transport_enabled st
  then fst saved = st /\ packet_hashlist restarted = packet_hashlist st
  else packet_hashlist (fst saved) = ∅ /\ snd saved = Some [] /\
       packet_hashlist restarted = ∅.
Proof.
  apply (packet_hashlist_save_load
           (set_packet_hashlist Examples.node {[repeat 9 32]})).
  reflexivity.
Defined.

Section WithCache.

Variable RETICULUM_TRUNCATED_HASHLENGTH : nat.
Variable get_cached_packet : bytes -> option Packet.

Local Abbreviation load_path_entry :=
  (load_path_entry RETICULUM_TRUNCATED_HASHLENGTH get_cached_packet).
Local Abbreviation load_path_table :=
  (load_path_table RETICULUM_TRUNCATED_HASHLENGTH get_cached_packet).

(** What becomes of a path entry across a save and a restart. *)
Local Abbreviation reloaded st d e :=
  (if (length d =? RETICULUM_TRUNCATED_HASHLENGTH / 8)%nat then
     match get_cached_packet (PT_PACKET e),
           find_interface_from_hash st (get_hash (PT_RVCD_IF e)) with
     | Some announce_packet, Some receiving_interface =>
         Some {| PT_TIMESTAMP := PT_TIMESTAMP e;
                 PT_NEXT_HOP := PT_NEXT_HOP e;
                 PT_HOPS := PT_HOPS e;
                 PT_EXPIRES := PT_EXPIRES e;
                 PT_RANDBLOBS := PT_RANDBLOBS e;
                 PT_RVCD_IF := receiving_interface;
                 PT_PACKET := packet_hash announce_packet |}
     | _, _ => None
     end
   else None).

Lemma load_path_entry_frame (s : State) (se : SerialisedEntry) :
  interfaces (load_path_entry s se) = interfaces s /\
  transport_enabled (load_path_entry s se) = transport_enabled s.
Proof.
  unfold Storage.load_path_entry.
  destruct (_ =? _)%nat; [|auto].
  destruct (get_cached_packet _); [|auto].
  destruct (match se_interface_hash se with
            | Some h => find_interface_from_hash s h
            | None => None
            end); auto.
Qed.

Lemma load_saved_entries (st : State) (l : list (bytes * PathEntry)) :
  NoDup (map fst l) ->
  forall (s : State) (d : bytes),
    interfaces s = interfaces st ->
    path_table
      (fold_left load_path_entry
         (omap
            (fun kv : bytes * PathEntry =>
               let (destination_hash, de) := kv in
               let interface_hash := get_hash (PT_RVCD_IF de) in
               match find_interface_from_hash st interface_hash with
               | Some _ =>
                   Some {| se_destination_hash := destination_hash;
                           se_timestamp := PT_TIMESTAMP de;
                           se_received_from := PT_NEXT_HOP de;
                           se_hops := PT_HOPS de;
                           se_expires := PT_EXPIRES de;
                           se_random_blobs := PT_RANDBLOBS de;
                           se_interface_hash := Some interface_hash;
                           se_packet_hash := PT_PACKET de |}
               | None => None
               end) l) s) !! d =
    match (list_to_map l : gmap bytes PathEntry) !! d with
    | Some e =>
        match reloaded st d e with
        | Some e' => Some e'
        | None => path_table s !! d
        end
    | None => path_table s !! d
    end.
Proof.
  induction l as [|[d0 e0] l IH]; intros Hnd s d Hi.
  - cbn. rewrite lookup_empty. reflexivity.
  - cbn [map fst] in Hnd. apply NoDup_cons in Hnd as [Hd0 Hnd].
    cbn [omap list_omap list_to_map]. 
    fold (omap
            (fun kv : bytes * PathEntry =>
               let (destination_hash, de) := kv in
               let interface_hash := get_hash (PT_RVCD_IF de) in
               match find_interface_from_hash st interface_hash with
               | Some _ =>
                   Some {| se_destination_hash := destination_hash;
                           se_timestamp := PT_TIMESTAMP de;
                           se_received_from := PT_NEXT_HOP de;
                           se_hops := PT_HOPS de;
                           se_expires := PT_EXPIRES de;
                           se_random_blobs := PT_RANDBLOBS de;
                           se_interface_hash := Some interface_hash;
                           se_packet_hash := PT_PACKET de |}
               | None => None
               end) l).
    assert (Hrest : (list_to_map l : gmap bytes PathEntry) !! d0 = None).
    { apply not_elem_of_list_to_map_1. exact Hd0. }
    change (list_to_map ((d0, e0) :: l) : gmap bytes PathEntry)
      with (<[d0 := e0]> (list_to_map l : gmap bytes PathEntry)).
    assert (Hfind : forall h, find_interface_from_hash s h =
                              find_interface_from_hash st h).
    { intros h. unfold find_interface_from_hash. rewrite Hi. reflexivity. }
    destruct (find_interface_from_hash st (get_hash (PT_RVCD_IF e0)))
      as [i0|] eqn:Hf0.
    + cbn [fold_left].
      set (se0 := {| se_destination_hash := d0;
                     se_timestamp := PT_TIMESTAMP e0;
                     se_received_from := PT_NEXT_HOP e0;
                     se_hops := PT_HOPS e0;
                     se_expires := PT_EXPIRES e0;
                     se_random_blobs := PT_RANDBLOBS e0;
                     se_interface_hash := Some (get_hash (PT_RVCD_IF e0));
                     se_packet_hash := PT_PACKET e0 |}).
      assert (Hstep : forall d',
                 path_table (load_path_entry s se0) !! d' =
                 if decide (d' = d0) then
                   match reloaded st d0 e0 with
                   | Some e' => Some e'
                   | None => path_table s !! d0
                   end
                 else path_table s !! d').
      { intros d'. unfold Storage.load_path_entry.
        cbn [se0 se_destination_hash se_interface_hash se_packet_hash
             se_timestamp se_received_from se_hops se_expires
             se_random_blobs].
        rewrite Hfind, Hf0.
        destruct (length d0 =? RETICULUM_TRUNCATED_HASHLENGTH / 8)%nat.
        2:{ destruct (decide (d' = d0)) as [->|_]; reflexivity. }
        destruct (get_cached_packet (PT_PACKET e0)) as [p|].
        2:{ destruct (decide (d' = d0)) as [->|_]; reflexivity. }
        cbn [path_table set_path_table].
        destruct (decide (d' = d0)) as [->|Hne].
        - apply lookup_insert_eq.
        - apply lookup_insert_ne. congruence. }
      rewrite IH.
      2: exact Hnd.
      2:{ rewrite (proj1 (load_path_entry_frame _ _)). exact Hi. }
      rewrite Hstep.
      destruct (decide (d = d0)) as [->|Hne].
      * rewrite Hrest, lookup_insert_eq. reflexivity.
      * rewrite lookup_insert_ne by congruence. reflexivity.
    + rewrite IH by assumption.
      destruct (decide (d = d0)) as [->|Hne].
      * rewrite Hrest, lookup_insert_eq.
        destruct (length d0 =? RETICULUM_TRUNCATED_HASHLENGTH / 8)%nat;
          [|reflexivity].
        rewrite Hf0.
        destruct (get_cached_packet (PT_PACKET e0)); reflexivity.
      * rewrite lookup_insert_ne by congruence. reflexivity.
Qed.

(** X24.  The path table across a save and a restart of a transport instance
    that is not connected to a shared instance: a path comes back iff
    its destination hash has the length of a truncated hash, the hash of
    its interface is that of a registered interface and its announce is
    in the cache; it comes back with the first registered interface of
    that hash and with the hash of the cached announce, and is otherwise
    as it was.  Nothing else is in the table. *)
Theorem path_table_save_load (st : State) (d : bytes) :
  transport_enabled st = true ->
  is_connected_to_shared_instance st = false ->
  path_table
    (load_path_table (set_path_table st ∅) (save_path_table st)) !! d =
  match path_table st !! d with
  | Some e => reloaded st d e
  | None => None
  end.
Proof.
  intros Ht Hs. unfold Storage.load_path_table, save_path_table.
  cbn [transport_enabled is_connected_to_shared_instance set_path_table].
  rewrite Ht, Hs. cbn [negb].
  rewrite (load_saved_entries st (map_to_list (path_table st))
             (NoDup_fst_map_to_list _) (set_path_table st ∅) d eq_refl).
  rewrite list_to_map_to_list. cbn [path_table set_path_table].
  rewrite lookup_empty.
  destruct (path_table st !! d) as [e|]; [|reflexivity].
  destruct (reloaded st d e); reflexivity.
Qed.

Local Abbreviation load_tunnel_path :=
  (load_tunnel_path get_cached_packet).
Local Abbreviation load_tunnel := (load_tunnel get_cached_packet).
Local Abbreviation load_tunnel_table := (load_tunnel_table get_cached_packet).

Lemma remove_dups_length {A} `{EqDecision A} (l : list A) :
  (length (remove_dups l) <= length l)%nat.
Proof.
  induction l as [|x l IH]; [reflexivity|]. cbn [remove_dups length].
  destruct (decide_rel elem_of x l); cbn [length]; lia.
Qed.

Lemma load_tunnel_paths_bound (s : State) (n : nat)
    (l : list SerialisedEntry) :
  Forall (fun e => (length (se_random_blobs e) <= n)%nat) l ->
  forall (acc : gmap bytes TunnelPath * Z),
    (forall d p, fst acc !! d = Some p ->
       NoDup (TP_RANDBLOBS p) /\ (length (TP_RANDBLOBS p) <= n)%nat) ->
    forall d p,
      fst (fold_left (load_tunnel_path s) l acc) !! d = Some p ->
      NoDup (TP_RANDBLOBS p) /\ (length (TP_RANDBLOBS p) <= n)%nat.
Proof.
  induction 1 as [|se l Hse Hl IH]; intros acc Hacc; [exact Hacc|].
  cbn [fold_left]. apply IH. intros d p.
  unfold Storage.load_tunnel_path.
  destruct (get_cached_packet (se_packet_hash se)) as [pk|]; cbn [fst];
    [|apply Hacc].
  destruct (decide (d = se_destination_hash se)) as [->|Hne].
  - rewrite lookup_insert_eq. intros [= <-]. cbn [TP_RANDBLOBS]. split.
    + apply NoDup_remove_dups.
    + pose proof (remove_dups_length (se_random_blobs se)). lia.
  - rewrite lookup_insert_ne by congruence. apply Hacc.
Qed.

Lemma load_tunnel_bound (s : State) (t : SerialisedTunnel) (n : nat) :
  Forall (fun e => (length (se_random_blobs e) <= n)%nat) (st_paths t) ->
  (forall tid te, tunnels s !! tid = Some te ->
     TT_IF te = None /\
     forall d p, TT_PATHS te !! d = Some p ->
       NoDup (TP_RANDBLOBS p) /\ (length (TP_RANDBLOBS p) <= n)%nat) ->
  forall tid te, tunnels (load_tunnel s t) !! tid = Some te ->
    TT_IF te = None /\
    forall d p, TT_PATHS te !! d = Some p ->
      NoDup (TP_RANDBLOBS p) /\ (length (TP_RANDBLOBS p) <= n)%nat.
Proof.
  intros Hb Hs tid te. unfold Storage.load_tunnel.
  pose proof (load_tunnel_paths_bound s n (st_paths t) Hb (∅, st_expires t))
    as Hp.
  destruct (fold_left (load_tunnel_path s) (st_paths t) (∅, st_expires t))
    as [tunnel_paths expires] eqn:Hfold.
  cbn [fst] in Hp.
  destruct (0 <? size tunnel_paths)%nat; [|apply Hs].
  cbn [tunnels set_tunnels].
  destruct (decide (tid = st_tunnel_id t)) as [->|Hne].
  - rewrite lookup_insert_eq. intros [= <-]. cbn [TT_IF TT_PATHS].
    split; [reflexivity|]. apply Hp.
    intros d p Hd. rewrite lookup_empty in Hd. discriminate.
  - rewrite lookup_insert_ne by congruence. apply Hs.
Qed.

Lemma load_tunnels_bound (n : nat) (l : list SerialisedTunnel) :
  Forall (fun t =>
            Forall (fun e => (length (se_random_blobs e) <= n)%nat)
                   (st_paths t)) l ->
  forall s,
    (forall tid te, tunnels s !! tid = Some te ->
       TT_IF te = None /\
       forall d p, TT_PATHS te !! d = Some p ->
         NoDup (TP_RANDBLOBS p) /\ (length (TP_RANDBLOBS p) <= n)%nat) ->
    forall tid te, tunnels (fold_left load_tunnel l s) !! tid = Some te ->
      TT_IF te = None /\
      forall d p, TT_PATHS te !! d = Some p ->
        NoDup (TP_RANDBLOBS p) /\ (length (TP_RANDBLOBS p) <= n)%nat.
Proof.
  induction 1 as [|t l Ht Hl IH]; intros s Hs; [exact Hs|].
  cbn [fold_left]. apply IH. apply load_tunnel_bound; assumption.
Qed.

(** X25.  The tunnels across a save and a restart: every tunnel that is read
    back has no interface (until it reappears), and each of its paths
    holds distinct random blobs, at most [PERSIST_RANDOM_BLOBS] of
    them. *)
Theorem tunnel_table_save_load (st : State) (tid : bytes) (te : TunnelEntry)
    (d : bytes) (p : TunnelPath) :
  tunnels (load_tunnel_table (set_tunnels st ∅) (save_tunnel_table st)) !!
    tid = Some te ->
  TT_PATHS te !! d = Some p ->
  TT_IF te = None /\
  NoDup (TP_RANDBLOBS p) /\
  (length (TP_RANDBLOBS p) <= PERSIST_RANDOM_BLOBS)%nat.
Proof.
  unfold Storage.load_tunnel_table.
  cbn [transport_enabled is_connected_to_shared_instance set_tunnels].
  destruct (transport_enabled st).
  2:{ intros H. cbn [tunnels set_tunnels] in H. rewrite lookup_empty in H.
      discriminate. }
  destruct (save_tunnel_table st) as [out|] eqn:Hsave.
  2:{ intros H. cbn [tunnels set_tunnels] in H. rewrite lookup_empty in H.
      discriminate. }
  destruct (negb (is_connected_to_shared_instance st)).
  2:{ intros H. cbn [tunnels set_tunnels] in H. rewrite lookup_empty in H.
      discriminate. }
  intros Hte Hp.
  assert (Hall : Forall (fun t =>
                   Forall (fun e => (length (se_random_blobs e) <=
                                     PERSIST_RANDOM_BLOBS)%nat)
                          (st_paths t)) out).
  { apply Forall_forall. intros t Ht. apply Forall_forall. intros e He.
    apply (BlobFacts.save_tunnel_table_bound st out t e Hsave Ht He). }
  destruct (load_tunnels_bound PERSIST_RANDOM_BLOBS out Hall
              (set_tunnels st ∅)
              ltac:(intros ? ? H; cbn [tunnels set_tunnels] in H;
                    rewrite lookup_empty in H; discriminate)
              tid te Hte) as [Hif Hpaths].
  split; [exact Hif|]. apply (Hpaths d p Hp).
Qed.

End WithCache.

(** The example path, saved and read back with every announce cached. *)
Lemma path_table_save_load_witness :
  path_table
    (load_path_table 128 Scenarios.demo_get_cached_packet
       (set_path_table (Examples.node_with_path 3 []) ∅)
       (save_path_table (Examples.node_with_path 3 []))) !! Examples.hash_aa =
  Some (Examples.path_entry 3 []).
Proof.
  apply (path_table_save_load 128 Scenarios.demo_get_cached_packet
           (Examples.node_with_path 3 []) Examples.hash_aa);
    reflexivity.
Defined.

(** The example tunnel, whose path has forty blobs with one of them
    twice, saved and read back. *)
Lemma tunnel_table_save_load_witness :
  exists te p,
    tunnels
      (load_tunnel_table Scenarios.demo_get_cached_packet
         (set_tunnels Scenarios.node_with_tunnel ∅)
         (save_tunnel_table Scenarios.node_with_tunnel)) !! repeat 14 32 =
      Some te /\
    TT_PATHS te !! Examples.hash_aa = Some p /\
    TT_IF te = None /\
    NoDup (TP_RANDBLOBS p) /\
    (length (TP_RANDBLOBS p) <= PERSIST_RANDOM_BLOBS)%nat.
Proof.
  eexists. eexists.
  split; [vm_compute; reflexivity|].
  split; [vm_compute; reflexivity|].
  apply (tunnel_table_save_load Scenarios.demo_get_cached_packet
           Scenarios.node_with_tunnel (repeat 14 32) _ Examples.hash_aa);
    vm_compute; reflexivity.
Defined.

End StorageFacts.

(** ** Interface access codes: what the IFAC stage lets through *)

Module AccessCodeFacts.
Import IFAC.

Section WithHkdf.

Variable hkdf : nat -> bytes -> bytes -> bytes.

Lemma unmask_incoming_length (size : nat) (mask : bytes) (raw : bytes) :
  forall i unmasked,
    unmask_incoming size mask i raw = Some unmasked ->
    length unmasked = length raw.
Proof.
  induction raw as [|byte rest IH]; intros i unmasked H.
  - injection H as <-. reflexivity.
  - cbn [unmask_incoming] in H.
    destruct (if (i <=? 1)%nat || (size + 1 <? i)%nat
              then mask !! i ≫= λ m : Z, to_byte (Z.lxor byte m)
              else to_byte byte) as [b|]; [|discriminate].
    cbn [mbind option_bind] in H.
    destruct (unmask_incoming size mask (S i) rest) as [r|] eqn:Hr;
      [|discriminate].
    injection H as <-. cbn [length]. f_equal. exact (IH _ _ Hr).
Qed.

Lemma flag_cleared (u : Z) : Z.land (Z.land u 127) 128 <> 128.
Proof.
  rewrite <- Z.land_assoc. change (Z.land 127 128) with 0.
  rewrite Z.land_0_r. discriminate.
Qed.

Lemma transmit_sets_flag (c : ifac_config) (raw wire : bytes) :
  transmit hkdf (Some c) raw = Some wire ->
  exists w0 rest, wire = w0 :: rest /\ Z.land w0 128 = 128.
Proof.
  unfold transmit. intros H.
  destruct (raw !! 0%nat) as [b0|]; [|discriminate].
  destruct (raw !! 1%nat) as [b1|]; [|discriminate].
  cbn [mbind option_bind] in H.
  destruct (to_byte (Z.lor b0 128)) as [h0|]; [|discriminate].
  cbn [mbind option_bind] in H.
  destruct (to_byte b1) as [h1|]; [|discriminate].
  cbn [mbind option_bind app mask_outgoing Nat.eqb] in H.
  destruct (hkdf _ _ _ !! 0%nat) as [m|]; [|discriminate].
  cbn [mbind option_bind] in H.
  destruct (to_byte (Z.lor (Z.lxor h0 m) 128)) as [w0|] eqn:Hw0;
    [|discriminate].
  cbn [mbind option_bind] in H.
  match type of H with
  | ?x ≫= _ = _ => destruct x as [r|]; [|discriminate]
  end.
  injection H as <-. exists w0, r. split; [reflexivity|].
  apply BytesFacts.to_byte_inv in Hw0 as [-> _]. apply BytesFacts.flag_set.
Qed.

(** X26.  Interfaces with and without an access code do not hear each other.
    Whatever [transmit] sends for an interface with an access code is
    dropped by [inbound] on an interface without one, and a frame sent
    without an access code, whose first byte has the IFAC flag clear, is
    dropped on every interface with one. *)
Theorem ifac_frames_kept_apart (c : ifac_config) (raw wire : bytes) :
  (transmit hkdf (Some c) raw = Some wire ->
   inbound_ifac hkdf None wire = Dropped) /\
  (transmit hkdf None raw = Some wire ->
   (forall b0, raw !! 0%nat = Some b0 -> Z.land b0 128 <> 128) ->
   inbound_ifac hkdf (Some c) wire = Dropped).
Proof.
  split.
  - intros H. apply transmit_sets_flag in H as (w0 & rest & -> & Hf).
    unfold inbound_ifac. destruct (2 <? length (w0 :: rest))%nat;
      [|reflexivity].
    cbn [lookup list_lookup]. rewrite Hf. reflexivity.
  - intros H Hclear. injection H as <-. unfold inbound_ifac.
    destruct (2 <? length raw)%nat eqn:Hlen; [|reflexivity].
    destruct (raw !! 0%nat) as [b0|] eqn:Hb0.
    + specialize (Hclear b0 eq_refl).
      apply Z.eqb_neq in Hclear. rewrite Hclear. reflexivity.
    + destruct raw; discriminate.
Qed.

(** X27.  What the IFAC stage of [inbound] hands on is longer than two bytes
    on the wire and has the IFAC flag clear.  On an interface without
    an access code it is the frame as received.  On an interface with
    one, the frame carried, after its two header bytes, the tail of the
    interface identity's signature over the very packet that is handed
    on, and that packet is the frame without the access code: nothing
    else gets through. *)
Theorem ifac_accepts_only_signed (cfg : option ifac_config)
    (wire new_raw : bytes) :
  inbound_ifac hkdf cfg wire = Accepted new_raw ->
  (2 < length wire)%nat /\
  (exists h0, new_raw !! 0%nat = Some h0 /\ Z.land h0 128 <> 128) /\
  match cfg with
  | None => new_raw = wire
  | Some c =>
      slice 2 (2 + ifac_size c) wire =
        last_n (ifac_size c) (ifac_sign c new_raw) /\
      (length new_raw + ifac_size c = length wire)%nat
  end.
Proof.
  unfold inbound_ifac. intros H.
  destruct (2 <? length wire)%nat eqn:Hlen; [|discriminate].
  apply Nat.ltb_lt in Hlen. split; [exact Hlen|].
  destruct (wire !! 0%nat) as [r0|] eqn:Hr0.
  2:{ destruct cfg; discriminate. }
  destruct cfg as [c|].
  - destruct (Z.land r0 128 =? 128); [|discriminate].
    destruct (2 + ifac_size c <? length wire)%nat eqn:Hlen2; [|discriminate].
    apply Nat.ltb_lt in Hlen2.
    destruct (unmask_incoming _ _ _ _) as [unmasked|] eqn:Hu; [|discriminate].
    apply unmask_incoming_length in Hu.
    destruct (unmasked !! 0%nat) as [u0|]; [|discriminate].
    destruct (unmasked !! 1%nat) as [u1|]; [|discriminate].
    destruct (to_byte (Z.land u0 127)) as [h0|] eqn:Hh0; [|discriminate].
    destruct (to_byte u1) as [h1|]; [|discriminate].
    destruct (bytes_eqb _ _) eqn:Heq; [|discriminate].
    injection H as <-. apply bool_decide_eq_true_1 in Heq.
    apply BytesFacts.to_byte_inv in Hh0 as [-> _].
    split; [|split].
    + eexists. split; [reflexivity|]. apply flag_cleared.
    + exact Heq.
    + cbn [app length]. rewrite length_drop. lia.
  - destruct (Z.land r0 128 =? 128) eqn:Hf; [discriminate|].
    injection H as <-. split; [|reflexivity].
    exists r0. split; [exact Hr0|]. apply Z.eqb_neq. exact Hf.
Qed.

End WithHkdf.

(** The example frame of the round trip, as it arrives. *)
Lemma ifac_accepts_only_signed_witness :
  let wire := [182; 56; 162; 163; 164; 165; 166; 167; 168; 169; 214; 56] in
  (2 < length wire)%nat /\
  (exists h0, [0; 5; 170; 187] !! 0%nat = Some h0 /\ Z.land h0 128 <> 128) /\
  slice 2 (2 + ifac_size demo_ifac) wire =
    last_n (ifac_size demo_ifac) (ifac_sign demo_ifac [0; 5; 170; 187]) /\
  (length [0; 5; 170; 187] + ifac_size demo_ifac = length wire)%nat.
Proof.
  apply (ifac_accepts_only_signed demo_hkdf (Some demo_ifac)
           [182; 56; 162; 163; 164; 165; 166; 167; 168; 169; 214; 56]
           [0; 5; 170; 187]).
  vm_compute. reflexivity.
Defined.

End AccessCodeFacts.

(** ** Outbound: the broadcast branch *)

Module BroadcastFacts.
Import Transport Paths Broadcast.

Section WithInterfaces.

Variable OUT : Interface -> bool.
Variable announce_cap_permits : Interface -> Packet -> bool.

Local Abbreviation should_transmit :=
  (should_transmit announce_cap_permits).
Local Abbreviation broadcast_from := (broadcast_from OUT announce_cap_permits).
Local Abbreviation outbound_broadcast :=
  (outbound_broadcast OUT announce_cap_permits).
Local Abbreviation outbound := (outbound OUT announce_cap_permits).

Lemma should_transmit_add_packet_hash (st : State) (h : bytes)
    (packet : Packet) (a : option Interface) (link : LinkDestination)
    (i : Interface) :
  should_transmit (add_packet_hash st h) packet a link i =
  should_transmit st packet a link i.
Proof.
  unfold add_packet_hash.
  destruct (negb (is_connected_to_shared_instance st)); reflexivity.
Qed.

(** What the loop has sent, also when an exception ends it early. *)
Lemma broadcast_from_sound (packet : Packet) (a : option Interface)
    (link : LinkDestination) (ifs : list Interface) :
  forall st stored i frame,
    (i, frame) ∈ out_tx (broadcast_from st packet a link stored ifs) ->
    i ∈ ifs /\ OUT i = true /\
    should_transmit st packet a link i = Some true /\ frame = raw packet.
Proof.
  induction ifs as [|i0 ifs IH]; intros st stored i frame Hin.
  - apply elem_of_nil in Hin. contradiction.
  - cbn [Broadcast.broadcast_from] in Hin.
    destruct (OUT i0) eqn:Hout.
    + destruct (should_transmit st packet a link i0) as [[|]|] eqn:Hst.
      * cbn [out_tx] in Hin. apply elem_of_cons in Hin as [Heq|Hin].
        -- injection Heq as -> ->. repeat split; [left | assumption..].
        -- apply IH in Hin as (H1 & H2 & H3 & H4).
           split; [right; exact H1|]. split; [exact H2|].
           split; [|exact H4].
           destruct (negb stored); [|exact H3].
           rewrite should_transmit_add_packet_hash in H3. exact H3.
      * apply IH in Hin as (H1 & H2 & H3 & H4).
        split; [right; exact H1|]. auto.
      * apply elem_of_nil in Hin. contradiction.
    + apply IH in Hin as (H1 & H2 & H3 & H4).
      split; [right; exact H1|]. auto.
Qed.

(** The loop when no interface raises: the interfaces that are sent on,
    in order, and the state. *)
Lemma broadcast_from_complete (packet : Packet) (a : option Interface)
    (link : LinkDestination) (ifs : list Interface) :
  forall st stored,
    (forall i, i ∈ ifs -> OUT i = true ->
               is_Some (should_transmit st packet a link i)) ->
    let o := broadcast_from st packet a link stored ifs in
    let chosen :=
      filter (fun i => OUT i = true /\
                       should_transmit st packet a link i = Some true) ifs in
    out_status o = Completed /\
    out_tx o = map (fun i => (i, raw packet)) chosen /\
    out_state o =
      if stored then st
      else if chosen is [] then st
      else add_packet_hash st (packet_hash packet).
Proof.
  induction ifs as [|i0 ifs IH]; intros st stored Hsome.
  - cbn. destruct stored; auto.
  - assert (Hrest : forall st',
               (forall i, should_transmit st' packet a link i =
                          should_transmit st packet a link i) ->
               forall i, i ∈ ifs -> OUT i = true ->
                         is_Some (should_transmit st' packet a link i)).
    { intros st' E i Hi Ho. rewrite E.
      apply Hsome; [right; exact Hi|exact Ho]. }
    cbn [Broadcast.broadcast_from]. cbv zeta.
    destruct (OUT i0) eqn:Hout.
    + destruct (Hsome i0 ltac:(left) Hout) as [b Hb]. rewrite Hb.
      destruct b.
      * rewrite filter_cons_True by auto. cbn [out_status out_tx out_state].
        set (st1 := if negb stored then _ else st).
        assert (E : forall i, should_transmit st1 packet a link i =
                              should_transmit st packet a link i).
        { intros i. unfold st1. destruct (negb stored); [|reflexivity].
          apply should_transmit_add_packet_hash. }
        destruct (IH st1 true (Hrest st1 E)) as (H1 & H2 & H3).
        split; [exact H1|]. split.
        -- rewrite H2. cbn [map]. f_equal. f_equal.
           apply list_filter_iff. intros i. rewrite E. reflexivity.
        -- rewrite H3. unfold st1. destruct stored; reflexivity.
      * rewrite filter_cons_False by (intros [_ H]; congruence).
        apply IH. apply Hrest. reflexivity.
    + rewrite filter_cons_False by (intros [H _]; congruence).
      apply IH. apply Hrest. reflexivity.
Qed.

Lemma known_path_not_taken (st : State) (packet : Packet) (now : Z)
    (d : Destination) :
  destination packet = Some d ->
  packet_type packet = ANNOUNCE \/ d_type d = PLAIN \/ d_type d = GROUP \/
  path_table st !! destination_hash packet = None ->
  outbound_known_path st packet now = None.
Proof.
  intros Hd Hc. unfold outbound_known_path. rewrite Hd.
  destruct Hc as [Ha|[Hp|[Hg|Hn]]].
  - rewrite (bool_decide_eq_true_2 _ Ha). reflexivity.
  - rewrite (bool_decide_eq_true_2 _ Hp).
    destruct (negb (bool_decide _)); reflexivity.
  - rewrite (bool_decide_eq_true_2 (d_type d = GROUP)) by exact Hg.
    rewrite andb_false_r. destruct (negb (bool_decide _)); reflexivity.
  - rewrite Hn. destruct (negb _); [|reflexivity].
    destruct (_ && _); reflexivity.
Qed.

(** What [should_transmit] decides for an announce that is not bound to
    an interface. *)
Local Abbreviation mode_permits st packet i :=
  (match mode i with
   | None => False
   | Some MODE_ACCESS_POINT => False
   | Some MODE_ROAMING =>
       is_local_destination st (destination_hash packet) = true \/
       exists f m,
         next_hop_interface st (destination_hash packet) = Some f /\
         mode f = Some m /\ m <> MODE_ROAMING /\ m <> MODE_BOUNDARY
   | Some MODE_BOUNDARY =>
       is_local_destination st (destination_hash packet) = true \/
       exists f m,
         next_hop_interface st (destination_hash packet) = Some f /\
         mode f = Some m /\ m <> MODE_ROAMING
   | Some _ => hops packet <= 0 \/ announce_cap_permits i packet = true
   end).

Lemma roaming_allows_iff (st : State) (packet : Packet) :
  roaming_allows st packet = true <->
  is_local_destination st (destination_hash packet) = true \/
  exists f m,
    next_hop_interface st (destination_hash packet) = Some f /\
    mode f = Some m /\ m <> MODE_ROAMING /\ m <> MODE_BOUNDARY.
Proof.
  unfold roaming_allows.
  destruct (is_local_destination st (destination_hash packet));
    [split; auto|].
  destruct (next_hop_interface st (destination_hash packet)) as [f|].
  2:{ split; [discriminate|]. intros [H|(f & m & H & _)]; discriminate. }
  destruct (mode f) as [m|] eqn:Hm.
  2:{ split; [discriminate|].
      intros [H|(f' & m & H & Hm' & _)]; [discriminate|].
      injection H as <-. congruence. }
  destruct (decide (m = MODE_ROAMING)) as [->|Hr].
  { cbn. split; [discriminate|].
    intros [H|(f' & m & H & Hm' & Hn & _)]; [discriminate|].
    injection H as <-. congruence. }
  rewrite (bool_decide_eq_false_2 _ Hr).
  destruct (decide (m = MODE_BOUNDARY)) as [->|Hb].
  { cbn. split; [discriminate|].
    intros [H|(f' & m & H & Hm' & _ & Hn)]; [discriminate|].
    injection H as <-. congruence. }
  rewrite (bool_decide_eq_false_2 _ Hb).
  split; [|reflexivity]. intros _. right. exists f, m. auto.
Qed.

Lemma boundary_allows_iff (st : State) (packet : Packet) :
  boundary_allows st packet = true <->
  is_local_destination st (destination_hash packet) = true \/
  exists f m,
    next_hop_interface st (destination_hash packet) = Some f /\
    mode f = Some m /\ m <> MODE_ROAMING.
Proof.
  unfold boundary_allows.
  destruct (is_local_destination st (destination_hash packet));
    [split; auto|].
  destruct (next_hop_interface st (destination_hash packet)) as [f|].
  2:{ split; [discriminate|]. intros [H|(f & m & H & _)]; discriminate. }
  destruct (mode f) as [m|] eqn:Hm.
  2:{ split; [discriminate|].
      intros [H|(f' & m & H & Hm' & _)]; [discriminate|].
      injection H as <-. congruence. }
  destruct (decide (m = MODE_ROAMING)) as [->|Hr].
  { cbn. split; [discriminate|].
    intros [H|(f' & m & H & Hm' & Hn)]; [discriminate|].
    injection H as <-. congruence. }
  rewrite (bool_decide_eq_false_2 _ Hr).
  split; [|reflexivity]. intros _. right. exists f, m. auto.
Qed.

Lemma should_transmit_announce (st : State) (packet : Packet)
    (link : LinkDestination) (d : Destination) (i : Interface) :
  packet_type packet = ANNOUNCE ->
  destination packet = Some d ->
  d_type d <> LINK ->
  (is_Some (should_transmit st packet None link i) <-> is_Some (mode i)) /\
  (should_transmit st packet None link i = Some true <->
   mode_permits st packet i).
Proof.
  intros Ha Hd Hl. unfold Broadcast.should_transmit.
  rewrite Hd, (bool_decide_eq_false_2 _ Hl), (bool_decide_eq_true_2 _ Ha).
  pose proof (roaming_allows_iff st packet) as Hr.
  pose proof (boundary_allows_iff st packet) as Hb.
  destruct (mode i) as [m|].
  2:{ split; [split; intros [? H]; discriminate|].
      split; [discriminate|contradiction]. }
  split.
  { split; [eauto|]. intros _.
    destruct m; try destruct (0 <? hops packet); eauto. }
  destruct m.
  all: try (destruct (0 <? hops packet) eqn:Hh;
            [apply Z.ltb_lt in Hh | apply Z.ltb_ge in Hh];
            [destruct (announce_cap_permits i packet);
             split; [auto | intros [H|H]; [lia|auto] | discriminate |
                     intros [H|H]; [lia|discriminate]]
            | split; auto]).
  - split; [discriminate|contradiction].
  - rewrite <- Hr. destruct (roaming_allows st packet);
      split; congruence.
  - rewrite <- Hb. destruct (boundary_allows st packet);
      split; congruence.
Qed.

(** X28.  Where a locally sent or rebroadcast announce goes, when it is not
    bound to an interface: to the interfaces that may send, by their
    mode.  An access-point interface never carries it.  A roaming-mode
    interface carries it when the destination is registered on this
    instance or the path to it leads over an interface whose mode is
    neither roaming nor boundary; a boundary-mode interface when the
    destination is local or the path leads over an interface whose mode
    is not roaming.  Every other interface carries it when it was made
    here (no hops) or the announce cap of the interface permits.  Each
    such interface gets the raw packet unchanged. *)
Theorem announce_broadcast_by_mode (st : State) (packet : Packet)
    (link : LinkDestination) (now : Z) (d : Destination)
    (i : Interface) (frame : bytes) :
  packet_type packet = ANNOUNCE ->
  destination packet = Some d ->
  d_type d <> LINK ->
  (forall i', i' ∈ interfaces st -> OUT i' = true -> is_Some (mode i')) ->
  (i, frame) ∈ out_tx (fst (outbound st packet None link now)) <->
  i ∈ interfaces st /\ OUT i = true /\ frame = raw packet /\
  mode_permits st packet i.
Proof.
  intros Ha Hd Hl Hmodes. unfold Broadcast.outbound.
  rewrite (known_path_not_taken st packet now d Hd (or_introl Ha)).
  unfold Broadcast.outbound_broadcast. cbn [fst].
  destruct (broadcast_from_complete packet None link (interfaces st) st false)
    as (_ & Htx & _).
  { intros i' Hi' Ho.
    apply (should_transmit_announce st packet link d i' Ha Hd Hl).
    apply Hmodes; assumption. }
  rewrite Htx, list_elem_of_fmap. split.
  - intros (i' & Heq & Hin). injection Heq as -> ->.
    apply list_elem_of_filter in Hin as [[Ho Hs] Hin].
    apply (should_transmit_announce st packet link d i' Ha Hd Hl) in Hs.
    auto.
  - intros (Hin & Ho & -> & Hp). exists i. split; [reflexivity|].
    apply list_elem_of_filter. split; [|exact Hin]. split; [exact Ho|].
    apply (should_transmit_announce st packet link d i Ha Hd Hl). exact Hp.
Qed.

Lemma should_transmit_plain (st : State) (packet : Packet)
    (link : LinkDestination) (d : Destination) (i : Interface) :
  packet_type packet <> ANNOUNCE ->
  destination packet = Some d ->
  d_type d <> LINK ->
  should_transmit st packet None link i = Some true.
Proof.
  intros Ha Hd Hl. unfold Broadcast.should_transmit.
  rewrite Hd, (bool_decide_eq_false_2 _ Hl), (bool_decide_eq_false_2 _ Ha).
  reflexivity.
Qed.

(** X29.  A packet that is not an announce, is not for a link and is not
    bound to an interface, for a destination without a known path (or a
    PLAIN or GROUP destination): it goes out unchanged on every
    interface that may send, in the order of the interface list, once
    for each time the interface is listed.  It counts as sent iff there
    is such an interface, and then its hash is remembered, so that the
    filter drops the packet when the network brings it back. *)
Theorem broadcast_without_known_path (st : State) (packet : Packet)
    (link : LinkDestination) (now : Z) (d : Destination) :
  packet_type packet <> ANNOUNCE ->
  destination packet = Some d ->
  d_type d <> LINK ->
  d_type d = PLAIN \/ d_type d = GROUP \/
  path_table st !! destination_hash packet = None ->
  let r := outbound st packet None link now in
  let outs := filter (fun i => OUT i = true) (interfaces st) in
  out_status (fst r) = Completed /\
  out_tx (fst r) = map (fun i => (i, raw packet)) outs /\
  snd r = (if outs is [] then false else true) /\
  out_state (fst r) =
    (if outs is [] then st else add_packet_hash st (packet_hash packet)) /\
  forall echo,
    outs <> [] ->
    packet_hash echo = packet_hash packet ->
    packet_type echo <> ANNOUNCE ->
    reaches_final_test st echo ->
    packet_filter (out_state (fst r)) echo = false.
Proof.
  intros Ha Hd Hl Hc r outs. unfold r, Broadcast.outbound.
  rewrite (known_path_not_taken st packet now d Hd (or_intror Hc)).
  unfold Broadcast.outbound_broadcast. cbn [fst snd].
  destruct (broadcast_from_complete packet None link (interfaces st) st false)
    as (Hstat & Htx & Hstate).
  { intros i' _ _. rewrite (should_transmit_plain st packet link d i' Ha Hd Hl).
    eauto. }
  assert (Hf : filter (fun i => OUT i = true /\
                                should_transmit st packet None link i =
                                Some true) (interfaces st) = outs).
  { unfold outs. apply list_filter_iff. intros i.
    rewrite (should_transmit_plain st packet link d i Ha Hd Hl). tauto. }
  rewrite Hf in Htx, Hstate. rewrite Hstat, Htx, Hstate.
  split; [reflexivity|]. split; [reflexivity|]. split.
  { destruct outs; reflexivity. }
  split; [reflexivity|].
  intros echo Hne Hh Hna Hreach. destruct outs as [|i0 outs']; [congruence|].
  assert (Hs : is_connected_to_shared_instance st = false)
    by (destruct Hreach as [Hs _]; exact Hs).
  rewrite FilterFacts.final_test.
  2:{ unfold add_packet_hash. rewrite Hs. exact Hreach. }
  rewrite (bool_decide_eq_true_2 (packet_hash echo ∈ _)).
  2:{ rewrite Hh. apply FilterFacts.add_packet_hash_standalone. exact Hs. }
  rewrite (bool_decide_eq_false_2 _ Hna). reflexivity.
Qed.

(** X30.  A packet that is bound to an interface, or is for a link, and does
    not go over a known path, is never sent on another interface than
    the one it is bound to or the one of its link, and is not sent at
    all when its link is closed.  This holds for whatever was sent, also
    when the loop over the interfaces ends in an exception. *)
Theorem broadcast_respects_attachment (st : State) (packet : Packet)
    (a : option Interface) (link : LinkDestination) (now : Z)
    (d : Destination) (i : Interface) (frame : bytes) :
  destination packet = Some d ->
  packet_type packet = ANNOUNCE \/ d_type d = PLAIN \/ d_type d = GROUP \/
  path_table st !! destination_hash packet = None ->
  (i, frame) ∈ out_tx (fst (outbound st packet a link now)) ->
  (forall a', a = Some a' -> i = a') /\
  (d_type d = LINK ->
   ld_closed link = false /\ ld_attached_interface link = Some i).
Proof.
  intros Hd Hc Hin. unfold Broadcast.outbound in Hin.
  rewrite (known_path_not_taken st packet now d Hd Hc) in Hin.
  unfold Broadcast.outbound_broadcast in Hin. cbn [fst] in Hin.
  apply broadcast_from_sound in Hin as (_ & _ & Hs & _).
  unfold Broadcast.should_transmit in Hs. rewrite Hd in Hs.
  set (for_link := if bool_decide (d_type d = LINK) then _ else true) in Hs.
  set (for_attached :=
         match a with
         | Some a0 => if negb (bool_decide (i = a0)) then false else for_link
         | None => for_link
         end) in Hs.
  assert (Hfa : for_attached = true).
  { destruct (bool_decide (packet_type packet = ANNOUNCE));
      [|injection Hs as ->; reflexivity].
    destruct a as [a'|]; [injection Hs as ->; reflexivity|].
    destruct (mode i) as [[]|]; try discriminate;
      repeat match type of Hs with
             | context [if ?c then _ else _] => destruct c
             end; try discriminate; injection Hs as ->; reflexivity. }
  assert (Hfl : for_link = true).
  { subst for_attached. destruct a as [a'|]; [|exact Hfa].
    destruct (negb (bool_decide (i = a'))); [discriminate|exact Hfa]. }
  split.
  - intros a' ->. subst for_attached.
    destruct (decide (i = a')) as [->|Hne]; [reflexivity|].
    rewrite (bool_decide_eq_false_2 _ Hne) in Hfa. discriminate.
  - intros Hl. subst for_link. rewrite (bool_decide_eq_true_2 _ Hl) in Hfl.
    destruct (ld_closed link); [discriminate|]. split; [reflexivity|].
    destruct (decide (Some i = ld_attached_interface link)) as [E|E];
      [symmetry; exact E|].
    rewrite (bool_decide_eq_false_2 _ E) in Hfl. discriminate.
Qed.

End WithInterfaces.

(** The announce of a local destination on the roaming-mode interface
    of the example node. *)
Lemma announce_broadcast_by_mode_witness :
  (Scenarios.IF_ROAM, raw Scenarios.local_announce) ∈
    out_tx (fst (outbound Scenarios.all_out Scenarios.no_cap
                   Scenarios.mixed_node Scenarios.local_announce None
                   Scenarios.no_link 0)) <->
  Scenarios.IF_ROAM ∈ interfaces Scenarios.mixed_node /\
  Scenarios.all_out Scenarios.IF_ROAM = true /\
  raw Scenarios.local_announce = raw Scenarios.local_announce /\
  (is_local_destination Scenarios.mixed_node
     (destination_hash Scenarios.local_announce) = true \/
   exists f m,
     next_hop_interface Scenarios.mixed_node
       (destination_hash Scenarios.local_announce) = Some f /\
     mode f = Some m /\ m <> MODE_ROAMING /\ m <> MODE_BOUNDARY).
Proof.
  apply (announce_broadcast_by_mode Scenarios.all_out Scenarios.no_cap
           Scenarios.mixed_node Scenarios.local_announce Scenarios.no_link 0
           {| d_hash := Examples.hash_cc; d_type := SINGLE |}
           Scenarios.IF_ROAM (raw Scenarios.local_announce)).
  - reflexivity.
  - reflexivity.
  - discriminate.
  - intros i' Hi' _. cbn [interfaces Scenarios.mixed_node] in Hi'.
    repeat (apply elem_of_cons in Hi' as [->|Hi']; [cbn; eauto|]).
    apply elem_of_nil in Hi'. contradiction.
Defined.

(** The example data packet, sent from the example node, which has no
    path to its destination. *)
Lemma broadcast_without_known_path_witness :
  let r := outbound Scenarios.all_out Scenarios.no_cap Examples.node
             Examples.data_packet None Scenarios.no_link 0 in
  let outs :=
    filter (fun i => Scenarios.all_out i = true)
      (interfaces Examples.node) in
  out_status (fst r) = Completed /\
  out_tx (fst r) = map (fun i => (i, raw Examples.data_packet)) outs /\
  snd r = (if outs is [] then false else true) /\
  out_state (fst r) =
    (if outs is [] then Examples.node
     else add_packet_hash Examples.node (packet_hash Examples.data_packet)) /\
  forall echo,
    outs <> [] ->
    packet_hash echo = packet_hash Examples.data_packet ->
    packet_type echo <> ANNOUNCE ->
    reaches_final_test Examples.node echo ->
    packet_filter (out_state (fst r)) echo = false.
Proof.
  apply (broadcast_without_known_path Scenarios.all_out Scenarios.no_cap
           Examples.node Examples.data_packet Scenarios.no_link 0
           {| d_hash := Examples.hash_aa; d_type := SINGLE |}).
  - discriminate.
  - reflexivity.
  - discriminate.
  - right. right. reflexivity.
Defined.

(** The example data packet, bound to [IF2]. *)
Lemma broadcast_respects_attachment_witness :
  (forall a', Some Examples.IF2 = Some a' -> Examples.IF2 = a') /\
  (d_type {| d_hash := Examples.hash_aa; d_type := SINGLE |} = LINK ->
   ld_closed Scenarios.no_link = false /\
   ld_attached_interface Scenarios.no_link = Some Examples.IF2).
Proof.
  apply (broadcast_respects_attachment Scenarios.all_out Scenarios.no_cap
           Examples.node Examples.data_packet (Some Examples.IF2)
           Scenarios.no_link 0
           {| d_hash := Examples.hash_aa; d_type := SINGLE |}
           Examples.IF2 (raw Examples.data_packet)).
  - reflexivity.
  - right. right. right. reflexivity.
  - apply (bool_decide_unpack _). vm_compute. exact I.
Defined.

End BroadcastFacts.
